(** * KR_modeling: the Boltz batch pipeline

    A shallow embedding of the three scripts under
    [kr_structure_prediction_test/boltz_2_code]:

    - [write_yamls.py]   (module [WriteYamls]): one table row to one job document;
    - [run_boltz.py]     (module [RunBoltz]): replication of the job documents and
      the sequential runner that records one line per replicate;
    - [aggregate_job.py] (module [AggregateJob]): join of the run records with the
      experiment table, flattening of the confidence documents, copy phase.

    Text is modelled by [string], whose characters are the code points
    U+0000..U+00FF; on that range the regular-expression class [\d] is exactly
    ['0'..'9'] and [.] is every character but the line feed.  Python dictionaries
    are insertion-ordered association lists ([Dict]).  Durations are binary64
    floating-point numbers ([PyFloat]).  Exceptions and printed diagnostics are
    explicit: a computation returns either a value or the exception it raised,
    together with the lines it printed.  What the programs meet outside
    themselves (the external tool, the order of a directory listing, whether a
    file can be opened) is a parameter of the run. *)

From Stdlib Require Import String Ascii List Bool Arith NArith ZArith QArith Lia.
From Stdlib Require Import DecimalString DecimalNat DecimalZ DecimalFacts.
From Stdlib Require Import Permutation Sorted.
From Stdlib Require PrimFloat SpecFloat FloatOps.
Import ListNotations.

Set Warnings "-register-all".
Set Warnings "-inexact-float".

Local Close Scope Q_scope.
Local Open Scope list_scope.
Local Open Scope string_scope.

(** ** Python [str] operations *)

Module Str.

(** The line feed, which [.] does not match and before which [$] may match. *)
Definition nl : ascii := "010"%char.

(** [\d] on U+0000..U+00FF. *)
Definition is_digit (c : ascii) : bool :=
  let n := N_of_ascii c in (48 <=? n)%N && (n <=? 57)%N.

(** [str.isspace] for one character of U+0000..U+00FF. *)
Definition is_space (c : ascii) : bool :=
  let n := N_of_ascii c in
  ((9 <=? n)%N && (n <=? 13)%N) || ((28 <=? n)%N && (n <=? 32)%N)
  || (n =? 133)%N || (n =? 160)%N.

Fixpoint forallb (p : ascii -> bool) (s : string) : bool :=
  match s with
  | EmptyString => true
  | String c s' => p c && forallb p s'
  end.

(** [s.strip() == ''] *)
Definition blank (s : string) : bool := forallb is_space s.

Definition is_empty (s : string) : bool :=
  match s with EmptyString => true | _ => false end.

(** [s[len(p):]] when [s.startswith(p)]. *)
Fixpoint strip_prefix (p s : string) : option string :=
  match p, s with
  | EmptyString, _ => Some s
  | String a p', String b s' => if Ascii.eqb a b then strip_prefix p' s' else None
  | String _ _, EmptyString => None
  end.

Definition startswith (s p : string) : bool :=
  match strip_prefix p s with Some _ => true | None => false end.

(** [s.endswith(suf)] *)
Fixpoint endswith (s suf : string) : bool :=
  String.eqb s suf
  || match s with
     | EmptyString => false
     | String _ s' => endswith s' suf
     end.

(** [sub in s] *)
Fixpoint contains (sub s : string) : bool :=
  startswith s sub
  || match s with
     | EmptyString => false
     | String _ s' => contains sub s'
     end.

(** The longest run of characters satisfying [p] at the head of [s], and the rest. *)
Fixpoint span (p : ascii -> bool) (s : string) : string * string :=
  match s with
  | EmptyString => (EmptyString, EmptyString)
  | String c s' =>
      if p c then let '(a, b) := span p s' in (String c a, b)
      else (EmptyString, s)
  end.

(** [s.replace(old, new)] for a non-empty [old]: occurrences are replaced from
    the left and do not overlap.  [skip] counts the characters of an occurrence
    already replaced that are still to be passed over. *)
Fixpoint replace_from (old new : string) (skip : nat) (s : string) : string :=
  match s with
  | EmptyString => EmptyString
  | String c s' =>
      match skip with
      | S k => replace_from old new k s'
      | O =>
          if startswith s old
          then new ++ replace_from old new (String.length old - 1) s'
          else String c (replace_from old new 0 s')
      end
  end.

Definition replace (s old new : string) : string := replace_from old new 0 s.

(** The two sides of the last occurrence of [sep], if there is one. *)
Fixpoint rpartition (sep : ascii) (s : string) : option (string * string) :=
  match s with
  | EmptyString => None
  | String c s' =>
      match rpartition sep s' with
      | Some (a, b) => Some (String c a, b)
      | None => if Ascii.eqb c sep then Some (EmptyString, s') else None
      end
  end.

(** [s.rsplit(sep, 1)[0]] *)
Definition rsplit1_head (sep : ascii) (s : string) : string :=
  match rpartition sep s with
  | Some (a, _) => a
  | None => s
  end.

(** [s.split(sep)] for a one-character separator: at least one token. *)
Fixpoint split (sep : ascii) (s : string) : list string :=
  match s with
  | EmptyString => [EmptyString]
  | String c s' =>
      if Ascii.eqb c sep then EmptyString :: split sep s'
      else match split sep s' with
           | t :: ts => String c t :: ts
           | [] => [String c EmptyString]
           end
  end.

(** [s.rstrip(ch)] for a one-character set. *)
Fixpoint rstrip (ch : ascii) (s : string) : string :=
  match s with
  | EmptyString => EmptyString
  | String c s' =>
      match rstrip ch s' with
      | EmptyString => if Ascii.eqb c ch then EmptyString else String c EmptyString
      | r => String c r
      end
  end.

(** [sep.join(l)] *)
Fixpoint join (sep : string) (l : list string) : string :=
  match l with
  | [] => EmptyString
  | [x] => x
  | x :: rest => x ++ sep ++ join sep rest
  end.

(** [int(ds)] for a string of decimal digits. *)
Definition digit_value (c : ascii) : N := (N_of_ascii c - 48)%N.

Fixpoint int_from (acc : N) (ds : string) : N :=
  match ds with
  | EmptyString => acc
  | String c ds' => int_from (acc * 10 + digit_value c)%N ds'
  end.

Definition int (ds : string) : N := int_from 0 ds.

(** [str(n)] for a natural number and for an integer. *)
Definition of_nat (n : nat) : string := NilEmpty.string_of_uint (Nat.to_uint n).
Definition of_Z (z : Z) : string := NilZero.string_of_int (Z.to_int z).

(** [os.path.splitext] on a name without directory separator: the extension
    starts at the last dot, unless only dots precede it. *)
Definition splitext (p : string) : string * string :=
  match rpartition "." p with
  | Some (a, b) => if forallb (Ascii.eqb ".") a then (p, EmptyString)
                   else (a, String "." b)
  | None => (p, EmptyString)
  end.

(** [c not in s] *)
Definition lacks (c : ascii) (s : string) : bool :=
  forallb (fun d => negb (Ascii.eqb d c)) s.

End Str.

(** ** Python [float] *)

Module PyFloat.

Import PrimFloat.

(** A binary64 floating-point number. *)
Definition float : Set := PrimFloat.float.

(** [if x:], true of every number but the two zeros. *)
Definition nonzero (x : float) : bool := negb (PrimFloat.eqb x 0%float).

(** [x * 60] *)
Definition times60 (x : float) : float := PrimFloat.mul x 60%float.

(** The exact value of the finite number with sign [s], mantissa [m] and
    exponent [e], times one hundred, rounded to the nearest integer, ties to
    the even one. *)
Definition hundredths (s : bool) (m : positive) (e : Z) : Z :=
  let n := (Zpos m * 100)%Z in
  let p := match e with
           | Zneg k =>
               let d := Z.pow_pos 2 k in
               let q := (n / d)%Z in
               let r := (n mod d)%Z in
               match (2 * r ?= d)%Z with
               | Lt => q
               | Gt => (q + 1)%Z
               | Eq => if Z.odd q then (q + 1)%Z else q
               end
           | _ => (n * 2 ^ e)%Z
           end in
  if s then (- p)%Z else p.

(** The binary64 number nearest to [p / 100]. *)
Definition of_hundredths (s : bool) (p : positive) : float :=
  FloatOps.SF2Prim
    (SpecFloat.SFdiv FloatOps.prec FloatOps.emax
       (SpecFloat.S754_finite s p 0) (SpecFloat.S754_finite false 100 0)).

(** [round(x, 2)]: the exact value of [x] is rounded to the nearest hundredth,
    ties to the even one, and the result is the binary64 number nearest to that
    decimal; an infinity or a NaN is returned as it is. *)
Definition round2 (x : float) : float :=
  match FloatOps.Prim2SF x with
  | SpecFloat.S754_finite s m e =>
      match hundredths s m e with
      | Z0 => if s then PrimFloat.neg_zero else PrimFloat.zero
      | Zpos p => of_hundredths false p
      | Zneg p => of_hundredths true p
      end
  | _ => x
  end.

(** [float(z)] for an integer: the binary64 number nearest to [z], ties to the
    even mantissa.  It is an integer and is kept as one. *)
Definition of_Z (z : Z) : Z :=
  let a := Z.abs z in
  if (a <? 2 ^ 53)%Z then z
  else
    let e := (Z.log2 a - 52)%Z in
    let m := Z.shiftr a e in
    let r := (a - Z.shiftl m e)%Z in
    let half := Z.shiftl 1 (e - 1) in
    let m' := if (half <? r)%Z || ((r =? half)%Z && Z.odd m) then (m + 1)%Z else m in
    (Z.sgn z * Z.shiftl m' e)%Z.

(** The shortest decimal that [float] reads back as [v], for a positive [v] of at
    least seventeen digits: among the decimals of one digit, then of two, and so
    on ([u] is the weight of the last digit kept), the one nearest to [v]. *)
Fixpoint shortest (fuel : nat) (u v : Z) : Z :=
  match fuel with
  | O => v
  | S fuel' =>
      let lo := (v / u * u)%Z in
      let hi := (lo + u)%Z in
      let ok_lo := (of_Z lo =? v)%Z in
      let ok_hi := (of_Z hi =? v)%Z in
      if ok_lo && ok_hi then
        match (v - lo ?= hi - v)%Z with
        | Lt => lo
        | Gt => hi
        | Eq => if Z.even (v / u) then lo else hi
        end
      else if ok_lo then lo
      else if ok_hi then hi
      else shortest fuel' (u / 10)%Z v
  end.

(** [repr(float(z))], which is also its [str]: the digits and [.0] below ten to
    the sixteenth, the shortest digits that read back and an exponent from
    there on. *)
Definition repr_of_Z (z : Z) : string :=
  let v := of_Z z in
  let a := Z.abs v in
  let sign := if (v <? 0)%Z then "-" else "" in
  if (a <? 10 ^ 16)%Z then sign ++ Str.of_Z a ++ ".0"
  else
    let n := String.length (Str.of_Z a) in
    let c := shortest n (10 ^ (Z.of_nat n - 1))%Z a in
    let ds := Str.of_Z c in
    match Str.rstrip "0" ds with
    | String d rest =>
        sign ++ String d (match rest with EmptyString => "" | _ => "." ++ rest end)
        ++ "e+" ++ Str.of_nat (String.length ds - 1)
    | EmptyString => ds
    end.

(** Sample durations and what [round(x, 2)] gives for them: 4.125 is a tie and
    goes to the even neighbour, 2.675 and 0.005 are not the decimals they are
    written as. *)
Definition sample_times : list float :=
  [12.34567%float; 0.005%float; 4.125%float; 2.675%float; times60 0.06875%float].

Definition sample_rounded : list float :=
  [12.35%float; 0.01%float; 4.12%float; 2.67%float; 4.12%float].

End PyFloat.

(** ** Insertion-ordered dictionaries *)

Module Dict.
Section Ops.
Context {V : Type}.

Definition t := list (string * V).

(** [d.get(k)] / [d[k]] *)
Fixpoint get (k : string) (d : list (string * V)) : option V :=
  match d with
  | [] => None
  | (k', v) :: d' => if String.eqb k k' then Some v else get k d'
  end.

(** [k in d] *)
Definition mem (k : string) (d : list (string * V)) : bool :=
  match get k d with Some _ => true | None => false end.

(** [d[k] = v]: an existing key keeps its place, a new key goes last. *)
Fixpoint set (k : string) (v : V) (d : list (string * V)) : list (string * V) :=
  match d with
  | [] => [(k, v)]
  | (k', v') :: d' =>
      if String.eqb k k' then (k, v) :: d' else (k', v') :: set k v d'
  end.

(** [d.update(e)] *)
Definition update (d e : list (string * V)) : list (string * V) :=
  fold_left (fun acc kv => set (fst kv) (snd kv) acc) e d.

Definition keys (d : list (string * V)) : list string := map fst d.
End Ops.
Arguments t : clear implicits.
End Dict.

(** ** Values *)

(** A parsed JSON document.  Numbers are kept as exact rationals: the programs
    only copy them. *)
Inductive json : Type :=
| JNull
| JBool (b : bool)
| JNum (q : Q)
| JStr (s : string)
| JArr (items : list json)
| JObj (members : list (string * json)).

(** A cell of a table: missing ([NaN]), text, a boolean, an integer of 64 bits,
    or a floating-point number whose value is an integer, [CFloat z] standing
    for [float(z)]: what an integer is in a column that [pandas] keeps as
    floating point, as it does once the column has a missing cell.
    Floating-point cells with a fractional part are outside the model. *)
Inductive cell : Type :=
| NaN
| CStr (s : string)
| CBool (b : bool)
| CInt (z : Z)
| CFloat (z : Z).

(** [pd.isna(c)] *)
Definition isna (c : cell) : bool :=
  match c with NaN => true | _ => false end.

(** [str(c)] *)
Definition str_of_cell (c : cell) : string :=
  match c with
  | NaN => "nan"
  | CStr s => s
  | CBool true => "True"
  | CBool false => "False"
  | CInt z => Str.of_Z z
  | CFloat z => PyFloat.repr_of_Z z
  end.

(** Truth value of a cell that is not missing. *)
Definition truthy (c : cell) : bool :=
  match c with
  | NaN => true
  | CStr s => negb (Str.is_empty s)
  | CBool b => b
  | CInt z => negb (z =? 0)%Z
  | CFloat z => negb (z =? 0)%Z
  end.

(** Equality of two cells of one column. *)
Definition cell_eqb (a b : cell) : bool :=
  match a, b with
  | NaN, NaN => true
  | CStr s, CStr t => String.eqb s t
  | CBool x, CBool y => Bool.eqb x y
  | CInt x, CInt y => (x =? y)%Z
  | CFloat x, CFloat y => (PyFloat.of_Z x =? PyFloat.of_Z y)%Z
  | _, _ => false
  end.

(** A table: its column labels and its rows, each row carrying its labels. *)
Record DataFrame : Type := mkDataFrame {
  columns : list string;
  rows : list (Dict.t cell)
}.

Definition string_mem (x : string) (l : list string) : bool :=
  existsb (String.eqb x) l.

Definition list_string_eqb (a b : list string) : bool :=
  if list_eq_dec string_dec a b then true else false.

(** Every row carries exactly the labels of the table. *)
Definition wf_frame (df : DataFrame) : bool :=
  List.forallb (fun r => list_string_eqb (Dict.keys r) (columns df)) (rows df).

(** ** Exceptions and diagnostics *)

Inductive exn : Type :=
| ValueError (msg : string)
| KeyError (key : string)
| TypeError
| AttributeError
| JSONDecodeError
| IOError
| FileExistsError
| OtherError (name : string).

Inductive result (A : Type) : Type :=
| Ok (a : A)
| Raise (e : exn).
Arguments Ok {A} a.
Arguments Raise {A} e.

(** A computation: its outcome and the lines it printed. *)
Definition M (A : Type) : Type := (result A * list string)%type.

Definition ret {A} (a : A) : M A := (Ok a, []).
Definition raise {A} (e : exn) : M A := (Raise e, []).
Definition print (line : string) : M unit := (Ok tt, [line]).

Definition bind {A B} (m : M A) (k : A -> M B) : M B :=
  match m with
  | (Ok a, out) => let '(r, out') := k a in (r, (out ++ out')%list)
  | (Raise e, out) => (Raise e, out)
  end.

Declare Scope py_scope.
Delimit Scope py_scope with py.
Notation "x <- m ;; k" := (bind m (fun x => k))
  (at level 61, m at next level, right associativity) : py_scope.
Notation "m ;;; k" := (bind m (fun _ => k))
  (at level 61, right associativity) : py_scope.
Local Open Scope py_scope.

(** A [for] loop threading an accumulator. *)
Fixpoint foldM {A B} (f : B -> A -> M B) (l : list A) (acc : B) : M B :=
  match l with
  | [] => ret acc
  | x :: l' => acc' <- f acc x ;; foldM f l' acc'
  end.

Definition outcome {A} (m : M A) : result A := fst m.
Definition printed {A} (m : M A) : list string := snd m.

(** ** File names matched by a glob pattern

    [fnmatch] on one path segment: [*] is any run of characters, [?] any one
    character, [[...]] a character class ([!] negates, [a-b] is a range); a [[]
    that is never closed stands for itself.  The patterns of the program are
    built from a job identifier, whose characters are read as pattern
    characters like the rest; an identifier that holds a path separator is
    outside the model. *)

Module Glob.

Inductive tok : Type :=
| Star
| AnyChar
| Lit (c : ascii)
| Class (negated : bool) (ranges : list (ascii * ascii)).

(** The members of a class, read from left to right. *)
Fixpoint class_ranges (s : string) : list (ascii * ascii) :=
  match s with
  | EmptyString => []
  | String a (String "-" (String b s')) => (a, b) :: class_ranges s'
  | String a s' => (a, a) :: class_ranges s'
  end.

(** The text of a class up to its closing bracket, and what follows it.
    [first] is true while a bracket would still be a member. *)
Fixpoint class_body (first : bool) (s : string) : option (string * string) :=
  match s with
  | EmptyString => None
  | String c s' =>
      if Ascii.eqb c "]" && negb first then Some (EmptyString, s')
      else match class_body false s' with
           | Some (body, rest) => Some (String c body, rest)
           | None => None
           end
  end.

(** [skip] counts the characters of a class already read. *)
Fixpoint parse_from (skip : nat) (p : string) : list tok :=
  match p with
  | EmptyString => []
  | String c p' =>
      match skip with
      | S k => parse_from k p'
      | O =>
          if Ascii.eqb c "*" then Star :: parse_from 0 p'
          else if Ascii.eqb c "?" then AnyChar :: parse_from 0 p'
          else if Ascii.eqb c "[" then
            let '(neg, q) := match p' with
                             | String "!" q => (true, q)
                             | _ => (false, p')
                             end in
            match class_body true q with
            | Some (body, rest) =>
                Class neg (class_ranges body)
                :: parse_from (String.length p' - String.length rest) p'
            | None => Lit c :: parse_from 0 p'
            end
          else Lit c :: parse_from 0 p'
      end
  end.

Definition parse (p : string) : list tok := parse_from 0 p.

Definition in_class (ranges : list (ascii * ascii)) (c : ascii) : bool :=
  existsb (fun r => (N_of_ascii (fst r) <=? N_of_ascii c)%N
                    && (N_of_ascii c <=? N_of_ascii (snd r))%N) ranges.

Fixpoint matches (ts : list tok) : string -> bool :=
  match ts with
  | [] => fun s => Str.is_empty s
  | Star :: ts' =>
      fix star (s : string) : bool :=
        matches ts' s
        || match s with
           | EmptyString => false
           | String _ s' => star s'
           end
  | AnyChar :: ts' =>
      fun s => match s with
               | String _ s' => matches ts' s'
               | EmptyString => false
               end
  | Lit c :: ts' =>
      fun s => match s with
               | String d s' => Ascii.eqb c d && matches ts' s'
               | EmptyString => false
               end
  | Class neg rs :: ts' =>
      fun s => match s with
               | String d s' => xorb neg (in_class rs d) && matches ts' s'
               | EmptyString => false
               end
  end.

Definition fnmatch (name pattern : string) : bool := matches (parse pattern) name.

End Glob.

(** A [for] loop collecting one result per element. *)
Fixpoint mapM {A B} (f : A -> M B) (l : list A) : M (list B) :=
  match l with
  | [] => ret []
  | x :: l' => y <- f x ;; ys <- mapM f l' ;; ret (y :: ys)
  end.

(** [enumerate(l)] *)
Definition enumerate {A} (l : list A) : list (nat * A) :=
  combine (seq 0 (length l)) l.

(** [sorted(l, key=key)]: a stable sort. *)
Fixpoint insert_by {A} (key : A -> N) (x : A) (l : list A) : list A :=
  match l with
  | [] => [x]
  | y :: l' => if (key x <=? key y)%N then x :: l else y :: insert_by key x l'
  end.

Definition sorted_by {A} (key : A -> N) (l : list A) : list A :=
  fold_right (insert_by key) [] l.

(** ** aggregate_job.py *)

Module AggregateJob.

(** A path is kept as the sequence of its components. *)
Definition path := list string.

(** What [open(p)] followed by [json.load] does. *)
Inductive load_result : Type :=
| Loaded (data : json)
| LoadIOError
| LoadJSONDecodeError
| LoadOtherError (name : string).

(** The part of the file system the aggregator reads. *)
Record World : Type := mkWorld {
  is_dir : path -> bool;
  is_file : path -> bool;
  listdir : path -> list string;
  load : path -> load_result
}.

(** [folder.glob(pattern)]: the names in the folder that match, in scan order. *)
Definition glob (w : World) (folder : path) (pattern : string) : list string :=
  filter (fun name => Glob.fnmatch name pattern) (listdir w folder).

Definition json_load (w : World) (p : path) : M json :=
  match load w p with
  | Loaded data => ret data
  | LoadIOError => raise IOError
  | LoadJSONDecodeError => raise JSONDecodeError
  | LoadOtherError name => raise (OtherError name)
  end.

(** [key in data] *)
Definition py_in (key : string) (data : json) : M bool :=
  match data with
  | JObj d => ret (Dict.mem key d)
  | JArr l => ret (existsb (fun j => match j with
                                     | JStr s => String.eqb s key
                                     | _ => false
                                     end) l)
  | JStr s => ret (Str.contains key s)
  | _ => raise TypeError
  end.

(** [data[key]] for a text key *)
Definition py_getitem (data : json) (key : string) : M json :=
  match data with
  | JObj d => match Dict.get key d with
              | Some v => ret v
              | None => raise (KeyError key)
              end
  | _ => raise TypeError
  end.

Definition top_keys : list string :=
  ["confidence_score"; "ptm"; "iptm"; "ligand_iptm"; "protein_iptm";
   "complex_plddt"; "complex_iplddt"; "complex_pde"; "complex_ipde"].

Definition copy_top_key (data : json) (metrics : Dict.t json) (key : string)
  : M (Dict.t json) :=
  present <- py_in key data ;;
  if present : bool then v <- py_getitem data key ;; ret (Dict.set key v metrics)
  else ret metrics.

Definition flatten_chains (chains : list (string * json)) (metrics : Dict.t json)
  : Dict.t json :=
  fold_left (fun m kv => Dict.set ("chains_ptm_" ++ fst kv) (snd kv) m) chains metrics.

Definition flatten_pair_row (chain_i : string) (subdict : json) (metrics : Dict.t json)
  : Dict.t json :=
  match subdict with
  | JObj sub =>
      fold_left (fun m kv =>
                   Dict.set ("pair_chains_iptm_" ++ chain_i ++ "_" ++ fst kv) (snd kv) m)
                sub metrics
  | _ => metrics
  end.

Definition flatten_pairs (pairs : list (string * json)) (metrics : Dict.t json)
  : Dict.t json :=
  fold_left (fun m kv => flatten_pair_row (fst kv) (snd kv) m) pairs metrics.

(** The body of [parse_confidence_json] after the document is loaded. *)
Definition flatten_confidence (data : json) : M (Dict.t json) :=
  metrics <- foldM (copy_top_key data) top_keys [] ;;
  has_chains <- py_in "chains_ptm" data ;;
  metrics <- (if has_chains : bool then
                sub <- py_getitem data "chains_ptm" ;;
                match sub with
                | JObj chains => ret (flatten_chains chains metrics)
                | _ => ret metrics
                end
              else ret metrics) ;;
  has_pairs <- py_in "pair_chains_iptm" data ;;
  if has_pairs : bool then
    sub <- py_getitem data "pair_chains_iptm" ;;
    match sub with
    | JObj pairs => ret (flatten_pairs pairs metrics)
    | _ => ret metrics
    end
  else ret metrics.

Definition parse_confidence_json (w : World) (json_path : path) : M (Dict.t json) :=
  data <- json_load w json_path ;;
  flatten_confidence data.

(** [parse_affinity_json]: an unreadable or malformed document gives the empty
    mapping and a warning; any other exception goes through. *)
Definition parse_affinity_json (w : World) (json_path : path) : M json :=
  match load w json_path with
  | Loaded data => ret data
  | LoadIOError | LoadJSONDecodeError =>
      print ("Warning: Could not read or parse affinity JSON "
             ++ Str.join "/" json_path) ;;;
      ret (JObj [])
  | LoadOtherError name => raise (OtherError name)
  end.

(** The tail [_rep\d+\.yaml$] of the replicate pattern. *)
Definition rep_tail (t : string) : bool :=
  match Str.strip_prefix "_rep" t with
  | Some u =>
      let '(ds, v) := Str.span Str.is_digit u in
      negb (Str.is_empty ds)
      && (String.eqb v ".yaml" || String.eqb v (".yaml" ++ String Str.nl ""))
  | None => false
  end.

(** [re.match] with the replicate pattern, a greedy group of any characters but
    line feeds followed by [_rep\d+\.yaml$]: group 1 is the longest prefix free of
    line feeds that the tail follows. *)
Fixpoint match_rep (s : string) : option string :=
  match s with
  | EmptyString => None
  | String c s' =>
      match (if Ascii.eqb c Str.nl then None else match_rep s') with
      | Some p => Some (String c p)
      | None => if rep_tail s then Some EmptyString else None
      end
  end.

Definition extract_base_name (filename : string) : string :=
  match match_rep filename with
  | Some base => base
  | None => Str.rsplit1_head "." filename
  end.

(** [extract_base]; the result [None] is the missing cell. *)
Definition extract_base (filename : cell) : M cell :=
  match filename with
  | NaN => ret NaN
  | CStr s => ret (CStr (extract_base_name s))
  | _ => raise TypeError
  end.

(** [re.sub(r'\.yaml$', '', s)] *)
Fixpoint yaml_strip (s : string) : string :=
  if String.eqb s ".yaml" then EmptyString
  else if String.eqb s (".yaml" ++ String Str.nl "") then String Str.nl ""
  else match s with
       | EmptyString => EmptyString
       | String c s' => String c (yaml_strip s')
       end.

Definition is_text (c : cell) : bool :=
  match c with CStr _ => true | _ => false end.

(** [series.str.replace(r'\.yaml$', '', regex=True)]: the accessor needs a column
    of text (or an empty one); cells that are not text become missing. *)
Definition str_replace_yaml (cells : list cell) : M (list cell) :=
  match cells with
  | [] => ret []
  | _ =>
      if existsb is_text cells
      then ret (map (fun c => match c with
                              | CStr s => CStr (yaml_strip s)
                              | _ => NaN
                              end) cells)
      else raise AttributeError
  end.

(** [df[col]] *)
Definition column (df : DataFrame) (col : string) : M (list cell) :=
  if string_mem col (columns df)
  then ret (map (fun r => match Dict.get col r with
                          | Some c => c
                          | None => NaN
                          end) (rows df))
  else raise (KeyError col).

(** [df[col] = values] *)
Definition set_column (df : DataFrame) (col : string) (values : list cell) : DataFrame :=
  {| columns := if string_mem col (columns df) then columns df else (columns df ++ [col])%list;
     rows := map (fun rv => Dict.set col (snd rv) (fst rv)) (combine (rows df) values) |}.

(** A column of integers: the table has rows and every cell of the column is an
    integer. *)
Definition int_column (df : DataFrame) (c : string) : bool :=
  match rows df with
  | [] => false
  | _ => List.forallb (fun r => match Dict.get c r with
                                | Some (CInt _) => true
                                | _ => false
                                end) (rows df)
  end.

(** An integer in a column that turns to floating point. *)
Definition as_float (c : cell) : cell :=
  match c with
  | CInt z => CFloat z
  | _ => c
  end.

(** A row of a table whose columns of integers turn to floating point. *)
Definition upcast (df : DataFrame) (r : Dict.t cell) : Dict.t cell :=
  map (fun kv => (fst kv, if int_column df (fst kv) then as_float (snd kv) else snd kv)) r.

(** [pd.merge(left, right, how='left', on=key)].  Rows keep the order of [left];
    a left row without partner is completed with missing cells, and as soon as
    there is such a row the columns of integers of [right] are floating point
    in the result; a label other than the key that both tables carry is
    suffixed [_x] on the left and [_y] on the right.  Missing keys are partners
    of each other. *)
Definition relabel (key : string) (others : list string) (suffix : string) (c : string)
  : string :=
  if negb (String.eqb c key) && string_mem c others then c ++ suffix else c.

Definition key_of (key : string) (r : Dict.t cell) : cell :=
  match Dict.get key r with Some c => c | None => NaN end.

Definition merge_row (key : string) (lcols rcols : list string) (l r : Dict.t cell)
  : Dict.t cell :=
  (map (fun kv => (relabel key rcols "_x" (fst kv), snd kv)) l
   ++ map (fun kv => (relabel key lcols "_y" (fst kv), snd kv))
          (filter (fun kv => negb (String.eqb (fst kv) key)) r))%list.

Definition partners (key : string) (right : DataFrame) (l : Dict.t cell)
  : list (Dict.t cell) :=
  filter (fun r => cell_eqb (key_of key l) (key_of key r)) (rows right).

(** Some row of [left] has no partner in [right]. *)
Definition has_gap (left right : DataFrame) (key : string) : bool :=
  existsb (fun l => match partners key right l with [] => true | _ => false end)
          (rows left).

(** The rows the join gives for one row of [left]; [gap] tells whether the
    columns of integers of [right] turn to floating point. *)
Definition merge_rows (gap : bool) (left right : DataFrame) (key : string)
  (l : Dict.t cell) : list (Dict.t cell) :=
  match partners key right l with
  | [] => [merge_row key (columns left) (columns right) l
             (map (fun c => (c, NaN)) (columns right))]
  | ps => map (fun r => merge_row key (columns left) (columns right) l
                          (if gap then upcast right r else r)) ps
  end.

Definition merge_left (left right : DataFrame) (key : string) : DataFrame :=
  {| columns :=
       (map (relabel key (columns right) "_x") (columns left)
        ++ map (relabel key (columns left) "_y")
               (filter (fun c => negb (String.eqb c key)) (columns right)))%list;
     rows :=
       flat_map (merge_rows (has_gap left right key) left right key) (rows left) |}.

Record Args : Type := mkArgs {
  predictions_dir : string;
  output_dir : string;
  summary_csv_name : string
}.

(** A field of a summary row: a cell of the joined tables or a metric. *)
Inductive value : Type :=
| VCell (c : cell)
| VJson (j : json).

Definition job_id_of (filename : string) : string := Str.replace filename ".yaml" "".

Definition pred_folder (args : Args) (job_id : string) : path :=
  [predictions_dir args; "boltz_results_" ++ job_id; "predictions"; job_id].

(** [m.group(1) if m else "?"] for [re.search(r'_model_(\d+)\.json$', name)] *)
Definition model_tail (t : string) : option string :=
  match Str.strip_prefix "_model_" t with
  | Some u =>
      let '(ds, v) := Str.span Str.is_digit u in
      if negb (Str.is_empty ds)
         && (String.eqb v ".json" || String.eqb v (".json" ++ String Str.nl ""))
      then Some ds else None
  | None => None
  end.

Fixpoint search_model (name : string) : option string :=
  match model_tail name with
  | Some ds => Some ds
  | None => match name with
            | EmptyString => None
            | String _ name' => search_model name'
            end
  end.

Definition model_idx (name : string) : string :=
  match search_model name with Some ds => ds | None => "?" end.

(** One turn of the loop over the confidence documents of a job. *)
Definition add_model_metrics (w : World) (folder : path)
  (json_metrics_all : Dict.t json) (name : string) : M (Dict.t json) :=
  metrics <- parse_confidence_json w (folder ++ [name])%list ;;
  ret (fold_left (fun acc kv =>
                    Dict.set (fst kv ++ "_model_" ++ model_idx name) (snd kv) acc)
                 metrics json_metrics_all).

Definition collect_model_metrics (w : World) (folder : path) (job_id : string)
  : M (Dict.t json) :=
  foldM (add_model_metrics w folder)
        (glob w folder ("confidence_" ++ job_id ++ "_model_*.json")) [].

(** An item of the sequence given to [dict.update] as a key and a value: the
    item is itself iterated and must give two things.  A list gives its items,
    a text its characters, a mapping its keys; a number, a boolean or [null]
    cannot be iterated.  A key that is a list or a mapping cannot be hashed.  The
    rows of the model are keyed by text: a key that is a number, a boolean or
    [null] is outside the model, which stops there with an exception of its
    own. *)
Definition wrong_length (index n : nat) : exn :=
  ValueError ("dictionary update sequence element #" ++ Str.of_nat index
              ++ " has length " ++ Str.of_nat n ++ "; 2 is required").

Definition pair_of (index : nat) (item : json) : M (string * json) :=
  match item with
  | JArr [key; v] =>
      match key with
      | JStr k => ret (k, v)
      | JArr _ | JObj _ => raise TypeError
      | _ => raise (OtherError "key that is not text")
      end
  | JArr items => raise (wrong_length index (length items))
  | JStr (String k (String v EmptyString)) => ret (String k EmptyString, JStr (String v EmptyString))
  | JStr s => raise (wrong_length index (String.length s))
  | JObj [(k, _); (v, _)] => ret (k, JStr v)
  | JObj members => raise (wrong_length index (length members))
  | _ => raise TypeError
  end.

Definition update_pair (row : Dict.t value) (item : nat * json) : M (Dict.t value) :=
  kv <- pair_of (fst item) (snd item) ;;
  ret (Dict.set (fst kv) (VJson (snd kv)) row).

(** [dict.update] with what [parse_affinity_json] returned: a mapping gives its
    entries; a list is a sequence of pairs, and the empty list changes nothing;
    a text is the sequence of its characters, none of which is a pair; anything
    else cannot be iterated. *)
Definition update_with (row : Dict.t value) (j : json) : M (Dict.t value) :=
  match j with
  | JObj d => ret (Dict.update row (map (fun kv => (fst kv, VJson (snd kv))) d))
  | JArr items => foldM update_pair (enumerate items) row
  | JStr EmptyString => ret row
  | JStr _ => raise (wrong_length 0 1)
  | _ => raise TypeError
  end.

(** One turn of the loop over the joined rows: the summary row, or nothing when
    the row is skipped. *)
Definition summary_row (w : World) (args : Args) (idx : nat) (row : Dict.t cell)
  : M (option (Dict.t value)) :=
  match Dict.get "filename" row with
  | None | Some NaN =>
      print ("Warning: Skipping row " ++ Str.of_nat idx
             ++ " due to missing 'filename' in Boltz CSV.") ;;;
      ret None
  | Some (CStr filename) =>
      let job_id := job_id_of filename in
      let folder := pred_folder args job_id in
      let current_row_data := map (fun kv => (fst kv, VCell (snd kv))) row in
      if negb (is_dir w folder) then
        print ("Warning: Predictions folder " ++ Str.join "/" folder
               ++ " not found for dock " ++ job_id ++ ". Skipping file search.") ;;;
        ret (Some current_row_data)
      else
        json_metrics_all <- collect_model_metrics w folder job_id ;;
        let affinity_name := "affinity_" ++ job_id ++ ".json" in
        let affinity_json_path := (folder ++ [affinity_name])%list in
        affinity_metrics <- (if is_file w affinity_json_path
                             then parse_affinity_json w affinity_json_path
                             else ret (JObj [])) ;;
        let current_row_data :=
          Dict.update current_row_data
            (map (fun kv => (fst kv, VJson (snd kv))) json_metrics_all) in
        current_row_data <- update_with current_row_data affinity_metrics ;;
        ret (Some current_row_data)
  | Some _ => raise AttributeError
  end.

Definition add_summary_row (w : World) (args : Args)
  (final_rows : list (Dict.t value)) (ir : nat * Dict.t cell)
  : M (list (Dict.t value)) :=
  r <- summary_row w args (fst ir) (snd ir) ;;
  match r with
  | Some data => ret (final_rows ++ [data])%list
  | None => ret final_rows
  end.

(** [series.dropna().unique()]: first occurrences, in order. *)
Definition dropna (cells : list cell) : list cell :=
  filter (fun c => negb (isna c)) cells.

Fixpoint unique (cells : list cell) : list cell :=
  match cells with
  | [] => []
  | c :: rest => c :: filter (fun d => negb (cell_eqb d c)) (unique rest)
  end.

(** The seven destination folders and the pattern that feeds each. *)
Definition buckets (job_id : string) : list (string * string) :=
  [(job_id ++ "_model_*.pdb", "final_pdbs");
   ("pae_" ++ job_id ++ "_model_*.npz", "final_pae");
   ("plddt_" ++ job_id ++ "_model_*.npz", "final_plddt");
   ("confidence_" ++ job_id ++ "_model_*.json", "final_confidence_json");
   ("affinity_" ++ job_id ++ ".json", "final_affinity_json");
   ("pre_affinity_" ++ job_id ++ ".npz", "final_pre_affinity");
   ("pde_" ++ job_id ++ "_model_*.npz", "final_pde")].

(** [shutil.copy2(src, dst)] into a destination folder the run has just made:
    the copy, or the exception of a source that is a directory or is no regular
    file. *)
Definition copy2 (w : World) (src dst : path) : M (path * path) :=
  if is_dir w src then raise (OtherError "IsADirectoryError")
  else if is_file w src then ret (src, dst)
  else raise (OtherError "FileNotFoundError").

(** The copies made for one entry of [unique_job_yamls]: source and destination. *)
Definition copy_job (w : World) (args : Args) (job_yaml : cell) : M (list (path * path)) :=
  match job_yaml with
  | CStr name =>
      let job_id := job_id_of name in
      let folder := pred_folder args job_id in
      if negb (is_dir w folder) then ret []
      else
        copies <- mapM (fun pb =>
                          mapM (fun f => copy2 w (folder ++ [f])%list
                                               [output_dir args; snd pb; f])
                               (glob w folder (fst pb)))
                       (buckets job_id) ;;
        ret (concat copies)
  | _ => raise AttributeError
  end.

(** The run, from the two tables as read to the rows of the summary table and
    the copies made.  The output folders are taken to be made, and the summary
    file to be written, without failure. *)
Definition main (w : World) (args : Args) (df_yaml df_boltz : DataFrame)
  : M (list (Dict.t value) * list (path * path)) :=
  if negb (string_mem "yaml_file" (columns df_yaml))
  then raise (ValueError "The YAML CSV must have a 'yaml_file' column to merge on.")
  else
    yaml_files <- column df_yaml "yaml_file" ;;
    yaml_bases <- str_replace_yaml yaml_files ;;
    let df_yaml := set_column df_yaml "base_name" yaml_bases in
    filenames <- column df_boltz "filename" ;;
    boltz_bases <- mapM extract_base filenames ;;
    let df_boltz := set_column df_boltz "base_name" boltz_bases in
    let df_merged := merge_left df_boltz df_yaml "base_name" in
    final_rows <- foldM (add_summary_row w args) (enumerate (rows df_merged)) [] ;;
    merged_filenames <- column df_merged "filename" ;;
    let unique_job_yamls := unique (dropna merged_filenames) in
    copies <- mapM (copy_job w args) unique_job_yamls ;;
    ret (final_rows, concat copies).

(** *** Readings used in the statements *)

(** The metrics of a document that is a mapping, where no step can fail. *)
Definition top_metrics (d : Dict.t json) : Dict.t json :=
  fold_left (fun m key => match Dict.get key d with
                          | Some v => Dict.set key v m
                          | None => m
                          end) top_keys [].

Definition flatten_object (d : Dict.t json) : Dict.t json :=
  let m := top_metrics d in
  let m := match Dict.get "chains_ptm" d with
           | Some (JObj chains) => flatten_chains chains m
           | _ => m
           end in
  match Dict.get "pair_chains_iptm" d with
  | Some (JObj pairs) => flatten_pairs pairs m
  | _ => m
  end.

(** The keys and values written for the per-chain and per-chain-pair scores, in
    the order they are written. *)
Definition chain_entries (chains : list (string * json)) : list (string * json) :=
  map (fun kv => ("chains_ptm_" ++ fst kv, snd kv)) chains.

Definition pair_entries (pairs : list (string * json)) : list (string * json) :=
  flat_map (fun row =>
              match snd row with
              | JObj sub =>
                  map (fun kv => ("pair_chains_iptm_" ++ fst row ++ "_" ++ fst kv, snd kv)) sub
              | _ => []
              end) pairs.

(** The key under which a metric of a model file enters the row. *)
Definition model_key (name key : string) : string :=
  key ++ "_model_" ++ model_idx name.

(** The confidence documents found for a job. *)
Definition confidence_files (w : World) (args : Args) (job_id : string) : list string :=
  glob w (pred_folder args job_id) ("confidence_" ++ job_id ++ "_model_*.json").

Definition loads_object (w : World) (p : path) : bool :=
  match load w p with
  | Loaded (JObj _) => true
  | _ => false
  end.

(** The metrics of a confidence document of a folder, when it is a mapping. *)
Definition doc_metrics (w : World) (folder : path) (name : string) : Dict.t json :=
  match load w (folder ++ [name])%list with
  | Loaded (JObj d) => flatten_object d
  | _ => []
  end.

Definition model_entries (w : World) (folder : path) (name : string)
  : list (string * json) :=
  map (fun kv => (model_key name (fst kv), snd kv)) (doc_metrics w folder name).

(** The cell of a row under a label, missing when the row has no such label. *)
Definition cell_of (label : string) (r : Dict.t cell) : cell :=
  match Dict.get label r with Some c => c | None => NaN end.

Definition filename_of (b : Dict.t cell) : cell := cell_of "filename" b.

Definition has_filename (b : Dict.t cell) : bool := is_text (filename_of b).

(** The base identifier of an experiment row and of a run record. *)
Definition yaml_base (y : Dict.t cell) : cell :=
  match cell_of "yaml_file" y with
  | CStr t => CStr (yaml_strip t)
  | _ => NaN
  end.

Definition boltz_base (b : Dict.t cell) : cell :=
  match filename_of b with
  | CStr s => CStr (extract_base_name s)
  | _ => NaN
  end.

(** The two tables with their [base_name] column, and their join. *)
Definition with_base (base : Dict.t cell -> cell) (df : DataFrame) : DataFrame :=
  set_column df "base_name" (map base (rows df)).

Definition joined (df_yaml df_boltz : DataFrame) : DataFrame :=
  merge_left (with_base boltz_base df_boltz) (with_base yaml_base df_yaml) "base_name".

(** The rows of the join that come from one run record. *)
Definition joined_for (df_yaml df_boltz : DataFrame) (b : Dict.t cell)
  : list (Dict.t cell) :=
  let Y := with_base yaml_base df_yaml in
  let B := with_base boltz_base df_boltz in
  merge_rows (has_gap B Y "base_name") B Y "base_name"
             (Dict.set "base_name" (boltz_base b) b).

(** The number of experiment rows whose base identifier is that of a run-record
    name, and the number of summary rows a run record gives. *)
Definition matches_of (df_yaml : DataFrame) (filename : string) : nat :=
  length (filter (fun y => cell_eqb (CStr (extract_base_name filename)) (yaml_base y))
                 (rows df_yaml)).

Definition rows_for (df_yaml : DataFrame) (b : Dict.t cell) : nat :=
  match filename_of b with
  | CStr s => Nat.max 1 (matches_of df_yaml s)
  | _ => 0
  end.

(** The two tables are well formed: the experiment table has a [yaml_file]
    column of text and no [filename] column, the run-record table has a
    [filename] column whose cells are text or missing. *)
Definition tables_ok (df_yaml df_boltz : DataFrame) : bool :=
  string_mem "yaml_file" (columns df_yaml)
  && negb (string_mem "filename" (columns df_yaml))
  && wf_frame df_yaml
  && (match rows df_yaml with [] => true | _ => false end
      || existsb is_text (map (cell_of "yaml_file") (rows df_yaml)))
  && string_mem "filename" (columns df_boltz)
  && List.forallb (fun b => match filename_of b with
                            | NaN | CStr _ => true
                            | _ => false
                            end) (rows df_boltz).

(** The result folder of a run-record name is absent, or every confidence
    document found in it is a mapping and its affinity document, if there is
    one, is a mapping or cannot be read or parsed. *)
Definition affinity_path (args : Args) (job_id : string) : path :=
  let affinity_name := "affinity_" ++ job_id ++ ".json" in
  (pred_folder args job_id ++ [affinity_name])%list.

Definition job_ok (w : World) (args : Args) (filename : string) : bool :=
  let job_id := job_id_of filename in
  let folder := pred_folder args job_id in
  negb (is_dir w folder)
  || (List.forallb (fun name => loads_object w (folder ++ [name])%list)
                   (confidence_files w args job_id)
      && (negb (is_file w (affinity_path args job_id))
          || match load w (affinity_path args job_id) with
             | Loaded (JObj _) | LoadIOError | LoadJSONDecodeError => true
             | _ => false
             end)).

Definition jobs_ok (w : World) (args : Args) (df_boltz : DataFrame) : bool :=
  List.forallb (fun b => match filename_of b with
                         | CStr s => job_ok w args s
                         | _ => true
                         end) (rows df_boltz).

(** The copies made for one run-record name. *)
Definition copies_of (w : World) (args : Args) (job_yaml : cell) : list (path * path) :=
  match job_yaml with
  | CStr name =>
      let job_id := job_id_of name in
      let folder := pred_folder args job_id in
      if is_dir w folder
      then flat_map (fun pb =>
                       map (fun f => ((folder ++ [f])%list, [output_dir args; snd pb; f]))
                           (glob w folder (fst pb)))
                    (buckets job_id)
      else []
  | _ => []
  end.

(** The run-record names the copy phase goes through. *)
Definition copy_jobs (df_boltz : DataFrame) : list cell :=
  unique (dropna (map filename_of (rows df_boltz))).

(** The entries of the result folder of a run-record name that the patterns of
    the copy phase match, in the order they are copied. *)
Definition copy_sources (w : World) (args : Args) (filename : string) : list path :=
  let job_id := job_id_of filename in
  let folder := pred_folder args job_id in
  if is_dir w folder
  then flat_map (fun pb => map (fun f => (folder ++ [f])%list) (glob w folder (fst pb)))
                (buckets job_id)
  else [].

(** An entry that can be copied: a regular file. *)
Definition copyable (w : World) (src : path) : bool :=
  negb (is_dir w src) && is_file w src.

(** Every entry the copy phase takes for a run-record name, and for the names of
    a table, can be copied. *)
Definition copy_ok (w : World) (args : Args) (filename : string) : bool :=
  List.forallb (copyable w) (copy_sources w args filename).

Definition copies_ok (w : World) (args : Args) (df_boltz : DataFrame) : bool :=
  List.forallb (fun b => match filename_of b with
                         | CStr s => copy_ok w args s
                         | _ => true
                         end) (rows df_boltz).

(** *** The example of the specification *)

Definition example_args : Args :=
  {| predictions_dir := "out"; output_dir := "final"; summary_csv_name := "final_summary.csv" |}.

Definition example_folder : path := pred_folder example_args "Job1".

Definition example_doc : json :=
  JObj [("ptm", JNum (8 # 10)); ("chains_ptm", JObj [("A", JNum (9 # 10))])].

(** A prediction folder for [Job1] that holds the one confidence document. *)
Definition example_world : World :=
  {| is_dir := fun p => list_string_eqb p example_folder;
     is_file := fun p =>
                  list_string_eqb p (example_folder ++ ["confidence_Job1_model_0.json"])%list;
     listdir := fun p => if list_string_eqb p example_folder
                         then ["confidence_Job1_model_0.json"] else [];
     load := fun p =>
               if list_string_eqb p (example_folder ++ ["confidence_Job1_model_0.json"])%list
               then Loaded example_doc else LoadIOError |}.

(** *** A job with two models *)

Definition second_doc : json :=
  JObj [("ptm", JNum (7 # 10));
        ("pair_chains_iptm", JObj [("A", JObj [("B", JNum (5 # 10))])])].

Definition two_models_world : World :=
  {| is_dir := fun p => list_string_eqb p example_folder;
     is_file := fun p =>
                  list_string_eqb p (example_folder ++ ["confidence_Job1_model_0.json"])%list
                  || list_string_eqb p
                       (example_folder ++ ["confidence_Job1_model_12.json"])%list;
     listdir := fun p => if list_string_eqb p example_folder
                         then ["confidence_Job1_model_0.json";
                               "confidence_Job1_model_12.json"]
                         else [];
     load := fun p =>
               if list_string_eqb p (example_folder ++ ["confidence_Job1_model_0.json"])%list
               then Loaded example_doc
               else if list_string_eqb p
                         (example_folder ++ ["confidence_Job1_model_12.json"])%list
               then Loaded second_doc
               else LoadIOError |}.

(** *** Two confidence documents whose model index cannot be read *)

Definition sentinel_folder : path := pred_folder example_args "J".

Definition sentinel_world : World :=
  {| is_dir := fun p => list_string_eqb p sentinel_folder;
     is_file := fun p =>
                  list_string_eqb p (sentinel_folder ++ ["confidence_J_model_a.json"])%list
                  || list_string_eqb p (sentinel_folder ++ ["confidence_J_model_b.json"])%list;
     listdir := fun p => if list_string_eqb p sentinel_folder
                         then ["confidence_J_model_a.json"; "confidence_J_model_b.json"]
                         else [];
     load := fun p =>
               if list_string_eqb p (sentinel_folder ++ ["confidence_J_model_a.json"])%list
               then Loaded (JObj [("ptm", JNum (1 # 10))])
               else if list_string_eqb p (sentinel_folder ++ ["confidence_J_model_b.json"])%list
               then Loaded (JObj [("ptm", JNum (2 # 10))])
               else LoadIOError |}.

(** *** Sample tables *)

Definition no_folders : World :=
  {| is_dir := fun _ => false; is_file := fun _ => false;
     listdir := fun _ => []; load := fun _ => LoadIOError |}.

Definition experiments : DataFrame :=
  {| columns := ["foldname"; "yaml_file"];
     rows := [[("foldname", CStr "Foo"); ("yaml_file", CStr "Foo.yaml")]] |}.

(** Two replicates of the job [Foo]. *)
Definition two_replicates : DataFrame :=
  {| columns := ["filename"; "replicate"; "processing_time_sec"];
     rows := [[("filename", CStr "Foo_rep1.yaml"); ("replicate", CInt 1);
               ("processing_time_sec", CInt 12)];
              [("filename", CStr "Foo_rep2.yaml"); ("replicate", CInt 2);
               ("processing_time_sec", CInt 13)]] |}.

(** A run-record table with a line whose file name is missing. *)
Definition missing_filename : DataFrame :=
  {| columns := ["filename"; "replicate"; "processing_time_sec"];
     rows := [[("filename", CStr "Foo_rep1.yaml"); ("replicate", CInt 1);
               ("processing_time_sec", CInt 12)];
              [("filename", NaN); ("replicate", CInt 2);
               ("processing_time_sec", CInt 13)]] |}.

(** An experiment table that lists the job [Foo] twice. *)
Definition repeated_experiments : DataFrame :=
  {| columns := ["foldname"; "yaml_file"];
     rows := [[("foldname", CStr "Foo"); ("yaml_file", CStr "Foo.yaml")];
              [("foldname", CStr "Foo"); ("yaml_file", CStr "Foo.yaml")]] |}.

Definition one_replicate : DataFrame :=
  {| columns := ["filename"; "replicate"; "processing_time_sec"];
     rows := [[("filename", CStr "Foo_rep1.yaml"); ("replicate", CInt 1);
               ("processing_time_sec", CInt 12)]] |}.

(** Each replicate of [Foo] has its result folder, with one coordinate file. *)
Definition replicate_folders : World :=
  {| is_dir := fun p => list_string_eqb p (pred_folder example_args "Foo_rep1")
                        || list_string_eqb p (pred_folder example_args "Foo_rep2");
     is_file := fun p =>
                  list_string_eqb p (pred_folder example_args "Foo_rep1"
                                     ++ ["Foo_rep1_model_0.pdb"])%list
                  || list_string_eqb p (pred_folder example_args "Foo_rep2"
                                        ++ ["Foo_rep2_model_0.pdb"])%list;
     listdir := fun p =>
                  if list_string_eqb p (pred_folder example_args "Foo_rep1")
                  then ["Foo_rep1_model_0.pdb"]
                  else if list_string_eqb p (pred_folder example_args "Foo_rep2")
                  then ["Foo_rep2_model_0.pdb"]
                  else [];
     load := fun _ => LoadIOError |}.

(** The first replicate of [Foo] has a confidence document that is not JSON. *)
Definition broken_confidence : World :=
  {| is_dir := fun p => list_string_eqb p (pred_folder example_args "Foo_rep1");
     is_file := fun p =>
                  list_string_eqb p (pred_folder example_args "Foo_rep1"
                                     ++ ["confidence_Foo_rep1_model_0.json"])%list;
     listdir := fun p =>
                  if list_string_eqb p (pred_folder example_args "Foo_rep1")
                  then ["confidence_Foo_rep1_model_0.json"] else [];
     load := fun _ => LoadJSONDecodeError |}.

(** The first replicate of [Foo] has an affinity document whose bytes are not
    text: reading it raises [UnicodeDecodeError]. *)
Definition undecodable_affinity : World :=
  {| is_dir := fun p => list_string_eqb p (pred_folder example_args "Foo_rep1");
     is_file := fun p =>
                  list_string_eqb p (pred_folder example_args "Foo_rep1"
                                     ++ ["affinity_Foo_rep1.json"])%list;
     listdir := fun p =>
                  if list_string_eqb p (pred_folder example_args "Foo_rep1")
                  then ["affinity_Foo_rep1.json"] else [];
     load := fun _ => LoadOtherError "UnicodeDecodeError" |}.

(** In the result folder of the first replicate of [Foo], the entry
    [Foo_rep1_model_0.pdb] is a directory. *)
Definition pdb_is_a_folder : World :=
  {| is_dir := fun p => list_string_eqb p (pred_folder example_args "Foo_rep1")
                        || list_string_eqb p (pred_folder example_args "Foo_rep1"
                                              ++ ["Foo_rep1_model_0.pdb"])%list;
     is_file := fun _ => false;
     listdir := fun p =>
                  if list_string_eqb p (pred_folder example_args "Foo_rep1")
                  then ["Foo_rep1_model_0.pdb"] else [];
     load := fun _ => LoadIOError |}.

(** Three run records: a replicate of [Foo], a line without file name, and a
    replicate of [Bar], which the experiment table does not list. *)
Definition three_records : DataFrame :=
  {| columns := ["filename"; "replicate"; "processing_time_sec"];
     rows := [[("filename", CStr "Foo_rep1.yaml"); ("replicate", CInt 1);
               ("processing_time_sec", CInt 12)];
              [("filename", NaN); ("replicate", CInt 2);
               ("processing_time_sec", CInt 13)];
              [("filename", CStr "Bar_rep1.yaml"); ("replicate", CInt 1);
               ("processing_time_sec", CInt 14)]] |}.

(** An experiment table with a column of integers. *)
Definition counted_experiments : DataFrame :=
  {| columns := ["yaml_file"; "n"];
     rows := [[("yaml_file", CStr "Foo.yaml"); ("n", CInt 5)]] |}.

End AggregateJob.

(** ** run_boltz.py *)

Module RunBoltz.

(** A directory entry: a file with its content, or a directory. *)
Inductive entry : Type :=
| File (content : string)
| Dir (children : list (string * entry)).

Definition isfile (e : entry) : bool :=
  match e with File _ => true | Dir _ => false end.

(** [f.endswith(('.yaml', '.yml'))] *)
Definition is_yaml_name (f : string) : bool :=
  Str.endswith f ".yaml" || Str.endswith f ".yml".

(** [os.makedirs(replicates_dir, exist_ok=True)] inside the input directory. *)
Definition makedirs_replicates (input_dir : Dict.t entry) : M (Dict.t entry) :=
  match Dict.get "replicates" input_dir with
  | None => ret (Dict.set "replicates" (Dir []) input_dir)
  | Some (Dir _) => ret input_dir
  | Some (File _) => raise FileExistsError
  end.

(** [range(1, n + 1)] *)
Definition range1 (n : Z) : list nat := seq 1 (Z.to_nat n).

(** [shutil.copy(src, dst)] into the replicates directory: a destination that is
    a directory receives the file under the name of the source. *)
Definition copy (content : string) (src_name dst_name : string)
  (replicates : Dict.t entry) : M (Dict.t entry) :=
  match Dict.get dst_name replicates with
  | Some (Dir sub) =>
      match Dict.get src_name sub with
      | Some (Dir _) => raise (OtherError "IsADirectoryError")
      | _ => ret (Dict.set dst_name (Dir (Dict.set src_name (File content) sub)) replicates)
      end
  | _ => ret (Dict.set dst_name (File content) replicates)
  end.

Definition replicate_name (file : string) (rep : nat) : string :=
  let '(base, ext) := Str.splitext file in
  base ++ "_rep" ++ Str.of_nat rep ++ ext.

(** The documents of a directory: the names with a document extension that are
    files, with their content, in listing order. *)
Definition yaml_files (dir : Dict.t entry) : list (string * string) :=
  flat_map (fun kv => match snd kv with
                      | File content =>
                          if is_yaml_name (fst kv) then [(fst kv, content)] else []
                      | Dir _ => []
                      end) dir.

Definition duplicate_file (num_replicates : Z) (replicates : Dict.t entry)
  (file : string * string) : M (Dict.t entry) :=
  foldM (fun reps rep => copy (snd file) (fst file) (replicate_name (fst file) rep) reps)
        (range1 num_replicates) replicates.

(** [duplicate_yaml_files]: the input directory is given by its entries and the
    result is the directory afterwards. *)
Definition duplicate_yaml_files (input_dir : Dict.t entry) (num_replicates : Z)
  : M (Dict.t entry) :=
  dir <- makedirs_replicates input_dir ;;
  match Dict.get "replicates" dir with
  | Some (Dir replicates) =>
      replicates' <- foldM (duplicate_file num_replicates) (yaml_files dir) replicates ;;
      ret (Dict.set "replicates" (Dir replicates') dir)
  | _ => raise (OtherError "NotADirectoryError")
  end.

(** [re.search(r"_rep(\d+)", filename)] *)
Definition rep_here (s : string) : option string :=
  match Str.strip_prefix "_rep" s with
  | Some u => let '(ds, _) := Str.span Str.is_digit u in
              if Str.is_empty ds then None else Some ds
  | None => None
  end.

Fixpoint search_rep (s : string) : option string :=
  match rep_here s with
  | Some ds => Some ds
  | None => match s with
            | EmptyString => None
            | String _ s' => search_rep s'
            end
  end.

Definition extract_replicate_number (filename : string) : N :=
  match search_rep filename with
  | Some ds => Str.int ds
  | None => 1%N
  end.

(** What [subprocess.run(cmd, timeout=..., check=True)] does: the tool exits with
    a status, the timeout expires, or the call raises something else (the tool
    cannot be started, for instance). *)
Inductive proc_result : Type :=
| Exited (returncode : Z)
| TimeoutExpired
| ProcessError (name : string).

(** One invocation as the runner sees it: the result of the call, the
    wall-clock seconds between the two readings of the clock around it, and
    whether the call has made the output folder, which only the tool makes. *)
Record Run : Type := mkRun {
  proc : proc_result;
  wall : PyFloat.float;
  makes_out_dir : bool
}.

(** What the run meets outside itself: the external tool, which for a job file
    and the timeout passed tells what happens (the command line built from the
    options is not modelled); the order in which [os.listdir] gives the names
    of a directory, as a rank of the names; and whether the output folder
    exists before the run. *)
Record Env : Type := mkEnv {
  tool :> string -> option PyFloat.float -> Run;
  listing_rank : string -> N;
  out_dir_exists : bool
}.

Record Args : Type := mkArgs {
  max_time : option PyFloat.float;
  num_replicates : Z
}.

(** [args.max_time] as a condition: set and not zero. *)
Definition max_time_set (args : Args) : option PyFloat.float :=
  match max_time args with
  | Some t => if PyFloat.nonzero t then Some t else None
  | None => None
  end.

(** The timeout passed to the tool: [args.max_time * 60] when a maximum time is
    set. *)
Definition timeout_of (args : Args) : option PyFloat.float :=
  option_map PyFloat.times60 (max_time_set args).

(** A line of the run-record table. *)
Record RunRecord : Type := mkRecord {
  filename : string;
  replicate : N;
  processing_time_sec : PyFloat.float
}.

(** One turn of the loop over the job files. *)
Definition run_job (env : Env) (args : Args) (job_file : string) : M RunRecord :=
  let replicate_number := extract_replicate_number job_file in
  let run := env job_file (timeout_of args) in
  elapsed <- match proc run with
             | Exited 0 => ret (wall run)
             | Exited _ =>
                 print ("Job " ++ job_file ++ " failed with error. Moving to next file.") ;;;
                 ret (wall run)
             | TimeoutExpired =>
                 print ("Job " ++ job_file ++ " exceeded max_time. Moving to next file.") ;;;
                 ret (match max_time_set args with
                      | Some t => PyFloat.times60 t
                      | None => wall run
                      end)
             | ProcessError name => raise (OtherError name)
             end ;;
  ret {| filename := job_file;
         replicate := replicate_number;
         processing_time_sec := PyFloat.round2 elapsed |}.

(** [os.listdir(dir)]: the entries of the directory in the order of their
    ranks. *)
Definition listdir (env : Env) (dir : Dict.t entry) : Dict.t entry :=
  sorted_by (fun kv => listing_rank env (fst kv)) dir.

(** The names of the job files in the replicates directory, in the order of its
    listing. *)
Definition job_files (env : Env) (dir : Dict.t entry) : list string :=
  match Dict.get "replicates" dir with
  | Some (Dir replicates) => map fst (yaml_files (listdir env replicates))
  | _ => []
  end.

(** The output folder exists once the jobs have been run: it was there before,
    or a call of the tool has made it. *)
Definition out_dir_ready (env : Env) (args : Args) (jobs : list string) : bool :=
  out_dir_exists env
  || existsb (fun job => makes_out_dir (env job (timeout_of args))) jobs.

(** [open(csv_filepath, mode='w')] in the output folder, which the run itself
    never makes. *)
Definition open_records (env : Env) (args : Args) (jobs : list string) : M unit :=
  if out_dir_ready env args jobs then ret tt
  else raise (OtherError "FileNotFoundError").

(** The run: the input directory afterwards and the lines written to the record
    file. *)
Definition main (env : Env) (args : Args) (input_dir : Dict.t entry)
  : M (Dict.t entry * list RunRecord) :=
  dir <- duplicate_yaml_files input_dir (num_replicates args) ;;
  print "Replicate files created in: replicates" ;;;
  let job_files := job_files env dir in
  records <- mapM (run_job env args) job_files ;;
  open_records env args job_files ;;;
  print "CSV record file saved at boltz_dock_records.csv" ;;;
  ret (dir, records).

(** *** Readings used in the statements *)

(** The invocation ended in one of the three ways the runner handles: the tool
    exited, with status zero or not, or the timeout expired. *)
Definition handled (env : Env) (args : Args) (job_file : string) : bool :=
  match proc (env job_file (timeout_of args)) with
  | ProcessError _ => false
  | _ => true
  end.

(** The seconds recorded for a job, before rounding: the cap when the timeout
    expired and a maximum time is set, the measured time otherwise. *)
Definition recorded_seconds (env : Env) (args : Args) (job_file : string) : PyFloat.float :=
  let run := env job_file (timeout_of args) in
  match proc run, max_time_set args with
  | TimeoutExpired, Some t => PyFloat.times60 t
  | _, _ => wall run
  end.

Definition record_of (env : Env) (args : Args) (job_file : string) : RunRecord :=
  {| filename := job_file;
     replicate := extract_replicate_number job_file;
     processing_time_sec := PyFloat.round2 (recorded_seconds env args job_file) |}.

(** The replicate files expected for the documents [docs]. *)
Definition expected_replicates (docs : list (string * string)) (n : Z)
  : list (string * entry) :=
  flat_map (fun file => map (fun rep => (replicate_name (fst file) rep, File (snd file)))
                            (range1 n)) docs.

(** A directory that holds files only. *)
Definition only_files (reps : Dict.t entry) : Prop :=
  Forall (fun kv : string * entry => isfile (snd kv) = true) reps.

(** *** Sample runs *)

Import PrimFloat.

Definition sample_args : Args := {| max_time := None; num_replicates := 1 |}.

(** The tool succeeds after ten seconds; the tool fails after ten seconds.  The
    tool makes the output folder, and names are listed in one rank. *)
Definition env_success : Env :=
  {| tool := fun _ _ => {| proc := Exited 0; wall := 10%float; makes_out_dir := true |};
     listing_rank := fun _ => 0%N;
     out_dir_exists := false |}.

Definition env_failure : Env :=
  {| tool := fun _ _ => {| proc := Exited 1; wall := 10%float; makes_out_dir := true |};
     listing_rank := fun _ => 0%N;
     out_dir_exists := false |}.

(** The tool cannot be started. *)
Definition env_no_tool : Env :=
  {| tool := fun _ _ => {| proc := ProcessError "PermissionError"; wall := 0%float;
                           makes_out_dir := false |};
     listing_rank := fun _ => 0%N;
     out_dir_exists := false |}.

Definition ten_seconds : RunRecord :=
  {| filename := "J_rep1.yaml"; replicate := 1; processing_time_sec := 10%float |}.

Definition sample_dir : Dict.t entry := [("J.yaml", File "version: 1")].

(** A directory whose replicates folder still holds a file of an earlier run. *)
Definition stale_dir : Dict.t entry :=
  [("a.yaml", File "version: 1");
   ("replicates", Dir [("a_rep2.yaml", File "version: 0")])].

(** A directory whose only document is the hidden file [.yaml]. *)
Definition hidden_dir : Dict.t entry := [(".yaml", File "version: 1")].

(** Three documents; the listing of the replicates gives them in the reverse
    of the order they were copied in.  The first job succeeds, the second fails
    and the third runs into the time limit of 0.06875 minutes, that is 4.125
    seconds as the product is computed. *)
Definition three_docs : Dict.t entry :=
  [("a.yaml", File "a"); ("b.yaml", File "b"); ("c.yaml", File "c")].

Definition short_limit : Args := {| max_time := Some 0.06875%float; num_replicates := 1 |}.

Definition zero_limit : Args := {| max_time := Some 0%float; num_replicates := 1 |}.

Definition mixed_env : Env :=
  {| tool := fun job _ =>
               if String.eqb job "a_rep1.yaml"
               then {| proc := Exited 0; wall := 10.004%float; makes_out_dir := true |}
               else if String.eqb job "b_rep1.yaml"
               then {| proc := Exited 1; wall := 3.5%float; makes_out_dir := true |}
               else {| proc := TimeoutExpired; wall := 5%float; makes_out_dir := true |};
     listing_rank := fun name => if String.eqb name "a_rep1.yaml" then 2%N
                                 else if String.eqb name "b_rep1.yaml" then 1%N
                                 else 0%N;
     out_dir_exists := false |}.

(** The same runs with the output folder there from the start. *)
Definition with_out_dir (env : Env) : Env :=
  {| tool := tool env; listing_rank := listing_rank env; out_dir_exists := true |}.

(** The same runs with a tool that makes no output folder. *)
Definition without_out_dir (env : Env) : Env :=
  {| tool := fun job timeout =>
               {| proc := proc (env job timeout);
                  wall := wall (env job timeout);
                  makes_out_dir := false |};
     listing_rank := listing_rank env;
     out_dir_exists := false |}.

(** The record of the job that ran into the limit: 4.125 goes to 4.12. *)
Definition capped_record : RunRecord :=
  {| filename := "c_rep1.yaml"; replicate := 1; processing_time_sec := 4.12%float |}.

Definition mixed_records : list RunRecord :=
  [capped_record;
   {| filename := "b_rep1.yaml"; replicate := 1; processing_time_sec := 3.5%float |};
   {| filename := "a_rep1.yaml"; replicate := 1; processing_time_sec := 10%float |}].

End RunBoltz.

(** ** write_yamls.py *)

Module WriteYamls.

(** The values a job document is made of. *)
Inductive pyval : Type :=
| PCell (c : cell)
| PStr (s : string)
| PQuoted (s : string)
| PBool (b : bool)
| PFlow (items : list string)
| PJson (j : json)
| PList (items : list pyval)
| PDict (d : list (string * pyval)).

(** [entity_pattern.match(col).group(1)] for [entity_(\d+)_type], matched at the
    start of the label only. *)
Definition entity_index (col : string) : option string :=
  match Str.strip_prefix "entity_" col with
  | Some u =>
      let '(ds, v) := Str.span Str.is_digit u in
      if negb (Str.is_empty ds) && Str.startswith v "_type" then Some ds else None
  | None => None
  end.

Definition entity_number (col : string) : N :=
  match entity_index col with
  | Some ds => Str.int ds
  | None => 0%N
  end.

Definition entity_cols (row : Dict.t cell) : list string :=
  filter (fun col => match entity_index col with Some _ => true | None => false end)
         (Dict.keys row).

(** [row[label]] *)
Definition getitem (row : Dict.t cell) (label : string) : M cell :=
  match Dict.get label row with
  | Some c => ret c
  | None => raise (KeyError label)
  end.

(** [row.get(label)] when it is not missing. *)
Definition present (row : Dict.t cell) (label : string) : option cell :=
  match Dict.get label row with
  | Some c => if isna c then None else Some c
  | None => None
  end.

(** A cell that holds a structured payload: nothing when the label is absent, the
    cell missing or blank; [.strip()] fails on a cell that is not text. *)
Definition payload (row : Dict.t cell) (label : string) : M (option string) :=
  match Dict.get label row with
  | None | Some NaN => ret None
  | Some (CStr s) => ret (if Str.blank s then None else Some s)
  | Some _ => raise AttributeError
  end.

Definition set_if {V} (k : string) (o : option V) (d : Dict.t V) : Dict.t V :=
  match o with
  | Some v => Dict.set k v d
  | None => d
  end.

(** The label [entity_<index>_<name>]. *)
Definition field_label (entity_index name : string) : string :=
  "entity_" ++ entity_index ++ "_" ++ name.

(** [FlowStyleList(chain_ids) if len(chain_ids) > 1 else chain_ids[0]] *)
Definition id_value (chain_ids : list string) : pyval :=
  match chain_ids with
  | _ :: _ :: _ => PFlow chain_ids
  | first :: _ => PStr first
  | [] => PStr EmptyString
  end.

(** The fields of an entity that come before its modifications. *)
Definition entity_head (row : Dict.t cell) (entity_index : string) (id_cell : cell)
  : Dict.t pyval :=
  let field := field_label entity_index in
  let chain_ids := Str.split "," (str_of_cell id_cell) in
  let entity_data := [("id", id_value chain_ids)] in
  let entity_data :=
    set_if "sequence" (option_map PCell (present row (field "sequence"))) entity_data in
  let entity_data :=
    set_if "smiles"
           (option_map (fun c => PQuoted (str_of_cell c)) (present row (field "smiles")))
           entity_data in
  let entity_data :=
    set_if "ccd" (option_map PCell (present row (field "ccd"))) entity_data in
  let entity_data :=
    set_if "msa" (option_map PCell (present row (field "msa"))) entity_data in
  set_if "cyclic"
         (match present row (field "cyclic") with
          | Some c => if truthy c then Some (PBool true) else None
          | None => None
          end)
         entity_data.

Section Decoder.

(** [json.loads]: the document, or nothing for [JSONDecodeError]. *)
Variable json_loads : string -> option json.

(** One turn of the loop over the entity columns: the entity, or nothing when
    its type is missing or blank. *)
Definition entity (row : Dict.t cell) (type_key : string) : M (option pyval) :=
  entity_type <- getitem row type_key ;;
  match entity_type with
  | NaN => ret None
  | CStr type_name =>
      if Str.blank type_name then ret None
      else
        let entity_index := match entity_index type_key with
                            | Some ds => ds
                            | None => EmptyString
                            end in
        id_cell <- getitem row (field_label entity_index "id") ;;
        let entity_data := entity_head row entity_index id_cell in
        let mod_col := field_label entity_index "modifications" in
        text <- payload row mod_col ;;
        entity_data <- match text with
                       | Some s =>
                           match json_loads s with
                           | Some j => ret (Dict.set "modifications" (PJson j) entity_data)
                           | None =>
                               print ("Warning: Could not parse JSON in column '" ++ mod_col
                                      ++ "'. Skipping modifications for this entity.") ;;;
                               ret entity_data
                           end
                       | None => ret entity_data
                       end ;;
        ret (Some (PDict [(type_name, PDict entity_data)]))
  | _ => raise AttributeError
  end.

Definition add_entity (row : Dict.t cell) (sequences : list pyval) (type_key : string)
  : M (list pyval) :=
  e <- entity row type_key ;;
  match e with
  | Some obj => ret (sequences ++ [obj])%list
  | None => ret sequences
  end.

(** One turn of the loop over the constraint columns. *)
Definition add_constraints (row : Dict.t cell) (constraints : list pyval) (key : string)
  : M (list pyval) :=
  text <- payload row key ;;
  match text with
  | Some s =>
      match json_loads s with
      | Some (JArr items) =>
          ret (constraints
               ++ map (fun item => PDict [(Str.rstrip "s" key, PJson item)]) items)%list
      | Some _ => ret constraints
      | None =>
          print ("Warning: Could not parse JSON in constraint column '" ++ key
                 ++ "'. Skipping.") ;;;
          ret constraints
      end
  | None => ret constraints
  end.

Definition constraint_keys : list string := ["bonds"; "pockets"; "contacts"].

Definition set_nonempty (k : string) (l : list pyval) (d : Dict.t pyval) : Dict.t pyval :=
  match l with
  | [] => d
  | _ => Dict.set k (PList l) d
  end.

Definition process_row (row : Dict.t cell) : M (Dict.t pyval) :=
  let entity_keys_sorted := sorted_by entity_number (entity_cols row) in
  sequences <- foldM (add_entity row) entity_keys_sorted [] ;;
  let yaml_dict := set_nonempty "sequences" sequences [] in
  constraints <- foldM (add_constraints row) constraint_keys [] ;;
  let yaml_dict := set_nonempty "constraints" constraints yaml_dict in
  let properties :=
    match present row "affinity_binder" with
    | Some c => [PDict [("affinity", PDict [("binder", PCell c)])]]
    | None => []
    end in
  ret (set_nonempty "properties" properties yaml_dict).

(** The name of the file a row is written to. *)
Definition yaml_filename (row : Dict.t cell) (yaml_dict : Dict.t pyval) : M string :=
  foldname <- payload row "foldname" ;;
  filename_base <-
    match foldname with
    | Some s => ret s
    | None =>
        let n := match Dict.get "sequences" yaml_dict with
                 | Some (PList l) => length l
                 | _ => 0
                 end in
        ids <- mapM (fun i => c <- getitem row ("entity_" ++ Str.of_nat (i + 1) ++ "_id") ;;
                              ret (str_of_cell c))
                    (seq 0 n) ;;
        ret (Str.join "_" ids)
    end ;;
  ret (filename_base ++ ".yaml").

(** [open(yaml_path, 'w')] for the document of a name: the exception raised
    when the file cannot be opened, as when the name leads into a folder that
    does not exist. *)
Variable open_error : string -> option exn.

Definition write_document (name : string) : M unit :=
  match open_error name with
  | Some e => raise e
  | None => ret tt
  end.

(** One turn of the loop of [main]: the document of a row, written under its
    name. *)
Definition write_row (row : Dict.t cell) : M (string * Dict.t pyval) :=
  yaml_dict <- process_row row ;;
  name <- yaml_filename row yaml_dict ;;
  write_document name ;;;
  ret (name, yaml_dict).

(** The loop of [main] over the rows of the table: the documents written, with
    their file names, in order. *)
Definition main (df : list (Dict.t cell)) : M (list (string * Dict.t pyval)) :=
  mapM write_row df.

(** *** Readings used in the statements *)

(** The entity columns whose type cell is text that is not blank, in the order
    they are processed. *)
Definition retained (row : Dict.t cell) (type_key : string) : bool :=
  match Dict.get type_key row with
  | Some (CStr type_name) => negb (Str.blank type_name)
  | _ => false
  end.

Definition retained_cols (row : Dict.t cell) : list string :=
  filter (retained row) (sorted_by entity_number (entity_cols row)).

Definition index_of (type_key : string) : string :=
  match entity_index type_key with
  | Some ds => ds
  | None => EmptyString
  end.

(** The text of a payload cell, when it is text that is not blank. *)
Definition payload_text (row : Dict.t cell) (label : string) : option string :=
  match Dict.get label row with
  | Some (CStr s) => if Str.blank s then None else Some s
  | _ => None
  end.

(** The cell under a label is absent, missing or text. *)
Definition payload_typed (row : Dict.t cell) (label : string) : bool :=
  match Dict.get label row with
  | None | Some NaN | Some (CStr _) => true
  | _ => false
  end.

(** The object emitted for a retained entity column. *)
Definition entity_object (row : Dict.t cell) (type_key : string) : pyval :=
  let idx := index_of type_key in
  let head := entity_head row idx
                (match Dict.get (field_label idx "id") row with
                 | Some c => c
                 | None => NaN
                 end) in
  let data := set_if "modifications"
                (match payload_text row (field_label idx "modifications") with
                 | Some s => option_map PJson (json_loads s)
                 | None => None
                 end) head in
  PDict [(match Dict.get type_key row with
          | Some (CStr type_name) => type_name
          | _ => EmptyString
          end, PDict data)].

(** The constraints a column contributes. *)
Definition constraint_items (row : Dict.t cell) (key : string) : list pyval :=
  match payload_text row key with
  | Some s =>
      match json_loads s with
      | Some (JArr items) => map (fun item => PDict [(Str.rstrip "s" key, PJson item)]) items
      | _ => []
      end
  | None => []
  end.

(** A row is well typed: the type cells of its entity columns are missing or
    text; each retained entity has an identifier column, and its modifications
    cell, if any, is missing or text; so are the constraint cells. *)
Definition row_typed (row : Dict.t cell) : bool :=
  List.forallb (payload_typed row) (entity_cols row)
  && List.forallb (fun col => Dict.mem (field_label (index_of col) "id") row
                              && payload_typed row (field_label (index_of col) "modifications"))
                  (retained_cols row)
  && List.forallb (payload_typed row) constraint_keys.

(** A well-typed row can be named: its fold name, if any, is missing or text, and
    without a fold name the identifier columns 1..n exist, n being the number of
    retained entities. *)
Definition row_ok (row : Dict.t cell) : bool :=
  row_typed row
  && payload_typed row "foldname"
  && (match payload_text row "foldname" with Some _ => true | None => false end
      || List.forallb (fun i => Dict.mem ("entity_" ++ Str.of_nat (i + 1) ++ "_id") row)
                      (seq 0 (length (retained_cols row)))).

End Decoder.

(** *** Sample rows *)

(** A decoder for the examples: it knows the texts they use and rejects every
    other text. *)
Definition sample_loads (s : string) : option json :=
  if String.eqb s "[1, 2]" then Some (JArr [JNum 1; JNum 2])
  else if String.eqb s "[3]" then Some (JArr [JNum 3])
  else None.

(** A row with one protein on two chains, an empty second entity, and a bonds
    cell that is not JSON. *)
Definition sample_row : Dict.t cell :=
  [("foldname", CStr "job1");
   ("entity_1_type", CStr "protein"); ("entity_1_id", CStr "A,B");
   ("entity_1_sequence", CStr "MKV"); ("entity_1_smiles", NaN);
   ("entity_2_type", NaN); ("entity_2_id", NaN);
   ("bonds", CStr "[oops"); ("pockets", CStr "[1, 2]"); ("contacts", CStr "[3]");
   ("affinity_binder", NaN)].

(** A row whose columns come in another order than the numbers of its
    entities: the tenth before the second, and a third that is blank. *)
Definition unordered_row : Dict.t cell :=
  [("foldname", CStr "job2");
   ("entity_10_type", CStr "protein"); ("entity_10_id", CStr "A,B");
   ("entity_10_sequence", CStr "MKV");
   ("entity_2_type", CStr "ligand"); ("entity_2_id", CStr "C");
   ("entity_2_smiles", CStr "CC(=O)O"); ("entity_2_sequence", NaN);
   ("entity_3_type", CStr " "); ("entity_3_id", CStr "D")].

(** A row with a protein and a ligand whose identifier column is not in the
    table. *)
Definition headless_ligand_row : Dict.t cell :=
  [("foldname", CStr "job3");
   ("entity_1_type", CStr "protein"); ("entity_1_id", CStr "A");
   ("entity_1_sequence", CStr "MKV");
   ("entity_2_type", CStr "ligand"); ("entity_2_smiles", CStr "CC(=O)O")].

(** Rows without any entity: the fold name is a number; the bonds cell is a
    number; the fold name leads into a folder. *)
Definition numbered_row : Dict.t cell :=
  [("foldname", CInt 7); ("entity_1_type", NaN); ("entity_1_id", NaN)].

Definition numbered_bonds_row : Dict.t cell :=
  [("foldname", CStr "job4"); ("entity_1_type", NaN); ("bonds", CInt 7)].

Definition nested_row : Dict.t cell :=
  [("foldname", CStr "a/b"); ("entity_1_type", NaN); ("entity_1_id", NaN)].

(** Every document can be opened; a document can be opened unless its name
    leads into a folder, none being there. *)
Definition always_open (name : string) : option exn := None.

Definition flat_folder (name : string) : option exn :=
  if Str.contains "/" name then Some (OtherError "FileNotFoundError") else None.

(** A row without any entity. *)
Definition empty_row : Dict.t cell :=
  [("foldname", NaN); ("entity_1_type", NaN); ("entity_1_id", NaN);
   ("bonds", NaN); ("pockets", NaN); ("contacts", NaN); ("affinity_binder", NaN)].

(** *** What is asked of an emitted entity *)

Definition optional_fields : list string :=
  ["sequence"; "smiles"; "ccd"; "msa"; "cyclic"; "modifications"].

(** The object emitted for an entity column [entity_<digits>_type...] carries
    the type of the column as its only key.  Its identifier, the text of the
    cell under [entity_<digits>_id], is one scalar when the text holds no
    comma, and the list of the tokens between the commas, in order, when it
    holds one or more.  An optional field whose cell is absent or missing is
    absent from it; no field holds a missing cell; a present sequence is
    copied. *)
Definition entity_spec (row : Dict.t cell) (type_key : string) (obj : pyval) : Prop :=
  exists ds rest type_name id_cell data,
    type_key = "entity_" ++ ds ++ "_type" ++ rest
    /\ ds <> EmptyString
    /\ Str.forallb Str.is_digit ds = true
    /\ Dict.get type_key row = Some (CStr type_name)
    /\ Str.blank type_name = false
    /\ Dict.get ("entity_" ++ ds ++ "_id") row = Some id_cell
    /\ obj = PDict [(type_name, PDict data)]
    /\ (Str.lacks "," (str_of_cell id_cell) = true ->
        Dict.get "id" data = Some (PStr (str_of_cell id_cell)))
    /\ (forall tokens,
          2 <= length tokens ->
          Forall (fun t => Str.lacks "," t = true) tokens ->
          str_of_cell id_cell = Str.join "," tokens ->
          Dict.get "id" data = Some (PFlow tokens))
    /\ (forall name, In name optional_fields ->
                     Dict.get ("entity_" ++ ds ++ "_" ++ name) row = None
                     \/ Dict.get ("entity_" ++ ds ++ "_" ++ name) row = Some NaN ->
                     Dict.get name data = None)
    /\ (forall name v, Dict.get name data = Some v -> v <> PCell NaN)
    /\ (forall c, Dict.get ("entity_" ++ ds ++ "_sequence") row = Some c ->
                  c <> NaN ->
                  Dict.get "sequence" data = Some (PCell c)).

End WriteYamls.

(** ** Further readings used in the statements *)

Module Readings.

(** A document name in which [os.path.splitext] finds an extension. *)
Definition has_ext (file : string) : bool :=
  negb (Str.is_empty (snd (Str.splitext file))).

(** The replicates directory of an input directory is absent, or is a directory
    that holds files only. *)
Definition replicates_ready (input_dir : Dict.t RunBoltz.entry) : bool :=
  match Dict.get "replicates" input_dir with
  | None => true
  | Some (RunBoltz.Dir old) => List.forallb (fun kv => RunBoltz.isfile (snd kv)) old
  | Some (RunBoltz.File _) => false
  end.

(** The files of the replicates directory before a run. *)
Definition replicates_before (input_dir : Dict.t RunBoltz.entry) : Dict.t RunBoltz.entry :=
  match Dict.get "replicates" input_dir with
  | Some (RunBoltz.Dir old) => old
  | _ => []
  end.

(** The metrics gathered from the confidence documents of a job, when each is a
    mapping, and the mapping taken from its affinity document: empty when there
    is none or when it cannot be read or parsed. *)
Definition metrics_of (w : AggregateJob.World) (args : AggregateJob.Args)
  (job_id : string) : Dict.t json :=
  Dict.update [] (flat_map (AggregateJob.model_entries w (AggregateJob.pred_folder args job_id))
                           (AggregateJob.confidence_files w args job_id)).

Definition affinity_of (w : AggregateJob.World) (args : AggregateJob.Args)
  (job_id : string) : Dict.t json :=
  if AggregateJob.is_file w (AggregateJob.affinity_path args job_id) then
    match AggregateJob.load w (AggregateJob.affinity_path args job_id) with
    | AggregateJob.Loaded (JObj d) => d
    | _ => []
    end
  else [].

(** A row of cells as a summary row. *)
Definition as_values (row : Dict.t cell) : Dict.t AggregateJob.value :=
  map (fun kv => (fst kv, AggregateJob.VCell (snd kv))) row.

(** The summary row of a joined row whose file name is [s]: the row as it is
    when the job has no result folder, and otherwise the row updated with the
    metrics of the confidence documents and then with the affinity mapping. *)
Definition summary_data (w : AggregateJob.World) (args : AggregateJob.Args)
  (s : string) (m : Dict.t cell) : Dict.t AggregateJob.value :=
  let job_id := AggregateJob.job_id_of s in
  if AggregateJob.is_dir w (AggregateJob.pred_folder args job_id)
  then Dict.update
         (Dict.update (as_values m)
            (map (fun kv => (fst kv, AggregateJob.VJson (snd kv))) (metrics_of w args job_id)))
         (map (fun kv => (fst kv, AggregateJob.VJson (snd kv))) (affinity_of w args job_id))
  else as_values m.

(** The summary rows of one joined row, and of one run record: none when the
    file name is missing. *)
Definition row_summary (w : AggregateJob.World) (args : AggregateJob.Args)
  (m : Dict.t cell) : list (Dict.t AggregateJob.value) :=
  match AggregateJob.filename_of m with
  | CStr s => [summary_data w args s m]
  | _ => []
  end.

Definition summary_rows_of (w : AggregateJob.World) (args : AggregateJob.Args)
  (df_yaml df_boltz : DataFrame) (b : Dict.t cell) : list (Dict.t AggregateJob.value) :=
  match AggregateJob.filename_of b with
  | CStr s => map (summary_data w args s) (AggregateJob.joined_for df_yaml df_boltz b)
  | _ => []
  end.

(** The warning printed for the joined row of index [idx] when its file name is
    missing. *)
Definition skip_warning (idx : nat) : string :=
  "Warning: Skipping row " ++ Str.of_nat idx ++ " due to missing 'filename' in Boltz CSV.".

(** A payload cell whose text the decoder rejects. *)
Definition rejected (json_loads : string -> option json) (row : Dict.t cell)
  (label : string) : bool :=
  match WriteYamls.payload_text row label with
  | Some s => match json_loads s with None => true | Some _ => false end
  | None => false
  end.

(** The label of the modifications column of an entity column. *)
Definition modifications_of (type_key : string) : string :=
  WriteYamls.field_label (WriteYamls.index_of type_key) "modifications".

(** The two warnings of [process_row]. *)
Definition modifications_warning (type_key : string) : string :=
  "Warning: Could not parse JSON in column '" ++ modifications_of type_key
  ++ "'. Skipping modifications for this entity.".

Definition constraint_warning (key : string) : string :=
  "Warning: Could not parse JSON in constraint column '" ++ key ++ "'. Skipping.".

(** The folders of the copy phase and the ending of the names each receives. *)
Definition bucket_endings : list (string * string) :=
  [("final_pdbs", ".pdb"); ("final_pae", ".npz"); ("final_plddt", ".npz");
   ("final_confidence_json", ".json"); ("final_affinity_json", ".json");
   ("final_pre_affinity", ".npz"); ("final_pde", ".npz")].

(** The two tables share no label, [base_name] apart. *)
Definition disjoint_labels (df_yaml df_boltz : DataFrame) : bool :=
  List.forallb (fun c => String.eqb c "base_name" || negb (string_mem c (columns df_yaml)))
               (columns df_boltz).

(** Some run record has no experiment row with its base identifier. *)
Definition unmatched (df_yaml df_boltz : DataFrame) : bool :=
  existsb (fun b => List.forallb (fun y => negb (cell_eqb (AggregateJob.boltz_base b)
                                                          (AggregateJob.yaml_base y)))
                                 (rows df_yaml))
          (rows df_boltz).

(** A cell of the experiment table as the join gives it: an integer of a column
    of integers is a floating-point number once some run record is unmatched. *)
Definition joined_cell (df_yaml df_boltz : DataFrame) (label : string) (c : cell) : cell :=
  if unmatched df_yaml df_boltz && AggregateJob.int_column df_yaml label
  then AggregateJob.as_float c else c.

(** The name of the document of a row: its fold name when it has one, and
    otherwise the identifier cells of the columns [entity_1_id] to
    [entity_<n>_id] joined by [_], [n] being the number of retained entities. *)
Definition document_name (row : Dict.t cell) : string :=
  match WriteYamls.payload_text row "foldname" with
  | Some s => s ++ ".yaml"
  | None =>
      Str.join "_"
        (map (fun i => str_of_cell (AggregateJob.cell_of ("entity_" ++ Str.of_nat (i + 1) ++ "_id") row))
             (seq 0 (length (WriteYamls.retained_cols row))))
      ++ ".yaml"
  end.

(** The document of the row can be opened for writing. *)
Definition opens (open_error : string -> option exn) (row : Dict.t cell) : bool :=
  match open_error (document_name row) with
  | Some _ => false
  | None => true
  end.

(** The loop over the entity columns passes the column: its type cell is
    missing or text, and when it is retained the row has its identifier column
    and its modifications cell, if any, is missing or text. *)
Definition entity_passes (row : Dict.t cell) (col : string) : bool :=
  WriteYamls.payload_typed row col
  && (negb (WriteYamls.retained row col)
      || (Dict.mem (WriteYamls.field_label (WriteYamls.index_of col) "id") row
          && WriteYamls.payload_typed row
               (WriteYamls.field_label (WriteYamls.index_of col) "modifications"))).

(** The cell is neither missing nor text. *)
Definition not_text (c : cell) : bool :=
  match c with NaN | CStr _ => false | _ => true end.

End Readings.

(** ** write_yamls.py: the table written with the documents *)

Module WriteYamlsTable.
Section Decoder.

Variable json_loads : string -> option json.
Variable open_error : string -> option exn.

(** [df.to_csv(args.csv_out, index=False)]: the exception raised when the table
    cannot be saved. *)
Variable to_csv_error : option exn.

Definition to_csv (df : DataFrame) : M unit :=
  match to_csv_error with
  | Some e => raise e
  | None => ret tt
  end.

(** The loop of [main] over the table read and the table saved after it: the
    table read, with the names of the documents in its [yaml_file] column. *)
Definition main (df : DataFrame)
  : M (list (string * Dict.t WriteYamls.pyval) * DataFrame) :=
  (written <- WriteYamls.main json_loads open_error (rows df) ;;
   let yaml_file_names := map fst written in
   let df := AggregateJob.set_column df "yaml_file" (map CStr yaml_file_names) in
   to_csv df ;;;
   ret (written, df))%py.

End Decoder.
End WriteYamlsTable.


(** ** run_boltz.py: the command line *)

Module RunBoltzCommand.

(** What [cmd += [flag, value]] under [if value:] adds, for a text that may be
    absent. *)
Definition if_text (flag : string) (value : option string) : list string :=
  match value with
  | Some v => if Str.is_empty v then [] else [flag; v]
  | None => []
  end.

(** What [cmd += [flag, str(value)]] under [if value:] adds, for an integer that
    may be absent. *)
Definition if_nonzero (flag : string) (value : option Z) : list string :=
  match value with
  | Some z => if (z =? 0)%Z then [] else [flag; Str.of_Z z]
  | None => []
  end.

(** What [cmd += [flag, str(value)]] under [if value is not None:] adds. *)
Definition if_given {A} (str : A -> string) (flag : string) (value : option A)
  : list string :=
  match value with
  | Some v => [flag; str v]
  | None => []
  end.

(** What [cmd.append(flag)] under [if value:] adds, for a boolean. *)
Definition if_true (flag : string) (value : bool) : list string :=
  if value then [flag] else [].

Section Floats.

(** Floating-point numbers and their [str]. *)
Context {float : Type}.
Variable str_of_float : float -> string.

(** The options of the prediction tool, as [argparse] leaves them. *)
Record Options : Type := mkOptions {
  out_dir : string;
  cache : option string;
  checkpoint : option string;
  devices : option Z;
  accelerator : option string;
  recycling_steps : option Z;
  sampling_steps : option Z;
  diffusion_samples : option Z;
  step_scale : option float;
  write_full_pae : bool;
  write_full_pde : bool;
  output_format : option string;
  num_workers : option Z;
  override : bool;
  seed : option Z;
  use_msa_server : bool;
  msa_server_url : option string;
  msa_pairing_strategy : option string
}.

Definition construct_command (args : Options) (yaml_filepath : string) : list string :=
  let cmd := ["boltz"; "predict"] in
  let cmd := (cmd ++ ["--out_dir"; out_dir args])%list in
  let cmd := (cmd ++ if_text "--cache" (cache args))%list in
  let cmd := (cmd ++ if_text "--checkpoint" (checkpoint args))%list in
  let cmd := (cmd ++ if_nonzero "--devices" (devices args))%list in
  let cmd := (cmd ++ if_text "--accelerator" (accelerator args))%list in
  let cmd := (cmd ++ if_given Str.of_Z "--recycling_steps" (recycling_steps args))%list in
  let cmd := (cmd ++ if_given Str.of_Z "--sampling_steps" (sampling_steps args))%list in
  let cmd := (cmd ++ if_given Str.of_Z "--diffusion_samples" (diffusion_samples args))%list in
  let cmd := (cmd ++ if_given str_of_float "--step_scale" (step_scale args))%list in
  let cmd := (cmd ++ if_true "--write_full_pae" (write_full_pae args))%list in
  let cmd := (cmd ++ if_true "--write_full_pde" (write_full_pde args))%list in
  let cmd := (cmd ++ if_text "--output_format" (output_format args))%list in
  let cmd := (cmd ++ if_given Str.of_Z "--num_workers" (num_workers args))%list in
  let cmd := (cmd ++ if_true "--override" (override args))%list in
  let cmd := (cmd ++ if_given Str.of_Z "--seed" (seed args))%list in
  let cmd := (cmd ++ if_true "--use_msa_server" (use_msa_server args))%list in
  let cmd := (cmd ++ if_text "--msa_server_url" (msa_server_url args))%list in
  let cmd := (cmd ++ if_text "--msa_pairing_strategy" (msa_pairing_strategy args))%list in
  (cmd ++ [yaml_filepath])%list.

(** *** Readings used in the statements *)

(** The texts among the arguments: none of them looks like an option. *)
Definition plain (v : string) : bool := negb (Str.startswith v "--").

Definition plain_option (o : option string) : bool :=
  match o with Some v => plain v | None => true end.

Definition plain_values (args : Options) (yaml_filepath : string) : bool :=
  plain (out_dir args) && plain_option (cache args) && plain_option (checkpoint args)
  && plain_option (accelerator args) && plain_option (option_map str_of_float (step_scale args))
  && plain_option (output_format args) && plain_option (msa_server_url args)
  && plain_option (msa_pairing_strategy args) && plain yaml_filepath.

End Floats.

(** The argument that follows the first occurrence of a flag in a command. *)
Fixpoint value_after (flag : string) (cmd : list string) : option string :=
  match cmd with
  | [] => None
  | x :: rest =>
      if String.eqb x flag
      then match rest with v :: _ => Some v | [] => None end
      else value_after flag rest
  end.

(** A text option that is set and not empty; an integer option that is set and
    not zero. *)
Definition nonempty (o : option string) : option string :=
  match o with
  | Some v => if Str.is_empty v then None else Some v
  | None => None
  end.

Definition nonzero (o : option Z) : option Z :=
  match o with
  | Some z => if (z =? 0)%Z then None else Some z
  | None => None
  end.

(** The options the parser gives when only [--out_dir] is passed.  The step
    scale is kept as the text [str] gives for it. *)
Definition default_options : @Options string :=
  {| out_dir := "out"; cache := None; checkpoint := None; devices := Some 1%Z;
     accelerator := Some "gpu"; recycling_steps := Some 3%Z;
     sampling_steps := Some 200%Z; diffusion_samples := Some 1%Z;
     step_scale := Some "1.638"; write_full_pae := true; write_full_pde := false;
     output_format := Some "mmcif"; num_workers := Some 2%Z; override := false;
     seed := None; use_msa_server := false; msa_server_url := None;
     msa_pairing_strategy := None |}.

End RunBoltzCommand.

(** ** run_boltz.py: the record file *)

Module RunBoltzFiles.

(** [os.path.join(a, b)] on POSIX. *)
Definition os_path_join (a b : string) : string :=
  if Str.startswith b "/" then b
  else if Str.is_empty a || Str.endswith a "/" then a ++ b
  else a ++ "/" ++ b.

(** The file [main] writes the run records to, for its [--out_dir]. *)
Definition csv_filepath (out_dir : string) : string :=
  os_path_join out_dir "boltz_dock_records.csv".

End RunBoltzFiles.

(** ** boltz_wrapper.py *)

Module BoltzWrapper.

Record Args : Type := mkArgs {
  input_csv : string;
  output_dir : string;
  max_time : option Z;
  num_replicates : option Z;
  run_boltz_extra : option (list string);
  summary_csv_name : string;
  aggregate_extra : option (list string);
  write_yamls_extra : option (list string)
}.

(** [str(base / name)] for a base that is the text of a resolved path, which ends
    in a separator only when it is a root, and a name of one segment. *)
Definition joinpath (base name : string) : string :=
  if Str.endswith base "/" then base ++ name else base ++ "/" ++ name.

(** [cmd.extend(extra)] under [if extra:] *)
Definition extend (cmd : list string) (extra : option (list string)) : list string :=
  match extra with
  | Some (x :: rest) => (cmd ++ x :: rest)%list
  | _ => cmd
  end.

(** [cmd.extend([flag, str(value)])] under [if value is not None:] *)
Definition extend_int (cmd : list string) (flag : string) (value : option Z) : list string :=
  match value with
  | Some z => (cmd ++ [flag; Str.of_Z z])%list
  | None => cmd
  end.

Section Commands.

Variable args : Args.

(** [str(Path(args.output_dir).resolve())] *)
Variable base_out_dir : string.

Definition yaml_out_dir : string := joinpath base_out_dir "yaml_out".
Definition yaml_csv_out : string := joinpath base_out_dir "yaml_output.csv".
Definition boltz_raw_out_dir : string := joinpath base_out_dir "boltz_raw_out".
Definition final_out_dir : string := joinpath base_out_dir "final_out".
Definition boltz_csv_path : string := joinpath boltz_raw_out_dir "boltz_dock_records.csv".

Definition cmd_write : list string :=
  extend ["python"; "write_yamls.py";
          "--input_csv"; input_csv args;
          "--yaml_out_dir"; yaml_out_dir;
          "--csv_out"; yaml_csv_out]
         (write_yamls_extra args).

Definition cmd_boltz : list string :=
  let cmd := ["python"; "run_boltz.py"] in
  let cmd := extend_int cmd "--max_time" (max_time args) in
  let cmd := extend_int cmd "--num_replicates" (num_replicates args) in
  let cmd := extend cmd (run_boltz_extra args) in
  (cmd ++ ["--out_dir"; boltz_raw_out_dir; yaml_out_dir])%list.

Definition cmd_agg : list string :=
  extend ["python"; "aggregate_job.py";
          "--yaml_csv"; yaml_csv_out;
          "--boltz_csv"; boltz_csv_path;
          "--predictions_dir"; boltz_raw_out_dir;
          "--output_dir"; final_out_dir;
          "--summary_csv_name"; summary_csv_name args]
         (aggregate_extra args).

(** The commands are run by an oracle that tells how each one ends. *)
Variable sh : list string -> RunBoltz.proc_result.

(** [subprocess.run(cmd, check=True)] *)
Definition run (cmd : list string) : M unit :=
  match sh cmd with
  | RunBoltz.Exited 0 => ret tt
  | RunBoltz.Exited _ => raise (OtherError "CalledProcessError")
  | RunBoltz.TimeoutExpired => raise (OtherError "TimeoutExpired")
  | RunBoltz.ProcessError name => raise (OtherError name)
  end.

(** [main], after the arguments are parsed and the base folder is made. *)
Definition main : M unit :=
  (print "Running write_yamls.py ..." ;;;
   print ("Command: " ++ Str.join " " cmd_write) ;;;
   run cmd_write ;;;
   print "Running run_boltz.py ..." ;;;
   print ("Command: " ++ Str.join " " cmd_boltz) ;;;
   run cmd_boltz ;;;
   print "Running aggregate_job.py ..." ;;;
   print ("Command: " ++ Str.join " " cmd_agg) ;;;
   run cmd_agg ;;;
   print "All steps completed successfully!" ;;;
   print ("YAML outputs are in: " ++ yaml_out_dir) ;;;
   print ("YAML CSV: " ++ yaml_csv_out) ;;;
   print ("Boltz raw outputs and CSV are in: " ++ boltz_raw_out_dir) ;;;
   print ("Final organized outputs (including summary CSV) are in: " ++ final_out_dir))%py.

End Commands.

End BoltzWrapper.

(** ** assign_kr_type.py *)

Module AssignKrType.

(** [str.lower] on U+0000..U+00FF: the letters [A] to [Z] and the capital
    letters U+00C0 to U+00DE, the multiplication sign apart, have their
    lower-case form 32 places further. *)
Definition lower_char (c : ascii) : ascii :=
  let n := N_of_ascii c in
  if ((65 <=? n)%N && (n <=? 90)%N)
     || ((192 <=? n)%N && (n <=? 222)%N && negb (n =? 215)%N)
  then ascii_of_N (n + 32) else c.

Fixpoint lower (s : string) : string :=
  match s with
  | EmptyString => EmptyString
  | String c s' => String (lower_char c) (lower s')
  end.

Definition specific_kr_subtypes : list string :=
  ["A0KR"; "A1KR"; "A2KR"; "B0KR"; "B1KR"; "B2KR"; "C0KR"; "C1KR"; "C2KR"].

Definition general_kr_types : list string := ["AKR"; "BKR"; "CKR"].

(** The text the function works on: empty for a missing annotation, [str] of
    the cell otherwise. *)
Definition annotation_text (annotation_string : cell) : string :=
  if isna annotation_string then "" else str_of_cell annotation_string.

Definition assign_core_kr_type (annotation_string : cell) : string * string :=
  let annotation_string := annotation_text annotation_string in
  match find (fun kr_id => Str.contains kr_id annotation_string) specific_kr_subtypes with
  | Some kr_id =>
      (kr_id, "Directly identified specific subtype '" ++ kr_id ++ "' in annotation string.")
  | None =>
      match find (fun kr_id => Str.contains kr_id annotation_string) general_kr_types with
      | Some kr_id =>
          (kr_id, "Directly identified general type '" ++ kr_id ++ "' in annotation string.")
      | None =>
          ("Undetermined",
           if Str.is_empty annotation_string || String.eqb (lower annotation_string) "nan"
           then "Annotation string is empty or NaN."
           else "No explicit KR type found in the annotation string. Type cannot be inferred due to potential downstream modifications.")
      end
  end.

End AssignKrType.

(** * Properties *)

Import Readings.

(** ** Text *)

Lemma append_nil_r (s : string) : s ++ "" = s.
Proof. induction s; simpl; congruence. Qed.

Lemma append_assoc (a b c : string) : (a ++ b) ++ c = a ++ (b ++ c).
Proof. induction a; simpl; congruence. Qed.

Lemma length_append (a b : string) :
  String.length (a ++ b) = String.length a + String.length b.
Proof. induction a; simpl; congruence. Qed.

Lemma append_inv_tail (a b c : string) : a ++ c = b ++ c -> a = b.
Proof.
  revert b; induction a as [|x a IH]; intros [|y b] H; simpl in H.
  - reflexivity.
  - apply (f_equal String.length) in H. simpl in H. rewrite length_append in H. lia.
  - apply (f_equal String.length) in H. simpl in H. rewrite length_append in H. lia.
  - injection H as -> H. f_equal. now apply IH.
Qed.

Lemma forallb_append (p : ascii -> bool) (a b : string) :
  Str.forallb p (a ++ b) = Str.forallb p a && Str.forallb p b.
Proof. induction a; simpl; [reflexivity|]. rewrite IHa. now rewrite andb_assoc. Qed.

Lemma lacks_append (c : ascii) (a b : string) :
  Str.lacks c (a ++ b) = Str.lacks c a && Str.lacks c b.
Proof. apply forallb_append. Qed.

Lemma lacks_middle (c : ascii) (a b : string) : Str.lacks c (a ++ String c b) = false.
Proof.
  unfold Str.lacks. rewrite forallb_append. cbn [Str.forallb].
  rewrite Ascii.eqb_refl. simpl. now rewrite andb_false_r.
Qed.

(** A text is cut in one way only at its last occurrence of a character. *)
Lemma cut_at_last (c : ascii) (a b x y : string) :
  Str.lacks c x = true -> Str.lacks c y = true ->
  a ++ String c x = b ++ String c y -> a = b /\ x = y.
Proof.
  intros Hx Hy. revert b; induction a as [|d a IH]; intros [|e b] H; simpl in H.
  - injection H as ->. now split.
  - injection H as _ ->. now rewrite lacks_middle in Hx.
  - injection H as _ <-. now rewrite lacks_middle in Hy.
  - injection H as -> H. destruct (IH _ H) as [-> ->]. now split.
Qed.

Lemma span_append (p : ascii -> bool) (ds rest : string) :
  Str.forallb p ds = true -> Str.span p rest = ("", rest) ->
  Str.span p (ds ++ rest) = (ds, rest).
Proof.
  intros Hd Hr. induction ds as [|c ds IH]; simpl in *; [assumption|].
  apply andb_prop in Hd as [Hc Hd]. now rewrite Hc, IH.
Qed.

Lemma span_forallb (p : ascii -> bool) (s : string) :
  Str.forallb p (fst (Str.span p s)) = true.
Proof.
  induction s as [|c s IH]; simpl; [reflexivity|].
  destruct (p c) eqn:E; [|reflexivity].
  destruct (Str.span p s); simpl in *. now rewrite E.
Qed.

Lemma span_eq (p : ascii -> bool) (s : string) :
  fst (Str.span p s) ++ snd (Str.span p s) = s.
Proof.
  induction s as [|c s IH]; simpl; [reflexivity|].
  destruct (p c); [|reflexivity].
  destruct (Str.span p s); simpl in *. now rewrite IH.
Qed.

Lemma digit_lacks (c : ascii) (s : string) :
  Str.is_digit c = false -> Str.forallb Str.is_digit s = true -> Str.lacks c s = true.
Proof.
  intros Hc. unfold Str.lacks. induction s as [|d s IH]; simpl; [reflexivity|].
  intros H. apply andb_prop in H as [Hd Hs].
  rewrite (IH Hs), andb_true_r.
  destruct (Ascii.eqb_spec d c); [congruence|reflexivity].
Qed.

Lemma strip_prefix_append (p s : string) : Str.strip_prefix p (p ++ s) = Some s.
Proof. induction p; simpl; [reflexivity|]. now rewrite Ascii.eqb_refl. Qed.

Lemma strip_prefix_sound (p s t : string) : Str.strip_prefix p s = Some t -> s = p ++ t.
Proof.
  revert s; induction p as [|a p IH]; intros [|b s] H; simpl in *; try congruence.
  destruct (Ascii.eqb_spec a b); [|discriminate]. subst. f_equal. now apply IH.
Qed.

Lemma rpartition_append (c : ascii) (a b : string) :
  Str.lacks c b = true -> Str.rpartition c (a ++ String c b) = Some (a, b).
Proof.
  intros Hb.
  assert (Hn : Str.rpartition c b = None).
  { induction b as [|d b IH]; simpl in *; [reflexivity|].
    apply andb_prop in Hb as [Hd Hb]. rewrite (IH Hb).
    destruct (Ascii.eqb d c); [discriminate|reflexivity]. }
  induction a as [|d a IH]; simpl.
  - now rewrite Hn, Ascii.eqb_refl.
  - now rewrite IH.
Qed.

Lemma startswith_sound (s p : string) :
  Str.startswith s p = true -> exists t, s = p ++ t.
Proof.
  unfold Str.startswith. destruct (Str.strip_prefix p s) as [t|] eqn:E; [|discriminate].
  intros _. exists t. now apply strip_prefix_sound.
Qed.

Lemma startswith_append (p t : string) : Str.startswith (p ++ t) p = true.
Proof. unfold Str.startswith. now rewrite strip_prefix_append. Qed.

Lemma int_from_uint (d : Decimal.uint) (n : nat) :
  Str.int_from (N.of_nat n) (NilEmpty.string_of_uint d) = N.of_nat (Nat.of_uint_acc d n).
Proof.
  revert n; induction d; intros n; cbn [NilEmpty.string_of_uint Str.int_from Nat.of_uint_acc];
    [reflexivity|..]; rewrite <- IHd; f_equal; rewrite Nat.tail_mul_spec;
    unfold Str.digit_value; cbn [N_of_ascii N_of_digits]; lia.
Qed.

Lemma int_of_nat (k : nat) : Str.int (Str.of_nat k) = N.of_nat k.
Proof.
  unfold Str.int, Str.of_nat. rewrite (int_from_uint _ 0).
  f_equal. apply Unsigned.of_to.
Qed.

Lemma of_nat_nonempty (k : nat) : Str.of_nat k <> "".
Proof.
  unfold Str.of_nat. destruct (Nat.to_uint k) eqn:E; cbn; try discriminate.
  pose proof (Unsigned.of_to k) as H. rewrite E in H. cbn in H. subst k. discriminate E.
Qed.

Lemma split_nonempty (sep : ascii) (s : string) : Str.split sep s <> [].
Proof.
  destruct s as [|c s]; cbn [Str.split]; [discriminate|].
  destruct (Ascii.eqb c sep); [discriminate|]. destruct (Str.split sep s); discriminate.
Qed.

Lemma split_token (sep : ascii) (t u : string) :
  Str.lacks sep t = true -> Str.split sep (t ++ String sep u) = t :: Str.split sep u.
Proof.
  unfold Str.lacks. induction t as [|c t IH]; cbn [Str.forallb append Str.split].
  - intros _. now rewrite Ascii.eqb_refl.
  - intros H. apply andb_prop in H as [Hc Ht]. apply negb_true_iff in Hc.
    now rewrite Hc, (IH Ht).
Qed.

Lemma split_lacks (sep : ascii) (t : string) :
  Str.lacks sep t = true -> Str.split sep t = [t].
Proof.
  unfold Str.lacks. induction t as [|c t IH]; cbn [Str.forallb Str.split]; [reflexivity|].
  intros H. apply andb_prop in H as [Hc Ht]. apply negb_true_iff in Hc.
  now rewrite Hc, (IH Ht).
Qed.

(** Splitting at a separator gives back the tokens that were joined by it, when
    no token holds it. *)
Lemma split_join (sep : ascii) (tokens : list string) :
  tokens <> [] ->
  Forall (fun t => Str.lacks sep t = true) tokens ->
  Str.split sep (Str.join (String sep "") tokens) = tokens.
Proof.
  induction tokens as [|t tokens IH]; [congruence|]. intros _ H.
  inversion H as [|? ? Ht Hrest]; subst.
  destruct tokens as [|t' tokens].
  - now apply split_lacks.
  - change (Str.join (String sep "") (t :: t' :: tokens))
      with (t ++ String sep (Str.join (String sep "") (t' :: tokens))).
    rewrite (split_token sep t _ Ht). f_equal. apply IH; [discriminate|assumption].
Qed.

(** ** aggregate_job.py: the base identifier *)

Import AggregateJob.

Lemma match_rep_lacks (s : string) : Str.lacks "_" s = true -> match_rep s = None.
Proof.
  unfold Str.lacks.
  induction s as [|c s IH]; cbn [Str.forallb match_rep]; [reflexivity|].
  intros H. apply andb_prop in H as [Hc Hs]. rewrite (IH Hs).
  assert (Ht : rep_tail (String c s) = false).
  { unfold rep_tail. cbn [Str.strip_prefix]. rewrite Ascii.eqb_sym.
    destruct (Ascii.eqb c "_"); [discriminate|reflexivity]. }
  rewrite Ht. now destruct (Ascii.eqb c Str.nl).
Qed.

Lemma rep_tail_exact (ds : string) :
  Str.forallb Str.is_digit ds = true -> ds <> "" ->
  rep_tail ("_rep" ++ ds ++ ".yaml") = true.
Proof.
  intros Hd Hne. unfold rep_tail.
  rewrite strip_prefix_append, (span_append _ ds ".yaml" Hd eq_refl).
  destruct ds; [congruence|reflexivity].
Qed.

Lemma match_rep_exact (base ds : string) :
  Str.lacks Str.nl base = true -> Str.forallb Str.is_digit ds = true -> ds <> "" ->
  match_rep (base ++ "_rep" ++ ds ++ ".yaml") = Some base.
Proof.
  intros Hb Hd Hne. induction base as [|c base IH].
  - change ("" ++ "_rep" ++ ds ++ ".yaml") with (String "_" ("rep" ++ ds ++ ".yaml")).
    cbn [match_rep]. rewrite match_rep_lacks.
    + change (String "_" ("rep" ++ ds ++ ".yaml")) with ("_rep" ++ ds ++ ".yaml").
      rewrite (rep_tail_exact ds Hd Hne). reflexivity.
    + change ("rep" ++ ds ++ ".yaml") with ("rep" ++ (ds ++ ".yaml")).
      rewrite !lacks_append, (digit_lacks "_" ds eq_refl Hd). reflexivity.
  - simpl in Hb. apply andb_prop in Hb as [Hc Hb].
    change (String c base ++ "_rep" ++ ds ++ ".yaml")
      with (String c (base ++ "_rep" ++ ds ++ ".yaml")).
    cbn [match_rep]. rewrite (IH Hb).
    destruct (Ascii.eqb c Str.nl); [discriminate|reflexivity].
Qed.

(** What the replicate pattern matches: a prefix free of line feeds followed by
    [_rep], digits and [.yaml], at the end of the name or before a final line
    feed. *)
Lemma match_rep_sound (s p : string) :
  match_rep s = Some p ->
  Str.lacks Str.nl p = true
  /\ exists ds, Str.forallb Str.is_digit ds = true /\ ds <> ""
                /\ (s = p ++ "_rep" ++ ds ++ ".yaml"
                    \/ s = p ++ "_rep" ++ ds ++ ".yaml" ++ String Str.nl "").
Proof.
  revert p. induction s as [|c s IH]; intros p; cbn [match_rep]; [discriminate|].
  destruct (if Ascii.eqb c Str.nl then None else match_rep s) as [q|] eqn:E.
  - intros [= <-]. destruct (Ascii.eqb c Str.nl) eqn:Ec; [discriminate|].
    destruct (IH q E) as (Hq & ds & Hd & Hne & Hs). split.
    + unfold Str.lacks in *. cbn [Str.forallb]. now rewrite Ec, Hq.
    + exists ds. split; [assumption|]. split; [assumption|].
      destruct Hs as [-> | ->]; [left|right]; reflexivity.
  - destruct (rep_tail (String c s)) eqn:Et; [|discriminate]. intros [= <-].
    split; [reflexivity|]. unfold rep_tail in Et.
    destruct (Str.strip_prefix "_rep" (String c s)) as [u|] eqn:Eu; [|discriminate].
    apply strip_prefix_sound in Eu. rewrite Eu.
    pose proof (span_forallb Str.is_digit u) as Hd.
    pose proof (span_eq Str.is_digit u) as Hu.
    destruct (Str.span Str.is_digit u) as [ds v]. cbn [fst snd] in Hd, Hu.
    apply andb_prop in Et as [Hne Hv]. exists ds. split; [assumption|]. split.
    + intros ->. discriminate Hne.
    + rewrite <- Hu. apply orb_prop in Hv as [Hv|Hv]; apply String.eqb_eq in Hv; subst v;
        [left|right]; reflexivity.
Qed.

Lemma yaml_strip_exact (stem : string) : yaml_strip (stem ++ ".yaml") = stem.
Proof.
  induction stem as [|c stem IH]; [reflexivity|].
  change (String c stem ++ ".yaml") with (String c (stem ++ ".yaml")).
  cbn [yaml_strip]. rewrite IH.
  destruct (String.eqb_spec (String c (stem ++ ".yaml")) ".yaml") as [E|_].
  { apply (f_equal String.length) in E. simpl in E. rewrite length_append in E.
    simpl in E. lia. }
  destruct (String.eqb_spec (String c (stem ++ ".yaml")) (".yaml" ++ String Str.nl "")) as [E|_].
  { exfalso. injection E as _ E. destruct stem as [|d stem].
    - discriminate E.
    - apply (f_equal String.length) in E. simpl in E. rewrite length_append in E.
      simpl in E. lia. }
  reflexivity.
Qed.

Lemma rsplit_exact (stem : string) : Str.rsplit1_head "." (stem ++ ".yaml") = stem.
Proof.
  unfold Str.rsplit1_head.
  change (stem ++ ".yaml") with (stem ++ String "." "yaml").
  now rewrite rpartition_append.
Qed.

(** C5 (amended).  A run-record name [<base>_rep<digits>.yaml], with no line feed
    in [<base>], has base identifier [<base>]; a name the replicate pattern does
    not match loses only its last dot-separated segment; the two names of the
    specification give [Foo] and [Bar]; and on a name ending in [.yaml] that
    carries no replicate suffix the extraction agrees with the strip applied to
    the experiment table. *)
Theorem extract_base_replicate_yaml (base ds name stem : string) :
  Str.lacks Str.nl base = true ->
  Str.forallb Str.is_digit ds = true ->
  ds <> "" ->
  match_rep name = None ->
  match_rep (stem ++ ".yaml") = None ->
  extract_base (CStr (base ++ "_rep" ++ ds ++ ".yaml")) = ret (CStr base)
  /\ extract_base (CStr name) = ret (CStr (Str.rsplit1_head "." name))
  /\ extract_base (CStr "Foo_rep3.yaml") = ret (CStr "Foo")
  /\ extract_base (CStr "Bar.yaml") = ret (CStr "Bar")
  /\ extract_base_name (stem ++ ".yaml") = stem
  /\ str_replace_yaml [CStr (stem ++ ".yaml")]
     = ret [CStr (extract_base_name (stem ++ ".yaml"))].
Proof.
  intros Hb Hd Hne Hname Hstem.
  assert (Hs : extract_base_name (stem ++ ".yaml") = stem).
  { unfold extract_base_name. rewrite Hstem. apply rsplit_exact. }
  repeat split.
  - unfold extract_base, extract_base_name. now rewrite match_rep_exact.
  - unfold extract_base, extract_base_name. now rewrite Hname.
  - exact Hs.
  - unfold str_replace_yaml. cbn [existsb is_text orb map].
    now rewrite yaml_strip_exact, Hs.
Qed.

Lemma extract_base_replicate_yaml_witness :
  extract_base (CStr "Foo_rep3.yaml") = ret (CStr "Foo")
  /\ extract_base (CStr "Bar.txt") = ret (CStr "Bar")
  /\ extract_base_name "Bar.yaml" = yaml_strip "Bar.yaml".
Proof.
  destruct (extract_base_replicate_yaml "Foo" "3" "Bar.txt" "Bar"
              eq_refl eq_refl ltac:(discriminate) eq_refl eq_refl)
    as (H1 & H2 & _ & _ & H5 & _).
  split; [exact H1 | split; [exact H2 | exact H5]].
Defined.

(** C5 as stated fails on another extension: the replicate suffix of a [.yml]
    name is not recognised, and on the non-replicated name [Bar.yml] the
    extraction and the strip of the experiment table disagree.  It also fails
    when the base holds a line feed, which the pattern does not cross. *)
Lemma extract_base_other_extension :
  extract_base (CStr "Foo_rep3.yml") = ret (CStr "Foo_rep3")
  /\ extract_base (CStr "Foo_rep3.yml") <> ret (CStr "Foo")
  /\ match_rep "Bar.yml" = None
  /\ extract_base_name "Bar.yml" = "Bar"
  /\ yaml_strip "Bar.yml" = "Bar.yml"
  /\ extract_base_name "Bar.yml" <> yaml_strip "Bar.yml"
  /\ extract_base_name (String "a" (String Str.nl "b_rep1.yaml"))
     <> String "a" (String Str.nl "b").
Proof. repeat split; try reflexivity; discriminate. Qed.

(** ** Computations *)

Lemma bind_ret_l {A B} (a : A) (k : A -> M B) : bind (ret a) k = k a.
Proof. unfold bind, ret. now destruct (k a). Qed.

Lemma outcome_bind {A B} (m : M A) (k : A -> M B) :
  outcome (bind m k) = match outcome m with
                       | Ok a => outcome (k a)
                       | Raise e => Raise e
                       end.
Proof.
  unfold outcome, bind. destruct m as [[a|e] out]; simpl; [|reflexivity].
  now destruct (k a).
Qed.

Lemma outcome_foldM {A B} (f : B -> A -> M B) (g : B -> A -> B) (l : list A) :
  forall acc,
    (forall acc' x, In x l -> outcome (f acc' x) = Ok (g acc' x)) ->
    outcome (foldM f l acc) = Ok (fold_left g l acc).
Proof.
  induction l as [|x l IH]; intros acc H; [reflexivity|].
  cbn [foldM fold_left]. rewrite outcome_bind, (H acc x (or_introl eq_refl)).
  apply IH. intros acc' y Hy. apply H. now right.
Qed.

Lemma outcome_foldM_raise {A B} (f : B -> A -> M B) (l : list A) (x : A) :
  In x l ->
  (forall acc, exists e, outcome (f acc x) = Raise e) ->
  forall acc, exists e, outcome (foldM f l acc) = Raise e.
Proof.
  intros Hin Hx. induction l as [|y l IH]; [contradiction|]. intros acc.
  cbn [foldM]. rewrite outcome_bind.
  destruct (outcome (f acc y)) as [acc'|e] eqn:E; [|now exists e].
  destruct Hin as [->|Hin]; [|now apply IH].
  destruct (Hx acc) as [e He]. congruence.
Qed.

Lemma outcome_mapM {A B} (f : A -> M B) (g : A -> B) (l : list A) :
  (forall x, In x l -> outcome (f x) = Ok (g x)) ->
  outcome (mapM f l) = Ok (map g l).
Proof.
  induction l as [|x l IH]; intros H; [reflexivity|].
  cbn [mapM map]. rewrite outcome_bind, (H x (or_introl eq_refl)).
  rewrite outcome_bind, IH; [reflexivity|]. intros y Hy. apply H. now right.
Qed.

Lemma outcome_mapM_raise {A B} (f : A -> M B) (l : list A) (x : A) :
  In x l ->
  (exists e, outcome (f x) = Raise e) ->
  exists e, outcome (mapM f l) = Raise e.
Proof.
  intros Hin Hx. induction l as [|y l IH]; [contradiction|].
  cbn [mapM]. rewrite outcome_bind.
  destruct (outcome (f y)) as [b|e] eqn:E; [|now exists e].
  rewrite outcome_bind.
  destruct Hin as [->|Hin].
  - destruct Hx as [e He]. congruence.
  - destruct (IH Hin) as [e He]. rewrite He. now exists e.
Qed.

Lemma outcome_bind_ok {A B} (m : M A) (k : A -> M B) (b : B) :
  outcome (bind m k) = Ok b -> exists a, outcome m = Ok a /\ outcome (k a) = Ok b.
Proof.
  rewrite outcome_bind. destruct (outcome m) as [a|e]; [|discriminate].
  intros H. now exists a.
Qed.

Lemma printed_bind {A B} (m : M A) (k : A -> M B) :
  printed (bind m k) = match outcome m with
                       | Ok a => (printed m ++ printed (k a))%list
                       | Raise _ => printed m
                       end.
Proof.
  unfold printed, outcome, bind. destruct m as [[a|e] out]; cbn [fst snd]; [|reflexivity].
  now destruct (k a).
Qed.

Lemma printed_foldM {A B} (f : B -> A -> M B) (g : B -> A -> B) (h : A -> list string)
  (l : list A) :
  forall acc,
    (forall acc' x, In x l -> outcome (f acc' x) = Ok (g acc' x) /\ printed (f acc' x) = h x) ->
    printed (foldM f l acc) = flat_map h l.
Proof.
  induction l as [|x l IH]; intros acc H; [reflexivity|].
  cbn [foldM flat_map]. rewrite printed_bind.
  destruct (H acc x (or_introl eq_refl)) as [-> ->]. f_equal.
  apply IH. intros acc' y Hy. apply H. now right.
Qed.

Lemma outcome_mapM_inv {A B} (f : A -> M B) (l : list A) (ys : list B) :
  outcome (mapM f l) = Ok ys -> Forall2 (fun x y => outcome (f x) = Ok y) l ys.
Proof.
  revert ys; induction l as [|x l IH]; intros ys; cbn [mapM].
  - intros [= <-]. constructor.
  - intros H. apply outcome_bind_ok in H as (y & Hy & H).
    apply outcome_bind_ok in H as (ys' & Hys & H). injection H as <-.
    constructor; [assumption|now apply IH].
Qed.

Lemma outcome_foldM_stops {A B} (f : B -> A -> M B) (before after : list A) (x : A)
  (e : exn) (acc : B) :
  (forall y, In y before -> outcome (f acc y) = Ok acc) ->
  outcome (f acc x) = Raise e ->
  outcome (foldM f (before ++ x :: after)%list acc) = Raise e.
Proof.
  intros Hb Hx. induction before as [|y before IH]; cbn [app foldM].
  - now rewrite outcome_bind, Hx.
  - rewrite outcome_bind, (Hb y (or_introl eq_refl)). apply IH.
    intros z Hz. apply Hb. now right.
Qed.

Lemma outcome_foldM_stops_at {A B} (f : B -> A -> M B) (g : B -> A -> B)
  (before after : list A) (x : A) (e : exn) (acc : B) :
  (forall acc y, In y before -> outcome (f acc y) = Ok (g acc y)) ->
  (forall acc, outcome (f acc x) = Raise e) ->
  outcome (foldM f (before ++ x :: after)%list acc) = Raise e.
Proof.
  intros Hb Hx. revert acc. induction before as [|y before IH]; intros acc; cbn [app foldM].
  - now rewrite outcome_bind, Hx.
  - rewrite outcome_bind, (Hb acc y (or_introl eq_refl)). apply IH.
    intros acc' z Hz. apply Hb. now right.
Qed.

Lemma outcome_mapM_stops {A B} (f : A -> M B) (g : A -> B) (before after : list A)
  (x : A) (e : exn) :
  (forall y, In y before -> outcome (f y) = Ok (g y)) ->
  outcome (f x) = Raise e ->
  outcome (mapM f (before ++ x :: after)%list) = Raise e.
Proof.
  intros Hb Hx. induction before as [|y before IH]; cbn [app mapM].
  - now rewrite outcome_bind, Hx.
  - rewrite outcome_bind, (Hb y (or_introl eq_refl)), outcome_bind, IH; [reflexivity|].
    intros z Hz. apply Hb. now right.
Qed.

Lemma mapM_ext {A B} (f g : A -> M B) (l : list A) :
  (forall x, f x = g x) -> mapM f l = mapM g l.
Proof.
  intros H. induction l as [|x l IH]; [reflexivity|].
  cbn [mapM]. now rewrite H, IH.
Qed.

Lemma Forall2_in_r {A B} (R : A -> B -> Prop) (l : list A) (ys : list B) (y : B) :
  Forall2 R l ys -> In y ys -> exists x, In x l /\ R x y.
Proof.
  induction 1 as [|x y' l ys Hxy Hall IH]; [contradiction|].
  intros [->|Hin].
  - exists x. split; [now left|assumption].
  - destruct (IH Hin) as (x' & Hx' & Hr). exists x'. split; [now right|assumption].
Qed.

Lemma mapM_ret {A B} (f : A -> M B) (g : A -> B) (l : list A) :
  (forall x, In x l -> f x = ret (g x)) -> mapM f l = ret (map g l).
Proof.
  induction l as [|x l IH]; intros H; [reflexivity|].
  cbn [mapM map]. rewrite (H x (or_introl eq_refl)), bind_ret_l.
  rewrite IH by (intros y Hy; apply H; now right). now rewrite bind_ret_l.
Qed.

Lemma bind_ext {A B} (m : M A) (k k' : A -> M B) :
  (forall a, k a = k' a) -> bind m k = bind m k'.
Proof. intros H. unfold bind. destruct m as [[a|e] out]; [now rewrite H|reflexivity]. Qed.

Lemma foldM_ext {A B} (f f' : B -> A -> M B) (l : list A) (acc : B) :
  (forall acc' x, In x l -> f acc' x = f' acc' x) -> foldM f l acc = foldM f' l acc.
Proof.
  revert acc. induction l as [|x l IH]; intros acc H; [reflexivity|].
  cbn [foldM]. rewrite (H acc x (or_introl eq_refl)). apply bind_ext. intros acc'.
  apply IH. intros acc'' y Hy. apply H. now right.
Qed.

Lemma outcome_bind_congr {A B} (m m' : M A) (k k' : A -> M B) :
  outcome m = outcome m' -> (forall a, outcome (k a) = outcome (k' a)) ->
  outcome (bind m k) = outcome (bind m' k').
Proof.
  intros Hm Hk. rewrite !outcome_bind, Hm. destruct (outcome m'); [apply Hk|reflexivity].
Qed.

Lemma outcome_mapM_congr {A B} (f : A -> M B) (l l' : list A) :
  Forall2 (fun x y => outcome (f x) = outcome (f y)) l l' ->
  outcome (mapM f l) = outcome (mapM f l').
Proof.
  induction 1 as [|x y l l' Hxy Hl IH]; [reflexivity|].
  cbn [mapM]. apply outcome_bind_congr; [exact Hxy|]. intros b.
  apply outcome_bind_congr; [exact IH|]. reflexivity.
Qed.

Lemma existsb_map {A B} (p : B -> bool) (g : A -> B) (l : list A) :
  existsb p (map g l) = existsb (fun x => p (g x)) l.
Proof. induction l as [|x l IH]; [reflexivity|]. cbn [map existsb]. now rewrite IH. Qed.

Lemma existsb_same {A} (p q : A -> bool) (l : list A) :
  (forall x, p x = q x) -> existsb p l = existsb q l.
Proof. intros H. induction l as [|x l IH]; [reflexivity|]. cbn [existsb]. now rewrite H, IH. Qed.

Lemma forallb_same {A} (p q : A -> bool) (l : list A) :
  (forall x, p x = q x) -> List.forallb p l = List.forallb q l.
Proof.
  intros H. induction l as [|x l IH]; [reflexivity|]. cbn [List.forallb]. now rewrite H, IH.
Qed.

Lemma forallb_over_map {A B} (p : B -> bool) (g : A -> B) (l : list A) :
  List.forallb p (map g l) = List.forallb (fun x => p (g x)) l.
Proof. induction l as [|x l IH]; [reflexivity|]. cbn [map List.forallb]. now rewrite IH. Qed.

Lemma filter_nil_forallb {A} (p : A -> bool) (l : list A) :
  match filter p l with [] => true | _ => false end = List.forallb (fun x => negb (p x)) l.
Proof.
  induction l as [|x l IH]; [reflexivity|]. cbn [filter List.forallb].
  destruct (p x); [reflexivity|exact IH].
Qed.

Lemma printed_bind_in {A B} (m : M A) (k : A -> M B) (line : string) :
  In line (printed m) -> In line (printed (bind m k)).
Proof.
  rewrite printed_bind. destruct (outcome m); [|trivial].
  intros H. apply in_or_app. now left.
Qed.

Lemma printed_bind_after {A B} (m : M A) (k : A -> M B) (a : A) (line : string) :
  outcome m = Ok a -> In line (printed (k a)) -> In line (printed (bind m k)).
Proof.
  intros Hm H. rewrite printed_bind, Hm. apply in_or_app. now right.
Qed.

Lemma printed_foldM_in {A B} (f : B -> A -> M B) (l : list A) (x : A) (line : string) :
  (forall acc y, In y l -> exists acc', outcome (f acc y) = Ok acc') ->
  In x l ->
  (forall acc, In line (printed (f acc x))) ->
  forall acc, In line (printed (foldM f l acc)).
Proof.
  induction l as [|y l IH]; intros Hok Hin Hline acc; [contradiction|].
  cbn [foldM]. destruct Hin as [->|Hin].
  - apply printed_bind_in, Hline.
  - destruct (Hok acc y (or_introl eq_refl)) as [acc' Hy].
    apply (printed_bind_after _ _ acc' _ Hy). apply IH; try assumption.
    intros acc0 z Hz. apply Hok. now right.
Qed.

Lemma forallb_false_exists {A} (p : A -> bool) (l : list A) :
  List.forallb p l = false -> exists x, In x l /\ p x = false.
Proof.
  induction l as [|y l IH]; [discriminate|]. cbn [List.forallb].
  destruct (p y) eqn:E.
  - intros H. destruct (IH H) as (x & Hx & Hp). exists x. split; [now right|assumption].
  - intros _. exists y. split; [now left|assumption].
Qed.

Lemma fold_app_flat_map {A B} (h : A -> list B) (l : list A) (acc : list B) :
  fold_left (fun acc x => (acc ++ h x)%list) l acc = (acc ++ flat_map h l)%list.
Proof.
  revert acc. induction l as [|x l IH]; intros acc; cbn [fold_left flat_map].
  - now rewrite List.app_nil_r.
  - now rewrite IH, List.app_assoc.
Qed.

Lemma flat_map_map {A B C} (g : A -> B) (h : B -> list C) (l : list A) :
  flat_map h (map g l) = flat_map (fun x => h (g x)) l.
Proof. induction l as [|x l IH]; [reflexivity|]. cbn [map flat_map]. now rewrite IH. Qed.

Lemma flat_map_flat_map {A B C} (f : A -> list B) (g : B -> list C) (l : list A) :
  flat_map g (flat_map f l) = flat_map (fun x => flat_map g (f x)) l.
Proof.
  induction l as [|x l IH]; [reflexivity|]. cbn [flat_map]. now rewrite flat_map_app, IH.
Qed.

Lemma flat_map_same {A B} (f g : A -> list B) (l : list A) :
  (forall x, In x l -> f x = g x) -> flat_map f l = flat_map g l.
Proof.
  induction l as [|x l IH]; intros H; [reflexivity|]. cbn [flat_map].
  rewrite (H x (or_introl eq_refl)), IH; [reflexivity|]. intros y Hy. apply H. now right.
Qed.

Lemma flat_map_singleton {A B} (g : A -> B) (l : list A) :
  flat_map (fun x => [g x]) l = map g l.
Proof. induction l as [|x l IH]; [reflexivity|]. cbn [flat_map map app]. now rewrite IH. Qed.

Lemma flat_map_nil {A B} (l : list A) : flat_map (fun _ : A => @nil B) l = [].
Proof. induction l; [reflexivity|assumption]. Qed.

(** Sorting by a key. *)

Section SortedBy.
Context {A : Type} (key : A -> N).

Let le_key (a b : A) : Prop := (key a <= key b)%N.

Lemma insert_by_perm (x : A) (l : list A) : Permutation (insert_by key x l) (x :: l).
Proof.
  induction l as [|y l IH]; cbn [insert_by]; [reflexivity|].
  destruct (key x <=? key y)%N; [reflexivity|].
  rewrite IH. apply perm_swap.
Qed.

Lemma sorted_by_perm (l : list A) : Permutation (sorted_by key l) l.
Proof.
  unfold sorted_by. induction l as [|x l IH]; cbn [fold_right]; [reflexivity|].
  rewrite insert_by_perm. now constructor.
Qed.

Lemma insert_by_sorted (x : A) (l : list A) :
  StronglySorted le_key l -> StronglySorted le_key (insert_by key x l).
Proof.
  induction 1 as [|y l Hs IH Hy]; cbn [insert_by].
  - repeat constructor.
  - destruct (key x <=? key y)%N eqn:E.
    + apply N.leb_le in E. constructor; [now constructor|].
      constructor; [exact E|].
      eapply Forall_impl; [|exact Hy]. intros z Hz. unfold le_key in *. lia.
    + apply N.leb_gt in E. constructor; [exact IH|].
      apply (Permutation_Forall (Permutation_sym (insert_by_perm x l))).
      constructor; [unfold le_key; lia|exact Hy].
Qed.

Lemma sorted_by_sorted (l : list A) : StronglySorted le_key (sorted_by key l).
Proof.
  unfold sorted_by. induction l as [|x l IH]; cbn [fold_right]; [constructor|].
  now apply insert_by_sorted.
Qed.

Lemma filter_sorted (p : A -> bool) (l : list A) :
  StronglySorted le_key l -> StronglySorted le_key (filter p l).
Proof.
  induction 1 as [|y l Hs IH Hy]; cbn [filter]; [constructor|].
  destruct (p y); [|exact IH]. constructor; [exact IH|].
  rewrite Forall_forall in *. intros z Hz. apply Hy. now apply filter_In in Hz.
Qed.

(** The sort is stable: the elements of one key keep their order. *)
Lemma insert_by_filter_key (x : A) (l : list A) (n : N) :
  filter (fun y => (key y =? n)%N) (insert_by key x l)
  = filter (fun y => (key y =? n)%N) (x :: l).
Proof.
  induction l as [|y l IH]; cbn [insert_by]; [reflexivity|].
  destruct (key x <=? key y)%N eqn:E; [reflexivity|]. apply N.leb_gt in E.
  cbn [filter] in *. rewrite IH.
  destruct (N.eqb_spec (key x) n), (N.eqb_spec (key y) n); try reflexivity. lia.
Qed.

Lemma sorted_by_filter_key (l : list A) (n : N) :
  filter (fun y => (key y =? n)%N) (sorted_by key l) = filter (fun y => (key y =? n)%N) l.
Proof.
  unfold sorted_by. induction l as [|x l IH]; cbn [fold_right]; [reflexivity|].
  rewrite insert_by_filter_key. cbn [filter]. now rewrite IH.
Qed.

End SortedBy.

Lemma filter_comm {A} (p q : A -> bool) (l : list A) :
  filter p (filter q l) = filter q (filter p l).
Proof.
  induction l as [|x l IH]; [reflexivity|]. cbn [filter].
  destruct (p x) eqn:Ep, (q x) eqn:Eq; cbn [filter]; rewrite ?Ep, ?Eq, IH; reflexivity.
Qed.

Lemma filter_perm {A} (p : A -> bool) (l l' : list A) :
  Permutation l l' -> Permutation (filter p l) (filter p l').
Proof.
  induction 1 as [|x l l' H IH|x y l|l l' l'' H1 IH1 H2 IH2]; cbn [filter].
  - reflexivity.
  - destruct (p x); [now constructor|assumption].
  - destruct (p x), (p y); try reflexivity. apply perm_swap.
  - now transitivity (filter p l').
Qed.

(** ** Dictionaries *)

Section DictFacts.
Context {V : Type}.
Implicit Types (d : list (string * V)) (k : string) (v : V).

Lemma get_set_same k v d : Dict.get k (Dict.set k v d) = Some v.
Proof.
  induction d as [|[k' v'] d IH]; simpl.
  - now rewrite String.eqb_refl.
  - destruct (String.eqb_spec k k'); simpl.
    + now rewrite String.eqb_refl.
    + destruct (String.eqb_spec k k'); [contradiction|assumption].
Qed.

Lemma get_set_other k k' v d : k <> k' -> Dict.get k (Dict.set k' v d) = Dict.get k d.
Proof.
  intros Hne. induction d as [|[k0 v0] d IH]; simpl.
  - destruct (String.eqb_spec k k'); [contradiction|reflexivity].
  - destruct (String.eqb_spec k' k0); simpl.
    + subst. destruct (String.eqb_spec k k0); [contradiction|reflexivity].
    + destruct (String.eqb_spec k k0); [reflexivity|assumption].
Qed.

Lemma in_keys_set k k' v d :
  In k (Dict.keys (Dict.set k' v d)) <-> k = k' \/ In k (Dict.keys d).
Proof.
  unfold Dict.keys. induction d as [|[k0 v0] d IH]; simpl.
  - intuition.
  - destruct (String.eqb_spec k' k0); simpl.
    + subst. intuition.
    + rewrite IH. intuition.
Qed.

Lemma NoDup_keys_set k v d : NoDup (Dict.keys d) -> NoDup (Dict.keys (Dict.set k v d)).
Proof.
  unfold Dict.keys. induction d as [|[k0 v0] d IH]; simpl; intros H.
  - constructor; [intros []|constructor].
  - inversion H as [|? ? Hnin Hnd]; subst.
    destruct (String.eqb_spec k k0); simpl.
    + subst. now constructor.
    + constructor; [|now apply IH].
      intros Hin. apply (in_keys_set k0 k v d) in Hin as [->|Hin]; contradiction.
Qed.

Lemma get_none_keys k d : Dict.get k d = None <-> ~ In k (Dict.keys d).
Proof.
  unfold Dict.keys. induction d as [|[k0 v0] d IH]; simpl; [intuition|].
  destruct (String.eqb_spec k k0).
  - subst. split; [discriminate|]. intros H. exfalso. apply H. now left.
  - rewrite IH. intuition.
Qed.

Lemma get_in k v d : Dict.get k d = Some v -> In (k, v) d.
Proof.
  induction d as [|[k0 v0] d IH]; simpl; [discriminate|].
  destruct (String.eqb_spec k k0).
  - intros [= ->]. subst. now left.
  - intros H. right. now apply IH.
Qed.

Lemma in_get k v d : NoDup (Dict.keys d) -> In (k, v) d -> Dict.get k d = Some v.
Proof.
  unfold Dict.keys. induction d as [|[k0 v0] d IH]; simpl; [contradiction|].
  intros Hnd [E|Hin]; inversion Hnd as [|? ? Hnin Hnd']; subst.
  - injection E as -> ->. now rewrite String.eqb_refl.
  - destruct (String.eqb_spec k k0).
    + subst. exfalso. apply Hnin. now apply (in_map fst _ (k0, v)).
    + now apply IH.
Qed.

Lemma get_app k d e :
  Dict.get k (d ++ e)%list = match Dict.get k d with
                             | Some v => Some v
                             | None => Dict.get k e
                             end.
Proof.
  induction d as [|[k0 v0] d IH]; simpl; [reflexivity|].
  now destruct (String.eqb k k0).
Qed.

Lemma update_cons kv W d :
  Dict.update d (kv :: W) = Dict.update (Dict.set (fst kv) (snd kv) d) W.
Proof. reflexivity. Qed.

Lemma update_app W1 W2 d :
  Dict.update d (W1 ++ W2)%list = Dict.update (Dict.update d W1) W2.
Proof. apply fold_left_app. Qed.

Lemma get_update_other k W d :
  ~ In k (map fst W) -> Dict.get k (Dict.update d W) = Dict.get k d.
Proof.
  revert d; induction W as [|[k0 v0] W IH]; intros d H; [reflexivity|].
  rewrite update_cons, IH by (simpl in H; tauto).
  apply get_set_other. intros ->. apply H. now left.
Qed.

Lemma get_update_in k v W d :
  NoDup (map fst W) -> In (k, v) W -> Dict.get k (Dict.update d W) = Some v.
Proof.
  revert d; induction W as [|[k0 v0] W IH]; intros d Hnd Hin; [contradiction|].
  rewrite update_cons. simpl in Hnd.
  inversion Hnd as [|? ? Hnin Hnd']; subst. destruct Hin as [E|Hin].
  - injection E as -> ->. rewrite get_update_other by assumption. apply get_set_same.
  - now apply IH.
Qed.

Lemma in_keys_update k W d :
  In k (Dict.keys (Dict.update d W)) <-> In k (map fst W) \/ In k (Dict.keys d).
Proof.
  revert d; induction W as [|[k0 v0] W IH]; intros d; [simpl; intuition|].
  rewrite update_cons, IH, in_keys_set. simpl. intuition.
Qed.

Lemma NoDup_keys_update W d :
  NoDup (Dict.keys d) -> NoDup (Dict.keys (Dict.update d W)).
Proof.
  revert d; induction W as [|[k0 v0] W IH]; intros d H; [assumption|].
  rewrite update_cons. apply IH. now apply NoDup_keys_set.
Qed.

Lemma set_fresh k v d : ~ In k (Dict.keys d) -> Dict.set k v d = (d ++ [(k, v)])%list.
Proof.
  unfold Dict.keys. induction d as [|[k1 v1] d IH]; simpl; intros Hk; [reflexivity|].
  destruct (String.eqb_spec k k1); [subst; tauto|].
  f_equal. apply IH. tauto.
Qed.

Lemma update_fresh W d :
  NoDup (map fst W) -> (forall k, In k (map fst W) -> ~ In k (Dict.keys d)) ->
  Dict.update d W = (d ++ W)%list.
Proof.
  revert d; induction W as [|[k0 v0] W IH]; intros d Hnd Hfr.
  - simpl. now rewrite List.app_nil_r.
  - rewrite update_cons. simpl in Hnd. inversion Hnd as [|? ? Hnin Hnd']; subst.
    cbn [fst snd]. rewrite set_fresh by (apply Hfr; now left).
    rewrite IH; [now rewrite <- List.app_assoc| assumption |].
    intros k Hk. unfold Dict.keys. rewrite map_app, in_app_iff. simpl.
    intros [H|[H|[]]].
    + apply (Hfr k); [now right|exact H].
    + subst. contradiction.
Qed.

End DictFacts.

(** ** aggregate_job.py: the metric flattener *)

Lemma fold_set_update {A V} (g : A -> string) (h : A -> V) (l : list A) (m : Dict.t V) :
  fold_left (fun acc x => Dict.set (g x) (h x) acc) l m
  = Dict.update m (map (fun x => (g x, h x)) l).
Proof. revert m; induction l as [|x l IH]; intros m; [reflexivity|]. simpl. apply IH. Qed.

Lemma flatten_chains_update (chains : list (string * json)) (m : Dict.t json) :
  flatten_chains chains m = Dict.update m (chain_entries chains).
Proof. apply fold_set_update. Qed.

Lemma flatten_pairs_update (pairs : list (string * json)) (m : Dict.t json) :
  flatten_pairs pairs m = Dict.update m (pair_entries pairs).
Proof.
  unfold flatten_pairs, pair_entries. revert m.
  induction pairs as [|[ci sub] pairs IH]; intros m; [reflexivity|].
  cbn [fold_left flat_map fst snd]. rewrite update_app, IH. f_equal.
  unfold flatten_pair_row. destruct sub; try reflexivity. apply fold_set_update.
Qed.

Section TopKeys.
Variable d : Dict.t json.

Let step (m : Dict.t json) (key : string) : Dict.t json :=
  match Dict.get key d with
  | Some v => Dict.set key v m
  | None => m
  end.

Lemma top_fold_keys (ks : list string) (m : Dict.t json) (k : string) :
  In k (Dict.keys (fold_left step ks m)) -> In k ks \/ In k (Dict.keys m).
Proof.
  revert m; induction ks as [|k0 ks IH]; intros m H; [now right|].
  simpl in H. apply IH in H as [H|H]; [left; now right|].
  unfold step in H. destruct (Dict.get k0 d); [|now right].
  apply in_keys_set in H as [->|H]; [left; now left|now right].
Qed.

Lemma top_fold_other (ks : list string) (m : Dict.t json) (k : string) :
  ~ In k ks -> Dict.get k (fold_left step ks m) = Dict.get k m.
Proof.
  revert m; induction ks as [|k0 ks IH]; intros m H; [reflexivity|].
  simpl. rewrite IH by (simpl in H; tauto).
  unfold step. destruct (Dict.get k0 d); [|reflexivity].
  apply get_set_other. intros ->. apply H. now left.
Qed.

Lemma top_fold_in (ks : list string) (m : Dict.t json) (k : string) (v : json) :
  In k ks -> Dict.get k d = Some v -> Dict.get k (fold_left step ks m) = Some v.
Proof.
  revert m; induction ks as [|k0 ks IH]; intros m Hin Hd; [contradiction|].
  simpl. destruct (in_dec string_dec k ks) as [Hk|Hk]; [now apply IH|].
  destruct Hin as [->|Hin]; [|contradiction].
  rewrite top_fold_other by assumption. unfold step. rewrite Hd. apply get_set_same.
Qed.

Lemma top_fold_NoDup (ks : list string) (m : Dict.t json) :
  NoDup (Dict.keys m) -> NoDup (Dict.keys (fold_left step ks m)).
Proof.
  revert m; induction ks as [|k0 ks IH]; intros m H; [assumption|].
  simpl. apply IH. unfold step. destruct (Dict.get k0 d); [|assumption].
  now apply NoDup_keys_set.
Qed.

Lemma top_fold_run (ks : list string) (m : Dict.t json) :
  foldM (copy_top_key (JObj d)) ks m = ret (fold_left step ks m).
Proof.
  revert m; induction ks as [|k0 ks IH]; intros m; [reflexivity|].
  cbn [foldM fold_left]. unfold copy_top_key at 1. cbn [py_in py_getitem].
  rewrite bind_ret_l. unfold Dict.mem, step at 2.
  destruct (Dict.get k0 d); rewrite !bind_ret_l; apply IH.
Qed.

End TopKeys.

Lemma flatten_confidence_object (d : Dict.t json) :
  flatten_confidence (JObj d) = ret (flatten_object d).
Proof.
  unfold flatten_confidence, flatten_object, top_metrics.
  rewrite top_fold_run. cbn [py_in py_getitem]. unfold Dict.mem.
  rewrite !bind_ret_l.
  destruct (Dict.get "chains_ptm" d) as [[]|]; rewrite !bind_ret_l;
    destruct (Dict.get "pair_chains_iptm" d) as [[]|]; rewrite ?bind_ret_l; reflexivity.
Qed.

Lemma top_key_not_chain (key rest : string) :
  In key top_keys -> key <> "chains_ptm_" ++ rest /\ key <> "pair_chains_iptm_" ++ rest.
Proof.
  unfold top_keys. simpl. intros H.
  repeat (destruct H as [H|H]; [subst key; split; discriminate|]). contradiction.
Qed.

Lemma chain_entries_keys (chains : list (string * json)) (k : string) :
  In k (map fst (chain_entries chains)) -> exists chain, k = "chains_ptm_" ++ chain.
Proof.
  unfold chain_entries. rewrite map_map. intros H.
  apply in_map_iff in H as ([c v] & <- & _). now exists c.
Qed.

Lemma pair_entries_keys (pairs : list (string * json)) (k : string) :
  In k (map fst (pair_entries pairs)) ->
  exists ci cj, k = "pair_chains_iptm_" ++ ci ++ "_" ++ cj.
Proof.
  unfold pair_entries. intros H. apply in_map_iff in H as ([k' v] & <- & H).
  apply in_flat_map in H as ([ci sub] & _ & H). cbn [fst snd] in H.
  destruct sub; try contradiction.
  apply in_map_iff in H as ([cj v'] & [= <- <-] & _). now exists ci, cj.
Qed.

Lemma pair_entries_in (pairs : list (string * json)) ci sub cj (v : json) :
  In (ci, JObj sub) pairs -> In (cj, v) sub ->
  In ("pair_chains_iptm_" ++ ci ++ "_" ++ cj, v) (pair_entries pairs).
Proof.
  intros Hp Hs. unfold pair_entries. apply in_flat_map.
  exists (ci, JObj sub). split; [assumption|]. cbn [fst snd].
  apply in_map_iff. now exists (cj, v).
Qed.

Lemma NoDup_map_inj {A B} (f : A -> B) (l : list A) :
  (forall x y, f x = f y -> x = y) -> NoDup l -> NoDup (map f l).
Proof.
  intros Hinj. induction 1 as [|x l Hnin Hnd IH]; simpl; constructor; [|assumption].
  intros H. apply in_map_iff in H as (y & E & Hy). apply Hinj in E. now subst.
Qed.

Lemma append_inv_head (a b c : string) : a ++ b = a ++ c -> b = c.
Proof. induction a; simpl; intros H; [assumption|]. injection H as H. now apply IHa. Qed.

Lemma flatten_object_NoDup (d : Dict.t json) : NoDup (Dict.keys (flatten_object d)).
Proof.
  unfold flatten_object.
  assert (H1 : NoDup (Dict.keys (top_metrics d))) by (apply top_fold_NoDup; constructor).
  assert (H2 : NoDup (Dict.keys
                        match Dict.get "chains_ptm" d with
                        | Some (JObj chains) => flatten_chains chains (top_metrics d)
                        | _ => top_metrics d
                        end)).
  { destruct (Dict.get "chains_ptm" d) as [[]|]; try assumption.
    rewrite flatten_chains_update. now apply NoDup_keys_update. }
  destruct (Dict.get "pair_chains_iptm" d) as [[]|]; try assumption.
  rewrite flatten_pairs_update. now apply NoDup_keys_update.
Qed.

Lemma flatten_object_top (d : Dict.t json) (key : string) (v : json) :
  In key top_keys -> Dict.get key d = Some v ->
  Dict.get key (flatten_object d) = Some v.
Proof.
  intros Hin Hd. unfold flatten_object.
  assert (H1 : Dict.get key (top_metrics d) = Some v) by now apply top_fold_in.
  assert (H2 : Dict.get key
                 match Dict.get "chains_ptm" d with
                 | Some (JObj chains) => flatten_chains chains (top_metrics d)
                 | _ => top_metrics d
                 end = Some v).
  { destruct (Dict.get "chains_ptm" d) as [[]|]; try assumption.
    rewrite flatten_chains_update, get_update_other; [assumption|].
    intros H. apply chain_entries_keys in H as [c ->].
    now apply (top_key_not_chain _ c) in Hin. }
  destruct (Dict.get "pair_chains_iptm" d) as [[]|]; try assumption.
  rewrite flatten_pairs_update, get_update_other; [assumption|].
  intros H. apply pair_entries_keys in H as (ci & cj & ->).
  now apply (top_key_not_chain _ (ci ++ "_" ++ cj)) in Hin.
Qed.

Lemma flatten_object_chain (d : Dict.t json) chains (chain : string) (v : json) :
  Dict.get "chains_ptm" d = Some (JObj chains) -> NoDup (Dict.keys chains) ->
  Dict.get chain chains = Some v ->
  Dict.get ("chains_ptm_" ++ chain) (flatten_object d) = Some v.
Proof.
  intros Hc Hnd Hget. unfold flatten_object. rewrite Hc.
  assert (H2 : Dict.get ("chains_ptm_" ++ chain)
                 (flatten_chains chains (top_metrics d)) = Some v).
  { rewrite flatten_chains_update. apply get_update_in.
    - unfold chain_entries. rewrite map_map. cbn [fst].
      rewrite <- (map_map fst (fun k => "chains_ptm_" ++ k)).
      apply NoDup_map_inj; [|exact Hnd].
      intros a b E. now apply append_inv_head in E.
    - unfold chain_entries. apply in_map_iff. exists (chain, v).
      split; [reflexivity|]. now apply get_in. }
  destruct (Dict.get "pair_chains_iptm" d) as [[]|]; try assumption.
  rewrite flatten_pairs_update, get_update_other; [assumption|].
  intros H. apply pair_entries_keys in H as (ci & cj & E). discriminate E.
Qed.

Lemma flatten_object_pair (d : Dict.t json) pairs ci sub cj (v : json) :
  Dict.get "pair_chains_iptm" d = Some (JObj pairs) ->
  NoDup (map fst (pair_entries pairs)) ->
  In (ci, JObj sub) pairs -> In (cj, v) sub ->
  Dict.get ("pair_chains_iptm_" ++ ci ++ "_" ++ cj) (flatten_object d) = Some v.
Proof.
  intros Hp Hnd Hi Hj. unfold flatten_object. rewrite Hp, flatten_pairs_update.
  apply get_update_in; [assumption|]. now apply (pair_entries_in pairs ci sub).
Qed.

Lemma flatten_object_keys (d : Dict.t json) (k : string) :
  In k (Dict.keys (flatten_object d)) ->
  In k top_keys
  \/ (exists chain, k = "chains_ptm_" ++ chain)
  \/ (exists ci cj, k = "pair_chains_iptm_" ++ ci ++ "_" ++ cj).
Proof.
  unfold flatten_object. intros H.
  assert (H2 : forall k,
             In k (Dict.keys match Dict.get "chains_ptm" d with
                             | Some (JObj chains) => flatten_chains chains (top_metrics d)
                             | _ => top_metrics d
                             end) ->
             In k top_keys \/ (exists chain, k = "chains_ptm_" ++ chain)).
  { assert (H1 : forall k, In k (Dict.keys (top_metrics d)) -> In k top_keys).
    { intros k1 H1. apply top_fold_keys in H1 as [H1|[]]. exact H1. }
    intros k2 Hk. destruct (Dict.get "chains_ptm" d) as [[]|]; try (left; now apply H1).
    rewrite flatten_chains_update in Hk. apply in_keys_update in Hk as [Hk|Hk].
    - right. now apply chain_entries_keys in Hk.
    - left. now apply H1. }
  destruct (Dict.get "pair_chains_iptm" d) as [[]|];
    try (apply H2 in H; tauto).
  rewrite flatten_pairs_update in H. apply in_keys_update in H as [H|H].
  - right. right. now apply pair_entries_keys in H.
  - apply H2 in H. tauto.
Qed.

Lemma add_model_metrics_object (w : World) (folder : path) (name : string)
  (d : Dict.t json) (acc : Dict.t json) :
  load w (folder ++ [name])%list = Loaded (JObj d) ->
  add_model_metrics w folder acc name
  = ret (Dict.update acc (map (fun kv => (model_key name (fst kv), snd kv))
                              (flatten_object d))).
Proof.
  intros Hl. unfold add_model_metrics, parse_confidence_json, json_load.
  rewrite Hl, bind_ret_l, flatten_confidence_object, bind_ret_l.
  f_equal. apply (fold_set_update (fun kv => fst kv ++ "_model_" ++ model_idx name) snd).
Qed.

Lemma model_entries_NoDup (name : string) (m : Dict.t json) :
  NoDup (Dict.keys m) ->
  NoDup (map fst (map (fun kv : string * json => (model_key name (fst kv), snd kv)) m)).
Proof.
  intros H. rewrite map_map. cbn [fst].
  rewrite <- (map_map fst (model_key name)).
  apply NoDup_map_inj; [|exact H].
  intros a b E. unfold model_key in E. now apply append_inv_tail in E.
Qed.


Lemma model_tail_digits (t ds : string) :
  model_tail t = Some ds -> Str.forallb Str.is_digit ds = true.
Proof.
  unfold model_tail. destruct (Str.strip_prefix "_model_" t) as [u|]; [|discriminate].
  pose proof (span_forallb Str.is_digit u) as H.
  destruct (Str.span Str.is_digit u) as [a b]. cbn [fst] in H.
  destruct (negb (Str.is_empty a) && _); [|discriminate]. now intros [= <-].
Qed.

Lemma model_tail_sound (t ds : string) :
  model_tail t = Some ds ->
  exists v, t = "_model_" ++ ds ++ v
            /\ (v = ".json" \/ v = ".json" ++ String Str.nl "").
Proof.
  unfold model_tail. destruct (Str.strip_prefix "_model_" t) as [u|] eqn:E; [|discriminate].
  apply strip_prefix_sound in E. subst t.
  pose proof (span_eq Str.is_digit u) as Hu.
  destruct (Str.span Str.is_digit u) as [a v]. cbn [fst snd] in Hu.
  destruct (negb (Str.is_empty a)); cbn [andb]; [|discriminate].
  destruct (String.eqb_spec v ".json") as [->|Hv].
  - intros [= <-]. exists ".json". rewrite Hu. now split; [|left].
  - cbn [orb]. destruct (String.eqb_spec v (".json" ++ String Str.nl "")) as [->|]; [|discriminate].
    intros [= <-]. exists (".json" ++ String Str.nl ""). rewrite Hu. now split; [|right].
Qed.

Lemma search_model_here (s ds : string) :
  model_tail s = Some ds -> search_model s = Some ds.
Proof. intros H. destruct s; cbn [search_model]; now rewrite H. Qed.

(** The model index of a name that ends in [_model_<digits>.json]. *)
Lemma search_model_file (pre ds : string) :
  Str.forallb Str.is_digit ds = true -> ds <> "" ->
  search_model (pre ++ "_model_" ++ ds ++ ".json") = Some ds.
Proof.
  intros Hd Hne. induction pre as [|c pre IH].
  - assert (Ht : model_tail ("_model_" ++ ds ++ ".json") = Some ds).
    { unfold model_tail.
      rewrite strip_prefix_append, (span_append _ ds ".json" Hd eq_refl).
      destruct ds; [congruence|reflexivity]. }
    now apply search_model_here.
  - change (String c pre ++ "_model_" ++ ds ++ ".json")
      with (String c (pre ++ "_model_" ++ ds ++ ".json")).
    cbn [search_model].
    destruct (model_tail (String c (pre ++ "_model_" ++ ds ++ ".json"))) as [ds'|] eqn:E;
      [|exact IH].
    exfalso. pose proof (model_tail_digits _ _ E) as Hd'.
    apply model_tail_sound in E as (v & E & Hv).
    change (String c (pre ++ "_model_" ++ ds ++ ".json"))
      with (String c pre ++ "_model" ++ String "_" (ds ++ ".json")) in E.
    rewrite <- append_assoc in E.
    change ("_model_" ++ ds' ++ v) with ("_model" ++ String "_" (ds' ++ v)) in E.
    apply cut_at_last in E as [E _].
    + apply (f_equal String.length) in E. rewrite length_append in E.
      cbn [String.length] in E. lia.
    + now rewrite lacks_append, (digit_lacks "_" ds eq_refl Hd).
    + rewrite lacks_append, (digit_lacks "_" ds' eq_refl Hd').
      destruct Hv as [->| ->]; reflexivity.
Qed.

Lemma model_idx_file (pre ds : string) :
  Str.forallb Str.is_digit ds = true -> ds <> "" ->
  model_idx (pre ++ "_model_" ++ ds ++ ".json") = ds.
Proof. intros Hd Hne. unfold model_idx. now rewrite search_model_file. Qed.

(** C6.  For a confidence document that is a mapping, the flattener copies the
    allow-listed top-level metrics verbatim, writes each per-chain score under
    [chains_ptm_<chain>] and each per-chain-pair score under
    [pair_chains_iptm_<chain_i>_<chain_j>], and writes nothing else.  Every key
    enters the row of the job suffixed with [_model_] and the model index of the
    file, which for a file named [<anything>_model_<digits>.json] is
    [<digits>]: the key [k] of such a file enters as [k_model_<digits>].  The
    document [{"ptm": 0.8, "chains_ptm": {"A": 0.9}}] of file
    [confidence_Job1_model_0.json] gives [ptm_model_0 = 0.8] and
    [chains_ptm_A_model_0 = 0.9]. *)
Theorem metric_flattener_keys (w : World) (folder : path) (name : string)
  (d : Dict.t json) (acc : Dict.t json) :
  load w (folder ++ [name])%list = Loaded (JObj d) ->
  let metrics := flatten_object d in
  outcome (parse_confidence_json w (folder ++ [name])%list) = Ok metrics
  /\ (forall key v, In key top_keys -> Dict.get key d = Some v ->
                    Dict.get key metrics = Some v)
  /\ (forall chains chain v,
         Dict.get "chains_ptm" d = Some (JObj chains) -> NoDup (Dict.keys chains) ->
         Dict.get chain chains = Some v ->
         Dict.get ("chains_ptm_" ++ chain) metrics = Some v)
  /\ (forall pairs chain_i sub chain_j v,
         Dict.get "pair_chains_iptm" d = Some (JObj pairs) ->
         NoDup (map fst (pair_entries pairs)) ->
         In (chain_i, JObj sub) pairs -> In (chain_j, v) sub ->
         Dict.get ("pair_chains_iptm_" ++ chain_i ++ "_" ++ chain_j) metrics = Some v)
  /\ (forall k, In k (Dict.keys metrics) ->
                In k top_keys
                \/ (exists chain, k = "chains_ptm_" ++ chain)
                \/ (exists chain_i chain_j,
                       k = "pair_chains_iptm_" ++ chain_i ++ "_" ++ chain_j))
  /\ (exists all,
         outcome (add_model_metrics w folder acc name) = Ok all
         /\ (forall k v, Dict.get k metrics = Some v ->
                         Dict.get (k ++ "_model_" ++ model_idx name) all = Some v)
         /\ (forall k', In k' (Dict.keys all) ->
                        In k' (Dict.keys acc)
                        \/ exists k, In k (Dict.keys metrics)
                                     /\ k' = k ++ "_model_" ++ model_idx name)
         /\ (forall pre ds,
               name = pre ++ "_model_" ++ ds ++ ".json" ->
               Str.forallb Str.is_digit ds = true -> ds <> "" ->
               model_idx name = ds
               /\ (forall k v, Dict.get k metrics = Some v ->
                               Dict.get (k ++ "_model_" ++ ds) all = Some v)
               /\ (forall k', In k' (Dict.keys all) ->
                              In k' (Dict.keys acc)
                              \/ exists k, In k (Dict.keys metrics)
                                           /\ k' = k ++ "_model_" ++ ds)))
  /\ outcome (collect_model_metrics example_world example_folder "Job1")
     = Ok [("ptm_model_0", JNum (8 # 10)); ("chains_ptm_A_model_0", JNum (9 # 10))].
Proof.
  intros Hl metrics. subst metrics.
  split.
  { unfold parse_confidence_json, json_load.
    now rewrite Hl, bind_ret_l, flatten_confidence_object. }
  split; [intros; now apply flatten_object_top|].
  split; [intros; now apply (flatten_object_chain d chains)|].
  split; [intros; now apply (flatten_object_pair d pairs chain_i sub)|].
  split; [apply flatten_object_keys|].
  split; [|reflexivity].
  rewrite (add_model_metrics_object w folder name d acc Hl).
  eexists. split; [reflexivity|].
  assert (Hin : forall k v, Dict.get k (flatten_object d) = Some v ->
                  Dict.get (k ++ "_model_" ++ model_idx name)
                    (Dict.update acc (map (fun kv => (model_key name (fst kv), snd kv))
                                          (flatten_object d))) = Some v).
  { intros k v Hk. apply get_update_in.
    + apply model_entries_NoDup, flatten_object_NoDup.
    + apply in_map_iff. exists (k, v). split; [reflexivity|]. now apply get_in. }
  assert (Hkeys : forall k',
             In k' (Dict.keys (Dict.update acc
                                 (map (fun kv => (model_key name (fst kv), snd kv))
                                      (flatten_object d)))) ->
             In k' (Dict.keys acc)
             \/ exists k, In k (Dict.keys (flatten_object d))
                          /\ k' = k ++ "_model_" ++ model_idx name).
  { intros k' Hk'. apply in_keys_update in Hk' as [Hk'|Hk']; [right|now left].
    rewrite map_map in Hk'. cbn [fst] in Hk'.
    apply in_map_iff in Hk' as ([k v] & <- & Hin').
    exists k. split; [|reflexivity]. now apply (in_map fst _ (k, v)). }
  split; [exact Hin|]. split; [exact Hkeys|].
  intros pre ds Hname Hd Hne.
  assert (Hidx : model_idx name = ds) by (rewrite Hname; now apply model_idx_file).
  rewrite <- Hidx. now repeat split.
Qed.

Lemma metric_flattener_keys_witness :
  let d := [("ptm", JNum (7 # 10));
            ("pair_chains_iptm", JObj [("A", JObj [("B", JNum (5 # 10))])])] in
  outcome (parse_confidence_json two_models_world
             (example_folder ++ ["confidence_Job1_model_12.json"])%list)
  = Ok (flatten_object d)
  /\ Dict.get "ptm" (flatten_object d) = Some (JNum (7 # 10))
  /\ (exists all,
        outcome (add_model_metrics two_models_world example_folder []
                   "confidence_Job1_model_12.json") = Ok all
        /\ Dict.get "ptm_model_12" all = Some (JNum (7 # 10))
        /\ Dict.get "pair_chains_iptm_A_B_model_12" all = Some (JNum (5 # 10))).
Proof.
  intros d.
  destruct (metric_flattener_keys two_models_world example_folder
              "confidence_Job1_model_12.json" d [] eq_refl)
    as (Hrun & Htop & _ & Hpair & _ & (all & Hall & _ & _ & Hidx) & _).
  split; [exact Hrun|].
  split; [exact (Htop "ptm" (JNum (7 # 10)) (or_intror (or_introl eq_refl)) eq_refl)|].
  exists all. split; [exact Hall|].
  destruct (Hidx "confidence_Job1" "12" eq_refl eq_refl ltac:(discriminate))
    as (_ & Hin & _).
  split.
  - exact (Hin "ptm" _ eq_refl).
  - exact (Hin "pair_chains_iptm_A_B" _ eq_refl).
Defined.

(** ** aggregate_job.py: keys of different models *)


Lemma search_model_digits (name ds : string) :
  search_model name = Some ds -> Str.forallb Str.is_digit ds = true.
Proof.
  induction name as [|c name IH]; cbn [search_model].
  - destruct (model_tail "") eqn:E; [|discriminate].
    intros [= <-]. now apply model_tail_digits in E.
  - destruct (model_tail (String c name)) eqn:E.
    + intros [= <-]. now apply model_tail_digits in E.
    + exact IH.
Qed.

Lemma model_idx_lacks (name : string) : Str.lacks "_" (model_idx name) = true.
Proof.
  unfold model_idx. destruct (search_model name) as [ds|] eqn:E; [|reflexivity].
  apply digit_lacks; [reflexivity|]. now apply search_model_digits in E.
Qed.

Lemma model_key_cut (name k : string) :
  model_key name k = (k ++ "_model") ++ String "_" (model_idx name).
Proof. unfold model_key. now rewrite append_assoc. Qed.

Lemma model_key_eq (n1 n2 k1 k2 : string) :
  model_key n1 k1 = model_key n2 k2 -> model_idx n1 = model_idx n2 /\ k1 = k2.
Proof.
  rewrite !model_key_cut. intros E.
  apply cut_at_last in E as [Ek Ei]; try apply model_idx_lacks.
  split; [assumption|]. now apply append_inv_tail in Ek.
Qed.

Lemma collect_objects (w : World) (folder : path) (names : list string) (acc : Dict.t json) :
  List.forallb (fun name => loads_object w (folder ++ [name])%list) names = true ->
  outcome (foldM (add_model_metrics w folder) names acc)
  = Ok (Dict.update acc (flat_map (model_entries w folder) names)).
Proof.
  intros H.
  rewrite (outcome_foldM _ (fun acc name => Dict.update acc (model_entries w folder name))).
  - f_equal. clear H. revert acc. induction names as [|n names IH]; intros acc; [reflexivity|].
    cbn [fold_left flat_map]. now rewrite update_app, IH.
  - intros acc' name Hin. rewrite List.forallb_forall in H. specialize (H name Hin).
    unfold loads_object in H. unfold model_entries, doc_metrics.
    destruct (load w (folder ++ [name])%list) as [[]| | |] eqn:E; try discriminate.
    now rewrite (add_model_metrics_object w folder name _ acc' E).
Qed.

Lemma doc_metrics_NoDup (w : World) (folder : path) (name : string) :
  NoDup (Dict.keys (doc_metrics w folder name)).
Proof.
  unfold doc_metrics.
  destruct (load w (folder ++ [name])%list) as [[]| | |]; try constructor.
  apply flatten_object_NoDup.
Qed.

Lemma model_entries_idx (w : World) (folder : path) (name k : string) :
  In k (map fst (model_entries w folder name)) -> exists k0, k = model_key name k0.
Proof.
  unfold model_entries. rewrite map_map. cbn [fst]. intros H.
  apply in_map_iff in H as (kv & <- & _). now exists (fst kv).
Qed.

Lemma all_entries_NoDup (w : World) (folder : path) (names : list string) :
  NoDup (map model_idx names) ->
  NoDup (map fst (flat_map (model_entries w folder) names)).
Proof.
  induction names as [|n names IH]; cbn [map flat_map]; intros H; [constructor|].
  inversion H as [|? ? Hnin Hnd]; subst. rewrite map_app.
  apply NoDup_app.
  - apply model_entries_NoDup, doc_metrics_NoDup.
  - now apply IH.
  - intros k Hk Hk'. apply model_entries_idx in Hk as [k0 ->].
    apply in_map_iff in Hk' as ([k' v] & E & Hin). cbn [fst] in E.
    apply in_flat_map in Hin as (n' & Hn' & Hin).
    assert (Hk' : In k' (map fst (model_entries w folder n')))
      by now apply (in_map fst _ (k', v)).
    apply model_entries_idx in Hk' as [k1 ->].
    apply model_key_eq in E as [E _]. apply Hnin. rewrite <- E. now apply in_map.
Qed.

(** C2 (amended).  Keys coming from model files whose extracted indices differ
    never collide; when the confidence documents found for a job are mappings and
    no two of them have the same index, every metric of every document is in
    the merged mapping, under its own suffixed key. *)
Theorem model_suffix_separates (w : World) (args : Args) (job_id : string) :
  let folder := pred_folder args job_id in
  let names := confidence_files w args job_id in
  NoDup (map model_idx names) ->
  List.forallb (fun name => loads_object w (folder ++ [name])%list) names = true ->
  (forall n1 n2 k1 k2, model_idx n1 <> model_idx n2 -> model_key n1 k1 <> model_key n2 k2)
  /\ exists all,
       outcome (collect_model_metrics w folder job_id) = Ok all
       /\ forall name k v,
            In name names -> Dict.get k (doc_metrics w folder name) = Some v ->
            Dict.get (model_key name k) all = Some v.
Proof.
  intros folder names Hnd Hobj. split.
  - intros n1 n2 k1 k2 Hne E. now apply model_key_eq in E as [E _].
  - exists (Dict.update [] (flat_map (model_entries w folder) names)). split.
    + unfold collect_model_metrics. now apply collect_objects.
    + intros name k v Hin Hget. apply get_update_in.
      * now apply all_entries_NoDup.
      * apply in_flat_map. exists name. split; [assumption|].
        unfold model_entries. apply in_map_iff. exists (k, v).
        split; [reflexivity|]. now apply get_in.
Qed.

Lemma model_suffix_separates_witness :
  exists all,
    outcome (collect_model_metrics example_world example_folder "Job1") = Ok all
    /\ Dict.get "ptm_model_0" all = Some (JNum (8 # 10)).
Proof.
  assert (Hnd : NoDup (map model_idx (confidence_files example_world example_args "Job1"))).
  { vm_compute. constructor; [intros []|constructor]. }
  destruct (model_suffix_separates example_world example_args "Job1" Hnd eq_refl)
    as (_ & all & Hrun & Hall).
  exists all. split; [exact Hrun|].
  exact (Hall "confidence_Job1_model_0.json" "ptm" (JNum (8 # 10))
           (or_introl eq_refl) eq_refl).
Defined.

(** C2 as stated fails when the index of two documents cannot be read: both get
    the suffix [_model_?], their keys collide and the second value replaces the
    first. *)
Lemma sentinel_keys_collide :
  confidence_files sentinel_world example_args "J"
  = ["confidence_J_model_a.json"; "confidence_J_model_b.json"]
  /\ Dict.get "ptm" (doc_metrics sentinel_world sentinel_folder "confidence_J_model_a.json")
     = Some (JNum (1 # 10))
  /\ Dict.get "ptm" (doc_metrics sentinel_world sentinel_folder "confidence_J_model_b.json")
     = Some (JNum (2 # 10))
  /\ model_key "confidence_J_model_a.json" "ptm" = "ptm_model_?"
  /\ model_key "confidence_J_model_b.json" "ptm" = "ptm_model_?"
  /\ outcome (collect_model_metrics sentinel_world sentinel_folder "J")
     = Ok [("ptm_model_?", JNum (2 # 10))].
Proof. repeat split. Qed.

(** ** run_boltz.py: the runner *)

Import RunBoltz.

Lemma run_job_record (env : Env) (args : Args) (job_file : string) :
  handled env args job_file = true ->
  outcome (run_job env args job_file) = Ok (record_of env args job_file).
Proof.
  unfold handled, run_job, record_of, recorded_seconds.
  destruct (proc (env job_file _)) as [[| |]| |] eqn:E; intros H;
    try discriminate; rewrite outcome_bind; try rewrite outcome_bind;
    cbn [outcome print ret fst]; destruct (max_time_set args); reflexivity.
Qed.

Lemma run_jobs_records (env : Env) (args : Args) (jobs : list string) :
  List.forallb (handled env args) jobs = true ->
  outcome (mapM (run_job env args) jobs) = Ok (map (record_of env args) jobs).
Proof.
  intros Hjobs. apply outcome_mapM. intros job Hin. apply run_job_record.
  rewrite List.forallb_forall in Hjobs. now apply Hjobs.
Qed.

Lemma yaml_files_perm (d d' : Dict.t entry) :
  Permutation d d' -> Permutation (yaml_files d) (yaml_files d').
Proof. intros H. unfold yaml_files. now apply Permutation_flat_map. Qed.

Lemma job_files_perm (env : Env) (dir replicates : Dict.t entry) :
  Dict.get "replicates" dir = Some (Dir replicates) ->
  Permutation (job_files env dir) (map fst (yaml_files replicates)).
Proof.
  intros H. unfold job_files, listdir. rewrite H.
  apply Permutation_map, yaml_files_perm, sorted_by_perm.
Qed.

Lemma main_after_jobs (env : Env) (args : Args) (input_dir dir : Dict.t entry) :
  outcome (duplicate_yaml_files input_dir (num_replicates args)) = Ok dir ->
  List.forallb (handled env args) (job_files env dir) = true ->
  outcome (RunBoltz.main env args input_dir)
  = if out_dir_ready env args (job_files env dir)
    then Ok (dir, map (record_of env args) (job_files env dir))
    else Raise (OtherError "FileNotFoundError").
Proof.
  intros Hdup Hjobs. unfold RunBoltz.main.
  rewrite outcome_bind, Hdup, outcome_bind. cbn [outcome print fst].
  rewrite outcome_bind, (run_jobs_records _ _ _ Hjobs), outcome_bind.
  unfold open_records. now destruct out_dir_ready.
Qed.

(** C4 (amended).  Once the replicates are in place, the jobs are the documents
    of the replicates folder in the order of its listing, and every job whose
    invocation succeeds, fails with a non-zero status or times out gives
    exactly one record, after which the loop goes on to the next job.  The
    record holds the file name, the replicate number read from it and the time
    rounded to two decimals: the measured time, or on a timeout with a maximum
    time set the product of that maximum and sixty, rounded as the float it is.
    The record file holds these records, in the order of the jobs, when the
    output folder exists at the end, and the run ends with FileNotFoundError
    when it does not.  The record holds no outcome state. *)
Theorem one_record_per_job (env : Env) (args : Args) (input_dir dir : Dict.t entry) :
  outcome (duplicate_yaml_files input_dir (num_replicates args)) = Ok dir ->
  List.forallb (handled env args) (job_files env dir) = true ->
  let jobs := job_files env dir in
  let records := map (record_of env args) jobs in
  (forall replicates, Dict.get "replicates" dir = Some (Dir replicates) ->
     Permutation jobs (map fst (yaml_files replicates)))
  /\ outcome (mapM (run_job env args) jobs) = Ok records
  /\ length records = length jobs
  /\ map filename records = jobs
  /\ (forall job, In job jobs ->
        let run := env job (timeout_of args) in
        exists time,
          outcome (run_job env args job)
          = Ok {| filename := job;
                  replicate := extract_replicate_number job;
                  processing_time_sec := PyFloat.round2 time |}
          /\ (proc run <> TimeoutExpired -> time = wall run)
          /\ (proc run = TimeoutExpired ->
              match max_time args with
              | Some t => time = if PyFloat.nonzero t then PyFloat.times60 t else wall run
              | None => time = wall run
              end))
  /\ (out_dir_ready env args jobs = true ->
      outcome (RunBoltz.main env args input_dir) = Ok (dir, records))
  /\ (out_dir_ready env args jobs = false ->
      outcome (RunBoltz.main env args input_dir) = Raise (OtherError "FileNotFoundError")).
Proof.
  intros Hdup Hjobs jobs records. subst jobs records.
  pose proof (main_after_jobs _ _ _ _ Hdup Hjobs) as Hmain.
  repeat split.
  - intros replicates. apply job_files_perm.
  - now apply run_jobs_records.
  - apply length_map.
  - rewrite map_map. cbn [record_of filename]. apply map_id.
  - intros job Hin run. exists (recorded_seconds env args job).
    rewrite List.forallb_forall in Hjobs. split; [|split].
    + now apply run_job_record, Hjobs.
    + unfold recorded_seconds. fold run. now destruct (proc run), (max_time_set args).
    + intros Ht. unfold recorded_seconds, max_time_set. fold run. rewrite Ht.
      destruct (max_time args) as [t|]; [|reflexivity]. now destruct (PyFloat.nonzero t).
  - intros Hready. now rewrite Hmain, Hready.
  - intros Hready. now rewrite Hmain, Hready.
Qed.

Lemma one_record_per_job_witness :
  job_files mixed_env
    [("a.yaml", File "a"); ("b.yaml", File "b"); ("c.yaml", File "c");
     ("replicates", Dir [("a_rep1.yaml", File "a"); ("b_rep1.yaml", File "b");
                         ("c_rep1.yaml", File "c")])]
  = ["c_rep1.yaml"; "b_rep1.yaml"; "a_rep1.yaml"]
  /\ map (fun job => proc (mixed_env job (timeout_of short_limit)))
         ["c_rep1.yaml"; "b_rep1.yaml"; "a_rep1.yaml"]
     = [TimeoutExpired; Exited 1; Exited 0]
  /\ outcome (RunBoltz.main mixed_env short_limit three_docs)
     = Ok ([("a.yaml", File "a"); ("b.yaml", File "b"); ("c.yaml", File "c");
            ("replicates", Dir [("a_rep1.yaml", File "a"); ("b_rep1.yaml", File "b");
                                ("c_rep1.yaml", File "c")])],
           mixed_records)
  /\ outcome (RunBoltz.main (without_out_dir mixed_env) short_limit three_docs)
     = Raise (OtherError "FileNotFoundError").
Proof.
  split; [reflexivity|]. split; [reflexivity|]. split.
  - exact (proj1 (proj2 (proj2 (proj2 (proj2 (proj2
             (one_record_per_job mixed_env short_limit three_docs _ eq_refl eq_refl))))))
             eq_refl).
  - exact (proj2 (proj2 (proj2 (proj2 (proj2 (proj2
             (one_record_per_job (without_out_dir mixed_env) short_limit three_docs _
                eq_refl eq_refl))))))
             eq_refl).
Defined.

(** C4 as stated fails on the outcome state: a run that succeeded and a run that
    failed, of the same job and the same duration, leave the same record. *)
Lemma run_record_has_no_outcome :
  proc (env_success "J_rep1.yaml" None) = Exited 0
  /\ proc (env_failure "J_rep1.yaml" None) = Exited 1
  /\ outcome (run_job env_success sample_args "J_rep1.yaml") = Ok ten_seconds
  /\ outcome (run_job env_failure sample_args "J_rep1.yaml")
     = outcome (run_job env_success sample_args "J_rep1.yaml").
Proof. repeat split. Qed.

(** ** run_boltz.py: the replicator *)

Lemma endswith_sound (s suf : string) :
  Str.endswith s suf = true -> exists stem, s = stem ++ suf.
Proof.
  induction s as [|c s IH]; cbn [Str.endswith]; intros H.
  - apply orb_prop in H as [H|H]; [|discriminate].
    apply String.eqb_eq in H. subst. now exists "".
  - apply orb_prop in H as [H|H].
    + apply String.eqb_eq in H. subst. now exists "".
    + destruct (IH H) as [stem ->]. now exists (String c stem).
Qed.

Lemma splitext_yaml (f : string) :
  is_yaml_name f = true ->
  exists base ext,
    Str.splitext f = (base, ext) /\ f = base ++ ext
    /\ (ext = ".yaml" \/ ext = ".yml" \/ ext = "").
Proof.
  unfold is_yaml_name. intros H. apply orb_prop in H as [H|H];
    apply endswith_sound in H as [stem ->]; unfold Str.splitext.
  - change (stem ++ ".yaml") with (stem ++ String "." "yaml").
    rewrite rpartition_append by reflexivity.
    destruct (Str.forallb (Ascii.eqb ".") stem).
    + exists (stem ++ ".yaml"), "". rewrite append_nil_r. tauto.
    + exists stem, ".yaml". tauto.
  - change (stem ++ ".yml") with (stem ++ String "." "yml").
    rewrite rpartition_append by reflexivity.
    destruct (Str.forallb (Ascii.eqb ".") stem).
    + exists (stem ++ ".yml"), "". rewrite append_nil_r. tauto.
    + exists stem, ".yml". tauto.
Qed.

Lemma uint_digits (d : Decimal.uint) :
  Str.forallb Str.is_digit (NilEmpty.string_of_uint d) = true.
Proof. induction d; simpl; try assumption; reflexivity. Qed.

Lemma of_nat_digits (n : nat) : Str.forallb Str.is_digit (Str.of_nat n) = true.
Proof. apply uint_digits. Qed.

Lemma of_nat_inj (m n : nat) : Str.of_nat m = Str.of_nat n -> m = n.
Proof.
  unfold Str.of_nat. intros H. apply Unsigned.to_uint_inj.
  apply (f_equal NilEmpty.uint_of_string) in H. rewrite !NilEmpty.usu in H.
  now injection H.
Qed.

Lemma replicate_name_inj (f1 f2 : string) (k1 k2 : nat) :
  is_yaml_name f1 = true -> is_yaml_name f2 = true ->
  replicate_name f1 k1 = replicate_name f2 k2 -> f1 = f2 /\ k1 = k2.
Proof.
  intros H1 H2. unfold replicate_name.
  destruct (splitext_yaml f1 H1) as (b1 & e1 & -> & -> & He1).
  destruct (splitext_yaml f2 H2) as (b2 & e2 & -> & -> & He2).
  change (b1 ++ "_rep" ++ Str.of_nat k1 ++ e1)
    with (b1 ++ String "_" ("rep" ++ Str.of_nat k1 ++ e1)).
  change (b2 ++ "_rep" ++ Str.of_nat k2 ++ e2)
    with (b2 ++ String "_" ("rep" ++ Str.of_nat k2 ++ e2)).
  intros E.
  assert (Hl : forall k e, (e = ".yaml" \/ e = ".yml" \/ e = "") ->
                 Str.lacks "_" ("rep" ++ Str.of_nat k ++ e) = true).
  { intros k e He. change ("rep" ++ Str.of_nat k ++ e) with ("rep" ++ (Str.of_nat k ++ e)).
    rewrite !lacks_append, (digit_lacks "_" _ eq_refl (of_nat_digits k)).
    destruct He as [->|[->| ->]]; reflexivity. }
  apply cut_at_last in E as [-> E]; try now apply Hl.
  injection E as E.
  assert (Hs : forall k e, (e = ".yaml" \/ e = ".yml" \/ e = "") ->
                 Str.span Str.is_digit (Str.of_nat k ++ e) = (Str.of_nat k, e)).
  { intros k e He. apply span_append; [apply of_nat_digits|].
    destruct He as [->|[->| ->]]; reflexivity. }
  pose proof (Hs k1 e1 He1) as S1. rewrite E, (Hs k2 e2 He2) in S1.
  injection S1 as Ek ->. apply of_nat_inj in Ek. now subst.
Qed.

Lemma yaml_files_in (d : Dict.t entry) (f content : string) :
  In (f, content) (yaml_files d) <-> In (f, File content) d /\ is_yaml_name f = true.
Proof.
  unfold yaml_files. rewrite in_flat_map. split.
  - intros ([k e] & Hin & H). cbn [fst snd] in H. destruct e; [|contradiction].
    destruct (is_yaml_name k) eqn:E; [|contradiction].
    destruct H as [[= <- <-]|[]]. now split.
  - intros [Hin Hy]. exists (f, File content). split; [assumption|].
    cbn [fst snd]. rewrite Hy. now left.
Qed.

Lemma yaml_files_NoDup (d : Dict.t entry) :
  NoDup (Dict.keys d) -> NoDup (map fst (yaml_files d)).
Proof.
  unfold Dict.keys. induction d as [|[k e] d IH]; cbn [map yaml_files flat_map];
    intros H; [constructor|].
  inversion H as [|? ? Hnin Hnd]; subst. specialize (IH Hnd).
  cbn [fst snd]. destruct e; [|exact IH].
  destruct (is_yaml_name k); [|exact IH]. cbn [app map fst]. constructor; [|exact IH].
  intros Hin. apply in_map_iff in Hin as ([f c] & <- & Hin).
  apply yaml_files_in in Hin as [Hin _]. apply Hnin.
  now apply (in_map fst _ (f, File c)).
Qed.

Lemma yaml_files_app (d e : Dict.t entry) :
  yaml_files (d ++ e)%list = (yaml_files d ++ yaml_files e)%list.
Proof. unfold yaml_files. apply flat_map_app. Qed.

Lemma outcome_foldM_inv {A B} (I : B -> Prop) (f : B -> A -> M B) (g : B -> A -> B)
  (l : list A) :
  forall acc,
    I acc ->
    (forall acc' x, In x l -> I acc' -> outcome (f acc' x) = Ok (g acc' x) /\ I (g acc' x)) ->
    outcome (foldM f l acc) = Ok (fold_left g l acc) /\ I (fold_left g l acc).
Proof.
  induction l as [|x l IH]; intros acc Hacc H; [now split|].
  cbn [foldM fold_left]. rewrite outcome_bind.
  destruct (H acc x (or_introl eq_refl) Hacc) as [-> Hi].
  apply IH; [assumption|]. intros acc' y Hy. apply H. now right.
Qed.

Lemma only_files_set (k content : string) (reps : Dict.t entry) :
  only_files reps -> only_files (Dict.set k (File content) reps).
Proof.
  unfold only_files. induction 1 as [|[k0 e0] reps H0 H IH]; simpl.
  - now repeat constructor.
  - destruct (String.eqb k k0); constructor; auto.
Qed.

Lemma copy_only_files (content src dst : string) (reps : Dict.t entry) :
  only_files reps -> copy content src dst reps = ret (Dict.set dst (File content) reps).
Proof.
  intros H. unfold copy. destruct (Dict.get dst reps) as [[|sub]|] eqn:E; try reflexivity.
  apply get_in in E. unfold only_files in H. rewrite Forall_forall in H.
  now apply H in E.
Qed.

Lemma duplicate_file_only_files (n : Z) (reps : Dict.t entry) (file : string * string) :
  only_files reps ->
  outcome (duplicate_file n reps file)
  = Ok (Dict.update reps (map (fun rep => (replicate_name (fst file) rep, File (snd file)))
                              (range1 n)))
  /\ only_files (Dict.update reps
                   (map (fun rep => (replicate_name (fst file) rep, File (snd file)))
                        (range1 n))).
Proof.
  intros H. unfold duplicate_file.
  rewrite <- (fold_set_update (fun rep => replicate_name (fst file) rep)
                (fun _ => File (snd file))).
  apply (outcome_foldM_inv only_files); [assumption|].
  intros acc rep _ Hacc. rewrite copy_only_files by assumption.
  split; [reflexivity|]. now apply only_files_set.
Qed.

Lemma duplicate_all_only_files (n : Z) (docs : list (string * string)) (reps : Dict.t entry) :
  only_files reps ->
  outcome (foldM (duplicate_file n) docs reps)
  = Ok (Dict.update reps (expected_replicates docs n)).
Proof.
  intros H.
  destruct (outcome_foldM_inv only_files (duplicate_file n)
              (fun reps file =>
                 Dict.update reps
                   (map (fun rep => (replicate_name (fst file) rep, File (snd file)))
                        (range1 n)))
              docs reps H) as [-> _].
  - intros acc file _ Hacc. now apply duplicate_file_only_files.
  - f_equal. unfold expected_replicates. clear H. revert reps.
    induction docs as [|file docs IH]; intros reps; [reflexivity|].
    cbn [fold_left flat_map]. now rewrite update_app, IH.
Qed.

Lemma expected_replicates_NoDup (docs : list (string * string)) (n : Z) :
  NoDup (map fst docs) ->
  (forall f c, In (f, c) docs -> is_yaml_name f = true) ->
  NoDup (map fst (expected_replicates docs n)).
Proof.
  unfold expected_replicates.
  induction docs as [|[f c] docs IH]; cbn [map flat_map fst snd]; intros Hnd Hy;
    [constructor|].
  inversion Hnd as [|? ? Hnin Hnd']; subst. rewrite map_app, map_map. cbn [fst].
  assert (Hf : is_yaml_name f = true) by (apply (Hy f c); now left).
  apply NoDup_app.
  - apply NoDup_map_inj; [|apply seq_NoDup].
    intros a b E. now apply replicate_name_inj in E.
  - apply IH; [assumption|]. intros f' c' Hin. apply (Hy f' c'). now right.
  - intros k Hk Hk'. apply in_map_iff in Hk as (rep & <- & _).
    apply in_map_iff in Hk' as ([k' e] & E & Hin). cbn [fst] in E. subst k'.
    apply in_flat_map in Hin as ([f' c'] & Hin' & Hin). cbn [fst snd] in Hin.
    apply in_map_iff in Hin as (rep' & [= E _] & _).
    apply replicate_name_inj in E as [<- _]; [|apply (Hy f' c'); now right|assumption].
    apply Hnin. now apply (in_map fst _ (f', c')).
Qed.

Lemma expected_replicates_length (docs : list (string * string)) (n : Z) :
  length (expected_replicates docs n) = length docs * Z.to_nat n.
Proof.
  unfold expected_replicates. induction docs as [|file docs IH]; [reflexivity|].
  cbn [flat_map length]. rewrite length_app, length_map, IH.
  unfold range1. now rewrite length_seq.
Qed.

Lemma replicate_name_shape (stem ext : string) (rep : nat) :
  ext = "yaml" \/ ext = "yml" ->
  Str.forallb (Ascii.eqb ".") stem = false ->
  replicate_name (stem ++ String "." ext) rep
  = stem ++ "_rep" ++ Str.of_nat rep ++ String "." ext.
Proof.
  intros He Hs. unfold replicate_name, Str.splitext.
  rewrite rpartition_append by (destruct He as [->| ->]; reflexivity).
  now rewrite Hs.
Qed.

(** C7 (amended).  When the replicates subdirectory is absent or empty
    beforehand, the Replicator leaves in it exactly (number of source documents)
    times N files and nothing else, one for each document and each [k] in 1..N,
    named from the [splitext] parts of the document name as [<base>_rep<k><ext>]
    and holding the content of the document; this also happens for N = 1; the
    entries of the source directory that are not documents are neither copied
    nor changed. *)
Theorem replicator_fills_fresh_directory (input_dir : Dict.t entry) (n : Z) :
  NoDup (Dict.keys input_dir) ->
  Dict.get "replicates" input_dir = None
  \/ Dict.get "replicates" input_dir = Some (Dir []) ->
  let docs := yaml_files input_dir in
  exists dir replicates,
    outcome (duplicate_yaml_files input_dir n) = Ok dir
    /\ Dict.get "replicates" dir = Some (Dir replicates)
    /\ (forall name, name <> "replicates" -> Dict.get name dir = Dict.get name input_dir)
    /\ replicates = expected_replicates docs n
    /\ length replicates = length docs * Z.to_nat n
    /\ NoDup (Dict.keys replicates)
    /\ (forall file content rep,
           In (file, content) docs -> 1 <= rep <= Z.to_nat n ->
           Dict.get (replicate_name file rep) replicates = Some (File content))
    /\ (forall stem ext rep,
           ext = "yaml" \/ ext = "yml" -> Str.forallb (Ascii.eqb ".") stem = false ->
           replicate_name (stem ++ String "." ext) rep
           = stem ++ "_rep" ++ Str.of_nat rep ++ String "." ext).
Proof.
  intros Hnd Hfresh docs.
  assert (Hexp : NoDup (map fst (expected_replicates docs n))).
  { apply expected_replicates_NoDup; [now apply yaml_files_NoDup|].
    intros f c Hin. now apply yaml_files_in in Hin. }
  assert (Hupd : Dict.update [] (expected_replicates docs n) = expected_replicates docs n).
  { rewrite update_fresh; [reflexivity|assumption|]. intros k _ []. }
  assert (Hdir : exists dir0,
             makedirs_replicates input_dir = ret dir0
             /\ Dict.get "replicates" dir0 = Some (Dir [])
             /\ yaml_files dir0 = docs
             /\ forall name, name <> "replicates" ->
                             Dict.get name dir0 = Dict.get name input_dir).
  { unfold makedirs_replicates. destruct Hfresh as [E|E]; rewrite E.
    - exists (Dict.set "replicates" (Dir []) input_dir). split; [reflexivity|].
      split; [apply get_set_same|]. split.
      + rewrite set_fresh by now apply get_none_keys.
        rewrite yaml_files_app. apply List.app_nil_r.
      + intros name Hne. now apply get_set_other.
    - exists input_dir. repeat split; assumption. }
  destruct Hdir as (dir0 & Hmk & Hget & Hdocs & Hother).
  exists (Dict.set "replicates" (Dir (expected_replicates docs n)) dir0),
         (expected_replicates docs n).
  split.
  { unfold duplicate_yaml_files. rewrite Hmk, bind_ret_l, Hget, outcome_bind, Hdocs.
    rewrite duplicate_all_only_files by constructor. now rewrite Hupd. }
  split; [apply get_set_same|].
  split; [intros name Hne; rewrite get_set_other by assumption; now apply Hother|].
  split; [reflexivity|].
  split; [apply expected_replicates_length|].
  split; [exact Hexp|].
  split; [|apply replicate_name_shape].
  intros file content rep Hin Hrep. apply in_get; [exact Hexp|].
  unfold expected_replicates. apply in_flat_map. exists (file, content).
  split; [assumption|]. cbn [fst snd]. apply in_map_iff. exists rep.
  split; [reflexivity|]. unfold range1. apply in_seq. lia.
Qed.

Lemma replicator_fills_fresh_directory_witness :
  exists dir,
    outcome (duplicate_yaml_files sample_dir 2) = Ok dir
    /\ Dict.get "replicates" dir
       = Some (Dir (expected_replicates [("J.yaml", "version: 1")] 2)).
Proof.
  assert (Hnd : NoDup (Dict.keys sample_dir)).
  { vm_compute. constructor; [intros []|constructor]. }
  destruct (replicator_fills_fresh_directory sample_dir 2 Hnd (or_introl eq_refl))
    as (dir & replicates & Hrun & Hget & _ & -> & _).
  exists dir. split; [exact Hrun | exact Hget].
Defined.

(** C7 as stated fails when the replicates subdirectory already holds files: it
    is reused as it is, and after a run with N = 1 on one document it holds two
    files.  It also fails on the name of a document that is all extension: the
    copy of [.yaml] is [.yaml_rep1], with no extension. *)
Lemma replicator_keeps_stale_files :
  (yaml_files stale_dir = [("a.yaml", "version: 1")]
   /\ outcome (duplicate_yaml_files stale_dir 1)
      = Ok [("a.yaml", File "version: 1");
            ("replicates", Dir [("a_rep2.yaml", File "version: 0");
                                ("a_rep1.yaml", File "version: 1")])]
   /\ length [("a_rep2.yaml", File "version: 0"); ("a_rep1.yaml", File "version: 1")]
      <> length (yaml_files stale_dir) * Z.to_nat 1)
  /\ outcome (duplicate_yaml_files hidden_dir 1)
     = Ok [(".yaml", File "version: 1");
           ("replicates", Dir [(".yaml_rep1", File "version: 1")])].
Proof. repeat split. simpl. discriminate. Qed.

(** ** aggregate_job.py: the run *)

Import AggregateJob.


Lemma column_ok (df : DataFrame) (col : string) :
  string_mem col (columns df) = true ->
  column df col = ret (map (cell_of col) (rows df)).
Proof. intros H. unfold column. now rewrite H. Qed.

Lemma str_replace_yaml_ok (cells : list cell) :
  match cells with [] => true | _ => false end || existsb is_text cells = true ->
  str_replace_yaml cells
  = ret (map (fun c => match c with CStr s => CStr (yaml_strip s) | _ => NaN end) cells).
Proof.
  intros H. unfold str_replace_yaml. destruct cells as [|c cells]; [reflexivity|].
  cbn [orb] in H. now rewrite H.
Qed.

Lemma combine_map_r {A B} (f : A -> B) (l : list A) :
  combine l (map f l) = map (fun x => (x, f x)) l.
Proof. induction l; simpl; congruence. Qed.

Lemma with_base_rows (base : Dict.t cell -> cell) (df : DataFrame) :
  rows (with_base base df) = map (fun r => Dict.set "base_name" (base r) r) (rows df).
Proof.
  unfold with_base, set_column. cbn [rows]. now rewrite combine_map_r, map_map.
Qed.

Lemma tables_ok_parts (df_yaml df_boltz : DataFrame) :
  tables_ok df_yaml df_boltz = true ->
  string_mem "yaml_file" (columns df_yaml) = true
  /\ string_mem "filename" (columns df_yaml) = false
  /\ wf_frame df_yaml = true
  /\ match rows df_yaml with [] => true | _ => false end
     || existsb is_text (map (cell_of "yaml_file") (rows df_yaml)) = true
  /\ string_mem "filename" (columns df_boltz) = true
  /\ List.forallb (fun b => match filename_of b with
                            | NaN | CStr _ => true
                            | _ => false
                            end) (rows df_boltz) = true.
Proof.
  unfold tables_ok. intros H.
  apply andb_prop in H as [H H6]. apply andb_prop in H as [H H5].
  apply andb_prop in H as [H H4]. apply andb_prop in H as [H H3].
  apply andb_prop in H as [H1 H2]. apply negb_true_iff in H2. tauto.
Qed.

Lemma main_after_join (w : World) (args : Args) (df_yaml df_boltz : DataFrame) :
  tables_ok df_yaml df_boltz = true ->
  AggregateJob.main w args df_yaml df_boltz
  = (final_rows <- foldM (add_summary_row w args)
                         (enumerate (rows (joined df_yaml df_boltz))) [] ;;
     merged_filenames <- column (joined df_yaml df_boltz) "filename" ;;
     copies <- mapM (copy_job w args) (unique (dropna merged_filenames)) ;;
     ret (final_rows, concat copies)).
Proof.
  intros H. destruct (tables_ok_parts _ _ H) as (Hy & Hnf & Hwf & Htxt & Hf & Hcells).
  unfold AggregateJob.main. rewrite Hy. cbn [negb].
  rewrite (column_ok df_yaml "yaml_file" Hy), bind_ret_l.
  rewrite str_replace_yaml_ok, bind_ret_l.
  2:{ destruct (rows df_yaml); [reflexivity|]. exact Htxt. }
  rewrite (column_ok df_boltz "filename" Hf), bind_ret_l.
  rewrite (mapM_ret extract_base
             (fun c => match c with CStr s => CStr (extract_base_name s) | _ => NaN end)).
  2:{ intros c Hc. apply in_map_iff in Hc as (b & <- & Hb).
      rewrite List.forallb_forall in Hcells. specialize (Hcells b Hb).
      unfold filename_of in Hcells. now destruct (cell_of "filename" b). }
  rewrite bind_ret_l, !map_map. reflexivity.
Qed.

Lemma suffixed_not_filename (c sfx : string) :
  sfx = "_x" \/ sfx = "_y" -> c ++ sfx <> "filename".
Proof.
  intros Hs E.
  assert (Hl : String.length c = 6).
  { apply (f_equal String.length) in E. rewrite length_append in E.
    destruct Hs as [-> | ->]; simpl in E; lia. }
  do 7 (destruct c as [|? c]; try discriminate Hl).
  destruct Hs as [-> | ->]; discriminate E.
Qed.

Lemma relabel_to_filename (key : string) (others : list string) (sfx c : string) :
  sfx = "_x" \/ sfx = "_y" -> relabel key others sfx c = "filename" -> c = "filename".
Proof.
  intros Hs. unfold relabel. destruct (negb (String.eqb c key) && string_mem c others).
  - intros E. now apply suffixed_not_filename in E.
  - trivial.
Qed.

Lemma get_map_keys {V} (g : string -> string) (k : string) (d : Dict.t V) :
  g k = k -> (forall c, g c = k -> c = k) ->
  Dict.get k (map (fun kv => (g (fst kv), snd kv)) d) = Dict.get k d.
Proof.
  intros Hk Hg. induction d as [|[k0 v0] d IH]; [reflexivity|].
  cbn [map Dict.get fst snd]. rewrite IH.
  destruct (String.eqb_spec k k0) as [->|Hne].
  - now rewrite Hk, String.eqb_refl.
  - destruct (String.eqb_spec k (g k0)) as [E|_]; [|reflexivity].
    symmetry in E. apply Hg in E. congruence.
Qed.

Lemma get_map_keys_none {V} (g : string -> string) (k : string) (d : Dict.t V) :
  (forall c, g c = k -> c = k) -> ~ In k (Dict.keys d) ->
  Dict.get k (map (fun kv => (g (fst kv), snd kv)) d) = None.
Proof.
  intros Hg Hnin. apply get_none_keys. unfold Dict.keys. rewrite map_map. cbn [fst].
  intros H. apply in_map_iff in H as ([k0 v0] & E & Hin). cbn [fst] in E.
  apply Hg in E. subst. apply Hnin. now apply (in_map fst _ (k, v0)).
Qed.

Lemma string_mem_in (x : string) (l : list string) : string_mem x l = true <-> In x l.
Proof.
  unfold string_mem. rewrite existsb_exists. split.
  - intros (y & Hy & E). apply String.eqb_eq in E. now subst.
  - intros H. exists x. split; [assumption|apply String.eqb_refl].
Qed.

Lemma merge_row_filename (lcols rcols : list string) (l r : Dict.t cell) :
  string_mem "filename" rcols = false ->
  ~ In "filename" (Dict.keys r) ->
  Dict.get "filename" (merge_row "base_name" lcols rcols l r) = Dict.get "filename" l.
Proof.
  intros Hr Hk. unfold merge_row. rewrite get_app.
  rewrite (get_map_keys (relabel "base_name" rcols "_x")).
  - destruct (Dict.get "filename" l); [reflexivity|].
    apply (get_map_keys_none (relabel "base_name" lcols "_y")).
    + intros c. apply relabel_to_filename. now right.
    + unfold Dict.keys in *. intros H. apply Hk.
      apply in_map_iff in H as (kv & E & Hin). apply filter_In in Hin as [Hin _].
      rewrite <- E. now apply in_map.
  - unfold relabel. rewrite Hr. now rewrite andb_false_r.
  - intros c. apply relabel_to_filename. now left.
Qed.

Lemma cell_eqb_refl (c : cell) : cell_eqb c c = true.
Proof.
  destruct c; simpl; auto using String.eqb_refl, Bool.eqb_reflx, Z.eqb_refl.
Qed.

Lemma list_sum_flat_map {A B} (c : B -> nat) (f : A -> list B) (l : list A) :
  list_sum (map c (flat_map f l)) = list_sum (map (fun x => list_sum (map c (f x))) l).
Proof.
  induction l as [|x l IH]; [reflexivity|].
  cbn [flat_map map list_sum]. now rewrite map_app, list_sum_app, IH.
Qed.

Lemma list_sum_repeat_0 (n : nat) : list_sum (repeat 0 n) = 0.
Proof. induction n; simpl; auto. Qed.

Lemma list_sum_repeat_1 (n : nat) : list_sum (repeat 1 n) = n.
Proof. induction n; simpl; auto. Qed.

Lemma map_snd_enumerate {A} (l : list A) : map snd (enumerate l) = l.
Proof.
  unfold enumerate. generalize 0. induction l as [|x l IH]; intros n; [reflexivity|].
  cbn [length seq combine map snd]. now rewrite IH.
Qed.

Lemma upcast_keys (df : DataFrame) (r : Dict.t cell) :
  Dict.keys (upcast df r) = Dict.keys r.
Proof. unfold upcast, Dict.keys. rewrite map_map. reflexivity. Qed.

Section Join.
Variables df_yaml df_boltz : DataFrame.
Hypothesis Hok : tables_ok df_yaml df_boltz = true.

Let Y := with_base yaml_base df_yaml.
Let B := with_base boltz_base df_boltz.

(** The rows the join gives for one run record. *)
Let joined_for := AggregateJob.joined_for df_yaml df_boltz.

Lemma joined_rows : rows (joined df_yaml df_boltz) = flat_map joined_for (rows df_boltz).
Proof.
  unfold joined, merge_left. cbn [rows].
  rewrite (with_base_rows boltz_base df_boltz).
  rewrite flat_map_concat_map, map_map, <- flat_map_concat_map.
  reflexivity.
Qed.

Lemma Y_columns_no_filename : string_mem "filename" (columns Y) = false.
Proof.
  destruct (tables_ok_parts _ _ Hok) as (_ & Hnf & _).
  unfold Y, with_base, set_column. cbn [columns].
  destruct (string_mem "base_name" (columns df_yaml)); [assumption|].
  destruct (string_mem "filename" (columns df_yaml ++ ["base_name"])) eqn:E;
    [|reflexivity].
  apply string_mem_in in E. apply in_app_iff in E as [E|[E|[]]]; [|discriminate E].
  apply string_mem_in in E. congruence.
Qed.

Lemma Y_rows_no_filename (r : Dict.t cell) :
  In r (rows Y) -> ~ In "filename" (Dict.keys r).
Proof.
  destruct (tables_ok_parts _ _ Hok) as (_ & Hnf & Hwf & _).
  unfold Y. rewrite with_base_rows. intros Hin Hk.
  apply in_map_iff in Hin as (r0 & <- & Hr0).
  apply in_keys_set in Hk as [Hk|Hk]; [discriminate Hk|].
  unfold wf_frame in Hwf. rewrite List.forallb_forall in Hwf. specialize (Hwf r0 Hr0).
  unfold list_string_eqb in Hwf.
  destruct (list_eq_dec string_dec (Dict.keys r0) (columns df_yaml)) as [E|]; [|discriminate].
  rewrite E in Hk. apply string_mem_in in Hk. congruence.
Qed.

Lemma joined_for_filename (b m : Dict.t cell) :
  In m (joined_for b) -> Dict.get "filename" m = Dict.get "filename" b.
Proof.
  unfold joined_for, AggregateJob.joined_for, merge_rows. fold Y B. intros Hin.
  assert (Hset : Dict.get "filename" (Dict.set "base_name" (boltz_base b) b)
                 = Dict.get "filename" b) by (apply get_set_other; discriminate).
  destruct (partners "base_name" Y (Dict.set "base_name" (boltz_base b) b)) as [|p ps] eqn:E.
  - destruct Hin as [<-|[]]. rewrite merge_row_filename; [exact Hset| |].
    + apply Y_columns_no_filename.
    + unfold Dict.keys. rewrite map_map. cbn [fst]. rewrite map_id.
      intros H. apply string_mem_in in H. now rewrite Y_columns_no_filename in H.
  - apply in_map_iff in Hin as (r & <- & Hr). rewrite merge_row_filename; [exact Hset| |].
    + apply Y_columns_no_filename.
    + assert (Hk : ~ In "filename" (Dict.keys r)).
      { apply Y_rows_no_filename. rewrite <- E in Hr. unfold partners in Hr.
        now apply filter_In in Hr. }
      destruct (has_gap B Y "base_name"); [now rewrite upcast_keys|exact Hk].
Qed.

Lemma partners_count (b : Dict.t cell) (s : string) :
  filename_of b = CStr s ->
  length (partners "base_name" Y (Dict.set "base_name" (boltz_base b) b))
  = matches_of df_yaml s.
Proof.
  intros Hs. unfold partners, matches_of, Y. rewrite with_base_rows.
  unfold key_of at 1. rewrite get_set_same. unfold boltz_base. rewrite Hs.
  induction (rows df_yaml) as [|y ys IH]; [reflexivity|].
  cbn [map filter]. unfold key_of at 1. rewrite get_set_same.
  destruct (cell_eqb (CStr (extract_base_name s)) (yaml_base y)); cbn [length]; now rewrite IH.
Qed.

Lemma joined_for_length (b : Dict.t cell) (s : string) :
  filename_of b = CStr s -> length (joined_for b) = Nat.max 1 (matches_of df_yaml s).
Proof.
  intros Hs. unfold joined_for, AggregateJob.joined_for, merge_rows. fold Y B.
  rewrite <- (partners_count b s Hs).
  destruct (partners "base_name" Y (Dict.set "base_name" (boltz_base b) b)) as [|p ps];
    [reflexivity|].
  rewrite length_map. cbn [length]. lia.
Qed.

Lemma joined_for_nonempty (b : Dict.t cell) : joined_for b <> [].
Proof.
  unfold joined_for, AggregateJob.joined_for, merge_rows. fold Y B.
  destruct (partners "base_name" Y (Dict.set "base_name" (boltz_base b) b)); discriminate.
Qed.

Lemma joined_for_cells (b : Dict.t cell) :
  map filename_of (joined_for b) = repeat (filename_of b) (length (joined_for b)).
Proof.
  assert (H : forall m, In m (joined_for b) -> filename_of m = filename_of b).
  { intros m Hm. unfold filename_of, cell_of. now rewrite (joined_for_filename b m Hm). }
  induction (joined_for b) as [|m ms IH]; [reflexivity|].
  cbn [map length repeat]. rewrite (H m (or_introl eq_refl)), IH; [reflexivity|].
  intros m' Hm'. apply H. now right.
Qed.

Lemma joined_count :
  list_sum (map (fun m => if has_filename m then 1 else 0) (rows (joined df_yaml df_boltz)))
  = list_sum (map (rows_for df_yaml) (rows df_boltz)).
Proof.
  rewrite joined_rows, list_sum_flat_map. f_equal. apply map_ext. intros b.
  assert (H : map (fun m => if has_filename m then 1 else 0) (joined_for b)
              = repeat (if has_filename b then 1 else 0) (length (joined_for b))).
  { unfold has_filename.
    rewrite <- (map_map filename_of (fun c => if is_text c then 1 else 0)).
    rewrite joined_for_cells. now rewrite map_repeat. }
  rewrite H. unfold rows_for, has_filename.
  destruct (filename_of b) as [|s| | |] eqn:E; cbn [is_text];
    rewrite ?list_sum_repeat_0; try reflexivity.
  now rewrite list_sum_repeat_1, (joined_for_length b s E).
Qed.

Lemma joined_has_filename_column :
  string_mem "filename" (columns (joined df_yaml df_boltz)) = true.
Proof.
  destruct (tables_ok_parts _ _ Hok) as (_ & _ & _ & _ & Hf & _).
  apply string_mem_in. unfold joined, merge_left. cbn [columns].
  apply in_app_iff. left. apply in_map_iff. exists "filename". split.
  - unfold relabel. fold Y. rewrite Y_columns_no_filename. now rewrite andb_false_r.
  - unfold with_base, set_column. cbn [columns]. apply string_mem_in in Hf.
    destruct (string_mem "base_name" (columns df_boltz)); [assumption|].
    apply in_app_iff. now left.
Qed.

Lemma joined_filenames :
  map filename_of (rows (joined df_yaml df_boltz))
  = flat_map (fun b => repeat (filename_of b) (length (joined_for b))) (rows df_boltz).
Proof.
  rewrite joined_rows. induction (rows df_boltz) as [|b bs IH]; [reflexivity|].
  cbn [flat_map]. now rewrite map_app, joined_for_cells, IH.
Qed.

Lemma joined_filenames_repeat :
  exists n : Dict.t cell -> nat,
    map filename_of (rows (joined df_yaml df_boltz))
    = flat_map (fun b => repeat (filename_of b) (S (n b))) (rows df_boltz).
Proof.
  exists (fun b => pred (length (joined_for b))). rewrite joined_filenames.
  apply flat_map_ext. intros b. f_equal.
  pose proof (joined_for_nonempty b) as H. destruct (joined_for b); [congruence|reflexivity].
Qed.

Lemma joined_row_origin (m : Dict.t cell) :
  In m (rows (joined df_yaml df_boltz)) ->
  exists b, In b (rows df_boltz) /\ filename_of m = filename_of b.
Proof.
  rewrite joined_rows. intros H. apply in_flat_map in H as (b & Hb & Hm).
  exists b. split; [assumption|]. unfold filename_of, cell_of.
  now rewrite (joined_for_filename b m Hm).
Qed.

Lemma joined_row_exists (b : Dict.t cell) :
  In b (rows df_boltz) ->
  exists m, In m (rows (joined df_yaml df_boltz)) /\ filename_of m = filename_of b.
Proof.
  intros Hb. pose proof (joined_for_nonempty b) as Hne.
  destruct (joined_for b) as [|m ms] eqn:E; [congruence|].
  assert (Hm : In m (joined_for b)) by (rewrite E; now left).
  exists m. split.
  - rewrite joined_rows. apply in_flat_map. now exists b.
  - unfold filename_of, cell_of. now rewrite (joined_for_filename b m Hm).
Qed.

End Join.

Lemma filter_twice {A} (p : A -> bool) (l : list A) : filter p (filter p l) = filter p l.
Proof.
  induction l as [|x l IH]; [reflexivity|]. cbn [filter].
  destruct (p x) eqn:E; [|assumption]. cbn [filter]. now rewrite E, IH.
Qed.

Lemma unique_repeat (c : cell) (k : nat) (rest : list cell) :
  unique (repeat c (S k) ++ rest)%list = unique (c :: rest).
Proof.
  induction k as [|k IH]; [reflexivity|].
  change (repeat c (S (S k)) ++ rest)%list with (c :: (repeat c (S k) ++ rest))%list.
  cbn [unique]. rewrite IH. cbn [unique filter].
  now rewrite cell_eqb_refl, filter_twice.
Qed.

Lemma dropna_repeat (c : cell) (k : nat) (rest : list cell) :
  dropna (repeat c k ++ rest)%list
  = ((if isna c then [] else repeat c k) ++ dropna rest)%list.
Proof.
  unfold dropna. rewrite filter_app. f_equal.
  induction k as [|k IH]; cbn [repeat filter]; [now destruct (isna c)|].
  rewrite IH. now destruct (isna c).
Qed.

Lemma unique_dropna_repeat {A} (f : A -> cell) (n : A -> nat) (l : list A) :
  unique (dropna (flat_map (fun x => repeat (f x) (S (n x))) l))
  = unique (dropna (map f l)).
Proof.
  induction l as [|x l IH]; [reflexivity|].
  cbn [flat_map map]. rewrite dropna_repeat.
  change (f x :: map f l) with (repeat (f x) 1 ++ map f l)%list. rewrite dropna_repeat.
  destruct (isna (f x)); cbn [app]; [exact IH|].
  rewrite (unique_repeat (f x) (n x)), (unique_repeat (f x) 0). cbn [unique]. now rewrite IH.
Qed.

Lemma outcome_foldM_measure {A B} (mu : B -> nat) (c : A -> nat) (f : B -> A -> M B)
  (l : list A) :
  forall acc,
    (forall acc' x, In x l ->
                    exists acc'', outcome (f acc' x) = Ok acc'' /\ mu acc'' = mu acc' + c x) ->
    exists final, outcome (foldM f l acc) = Ok final
                  /\ mu final = mu acc + list_sum (map c l).
Proof.
  induction l as [|x l IH]; intros acc H.
  - exists acc. split; [reflexivity|]. simpl. lia.
  - cbn [foldM]. rewrite outcome_bind.
    destruct (H acc x (or_introl eq_refl)) as (acc1 & -> & Hmu).
    destruct (IH acc1) as (final & Hrun & Hfin).
    { intros acc' y Hy. apply H. now right. }
    exists final. split; [assumption|].
    change (list_sum (map c (x :: l))) with (c x + list_sum (map c l)). lia.
Qed.

Lemma summary_row_skips (w : World) (args : Args) (idx : nat) (row : Dict.t cell) :
  filename_of row = NaN -> outcome (summary_row w args idx row) = Ok None.
Proof.
  unfold filename_of, cell_of, summary_row.
  destruct (Dict.get "filename" row) as [[]|]; try discriminate; reflexivity.
Qed.

Lemma summary_row_keeps (w : World) (args : Args) (idx : nat) (row : Dict.t cell)
  (s : string) :
  filename_of row = CStr s -> job_ok w args s = true ->
  exists data, outcome (summary_row w args idx row) = Ok (Some data).
Proof.
  unfold filename_of, cell_of, summary_row, job_ok.
  destruct (Dict.get "filename" row) as [[]|]; try discriminate. intros [= ->] Hjob.
  destruct (is_dir w (pred_folder args (job_id_of s))) eqn:Hdir; cbn [negb orb] in *.
  - apply andb_prop in Hjob as [Hconf Haff].
    rewrite outcome_bind. unfold collect_model_metrics.
    fold (confidence_files w args (job_id_of s)).
    rewrite (collect_objects _ _ _ _ Hconf). rewrite outcome_bind.
    fold (affinity_path args (job_id_of s)).
    destruct (is_file w (affinity_path args (job_id_of s))); cbn [negb orb] in Haff.
    + unfold parse_affinity_json.
      destruct (load w (affinity_path args (job_id_of s))) as [[]| | |];
        try discriminate Haff; cbn [outcome fst ret bind print update_with];
        rewrite ?outcome_bind; cbn [outcome fst ret bind print update_with];
        eexists; reflexivity.
    + cbn [outcome fst ret]. rewrite outcome_bind. cbn [update_with outcome fst ret].
      eexists; reflexivity.
  - rewrite outcome_bind. cbn [outcome print ret fst]. eexists; reflexivity.
Qed.

Lemma cell_eqb_text (s : string) (d : cell) : cell_eqb (CStr s) d = true -> d = CStr s.
Proof.
  destruct d; try discriminate. cbn [cell_eqb]. intros H.
  apply String.eqb_eq in H. now subst.
Qed.

Lemma unique_incl (c : cell) (l : list cell) : In c (unique l) -> In c l.
Proof.
  induction l as [|d l IH]; [trivial|]. cbn [unique In].
  intros [->|H]; [now left|]. apply filter_In in H as [H _]. right. now apply IH.
Qed.

Lemma unique_text (s : string) (l : list cell) : In (CStr s) l -> In (CStr s) (unique l).
Proof.
  induction l as [|d l IH]; [trivial|]. cbn [unique In].
  intros [->|H]; [now left|].
  destruct (cell_eqb (CStr s) d) eqn:E; [left; now apply cell_eqb_text|].
  right. apply filter_In. split; [now apply IH|]. now rewrite E.
Qed.

Lemma unique_NoDup (l : list cell) : NoDup (unique l).
Proof.
  induction l as [|d l IH]; [constructor|]. cbn [unique]. constructor.
  - rewrite filter_In, cell_eqb_refl. intros [_ H]. discriminate H.
  - now apply NoDup_filter.
Qed.

Lemma copy_jobs_in (df_yaml df_boltz : DataFrame) (c : cell) :
  tables_ok df_yaml df_boltz = true ->
  (In c (copy_jobs df_boltz) <->
   exists name b, c = CStr name /\ In b (rows df_boltz) /\ filename_of b = CStr name).
Proof.
  intros H. destruct (tables_ok_parts _ _ H) as (_ & _ & _ & _ & _ & Hcells).
  rewrite List.forallb_forall in Hcells.
  unfold copy_jobs, dropna. split.
  - intros Hin. apply unique_incl, filter_In in Hin as [Hin Hna].
    apply in_map_iff in Hin as (b & <- & Hb). specialize (Hcells b Hb).
    destruct (filename_of b) as [|name| | |] eqn:E; try discriminate.
    now exists name, b.
  - intros (name & b & -> & Hb & E). apply unique_text, filter_In.
    split; [|reflexivity]. apply in_map_iff. now exists b.
Qed.

Lemma copy2_ok (w : World) (src dst : path) :
  copyable w src = true -> copy2 w src dst = ret (src, dst).
Proof.
  unfold copyable, copy2. intros H. apply andb_prop in H as [Hd Hf].
  apply negb_true_iff in Hd. now rewrite Hd, Hf.
Qed.

Lemma copy2_fails (w : World) (src dst : path) :
  copyable w src = false -> exists e, outcome (copy2 w src dst) = Raise e.
Proof.
  unfold copyable, copy2. destruct (is_dir w src); [eexists; reflexivity|].
  cbn [negb andb]. intros ->. eexists; reflexivity.
Qed.

Lemma copy_job_text (w : World) (args : Args) (name : string) :
  copy_ok w args name = true ->
  copy_job w args (CStr name) = ret (copies_of w args (CStr name)).
Proof.
  unfold copy_ok, copy_sources, copy_job, copies_of.
  destruct (is_dir w (pred_folder args (job_id_of name))); [|reflexivity].
  cbn [negb]. intros H. rewrite List.forallb_forall in H.
  rewrite (mapM_ret _ (fun pb => map (fun f => ((pred_folder args (job_id_of name) ++ [f])%list,
                                                [output_dir args; snd pb; f]))
                                     (glob w (pred_folder args (job_id_of name)) (fst pb)))).
  - rewrite bind_ret_l. now rewrite <- flat_map_concat_map.
  - intros pb Hpb. apply mapM_ret. intros f Hf. apply copy2_ok, H.
    apply in_flat_map. exists pb. split; [assumption|]. apply in_map_iff. now exists f.
Qed.

Lemma copy_job_fails (w : World) (args : Args) (name : string) :
  copy_ok w args name = false ->
  exists e, outcome (copy_job w args (CStr name)) = Raise e.
Proof.
  unfold copy_ok, copy_sources, copy_job.
  destruct (is_dir w (pred_folder args (job_id_of name))); [|discriminate].
  cbn [negb]. intros H. apply forallb_false_exists in H as (src & Hin & Hsrc).
  apply in_flat_map in Hin as (pb & Hpb & Hin). apply in_map_iff in Hin as (f & <- & Hf).
  destruct (outcome_mapM_raise
              (fun pb => mapM (fun f => copy2 w (pred_folder args (job_id_of name) ++ [f])%list
                                              [output_dir args; snd pb; f])
                              (glob w (pred_folder args (job_id_of name)) (fst pb)))
              (buckets (job_id_of name)) pb Hpb) as [e He].
  - apply (outcome_mapM_raise _ _ f Hf). now apply copy2_fails.
  - exists e. now rewrite outcome_bind, He.
Qed.

(** The copies a pass of the copy phase returns are those of [copies_of]. *)
Lemma copy_job_copies (w : World) (args : Args) (name : string)
  (copies : list (path * path)) :
  outcome (copy_job w args (CStr name)) = Ok copies ->
  copies = copies_of w args (CStr name).
Proof.
  intros H. destruct (copy_ok w args name) eqn:E.
  - rewrite (copy_job_text w args name E) in H. now injection H as <-.
  - destruct (copy_job_fails w args name E) as [e He]. congruence.
Qed.

Lemma copies_of_in (w : World) (args : AggregateJob.Args) (name : string) (src dst : path) :
  In (src, dst) (copies_of w args (CStr name)) ->
  is_dir w (pred_folder args (job_id_of name)) = true
  /\ exists pattern bucket f,
       In (pattern, bucket) (buckets (job_id_of name))
       /\ In f (glob w (pred_folder args (job_id_of name)) pattern)
       /\ src = (pred_folder args (job_id_of name) ++ [f])%list
       /\ dst = [output_dir args; bucket; f].
Proof.
  unfold copies_of. destruct (is_dir w (pred_folder args (job_id_of name))); [|contradiction].
  intros H. split; [reflexivity|].
  apply in_flat_map in H as ([pattern bucket] & Hb & H). cbn [fst snd] in H.
  apply in_map_iff in H as (f & [= <- <-] & Hf). now exists pattern, bucket, f.
Qed.

Lemma get_as_values (k : string) (row : Dict.t cell) :
  Dict.get k (as_values row) = option_map VCell (Dict.get k row).
Proof.
  unfold as_values. induction row as [|[k0 c0] row IH]; [reflexivity|].
  cbn [map Dict.get fst snd]. now destruct (String.eqb k k0).
Qed.

Lemma summary_row_data (w : World) (args : AggregateJob.Args) (idx : nat)
  (row : Dict.t cell) (s : string) :
  Dict.get "filename" row = Some (CStr s) ->
  is_dir w (pred_folder args (job_id_of s)) = true ->
  job_ok w args s = true ->
  outcome (summary_row w args idx row)
  = Ok (Some (Dict.update
                (Dict.update (as_values row)
                   (map (fun kv => (fst kv, VJson (snd kv))) (metrics_of w args (job_id_of s))))
                (map (fun kv => (fst kv, VJson (snd kv))) (affinity_of w args (job_id_of s))))).
Proof.
  intros Hf Hdir Hjob. unfold summary_row, job_ok, affinity_of, metrics_of in *.
  rewrite Hf, Hdir in *. cbn [negb orb] in *.
  apply andb_prop in Hjob as [Hconf Haff].
  rewrite outcome_bind. unfold collect_model_metrics.
  fold (confidence_files w args (job_id_of s)).
  rewrite (collect_objects _ _ _ _ Hconf). rewrite outcome_bind.
  fold (affinity_path args (job_id_of s)).
  destruct (is_file w (affinity_path args (job_id_of s))); cbn [negb orb] in Haff.
  - unfold parse_affinity_json.
    destruct (load w (affinity_path args (job_id_of s))) as [[]| | |];
      try discriminate Haff; cbn [outcome fst ret bind print update_with];
      rewrite ?outcome_bind; cbn [outcome fst ret bind print update_with]; reflexivity.
  - cbn [outcome fst ret]. rewrite outcome_bind. reflexivity.
Qed.

Lemma summary_row_named (w : World) (args : Args) (idx : nat) (m : Dict.t cell) (s : string) :
  filename_of m = CStr s -> job_ok w args s = true ->
  outcome (summary_row w args idx m) = Ok (Some (summary_data w args s m)).
Proof.
  intros Hs Hjob.
  assert (Hf : Dict.get "filename" m = Some (CStr s)).
  { unfold filename_of, cell_of in Hs. destruct (Dict.get "filename" m); congruence. }
  unfold summary_data.
  destruct (is_dir w (pred_folder args (job_id_of s))) eqn:Hdir.
  - now apply summary_row_data.
  - unfold summary_row. rewrite Hf, Hdir. reflexivity.
Qed.

Lemma add_summary_row_ok (w : World) (args : Args) (acc : list (Dict.t value)) (idx : nat)
  (m : Dict.t cell) :
  filename_of m = NaN \/ (exists s, filename_of m = CStr s /\ job_ok w args s = true) ->
  outcome (add_summary_row w args acc (idx, m)) = Ok (acc ++ row_summary w args m)%list.
Proof.
  unfold add_summary_row, row_summary. cbn [fst snd]. rewrite outcome_bind.
  intros [Hm|(s & Hm & Hjob)]; rewrite Hm.
  - rewrite (summary_row_skips w args idx m Hm). cbn [outcome ret fst].
    now rewrite List.app_nil_r.
  - now rewrite (summary_row_named w args idx m s Hm Hjob).
Qed.

Lemma skip_warning_printed (w : World) (args : Args) (acc : list (Dict.t value)) (idx : nat)
  (m : Dict.t cell) :
  filename_of m = NaN -> In (skip_warning idx) (printed (add_summary_row w args acc (idx, m))).
Proof.
  unfold filename_of, cell_of, add_summary_row, summary_row, skip_warning. cbn [fst snd].
  destruct (Dict.get "filename" m) as [[]|]; try discriminate; intros _; now left.
Qed.

Lemma nth_error_enumerate {A} (l : list A) (i : nat) (x : A) :
  nth_error l i = Some x -> In (i, x) (enumerate l).
Proof.
  unfold enumerate.
  assert (H : forall a, nth_error l i = Some x -> In (a + i, x) (combine (seq a (length l)) l)).
  { revert i. induction l as [|y l IH]; intros [|i] a Hn; try discriminate.
    - cbn in Hn. injection Hn as ->. rewrite Nat.add_0_r. now left.
    - cbn [length seq combine]. right. replace (a + S i) with (S a + i) by lia.
      now apply IH. }
  exact (H 0).
Qed.

Lemma metrics_of_keys (w : World) (args : Args) (job_id k : string) :
  In k (Dict.keys (metrics_of w args job_id)) -> Str.lacks "_" k = false.
Proof.
  unfold metrics_of. intros H. apply in_keys_update in H as [H|[]].
  apply in_map_iff in H as ([k' v] & <- & H). cbn [fst].
  apply in_flat_map in H as (name & _ & H).
  assert (Hk : In k' (map fst (model_entries w (pred_folder args job_id) name)))
    by now apply (in_map fst _ (k', v)).
  apply model_entries_idx in Hk as [k0 ->]. unfold model_key.
  apply lacks_middle.
Qed.

Lemma map_keys_json (d : Dict.t json) :
  map fst (map (fun kv : string * json => (fst kv, VJson (snd kv))) d) = Dict.keys d.
Proof. rewrite map_map. reflexivity. Qed.

Lemma summary_data_filename (w : World) (args : Args) (s : string) (m : Dict.t cell) :
  filename_of m = CStr s ->
  Dict.get "filename" (affinity_of w args (job_id_of s)) = None ->
  Dict.get "filename" (summary_data w args s m) = Some (VCell (CStr s)).
Proof.
  intros Hs Haff.
  assert (Hf : Dict.get "filename" m = Some (CStr s)).
  { unfold filename_of, cell_of in Hs. destruct (Dict.get "filename" m); congruence. }
  unfold summary_data. destruct (is_dir w (pred_folder args (job_id_of s))).
  - rewrite !get_update_other.
    + now rewrite get_as_values, Hf.
    + rewrite map_keys_json. intros H. now apply metrics_of_keys in H.
    + rewrite map_keys_json. now apply get_none_keys.
  - now rewrite get_as_values, Hf.
Qed.

Section Run.
Variables (w : World) (args : Args) (df_yaml df_boltz : DataFrame).
Hypothesis Hok : tables_ok df_yaml df_boltz = true.
Hypothesis Hjobs : jobs_ok w args df_boltz = true.

Let joined_for := AggregateJob.joined_for df_yaml df_boltz.
Let rows_of := summary_rows_of w args df_yaml df_boltz.

Lemma joined_row_ready (m : Dict.t cell) :
  In m (rows (joined df_yaml df_boltz)) ->
  filename_of m = NaN \/ (exists s, filename_of m = CStr s /\ job_ok w args s = true).
Proof.
  intros Hm. destruct (joined_row_origin df_yaml df_boltz Hok m Hm) as (b & Hb & E).
  destruct (tables_ok_parts _ _ Hok) as (_ & _ & _ & _ & _ & Hcells).
  rewrite List.forallb_forall in Hcells. specialize (Hcells b Hb).
  unfold jobs_ok in Hjobs. rewrite List.forallb_forall in Hjobs. specialize (Hjobs b Hb).
  rewrite E. destruct (filename_of b) as [|s| | |]; try discriminate; [now left|].
  right. now exists s.
Qed.

Lemma rows_of_joined (b : Dict.t cell) :
  flat_map (row_summary w args) (joined_for b) = rows_of b.
Proof.
  unfold rows_of, summary_rows_of. fold joined_for.
  assert (H : forall m, In m (joined_for b) -> filename_of m = filename_of b).
  { intros m Hm. unfold filename_of, cell_of.
    now rewrite (joined_for_filename df_yaml df_boltz Hok b m Hm). }
  destruct (filename_of b) as [|s| | |] eqn:E.
  - rewrite <- (flat_map_nil (joined_for b)). apply flat_map_same.
    intros m Hm. unfold row_summary. now rewrite (H m Hm).
  - rewrite <- flat_map_singleton. apply flat_map_same.
    intros m Hm. unfold row_summary. now rewrite (H m Hm).
  - rewrite <- (flat_map_nil (joined_for b)). apply flat_map_same.
    intros m Hm. unfold row_summary. now rewrite (H m Hm).
  - rewrite <- (flat_map_nil (joined_for b)). apply flat_map_same.
    intros m Hm. unfold row_summary. now rewrite (H m Hm).
  - rewrite <- (flat_map_nil (joined_for b)). apply flat_map_same.
    intros m Hm. unfold row_summary. now rewrite (H m Hm).
Qed.

(** The loop over the joined rows gives the summary rows record by record. *)
Lemma summary_phase :
  outcome (foldM (add_summary_row w args) (enumerate (rows (joined df_yaml df_boltz))) [])
  = Ok (flat_map rows_of (rows df_boltz)).
Proof.
  rewrite (outcome_foldM _ (fun acc im => (acc ++ row_summary w args (snd im))%list)).
  - rewrite fold_app_flat_map. cbn [app]. f_equal.
    rewrite <- (flat_map_map snd (row_summary w args)), map_snd_enumerate.
    rewrite (joined_rows df_yaml df_boltz), flat_map_flat_map.
    apply flat_map_same. intros b _. apply rows_of_joined.
  - intros acc [i m] Hin. cbn [snd]. apply add_summary_row_ok, joined_row_ready.
    rewrite <- (map_snd_enumerate (rows (joined df_yaml df_boltz))).
    now apply (in_map snd _ (i, m)).
Qed.

Lemma copy_names :
  column (joined df_yaml df_boltz) "filename"
  = ret (map filename_of (rows (joined df_yaml df_boltz)))
  /\ unique (dropna (map filename_of (rows (joined df_yaml df_boltz)))) = copy_jobs df_boltz.
Proof.
  split.
  - now rewrite (column_ok _ _ (joined_has_filename_column df_yaml df_boltz Hok)).
  - destruct (joined_filenames_repeat df_yaml df_boltz Hok) as [n ->].
    now rewrite unique_dropna_repeat.
Qed.

(** The run when every copy can be made, and when one cannot. *)
Lemma main_runs :
  copies_ok w args df_boltz = true ->
  outcome (AggregateJob.main w args df_yaml df_boltz)
  = Ok (flat_map rows_of (rows df_boltz),
        concat (map (copies_of w args) (copy_jobs df_boltz))).
Proof.
  intros Hcopies. unfold copies_ok in Hcopies. rewrite List.forallb_forall in Hcopies.
  rewrite (main_after_join w args df_yaml df_boltz Hok), outcome_bind, summary_phase.
  destruct copy_names as [Hcol Huniq]. rewrite Hcol, bind_ret_l, Huniq.
  rewrite (mapM_ret (copy_job w args) (copies_of w args)), bind_ret_l; [reflexivity|].
  intros c Hc. apply (copy_jobs_in df_yaml df_boltz c Hok) in Hc as (name & b & -> & Hb & E).
  apply copy_job_text. specialize (Hcopies b Hb). now rewrite E in Hcopies.
Qed.

Lemma main_stops :
  copies_ok w args df_boltz = false ->
  exists e, outcome (AggregateJob.main w args df_yaml df_boltz) = Raise e.
Proof.
  intros Hcopies. unfold copies_ok in Hcopies.
  apply forallb_false_exists in Hcopies as (b & Hb & Hbad).
  destruct (filename_of b) as [|s| | |] eqn:E; try discriminate.
  rewrite (main_after_join w args df_yaml df_boltz Hok), outcome_bind, summary_phase.
  destruct copy_names as [Hcol Huniq]. rewrite Hcol, bind_ret_l, Huniq.
  destruct (outcome_mapM_raise (copy_job w args) (copy_jobs df_boltz) (CStr s)) as [e He].
  - apply (copy_jobs_in df_yaml df_boltz _ Hok). now exists s, b.
  - now apply copy_job_fails.
  - exists e. now rewrite outcome_bind, He.
Qed.

Lemma skip_warnings (i : nat) (m : Dict.t cell) :
  nth_error (rows (joined df_yaml df_boltz)) i = Some m ->
  filename_of m = NaN ->
  In (skip_warning i) (printed (AggregateJob.main w args df_yaml df_boltz)).
Proof.
  intros Hn Hm. rewrite (main_after_join w args df_yaml df_boltz Hok).
  apply printed_bind_in.
  apply (printed_foldM_in (add_summary_row w args) _ (i, m)).
  - intros acc [j r] Hin. eexists. apply add_summary_row_ok, joined_row_ready.
    rewrite <- (map_snd_enumerate (rows (joined df_yaml df_boltz))).
    now apply (in_map snd _ (j, r)).
  - now apply nth_error_enumerate.
  - intros acc. now apply skip_warning_printed.
Qed.

Lemma rows_of_length (b : Dict.t cell) : length (rows_of b) = rows_for df_yaml b.
Proof.
  unfold rows_of, summary_rows_of, rows_for.
  destruct (filename_of b) as [|s| | |] eqn:E; try reflexivity.
  rewrite length_map. now apply joined_for_length.
Qed.

Lemma rows_of_count :
  length (flat_map rows_of (rows df_boltz))
  = list_sum (map (rows_for df_yaml) (rows df_boltz)).
Proof.
  induction (rows df_boltz) as [|b bs IH]; [reflexivity|].
  cbn [flat_map map list_sum]. now rewrite length_app, IH, rows_of_length.
Qed.

End Run.

Lemma rows_for_lower (df_yaml : DataFrame) (bs : list (Dict.t cell)) :
  length (filter has_filename bs) <= list_sum (map (rows_for df_yaml) bs).
Proof.
  induction bs as [|b bs IH]; [apply Nat.le_refl|].
  change (list_sum (map (rows_for df_yaml) (b :: bs)))
    with (rows_for df_yaml b + list_sum (map (rows_for df_yaml) bs)).
  cbn [filter]. unfold rows_for at 1, has_filename at 1.
  destruct (filename_of b); cbn [is_text length]; lia.
Qed.

Lemma rows_for_exact (df_yaml : DataFrame) (bs : list (Dict.t cell)) :
  (forall b, In b bs -> has_filename b = true) ->
  (forall s, matches_of df_yaml s <= 1) ->
  list_sum (map (rows_for df_yaml) bs) = length bs.
Proof.
  intros Hall Hone. induction bs as [|b bs IH]; [reflexivity|].
  change (list_sum (map (rows_for df_yaml) (b :: bs)))
    with (rows_for df_yaml b + list_sum (map (rows_for df_yaml) bs)).
  rewrite IH by (intros b' Hb'; apply Hall; now right).
  specialize (Hall b (or_introl eq_refl)). unfold rows_for, has_filename in *.
  destruct (filename_of b) as [|s| | |]; try discriminate.
  specialize (Hone s). cbn [length]. lia.
Qed.

(** C1 (amended).  On well-formed tables whose jobs have readable results, or no
    result folder at all, and whose result files can be copied, the join gives
    its rows run record by run record, each with the file name of its record,
    and the run ends with a summary table that is made record by record: a run
    record with a file name gives one summary row for each of its joined rows,
    that is one row when at most one experiment row has its base identifier
    (also when none has, and also when its result folder is missing) and one
    row per such experiment row otherwise, and each of these rows holds the file
    name of the record unless the affinity document of the job has a key of
    that name; a run record whose file name is missing gives no row, and a
    warning is printed for each of its joined rows.  So no run record with a
    file name is dropped, and when every run record has a file name and no two
    experiment rows share a base identifier there are as many summary rows as
    run records. *)
Theorem summary_rows_per_run_record (w : World) (args : Args)
  (df_yaml df_boltz : DataFrame) :
  tables_ok df_yaml df_boltz = true ->
  jobs_ok w args df_boltz = true ->
  copies_ok w args df_boltz = true ->
  let run := AggregateJob.main w args df_yaml df_boltz in
  let joined_rows_of := joined_for df_yaml df_boltz in
  let rows_of := summary_rows_of w args df_yaml df_boltz in
  let final_rows := flat_map rows_of (rows df_boltz) in
  rows (joined df_yaml df_boltz) = flat_map joined_rows_of (rows df_boltz)
  /\ (forall b m, In m (joined_rows_of b) -> filename_of m = filename_of b)
  /\ (exists copies, outcome run = Ok (final_rows, copies))
  /\ (forall b s,
         filename_of b = CStr s ->
         rows_of b = map (summary_data w args s) (joined_rows_of b)
         /\ length (rows_of b) = Nat.max 1 (matches_of df_yaml s)
         /\ (Dict.get "filename" (affinity_of w args (job_id_of s)) = None ->
             forall data, In data (rows_of b) ->
                          Dict.get "filename" data = Some (VCell (CStr s))))
  /\ (forall b,
         filename_of b = NaN ->
         rows_of b = []
         /\ forall i m, nth_error (rows (joined df_yaml df_boltz)) i = Some m ->
                        In m (joined_rows_of b) ->
                        In (skip_warning i) (printed run))
  /\ length final_rows = list_sum (map (rows_for df_yaml) (rows df_boltz))
  /\ length (filter has_filename (rows df_boltz)) <= length final_rows
  /\ ((forall b, In b (rows df_boltz) -> has_filename b = true) ->
      (forall s, matches_of df_yaml s <= 1) ->
      length final_rows = length (rows df_boltz)).
Proof.
  intros Hok Hjobs Hcopies run joined_rows_of rows_of final_rows.
  assert (Hname : forall b m, In m (joined_rows_of b) -> filename_of m = filename_of b).
  { intros b m Hm. unfold filename_of, cell_of.
    now rewrite (joined_for_filename df_yaml df_boltz Hok b m Hm). }
  assert (Hlen : length final_rows = list_sum (map (rows_for df_yaml) (rows df_boltz)))
    by apply rows_of_count.
  split; [apply (joined_rows df_yaml df_boltz)|]. split; [exact Hname|].
  split; [eexists; apply (main_runs w args df_yaml df_boltz Hok Hjobs Hcopies)|].
  split; [|split; [|split; [exact Hlen|split]]].
  - intros b s Hs. unfold rows_of, summary_rows_of. rewrite Hs.
    split; [reflexivity|]. split.
    + rewrite length_map. now apply joined_for_length.
    + intros Haff data Hin. apply in_map_iff in Hin as (m & <- & Hm).
      apply summary_data_filename; [|exact Haff]. rewrite <- Hs. now apply Hname.
  - intros b Hb. unfold rows_of, summary_rows_of. rewrite Hb. split; [reflexivity|].
    intros i m Hn Hm. apply (skip_warnings w args df_yaml df_boltz Hok Hjobs i m Hn).
    rewrite <- Hb. now apply Hname.
  - rewrite Hlen. apply rows_for_lower.
  - rewrite Hlen. apply rows_for_exact.
Qed.

Lemma summary_rows_per_run_record_witness :
  (exists copies,
      outcome (AggregateJob.main replicate_folders example_args experiments three_records)
      = Ok (flat_map (summary_rows_of replicate_folders example_args experiments
                        three_records)
                     (rows three_records),
            copies))
  /\ In (skip_warning 1)
        (printed (AggregateJob.main replicate_folders example_args experiments three_records)).
Proof.
  destruct (summary_rows_per_run_record replicate_folders example_args experiments
              three_records eq_refl eq_refl eq_refl)
    as (_ & _ & Hrun & _ & Hskip & _).
  split.
  - exact Hrun.
  - exact (proj2 (Hskip [("filename", NaN); ("replicate", CInt 2);
                         ("processing_time_sec", CInt 13)] eq_refl)
             1 _ eq_refl (or_introl eq_refl)).
Defined.

(** C1 as stated fails for a run record whose file name is missing: the loop
    skips it with a warning, and the summary table has one row for two run
    records.  It also fails when two experiment rows have the base identifier
    of a run record: the join gives two summary rows for that one record. *)
Lemma summary_rows_differ_from_run_records :
  (length (rows missing_filename) = 2
   /\ exists final_rows,
        outcome (AggregateJob.main no_folders example_args experiments missing_filename)
        = Ok (final_rows, [])
        /\ length final_rows = 1)
  /\ (length (rows one_replicate) = 1
      /\ exists final_rows,
           outcome (AggregateJob.main no_folders example_args repeated_experiments
                      one_replicate)
           = Ok (final_rows, [])
           /\ length final_rows = 2).
Proof.
  split; (split; [reflexivity|]); eexists; split; reflexivity.
Qed.

(** C3 (amended).  The copy phase goes once through each distinct file name of
    the run-record table, in order of first appearance, that is, once per
    replicate and not once per base identifier; the names are deduplicated, so a
    name that the join repeats is copied from once.  Each pass takes the
    entries of the result folder of its replicate that one of the seven patterns
    matches and copies each into the folder of that pattern.  When every such
    entry is a regular file the run ends with these copies; when one is not, a
    directory for instance, the run ends with an exception. *)
Theorem copy_phase_per_run_record_name (w : World) (args : Args)
  (df_yaml df_boltz : DataFrame) :
  tables_ok df_yaml df_boltz = true ->
  jobs_ok w args df_boltz = true ->
  NoDup (copy_jobs df_boltz)
  /\ (forall c, In c (copy_jobs df_boltz) <->
                exists name b, c = CStr name /\ In b (rows df_boltz)
                               /\ filename_of b = CStr name)
  /\ (copies_ok w args df_boltz = true ->
      exists final_rows,
        outcome (AggregateJob.main w args df_yaml df_boltz)
        = Ok (final_rows, concat (map (copies_of w args) (copy_jobs df_boltz))))
  /\ (copies_ok w args df_boltz = false ->
      exists e, outcome (AggregateJob.main w args df_yaml df_boltz) = Raise e)
  /\ (forall name src dst,
         In (src, dst) (copies_of w args (CStr name)) ->
         let folder := pred_folder args (job_id_of name) in
         is_dir w folder = true
         /\ exists pattern bucket f,
              In (pattern, bucket) (buckets (job_id_of name))
              /\ In f (glob w folder pattern)
              /\ src = (folder ++ [f])%list
              /\ dst = [output_dir args; bucket; f]).
Proof.
  intros Hok Hjobs. split; [apply unique_NoDup|].
  split; [intros c; now apply (copy_jobs_in df_yaml)|].
  split; [intros Hc; eexists; apply (main_runs w args df_yaml df_boltz Hok Hjobs Hc)|].
  split; [apply (main_stops w args df_yaml df_boltz Hok Hjobs)|].
  intros name src dst Hin. now apply copies_of_in.
Qed.

Lemma copy_phase_per_run_record_name_witness :
  NoDup (copy_jobs two_replicates)
  /\ (exists final_rows,
         outcome (AggregateJob.main replicate_folders example_args experiments two_replicates)
         = Ok (final_rows,
               concat (map (copies_of replicate_folders example_args)
                           (copy_jobs two_replicates))))
  /\ (exists e,
         outcome (AggregateJob.main pdb_is_a_folder example_args experiments two_replicates)
         = Raise e).
Proof.
  destruct (copy_phase_per_run_record_name replicate_folders example_args experiments
              two_replicates eq_refl eq_refl)
    as (Hnd & _ & Hrun & _).
  destruct (copy_phase_per_run_record_name pdb_is_a_folder example_args experiments
              two_replicates eq_refl eq_refl)
    as (_ & _ & _ & Hstop & _).
  split; [exact Hnd|]. split; [exact (Hrun eq_refl) | exact (Hstop eq_refl)].
Defined.

(** C3 as stated fails: the two replicates of the one logical job [Foo] are two
    entries of the copy loop, each copied from its own result folder. *)
Lemma copy_phase_visits_each_replicate :
  map boltz_base (rows two_replicates) = [CStr "Foo"; CStr "Foo"]
  /\ copy_jobs two_replicates = [CStr "Foo_rep1.yaml"; CStr "Foo_rep2.yaml"]
  /\ exists final_rows,
       outcome (AggregateJob.main replicate_folders example_args experiments two_replicates)
       = Ok (final_rows,
             [(["out"; "boltz_results_Foo_rep1"; "predictions"; "Foo_rep1";
                "Foo_rep1_model_0.pdb"],
               ["final"; "final_pdbs"; "Foo_rep1_model_0.pdb"]);
              (["out"; "boltz_results_Foo_rep2"; "predictions"; "Foo_rep2";
                "Foo_rep2_model_0.pdb"],
               ["final"; "final_pdbs"; "Foo_rep2_model_0.pdb"])]).
Proof. split; [reflexivity|]. split; [reflexivity|]. eexists. reflexivity. Qed.

(** ** aggregate_job.py: documents that cannot be read *)

(** The exception of a document that cannot be read or parsed. *)
Lemma json_load_raises (w : World) (p : path) :
  (forall data, load w p <> Loaded data) -> exists e, outcome (json_load w p) = Raise e.
Proof.
  unfold json_load. intros H. destruct (load w p) as [data| | |name].
  - now destruct (H data).
  - eexists; reflexivity.
  - eexists; reflexivity.
  - eexists; reflexivity.
Qed.

Lemma parse_confidence_json_raises (w : World) (p : path) :
  (forall data, load w p <> Loaded data) ->
  exists e, outcome (parse_confidence_json w p) = Raise e.
Proof.
  intros H. destruct (json_load_raises w p H) as [e He].
  exists e. unfold parse_confidence_json. now rewrite outcome_bind, He.
Qed.

Lemma summary_row_raises (w : World) (args : Args) (idx : nat) (row : Dict.t cell)
  (s name : string) :
  filename_of row = CStr s ->
  is_dir w (pred_folder args (job_id_of s)) = true ->
  In name (confidence_files w args (job_id_of s)) ->
  (forall data, load w (pred_folder args (job_id_of s) ++ [name])%list <> Loaded data) ->
  exists e, outcome (summary_row w args idx row) = Raise e.
Proof.
  unfold filename_of, cell_of, summary_row.
  destruct (Dict.get "filename" row) as [[]|]; try discriminate.
  intros [= ->] Hdir Hin Hload. rewrite Hdir. cbn [negb]. rewrite outcome_bind.
  destruct (outcome_foldM_raise (add_model_metrics w (pred_folder args (job_id_of s)))
              (confidence_files w args (job_id_of s)) name Hin) with (acc := @nil (string * json))
    as [e He].
  - intros acc. unfold add_model_metrics. rewrite outcome_bind.
    destruct (parse_confidence_json_raises w _ Hload) as [e ->]. now exists e.
  - unfold collect_model_metrics. fold (confidence_files w args (job_id_of s)).
    rewrite He. now exists e.
Qed.

Lemma in_enumerate {A} (x : A) (l : list A) : In x l -> exists i, In (i, x) (enumerate l).
Proof.
  intros H. rewrite <- (map_snd_enumerate l) in H.
  apply in_map_iff in H as ([i y] & E & Hin). cbn [snd] in E. subst. now exists i.
Qed.

(** C10 (amended).  A confidence document found by the per-model glob that
    cannot be read or is not JSON makes the confidence parser raise, and the
    whole run ends with an exception.  For an affinity document, an [IOError]
    or a [JSONDecodeError] gives the empty mapping and one warning, and such a
    document does not stop a run whose other results are readable and can be
    copied; any other exception raised while the affinity document is read
    goes through. *)
Theorem malformed_confidence_aborts (w : World) (args : Args)
  (df_yaml df_boltz : DataFrame) (b : Dict.t cell) (s name : string) :
  tables_ok df_yaml df_boltz = true ->
  In b (rows df_boltz) ->
  filename_of b = CStr s ->
  is_dir w (pred_folder args (job_id_of s)) = true ->
  In name (confidence_files w args (job_id_of s)) ->
  (forall data, load w (pred_folder args (job_id_of s) ++ [name])%list <> Loaded data) ->
  (exists e, outcome (parse_confidence_json w (pred_folder args (job_id_of s) ++ [name])%list)
             = Raise e)
  /\ (exists e, outcome (AggregateJob.main w args df_yaml df_boltz) = Raise e)
  /\ (forall p, load w p = LoadJSONDecodeError \/ load w p = LoadIOError ->
                outcome (parse_affinity_json w p) = Ok (JObj [])
                /\ exists warning, printed (parse_affinity_json w p) = [warning])
  /\ (forall p e, load w p = LoadOtherError e ->
                  outcome (parse_affinity_json w p) = Raise (OtherError e))
  /\ (forall w', jobs_ok w' args df_boltz = true ->
                 copies_ok w' args df_boltz = true ->
                 exists result, outcome (AggregateJob.main w' args df_yaml df_boltz)
                                = Ok result).
Proof.
  intros Hok Hb Hs Hdir Hin Hload. split; [|split; [|split; [|split]]].
  - now apply parse_confidence_json_raises.
  - rewrite (main_after_join w args df_yaml df_boltz Hok), outcome_bind.
    destruct (joined_row_exists df_yaml df_boltz Hok b Hb) as (m & Hm & Em).
    destruct (in_enumerate m _ Hm) as [i Hi].
    destruct (outcome_foldM_raise (add_summary_row w args)
                (enumerate (rows (joined df_yaml df_boltz))) (i, m) Hi)
      with (acc := @nil (Dict.t value)) as [e He].
    + intros acc. unfold add_summary_row. cbn [fst snd]. rewrite outcome_bind.
      destruct (summary_row_raises w args i m s name) as [e ->]; try assumption.
      * congruence.
      * now exists e.
    + rewrite He. now exists e.
  - intros p Hp. unfold parse_affinity_json.
    destruct Hp as [E|E]; rewrite E; (split; [reflexivity|eexists; reflexivity]).
  - intros p e Hp. unfold parse_affinity_json. now rewrite Hp.
  - intros w' Hjobs Hcopies. eexists.
    apply (main_runs w' args df_yaml df_boltz Hok Hjobs Hcopies).
Qed.

Lemma malformed_confidence_aborts_witness :
  exists e,
    outcome (AggregateJob.main broken_confidence example_args experiments two_replicates)
    = Raise e.
Proof.
  destruct (malformed_confidence_aborts broken_confidence example_args experiments
              two_replicates
              [("filename", CStr "Foo_rep1.yaml"); ("replicate", CInt 1);
               ("processing_time_sec", CInt 12)]
              "Foo_rep1.yaml" "confidence_Foo_rep1_model_0.json"
              eq_refl (or_introl eq_refl) eq_refl eq_refl (or_introl eq_refl)
              ltac:(discriminate))
    as (_ & Hmain & _).
  exact Hmain.
Defined.

(** C10 as stated fails on the affinity side: an affinity document that cannot
    be parsed because its bytes are not text raises [UnicodeDecodeError], which
    is neither of the two exceptions the affinity parser catches; no warning is
    printed for it and the run ends with that exception. *)
Lemma undecodable_affinity_aborts :
  is_file undecodable_affinity (affinity_path example_args "Foo_rep1") = true
  /\ load undecodable_affinity (affinity_path example_args "Foo_rep1")
     = LoadOtherError "UnicodeDecodeError"
  /\ parse_affinity_json undecodable_affinity (affinity_path example_args "Foo_rep1")
     = raise (OtherError "UnicodeDecodeError")
  /\ outcome (AggregateJob.main undecodable_affinity example_args experiments one_replicate)
     = Raise (OtherError "UnicodeDecodeError").
Proof. repeat split. Qed.

(** ** write_yamls.py: the order of the entities *)

Import WriteYamls.

Lemma retained_cols_sorted (row : Dict.t cell) :
  StronglySorted (fun a b => (entity_number a <= entity_number b)%N) (retained_cols row).
Proof. unfold retained_cols. apply filter_sorted, sorted_by_sorted. Qed.

Lemma retained_cols_perm (row : Dict.t cell) :
  Permutation (retained_cols row) (filter (retained row) (entity_cols row)).
Proof. unfold retained_cols. apply filter_perm, sorted_by_perm. Qed.

Lemma in_sorted_cols (row : Dict.t cell) (col : string) :
  In col (sorted_by entity_number (entity_cols row)) -> In col (entity_cols row).
Proof. apply Permutation_in, sorted_by_perm. Qed.

(** ** write_yamls.py: one row *)

Lemma fold_filter_map {A B} (p : A -> bool) (g : A -> B) (l : list A) (acc : list B) :
  fold_left (fun acc x => if p x then (acc ++ [g x])%list else acc) l acc
  = (acc ++ map g (filter p l))%list.
Proof.
  revert acc. induction l as [|x l IH]; intros acc; cbn [fold_left filter].
  - now rewrite List.app_nil_r.
  - rewrite IH. destruct (p x); [|reflexivity]. cbn [map]. now rewrite <- List.app_assoc.
Qed.

Section Rows.
Variable json_loads : string -> option json.

Lemma payload_ok (row : Dict.t cell) (label : string) :
  payload_typed row label = true -> payload row label = ret (payload_text row label).
Proof.
  unfold payload_typed, payload, payload_text.
  destruct (Dict.get label row) as [[]|]; try discriminate; reflexivity.
Qed.

Lemma entity_retained (row : Dict.t cell) (col : string) :
  retained row col = true ->
  Dict.mem (field_label (index_of col) "id") row = true ->
  payload_typed row (field_label (index_of col) "modifications") = true ->
  outcome (entity json_loads row col) = Ok (Some (entity_object json_loads row col)).
Proof.
  unfold retained, Dict.mem, entity, entity_object, getitem. fold (index_of col).
  destruct (Dict.get col row) as [[|type_name| | |]|]; try discriminate.
  intros Hb Hid Hmod. rewrite bind_ret_l. apply negb_true_iff in Hb. rewrite Hb.
  destruct (Dict.get (field_label (index_of col) "id") row) as [id_cell|];
    [|discriminate].
  rewrite bind_ret_l, (payload_ok _ _ Hmod), bind_ret_l.
  destruct (payload_text row (field_label (index_of col) "modifications")) as [s|].
  - destruct (json_loads s); rewrite outcome_bind; try rewrite outcome_bind; reflexivity.
  - now rewrite bind_ret_l.
Qed.

Lemma entity_skipped (row : Dict.t cell) (col : string) :
  In col (Dict.keys row) -> payload_typed row col = true -> retained row col = false ->
  outcome (entity json_loads row col) = Ok None.
Proof.
  unfold retained, payload_typed, entity, getitem. intros Hin.
  destruct (Dict.get col row) as [[|type_name| | |]|] eqn:E; try discriminate.
  - reflexivity.
  - intros _ Hb. apply negb_false_iff in Hb. rewrite bind_ret_l. now rewrite Hb.
  - apply get_none_keys in E. contradiction.
Qed.

Lemma entity_cols_keys (row : Dict.t cell) (col : string) :
  In col (entity_cols row) -> In col (Dict.keys row).
Proof. unfold entity_cols. intros H. now apply filter_In in H. Qed.

Lemma row_typed_parts (row : Dict.t cell) :
  row_typed row = true ->
  (forall col, In col (entity_cols row) -> payload_typed row col = true)
  /\ (forall col, In col (retained_cols row) ->
                  Dict.mem (field_label (index_of col) "id") row = true
                  /\ payload_typed row (field_label (index_of col) "modifications") = true)
  /\ (forall key, In key constraint_keys -> payload_typed row key = true).
Proof.
  unfold row_typed. intros H.
  apply andb_prop in H as [H H3]. apply andb_prop in H as [H1 H2].
  rewrite List.forallb_forall in H1, H2, H3.
  split; [exact H1|]. split; [|exact H3].
  intros col Hc. apply H2 in Hc. now apply andb_prop in Hc.
Qed.

Lemma row_ok_parts (row : Dict.t cell) :
  row_ok row = true ->
  row_typed row = true
  /\ payload_typed row "foldname" = true
  /\ (payload_text row "foldname" = None ->
      forall i, i < length (retained_cols row) ->
                Dict.mem ("entity_" ++ Str.of_nat (i + 1) ++ "_id") row = true).
Proof.
  unfold row_ok. intros H.
  apply andb_prop in H as [H H3]. apply andb_prop in H as [H1 H2].
  split; [exact H1|]. split; [exact H2|].
  intros Hf i Hi. rewrite Hf in H3. cbn [orb] in H3.
  rewrite List.forallb_forall in H3. apply H3. apply in_seq. lia.
Qed.

Lemma sequences_ok (row : Dict.t cell) :
  row_typed row = true ->
  outcome (foldM (add_entity json_loads row)
                 (sorted_by entity_number (entity_cols row)) [])
  = Ok (map (entity_object json_loads row) (retained_cols row)).
Proof.
  intros Hok. destruct (row_typed_parts row Hok) as (Htyped & Hret & _).
  rewrite (outcome_foldM _ (fun acc col => if retained row col
                                           then (acc ++ [entity_object json_loads row col])%list
                                           else acc)).
  - now rewrite fold_filter_map.
  - intros acc col Hin. unfold add_entity. rewrite outcome_bind.
    destruct (retained row col) eqn:E.
    + assert (Hc : In col (retained_cols row)) by (apply filter_In; now split).
      destruct (Hret col Hc) as [Hid Hmod].
      now rewrite (entity_retained row col E Hid Hmod).
    + apply in_sorted_cols in Hin.
      rewrite (entity_skipped row col (entity_cols_keys row col Hin) (Htyped col Hin) E).
      reflexivity.
Qed.

Lemma add_constraints_ok (row : Dict.t cell) (acc : list pyval) (key : string) :
  payload_typed row key = true ->
  outcome (add_constraints json_loads row acc key)
  = Ok (acc ++ constraint_items json_loads row key)%list.
Proof.
  intros H. unfold add_constraints, constraint_items.
  rewrite (payload_ok _ _ H), bind_ret_l.
  destruct (payload_text row key) as [s|]; [|now rewrite List.app_nil_r].
  destruct (json_loads s) as [[]|]; rewrite ?outcome_bind; cbn [outcome fst ret print];
    rewrite ?List.app_nil_r; reflexivity.
Qed.

Lemma constraints_ok (row : Dict.t cell) :
  row_typed row = true ->
  outcome (foldM (add_constraints json_loads row) constraint_keys [])
  = Ok (flat_map (constraint_items json_loads row) constraint_keys).
Proof.
  intros Hok. destruct (row_typed_parts row Hok) as (_ & _ & Hc).
  rewrite (outcome_foldM _ (fun acc key => (acc ++ constraint_items json_loads row key)%list)).
  - unfold constraint_keys. cbn [fold_left flat_map app].
    now rewrite List.app_nil_r, List.app_assoc.
  - intros acc key Hin. apply add_constraints_ok. now apply Hc.
Qed.

(** The document of a well-typed row. *)
Lemma process_row_ok (row : Dict.t cell) :
  row_typed row = true ->
  outcome (process_row json_loads row)
  = Ok (set_nonempty "properties"
          (match present row "affinity_binder" with
           | Some c => [PDict [("affinity", PDict [("binder", PCell c)])]]
           | None => []
           end)
          (set_nonempty "constraints"
             (flat_map (constraint_items json_loads row) constraint_keys)
             (set_nonempty "sequences"
                (map (entity_object json_loads row) (retained_cols row)) []))).
Proof.
  intros Hok. unfold process_row.
  rewrite outcome_bind, (sequences_ok row Hok), outcome_bind, (constraints_ok row Hok).
  reflexivity.
Qed.

End Rows.

(** ** write_yamls.py: the entities of a document *)

Lemma get_set_if_same {V} (k : string) (o : option V) (d : Dict.t V) :
  Dict.get k (set_if k o d) = match o with Some v => Some v | None => Dict.get k d end.
Proof. destruct o; [apply get_set_same|reflexivity]. Qed.

Lemma get_set_if_other {V} (k k' : string) (o : option V) (d : Dict.t V) :
  k <> k' -> Dict.get k (set_if k' o d) = Dict.get k d.
Proof. intros H. destruct o; [now apply get_set_other|reflexivity]. Qed.

Lemma get_set_if_inv {V} (k k' : string) (o : option V) (d : Dict.t V) (v : V) :
  Dict.get k (set_if k' o d) = Some v -> o = Some v \/ Dict.get k d = Some v.
Proof.
  destruct o as [v'|]; cbn [set_if]; [|now right].
  destruct (string_dec k k') as [->|Hne].
  - rewrite get_set_same. intros [= ->]. now left.
  - rewrite get_set_other by assumption. now right.
Qed.

Lemma present_not_nan (row : Dict.t cell) (label : string) (c : cell) :
  present row label = Some c -> c <> NaN.
Proof.
  unfold present. destruct (Dict.get label row) as [c'|]; [|discriminate].
  destruct (isna c') eqn:E; [discriminate|]. intros [= ->] ->. discriminate E.
Qed.

Lemma present_cell_not_nan (row : Dict.t cell) (label : string) (v : pyval) :
  option_map PCell (present row label) = Some v -> v <> PCell NaN.
Proof.
  destruct (present row label) as [c|] eqn:E; [|discriminate].
  intros [= <-] [= ->]. now apply present_not_nan in E.
Qed.

Lemma present_none_payload (row : Dict.t cell) (label : string) :
  present row label = None -> payload_text row label = None.
Proof.
  unfold present, payload_text. destruct (Dict.get label row) as [[]|];
    try reflexivity; discriminate.
Qed.


Lemma entity_index_sound (col ds : string) :
  entity_index col = Some ds ->
  ds <> "" /\ Str.forallb Str.is_digit ds = true
  /\ exists rest, col = "entity_" ++ ds ++ "_type" ++ rest.
Proof.
  unfold entity_index.
  destruct (Str.strip_prefix "entity_" col) as [u|] eqn:E; [|discriminate].
  apply strip_prefix_sound in E. subst col.
  pose proof (span_forallb Str.is_digit u) as Hd.
  pose proof (span_eq Str.is_digit u) as Hu.
  destruct (Str.span Str.is_digit u) as [a v]. cbn [fst snd] in *.
  destruct a as [|c a]; cbn [Str.is_empty negb andb]; [discriminate|].
  destruct (Str.startswith v "_type") eqn:Hv; [|discriminate].
  intros [= <-]. split; [discriminate|]. split; [exact Hd|].
  apply startswith_sound in Hv as [rest ->]. exists rest. now rewrite <- Hu.
Qed.

Lemma entity_index_label (ds rest : string) :
  ds <> "" -> Str.forallb Str.is_digit ds = true ->
  entity_index ("entity_" ++ ds ++ "_type" ++ rest) = Some ds.
Proof.
  intros Hne Hd. unfold entity_index.
  rewrite strip_prefix_append, (span_append _ ds ("_type" ++ rest) Hd eq_refl).
  rewrite startswith_append. destruct ds; [congruence|reflexivity].
Qed.

Lemma entity_number_label (ds rest : string) :
  ds <> "" -> Str.forallb Str.is_digit ds = true ->
  entity_number ("entity_" ++ ds ++ "_type" ++ rest) = Str.int ds.
Proof. intros Hne Hd. unfold entity_number. now rewrite entity_index_label. Qed.

Lemma id_value_one (s : string) :
  Str.lacks "," s = true -> id_value (Str.split "," s) = PStr s.
Proof. intros H. now rewrite split_lacks. Qed.

Lemma id_value_tokens (tokens : list string) :
  2 <= length tokens ->
  Forall (fun t => Str.lacks "," t = true) tokens ->
  id_value (Str.split "," (Str.join "," tokens)) = PFlow tokens.
Proof.
  intros Hlen H. rewrite (split_join "," tokens); [|now destruct tokens|exact H].
  destruct tokens as [|a [|b rest]]; cbn [length] in Hlen; try lia. reflexivity.
Qed.

Lemma entity_object_spec (json_loads : string -> option json) (row : Dict.t cell)
  (col : string) :
  In col (entity_cols row) ->
  retained row col = true ->
  Dict.mem (field_label (index_of col) "id") row = true ->
  entity_spec row col (entity_object json_loads row col).
Proof.
  intros Hin. unfold entity_cols in Hin. apply filter_In in Hin as [_ Hidx].
  destruct (entity_index col) as [ds|] eqn:E; [|discriminate]. clear Hidx.
  destruct (entity_index_sound col ds E) as (Hne & Hd & rest & Hcol).
  unfold retained, Dict.mem, entity_spec, entity_object, index_of. rewrite E.
  destruct (Dict.get col row) as [[|type_name| | |]|]; try discriminate.
  destruct (Dict.get (field_label ds "id") row) as [id_cell|] eqn:Hcell; [|discriminate].
  intros Hb _. apply negb_true_iff in Hb.
  exists ds, rest, type_name, id_cell. eexists.
  split; [exact Hcol|]. split; [exact Hne|]. split; [exact Hd|].
  split; [reflexivity|]. split; [exact Hb|]. split; [exact Hcell|].
  split; [reflexivity|]. unfold entity_head.
  change ("entity_" ++ ds ++ "_sequence") with (field_label ds "sequence").
  assert (Hid : Dict.get "id"
                  (set_if "modifications"
                     match payload_text row (field_label ds "modifications") with
                     | Some s => option_map PJson (json_loads s)
                     | None => None
                     end
                     (set_if "cyclic"
                        match present row (field_label ds "cyclic") with
                        | Some c => if truthy c then Some (PBool true) else None
                        | None => None
                        end
                        (set_if "msa"
                           (option_map PCell (present row (field_label ds "msa")))
                           (set_if "ccd"
                              (option_map PCell (present row (field_label ds "ccd")))
                              (set_if "smiles"
                                 (option_map (fun c => PQuoted (str_of_cell c))
                                    (present row (field_label ds "smiles")))
                                 (set_if "sequence"
                                    (option_map PCell (present row (field_label ds "sequence")))
                                    [("id", id_value (Str.split "," (str_of_cell id_cell)))]))))))
                = Some (id_value (Str.split "," (str_of_cell id_cell)))).
  { rewrite !get_set_if_other by discriminate. reflexivity. }
  split; [|split; [|split; [|split]]].
  - intros Hl. rewrite Hid. f_equal. now apply id_value_one.
  - intros tokens Hlen Htok Hjoin. rewrite Hid, Hjoin. f_equal.
    now apply id_value_tokens.
  - intros name Hin Habsent.
    change ("entity_" ++ ds ++ "_" ++ name) with (field_label ds name) in Habsent.
    assert (Hnone : present row (field_label ds name) = None).
    { unfold present. now destruct Habsent as [-> | ->]. }
    unfold optional_fields in Hin. cbn [In] in Hin.
    destruct Hin as [<-|[<-|[<-|[<-|[<-|[<-|[]]]]]]];
      rewrite ?get_set_if_other by discriminate;
      rewrite get_set_if_same, ?Hnone, ?(present_none_payload _ _ Hnone);
      cbn [option_map]; rewrite ?get_set_if_other by discriminate; reflexivity.
  - intros name v Hget.
    apply get_set_if_inv in Hget as [Hget|Hget].
    { destruct (payload_text row _) as [s|]; [|discriminate Hget].
      destruct (json_loads s); [|discriminate Hget]. injection Hget as <-. discriminate. }
    apply get_set_if_inv in Hget as [Hget|Hget].
    { destruct (present row (field_label ds "cyclic")) as [c|]; [|discriminate Hget].
      destruct (truthy c); [|discriminate Hget]. injection Hget as <-. discriminate. }
    apply get_set_if_inv in Hget as [Hget|Hget]; [now apply present_cell_not_nan in Hget|].
    apply get_set_if_inv in Hget as [Hget|Hget]; [now apply present_cell_not_nan in Hget|].
    apply get_set_if_inv in Hget as [Hget|Hget].
    { destruct (present row (field_label ds "smiles")) as [c|]; [|discriminate Hget].
      injection Hget as <-. discriminate. }
    apply get_set_if_inv in Hget as [Hget|Hget]; [now apply present_cell_not_nan in Hget|].
    cbn [Dict.get] in Hget. destruct (String.eqb name "id"); [|discriminate].
    injection Hget as <-. unfold id_value.
    destruct (Str.split "," (str_of_cell id_cell)) as [|a [|b rest']]; discriminate.
  - intros c Hget Hc.
    assert (Hp : present row (field_label ds "sequence") = Some c).
    { unfold present. rewrite Hget. now destruct c. }
    rewrite !get_set_if_other by discriminate.
    rewrite get_set_if_same, Hp. reflexivity.
Qed.

Lemma get_set_nonempty_other (k k' : string) (l : list pyval) (d : Dict.t pyval) :
  k <> k' -> Dict.get k (set_nonempty k' l d) = Dict.get k d.
Proof. intros H. destruct l; [reflexivity|]. now apply get_set_other. Qed.

Lemma get_set_nonempty_same (k : string) (l : list pyval) (d : Dict.t pyval) :
  l <> [] -> Dict.get k (set_nonempty k l d) = Some (PList l).
Proof. intros H. destruct l; [congruence|]. apply get_set_same. Qed.

Lemma Forall2_map_r {A B} (R : A -> B -> Prop) (f : A -> B) (l : list A) :
  (forall x, In x l -> R x (f x)) -> Forall2 R l (map f l).
Proof.
  induction l as [|x l IH]; intros H; constructor.
  - apply H. now left.
  - apply IH. intros y Hy. apply H. now right.
Qed.

Lemma retained_cols_in (row : Dict.t cell) (col : string) :
  In col (retained_cols row)
  <-> In col (Dict.keys row)
      /\ (exists ds rest, col = "entity_" ++ ds ++ "_type" ++ rest
                          /\ ds <> "" /\ Str.forallb Str.is_digit ds = true)
      /\ (exists type_name, Dict.get col row = Some (CStr type_name)
                            /\ Str.blank type_name = false).
Proof.
  unfold retained_cols. rewrite filter_In. split.
  - intros [Hin Hret]. apply in_sorted_cols in Hin.
    split; [now apply entity_cols_keys|]. split.
    + unfold entity_cols in Hin. apply filter_In in Hin as [_ Hin].
      destruct (entity_index col) as [ds|] eqn:E; [|discriminate].
      destruct (entity_index_sound col ds E) as (Hne & Hd & rest & Hcol).
      now exists ds, rest.
    + unfold retained in Hret. destruct (Dict.get col row) as [[|type_name| | |]|];
        try discriminate.
      exists type_name. split; [reflexivity|]. now apply negb_true_iff.
  - intros (Hk & (ds & rest & Hcol & Hne & Hd) & (type_name & Hget & Hb)). split.
    + apply (Permutation_in _ (Permutation_sym (sorted_by_perm entity_number _))).
      unfold entity_cols. apply filter_In. split; [exact Hk|].
      now rewrite Hcol, entity_index_label.
    + unfold retained. now rewrite Hget, Hb.
Qed.

(** C8 (amended).  For a row that is well typed (the type cells of its entity
    columns are missing or text, every retained entity has its identifier
    column and a modifications cell that is missing or text, and the constraint
    cells are missing or text) and that has at least one retained entity, the
    document holds under [sequences] one entity for each entity column
    [entity_<digits>_type...] whose type cell is text that is not blank, and no
    other, in ascending order of the numbers their digits spell, columns of the
    same number keeping the order of the table.  An optional field whose cell is
    absent or missing is absent from the entity and no field holds a missing
    value; the identifier is the text of the identifier cell when it holds no
    comma, and the list of the tokens between its commas when it holds some. *)
Theorem encoder_retained_entities (json_loads : string -> option json)
  (row : Dict.t cell) :
  row_typed row = true ->
  retained_cols row <> [] ->
  exists doc cols entities,
    outcome (process_row json_loads row) = Ok doc
    /\ Dict.get "sequences" doc = Some (PList entities)
    /\ Forall2 (entity_spec row) cols entities
    /\ (forall col,
          In col cols
          <-> In col (Dict.keys row)
              /\ (exists ds rest, col = "entity_" ++ ds ++ "_type" ++ rest
                                  /\ ds <> "" /\ Str.forallb Str.is_digit ds = true)
              /\ (exists type_name, Dict.get col row = Some (CStr type_name)
                                    /\ Str.blank type_name = false))
    /\ Permutation cols (filter (retained row) (entity_cols row))
    /\ StronglySorted (fun a b => (entity_number a <= entity_number b)%N) cols
    /\ (forall ds rest, ds <> "" -> Str.forallb Str.is_digit ds = true ->
                        entity_number ("entity_" ++ ds ++ "_type" ++ rest) = Str.int ds)
    /\ (forall n rest,
          entity_number ("entity_" ++ Str.of_nat n ++ "_type" ++ rest) = N.of_nat n)
    /\ (forall n,
          filter (fun col => (entity_number col =? n)%N) cols
          = filter (fun col => (entity_number col =? n)%N)
                   (filter (retained row) (entity_cols row))).
Proof.
  intros Hok Hne. destruct (row_typed_parts row Hok) as (_ & Hret & _).
  eexists _, (retained_cols row), (map (entity_object json_loads row) (retained_cols row)).
  split; [apply (process_row_ok json_loads row Hok)|].
  split; [|split; [|split; [|split; [|split; [|split; [|split]]]]]].
  - rewrite !get_set_nonempty_other by discriminate.
    apply get_set_nonempty_same. destruct (retained_cols row); [congruence|discriminate].
  - apply Forall2_map_r. intros col Hc. apply entity_object_spec.
    + unfold retained_cols in Hc. apply filter_In in Hc as [Hc _].
      now apply in_sorted_cols.
    + unfold retained_cols in Hc. now apply filter_In in Hc.
    + now apply Hret.
  - apply retained_cols_in.
  - apply retained_cols_perm.
  - apply retained_cols_sorted.
  - apply entity_number_label.
  - intros n rest. rewrite entity_number_label, int_of_nat;
      [reflexivity|apply of_nat_nonempty|apply of_nat_digits].
  - intros n. unfold retained_cols.
    now rewrite filter_comm, sorted_by_filter_key, filter_comm.
Qed.

Lemma encoder_retained_entities_witness :
  exists doc cols entities,
    outcome (process_row sample_loads unordered_row) = Ok doc
    /\ Dict.get "sequences" doc = Some (PList entities)
    /\ entities
       = [PDict [("ligand", PDict [("id", PStr "C"); ("smiles", PQuoted "CC(=O)O")])];
          PDict [("protein", PDict [("id", PFlow ["A"; "B"]);
                                    ("sequence", PCell (CStr "MKV"))])]]
    /\ Forall2 (entity_spec unordered_row) cols entities
    /\ entity_number "entity_2_type" = 2%N
    /\ entity_number "entity_10_type" = 10%N.
Proof.
  destruct (encoder_retained_entities sample_loads unordered_row eq_refl
              ltac:(discriminate))
    as (doc & cols & entities & Hrun & Hseq & Hspec & _ & _ & _ & _ & Hnum & _).
  exists doc, cols, entities. split; [exact Hrun|]. split; [exact Hseq|].
  injection Hrun as Hdoc. subst doc. injection Hseq as Hentities. subst entities.
  split; [reflexivity|]. split; [exact Hspec|].
  split; [exact (Hnum 2 "")|exact (Hnum 10 "")].
Defined.

(** C8 as stated fails on a row with a valid entity: a protein with its
    identifier, then a ligand whose identifier column is not in the table.
    The row gives no document. *)
Lemma entity_without_identifier_aborts :
  outcome (entity sample_loads headless_ligand_row "entity_1_type")
  = Ok (Some (PDict [("protein", PDict [("id", PStr "A");
                                        ("sequence", PCell (CStr "MKV"))])]))
  /\ retained_cols headless_ligand_row = ["entity_1_type"; "entity_2_type"]
  /\ Dict.get "entity_2_id" headless_ligand_row = None
  /\ outcome (process_row sample_loads headless_ligand_row) = Raise (KeyError "entity_2_id").
Proof. repeat split. Qed.

(** ** write_yamls.py: malformed payloads *)


Lemma keys_set_present {V} (k : string) (v v' : V) (d : Dict.t V) :
  Dict.get k d = Some v' -> Dict.keys (Dict.set k v d) = Dict.keys d.
Proof.
  unfold Dict.keys. induction d as [|[k0 v0] d IH]; cbn [Dict.get Dict.set]; [discriminate|].
  destruct (String.eqb_spec k k0); [now subst|].
  intros H. cbn [map fst]. now rewrite IH.
Qed.

Lemma entity_col_prefix (col ds : string) :
  entity_index col = Some ds -> exists rest, col = "entity_" ++ rest.
Proof.
  unfold entity_index. destruct (Str.strip_prefix "entity_" col) as [u|] eqn:E; [|discriminate].
  intros _. apply strip_prefix_sound in E. now exists u.
Qed.

Section Locality.
Variable json_loads : string -> option json.
Variables (row : Dict.t cell) (s : string).
Hypothesis Hbonds : Dict.get "bonds" row = Some (CStr s).
Hypothesis Hblank : Str.blank s = false.
Hypothesis Hbad : json_loads s = None.

Let row' := Dict.set "bonds" NaN row.

Lemma get_other (label : string) : label <> "bonds" -> Dict.get label row' = Dict.get label row.
Proof. intros H. now apply get_set_other. Qed.

Lemma get_entity_label (rest : string) :
  Dict.get ("entity_" ++ rest) row' = Dict.get ("entity_" ++ rest) row.
Proof. apply get_other. discriminate. Qed.

Lemma entity_cols_same : entity_cols row' = entity_cols row.
Proof. unfold entity_cols, row'. now rewrite (keys_set_present _ _ _ _ Hbonds). Qed.

Lemma entity_same (col : string) :
  In col (entity_cols row) -> entity json_loads row' col = entity json_loads row col.
Proof.
  intros Hin. unfold entity_cols in Hin. apply filter_In in Hin as [_ Hin].
  destruct (entity_index col) as [ds|] eqn:E; [|discriminate].
  destruct (entity_col_prefix col ds E) as [rest ->].
  unfold entity, getitem, entity_head, present, payload, field_label.
  now rewrite !get_entity_label.
Qed.

Lemma sequences_same :
  foldM (add_entity json_loads row') (sorted_by entity_number (entity_cols row')) []
  = foldM (add_entity json_loads row) (sorted_by entity_number (entity_cols row)) [].
Proof.
  rewrite entity_cols_same. apply foldM_ext. intros acc col Hin.
  unfold add_entity. now rewrite entity_same by now apply in_sorted_cols.
Qed.

Lemma constraints_same :
  outcome (foldM (add_constraints json_loads row') constraint_keys [])
  = outcome (foldM (add_constraints json_loads row) constraint_keys []).
Proof.
  unfold constraint_keys. cbn [foldM].
  apply outcome_bind_congr.
  - unfold add_constraints, payload, row'. rewrite get_set_same, Hbonds, Hblank.
    rewrite !bind_ret_l, Hbad. reflexivity.
  - intros acc. unfold add_constraints, payload.
    rewrite !(get_other "pockets"), !(get_other "contacts") by discriminate. reflexivity.
Qed.

Lemma process_row_same :
  outcome (process_row json_loads row') = outcome (process_row json_loads row).
Proof.
  unfold process_row. rewrite sequences_same.
  apply outcome_bind_congr; [reflexivity|]. intros sequences.
  apply outcome_bind_congr; [apply constraints_same|]. intros constraints.
  unfold present. now rewrite (get_other "affinity_binder") by discriminate.
Qed.

Lemma yaml_filename_same (doc : Dict.t pyval) :
  yaml_filename row' doc = yaml_filename row doc.
Proof.
  unfold yaml_filename, payload, getitem.
  rewrite (get_other "foldname") by discriminate.
  apply bind_ext. intros foldname. f_equal. destruct foldname; [reflexivity|].
  f_equal. clear. induction (seq 0 _) as [|i l IH]; [reflexivity|].
  cbn [mapM]. now rewrite get_entity_label, IH.
Qed.

Lemma write_row_same (open_error : string -> option exn) :
  outcome (write_row json_loads open_error row')
  = outcome (write_row json_loads open_error row).
Proof.
  unfold write_row.
  apply outcome_bind_congr; [apply process_row_same|]. intros doc.
  now rewrite yaml_filename_same.
Qed.

End Locality.

Section Batch.
Variable json_loads : string -> option json.
Variable open_error : string -> option exn.

Lemma yaml_filename_ok (row : Dict.t cell) (doc : Dict.t pyval) :
  row_ok row = true ->
  outcome (process_row json_loads row) = Ok doc ->
  outcome (yaml_filename row doc) = Ok (document_name row).
Proof.
  intros Hok Hdoc. destruct (row_ok_parts row Hok) as (Htyped & Hfold & Hids).
  rewrite (process_row_ok json_loads row Htyped) in Hdoc. injection Hdoc as <-.
  unfold yaml_filename, document_name. rewrite (payload_ok _ _ Hfold), bind_ret_l.
  destruct (payload_text row "foldname") as [t|].
  - now rewrite bind_ret_l.
  - rewrite !get_set_nonempty_other by discriminate.
    assert (Hn : match Dict.get "sequences"
                         (set_nonempty "sequences"
                            (map (entity_object json_loads row) (retained_cols row)) [])
                 with
                 | Some (PList l) => length l
                 | _ => 0
                 end = length (retained_cols row)).
    { destruct (retained_cols row) as [|c cs]; [reflexivity|].
      cbn [map set_nonempty]. rewrite get_set_same. cbn [length]. now rewrite length_map. }
    rewrite Hn, outcome_bind, outcome_bind.
    rewrite (outcome_mapM _ (fun i => str_of_cell
                                        (cell_of ("entity_" ++ Str.of_nat (i + 1) ++ "_id") row))).
    + reflexivity.
    + intros i Hi. apply in_seq in Hi. specialize (Hids eq_refl i ltac:(lia)).
      unfold Dict.mem in Hids. unfold getitem, cell_of.
      destruct (Dict.get ("entity_" ++ Str.of_nat (i + 1) ++ "_id") row); [|discriminate].
      now rewrite bind_ret_l.
Qed.

Lemma write_row_outcome (row : Dict.t cell) (doc : Dict.t pyval) :
  row_ok row = true ->
  outcome (process_row json_loads row) = Ok doc ->
  outcome (write_row json_loads open_error row)
  = match open_error (document_name row) with
    | Some e => Raise e
    | None => Ok (document_name row, doc)
    end.
Proof.
  intros Hok Hdoc. unfold write_row, write_document.
  rewrite outcome_bind, Hdoc, outcome_bind, (yaml_filename_ok row doc Hok Hdoc).
  rewrite outcome_bind. now destruct (open_error (document_name row)).
Qed.

Lemma write_row_ok (row : Dict.t cell) :
  row_ok row = true -> opens open_error row = true ->
  exists doc,
    outcome (process_row json_loads row) = Ok doc
    /\ outcome (write_row json_loads open_error row) = Ok (document_name row, doc).
Proof.
  intros Hok Hopen. pose proof (proj1 (row_ok_parts row Hok)) as Htyped.
  eexists. split; [apply (process_row_ok json_loads row Htyped)|].
  rewrite (write_row_outcome row _ Hok (process_row_ok json_loads row Htyped)).
  unfold opens in Hopen. now destruct (open_error (document_name row)).
Qed.

Lemma main_ok (df : list (Dict.t cell)) :
  List.forallb row_ok df = true ->
  List.forallb (opens open_error) df = true ->
  exists docs, outcome (WriteYamls.main json_loads open_error df) = Ok docs
               /\ map fst docs = map document_name df.
Proof.
  unfold WriteYamls.main. induction df as [|row df IH]; intros H Ho.
  - exists []. now split.
  - cbn [List.forallb] in H, Ho.
    apply andb_prop in H as [Hrow Hdf]. apply andb_prop in Ho as [Horow Hodf].
    destruct (IH Hdf Hodf) as (docs & Hdocs & Hnames).
    destruct (write_row_ok row Hrow Horow) as (doc & _ & Hrun).
    cbn [mapM]. rewrite outcome_bind, Hrun, outcome_bind, Hdocs.
    eexists. split; [reflexivity|]. cbn [map fst]. now rewrite Hnames.
Qed.

Lemma main_stops_at (rows_before rows_after : list (Dict.t cell)) (row : Dict.t cell)
  (e : exn) :
  List.forallb row_ok rows_before = true ->
  List.forallb (opens open_error) rows_before = true ->
  outcome (write_row json_loads open_error row) = Raise e ->
  outcome (WriteYamls.main json_loads open_error (rows_before ++ row :: rows_after)%list)
  = Raise e.
Proof.
  unfold WriteYamls.main. intros H Ho Hrow.
  induction rows_before as [|r rows_before IH]; cbn [app mapM].
  - now rewrite outcome_bind, Hrow.
  - cbn [List.forallb] in H, Ho.
    apply andb_prop in H as [Hr Hdf]. apply andb_prop in Ho as [Hor Hodf].
    destruct (write_row_ok r Hr Hor) as (doc & _ & Hrun).
    now rewrite outcome_bind, Hrun, outcome_bind, (IH Hdf Hodf).
Qed.

End Batch.

(** C9 (amended).  When the bonds cell of a row is text that is not JSON, the
    document of the row is the document it would have with an empty bonds cell:
    it holds the constraints of the pockets and contacts cells and no bond; the
    documents and file names of the whole batch are those of the batch in which
    that one cell is empty, so no other row is affected.  A row with no
    retained entity that can be named (it is well typed, its fold name is
    missing or text, and without a fold name the identifier columns it names
    itself by exist) still gives a document, without [sequences], and a file
    name, and it is written when the file can be opened.  A batch of such rows
    whose files can all be opened gives one document per row, under the names
    of the rows; the first row whose file cannot be opened ends the batch with
    the exception of the opening. *)
Theorem malformed_bonds_are_row_local (json_loads : string -> option json)
  (open_error : string -> option exn)
  (before after : list (Dict.t cell)) (row : Dict.t cell) (s : string) :
  Dict.get "bonds" row = Some (CStr s) ->
  Str.blank s = false ->
  json_loads s = None ->
  outcome (process_row json_loads row)
  = outcome (process_row json_loads (Dict.set "bonds" NaN row))
  /\ (row_typed row = true ->
      exists doc,
        outcome (process_row json_loads row) = Ok doc
        /\ Dict.get "constraints" doc
           = match (constraint_items json_loads row "pockets"
                    ++ constraint_items json_loads row "contacts")%list with
             | [] => None
             | items => Some (PList items)
             end)
  /\ outcome (WriteYamls.main json_loads open_error (before ++ row :: after)%list)
     = outcome (WriteYamls.main json_loads open_error
                  (before ++ Dict.set "bonds" NaN row :: after)%list)
  /\ (forall r, row_ok r = true -> retained_cols r = [] ->
                exists doc,
                  outcome (process_row json_loads r) = Ok doc
                  /\ Dict.get "sequences" doc = None
                  /\ outcome (yaml_filename r doc) = Ok (document_name r)
                  /\ outcome (write_row json_loads open_error r)
                     = match open_error (document_name r) with
                       | Some e => Raise e
                       | None => Ok (document_name r, doc)
                       end)
  /\ (forall df, List.forallb row_ok df = true ->
                 List.forallb (opens open_error) df = true ->
                 exists docs,
                   outcome (WriteYamls.main json_loads open_error df) = Ok docs
                   /\ map fst docs = map document_name df)
  /\ (forall rows_before r rows_after e,
        List.forallb row_ok rows_before = true ->
        List.forallb (opens open_error) rows_before = true ->
        row_ok r = true ->
        open_error (document_name r) = Some e ->
        outcome (WriteYamls.main json_loads open_error (rows_before ++ r :: rows_after)%list)
        = Raise e).
Proof.
  intros Hbonds Hblank Hbad. split; [|split; [|split; [|split; [|split]]]].
  - symmetry. now apply (process_row_same json_loads row s).
  - intros Hok. eexists. split; [apply (process_row_ok json_loads row Hok)|].
    rewrite get_set_nonempty_other by discriminate.
    assert (Hb : constraint_items json_loads row "bonds" = []).
    { unfold constraint_items, payload_text. now rewrite Hbonds, Hblank, Hbad. }
    unfold constraint_keys. cbn [flat_map]. rewrite Hb, List.app_nil_r. cbn [app].
    destruct (constraint_items json_loads row "pockets"
              ++ constraint_items json_loads row "contacts")%list as [|c cs] eqn:E.
    + cbn [set_nonempty]. now rewrite get_set_nonempty_other by discriminate.
    + cbn [set_nonempty]. apply get_set_same.
  - unfold WriteYamls.main. apply outcome_mapM_congr.
    apply Forall2_app; [induction before; now constructor|].
    constructor; [|induction after; now constructor].
    symmetry. now apply (write_row_same json_loads row s).
  - intros r Hr Hnone.
    pose proof (proj1 (row_ok_parts r Hr)) as Htyped.
    pose proof (process_row_ok json_loads r Htyped) as Hdoc.
    eexists. split; [exact Hdoc|]. split; [|split].
    + rewrite Hnone. rewrite !get_set_nonempty_other by discriminate. reflexivity.
    + now apply (yaml_filename_ok json_loads).
    + now apply write_row_outcome.
  - apply main_ok.
  - intros rows_before r rows_after e Hrows Hopen Hr He.
    apply main_stops_at; [assumption|assumption|].
    pose proof (proj1 (row_ok_parts r Hr)) as Htyped.
    now rewrite (write_row_outcome json_loads open_error r _ Hr
                   (process_row_ok json_loads r Htyped)), He.
Qed.

Lemma malformed_bonds_are_row_local_witness :
  (exists doc,
     outcome (process_row sample_loads sample_row) = Ok doc
     /\ Dict.get "constraints" doc
        = Some (PList [PDict [("pocket", PJson (JNum 1))];
                       PDict [("pocket", PJson (JNum 2))];
                       PDict [("contact", PJson (JNum 3))]]))
  /\ outcome (WriteYamls.main sample_loads flat_folder [empty_row; sample_row; empty_row])
     = outcome (WriteYamls.main sample_loads flat_folder
                  [empty_row; Dict.set "bonds" NaN sample_row; empty_row])
  /\ (exists docs,
        outcome (WriteYamls.main sample_loads flat_folder [empty_row; sample_row]) = Ok docs
        /\ map fst docs = [".yaml"; "job1.yaml"])
  /\ outcome (WriteYamls.main sample_loads flat_folder [empty_row; nested_row; sample_row])
     = Raise (OtherError "FileNotFoundError").
Proof.
  destruct (malformed_bonds_are_row_local sample_loads flat_folder [empty_row] [empty_row]
              sample_row "[oops" eq_refl eq_refl eq_refl)
    as (_ & Hdoc & Hbatch & _ & Hall & Hstop).
  split; [exact (Hdoc eq_refl)|]. split; [exact Hbatch|]. split.
  - exact (Hall [empty_row; sample_row] eq_refl eq_refl).
  - exact (Hstop [empty_row] nested_row [sample_row] _ eq_refl eq_refl eq_refl eq_refl).
Defined.

(** C9 as stated fails on rows without any entity: a fold name or a bonds cell
    that is a number raises [AttributeError], and a fold name that leads into a
    folder that is not there cannot be opened; each ends the batch before the
    rows after it are written. *)
Lemma zero_entity_rows_abort_the_batch :
  retained_cols numbered_row = []
  /\ outcome (process_row sample_loads numbered_row) = Ok []
  /\ outcome (WriteYamls.main sample_loads always_open [numbered_row; sample_row])
     = Raise AttributeError
  /\ retained_cols numbered_bonds_row = []
  /\ outcome (process_row sample_loads numbered_bonds_row) = Raise AttributeError
  /\ outcome (WriteYamls.main sample_loads always_open [numbered_bonds_row; sample_row])
     = Raise AttributeError
  /\ retained_cols nested_row = []
  /\ outcome (process_row sample_loads nested_row) = Ok []
  /\ outcome (WriteYamls.main sample_loads flat_folder [nested_row; sample_row])
     = Raise (OtherError "FileNotFoundError").
Proof. repeat split. Qed.

(** ** Sample evaluations *)

Example str_replace_all : Str.replace "a.yaml.yaml" ".yaml" "" = "a".
Proof. reflexivity. Qed.

Example str_split_commas : Str.split "," "A,B" = ["A"; "B"] /\ Str.split "," "A" = ["A"].
Proof. split; reflexivity. Qed.

Example str_rstrip_plural :
  map (Str.rstrip "s") constraint_keys = ["bond"; "pocket"; "contact"].
Proof. reflexivity. Qed.

Example str_splitext_dots :
  Str.splitext "..yaml" = ("..yaml", "") /\ Str.splitext "a.b.yml" = ("a.b", ".yml").
Proof. split; reflexivity. Qed.

Example glob_patterns :
  Glob.fnmatch "confidence_J_model_0.json" "confidence_J_model_*.json" = true
  /\ Glob.fnmatch "confidence_J_model_0.jso" "confidence_J_model_*.json" = false
  /\ Glob.fnmatch "ax.c" "a[!a-c0]?[b-d]" = true
  /\ Glob.fnmatch "ab.c" "a[!a-c0]?[b-d]" = false.
Proof. repeat split; reflexivity. Qed.

Example model_idx_samples :
  model_idx "confidence_J_model_12.json" = "12" /\ model_idx "confidence_J_model_x.json" = "?".
Proof. split; reflexivity. Qed.

Example extract_replicate_number_samples :
  extract_replicate_number "Foo_rep12.yaml" = 12%N
  /\ extract_replicate_number "Foo.yaml" = 1%N.
Proof. split; reflexivity. Qed.

Example round2_samples :
  map PyFloat.round2 PyFloat.sample_times = PyFloat.sample_rounded.
Proof. reflexivity. Qed.

Example sorted_by_is_stable :
  sorted_by entity_number ["entity_10_type"; "entity_2_type"; "entity_02_type"; "entity_1_type"]
  = ["entity_1_type"; "entity_2_type"; "entity_02_type"; "entity_10_type"].
Proof. reflexivity. Qed.

Example sample_row_document :
  outcome (process_row sample_loads sample_row)
  = Ok [("sequences",
         PList [PDict [("protein",
                        PDict [("id", PFlow ["A"; "B"]);
                               ("sequence", PCell (CStr "MKV"))])]]);
        ("constraints",
         PList [PDict [("pocket", PJson (JNum 1))];
                PDict [("pocket", PJson (JNum 2))];
                PDict [("contact", PJson (JNum 3))]])].
Proof. reflexivity. Qed.

Example empty_row_document :
  outcome (WriteYamls.main sample_loads always_open [empty_row]) = Ok [(".yaml", [])].
Proof. reflexivity. Qed.

(** * Further properties *)

(** ** Text, continued *)

Lemma rpartition_none (c : ascii) (s : string) :
  Str.rpartition c s = None -> Str.lacks c s = true.
Proof.
  unfold Str.lacks. induction s as [|d s IH]; cbn [Str.rpartition Str.forallb]; [reflexivity|].
  destruct (Str.rpartition c s) as [[a b]|]; [discriminate|].
  destruct (Ascii.eqb d c); [discriminate|]. intros _. now rewrite IH.
Qed.

Lemma rpartition_some (c : ascii) (s a b : string) :
  Str.rpartition c s = Some (a, b) -> s = a ++ String c b /\ Str.lacks c b = true.
Proof.
  revert a; induction s as [|d s IH]; intros a; cbn [Str.rpartition]; [discriminate|].
  destruct (Str.rpartition c s) as [[a' b']|] eqn:E.
  - intros [= <- <-]. destruct (IH a' eq_refl) as [-> Hb]. now split.
  - destruct (Ascii.eqb_spec d c); [|discriminate]. intros [= <- <-]. subst d.
    split; [reflexivity|]. now apply rpartition_none.
Qed.

Lemma endswith_append (a suf : string) : Str.endswith (a ++ suf) suf = true.
Proof.
  induction a as [|c a IH].
  - destruct suf; cbn [append Str.endswith]; now rewrite String.eqb_refl.
  - cbn [append Str.endswith]. rewrite IH. apply orb_true_r.
Qed.



(** A text that starts with a character foreign to [old] is no place for [old]
    to start, and no occurrence of [old] runs over it. *)
Lemma startswith_foreign (old a b : string) (c : ascii) :
  Str.lacks c old = true ->
  Str.startswith (a ++ String c b) old = Str.startswith a old.
Proof.
  unfold Str.startswith, Str.lacks.
  revert a; induction old as [|o old IH]; intros a H; [now destruct a|].
  cbn [Str.forallb] in H. apply andb_prop in H as [Ho H].
  destruct a as [|x a]; cbn [append Str.strip_prefix].
  - now destruct (Ascii.eqb o c).
  - destruct (Ascii.eqb o x); [now apply IH|reflexivity].
Qed.

Lemma contains_foreign (old a b : string) (c : ascii) :
  Str.lacks c old = true ->
  Str.contains old (a ++ String c b) = Str.contains old a || Str.contains old (String c b).
Proof.
  intros H. induction a as [|x a IH].
  - cbn [append]. destruct (Str.contains old "") eqn:E; [|reflexivity].
    cbn [Str.contains] in E. rewrite orb_false_r in E. cbn [orb].
    destruct old; [reflexivity|discriminate].
  - change (String x a ++ String c b) with (String x (a ++ String c b)).
    cbn [Str.contains]. rewrite IH.
    change (String x (a ++ String c b)) with (String x a ++ String c b).
    rewrite (startswith_foreign old (String x a) b c H). now rewrite orb_assoc.
Qed.

Lemma contains_lacks_head (c : ascii) (old s : string) :
  Str.lacks c s = true -> Str.contains (String c old) s = false.
Proof.
  unfold Str.lacks. induction s as [|d s IH]; cbn [Str.forallb Str.contains]; [reflexivity|].
  intros H. apply andb_prop in H as [Hd Hs]. rewrite (IH Hs), orb_false_r.
  unfold Str.startswith. cbn [Str.strip_prefix]. rewrite Ascii.eqb_sym.
  now destruct (Ascii.eqb d c).
Qed.

(** [old], whose first character occurs in it only once, does not start in a
    text and end in a copy of itself put after the text. *)
Lemma startswith_no_overlap (c : ascii) (old s t : string) :
  Str.lacks c old = true -> s <> "" ->
  Str.startswith (s ++ String c t) (String c old) = Str.startswith s (String c old).
Proof.
  intros Hold Hs. destruct s as [|x s]; [congruence|].
  pose proof (startswith_foreign old s t c Hold) as H. revert H.
  unfold Str.startswith. cbn [append Str.strip_prefix].
  now destruct (Ascii.eqb c x).
Qed.

Lemma replace_absent (old new s : string) :
  Str.contains old s = false -> Str.replace s old new = s.
Proof.
  unfold Str.replace. induction s as [|c s IH]; [reflexivity|].
  cbn [Str.contains Str.replace_from]. intros H. apply orb_false_elim in H as [H1 H2].
  rewrite H1. now rewrite IH.
Qed.

Lemma replace_skip (old new u b : string) :
  Str.replace_from old new (String.length u) (u ++ b) = Str.replace_from old new 0 b.
Proof.
  induction u as [|c u IH]; [reflexivity|]. cbn [String.length append].
  destruct b; cbn [Str.replace_from]; exact IH || (cbn [Str.replace_from] in IH; exact IH).
Qed.

(** The leftmost occurrence of [old] is replaced and the replacement goes on
    after it. *)
Lemma replace_first (c : ascii) (old new a b : string) :
  Str.lacks c old = true -> Str.contains (String c old) a = false ->
  Str.replace (a ++ String c old ++ b) (String c old) new
  = a ++ new ++ Str.replace b (String c old) new.
Proof.
  unfold Str.replace. intros Hold. induction a as [|x a IH]; intros Ha.
  - change ("" ++ String c old ++ b) with (String c (old ++ b)). cbn [Str.replace_from].
    change (String c (old ++ b)) with (String c old ++ b).
    rewrite (startswith_append (String c old) b).
    replace (String.length (String c old) - 1) with (String.length old)
      by (cbn [String.length]; lia).
    now rewrite replace_skip.
  - cbn [Str.contains] in Ha. apply orb_false_elim in Ha as [H1 H2].
    change ((String x a ++ String c old ++ b)) with (String x (a ++ String c old ++ b)).
    cbn [Str.replace_from].
    change (String x (a ++ String c old ++ b)) with (String x a ++ String c (old ++ b)).
    rewrite (startswith_no_overlap c old (String x a) (old ++ b) Hold) by discriminate.
    rewrite H1. cbn [append]. f_equal. now apply IH.
Qed.

(** ** aggregate_job.py: the job identifier *)

Lemma contains_yaml_rep (stem ds : string) :
  Str.forallb Str.is_digit ds = true ->
  Str.contains ".yaml" (stem ++ "_rep" ++ ds) = Str.contains ".yaml" stem.
Proof.
  intros Hd. change (stem ++ "_rep" ++ ds) with (stem ++ String "_" ("rep" ++ ds)).
  rewrite contains_foreign by reflexivity.
  rewrite (contains_lacks_head "." "yaml" (String "_" ("rep" ++ ds))); [apply orb_false_r|].
  change (String "_" ("rep" ++ ds)) with ("_rep" ++ ds).
  now rewrite lacks_append, (digit_lacks "." ds eq_refl Hd).
Qed.

(** X1.  The job identifier is the file name with every occurrence of [.yaml]
    taken out, wherever it stands: a name that holds none is its own job
    identifier, the leftmost occurrence goes and the rest of the name is treated
    in the same way; so the replicate [<stem>_rep<k>.yaml] of a document whose
    stem holds no [.yaml] has the job identifier [<stem>_rep<k>], and its results
    are looked for in [boltz_results_<stem>_rep<k>/predictions/<stem>_rep<k>]
    under the predictions folder. *)
Theorem job_id_strips_every_yaml (args : AggregateJob.Args) (a b : string) (k : nat) :
  Str.contains ".yaml" a = false ->
  job_id_of a = a
  /\ job_id_of (a ++ ".yaml" ++ b) = a ++ job_id_of b
  /\ job_id_of (a ++ ".yaml") = a
  /\ job_id_of (a ++ "_rep" ++ Str.of_nat k ++ ".yaml") = a ++ "_rep" ++ Str.of_nat k
  /\ pred_folder args (job_id_of (a ++ "_rep" ++ Str.of_nat k ++ ".yaml"))
     = [predictions_dir args; "boltz_results_" ++ a ++ "_rep" ++ Str.of_nat k;
        "predictions"; a ++ "_rep" ++ Str.of_nat k].
Proof.
  intros Ha.
  assert (H2 : forall a' b', Str.contains ".yaml" a' = false ->
                             job_id_of (a' ++ ".yaml" ++ b') = a' ++ job_id_of b').
  { intros a' b' Ha'. unfold job_id_of.
    now rewrite (replace_first "." "yaml" "" a' b' eq_refl Ha'). }
  assert (H3 : forall a', Str.contains ".yaml" a' = false -> job_id_of (a' ++ ".yaml") = a').
  { intros a' Ha'. rewrite <- (append_nil_r (a' ++ ".yaml")), append_assoc.
    rewrite (H2 a' "" Ha'). apply append_nil_r. }
  assert (H4 : job_id_of (a ++ "_rep" ++ Str.of_nat k ++ ".yaml")
               = a ++ "_rep" ++ Str.of_nat k).
  { replace (a ++ "_rep" ++ Str.of_nat k ++ ".yaml")
      with ((a ++ "_rep" ++ Str.of_nat k) ++ ".yaml") by now rewrite !append_assoc.
    apply H3. now rewrite contains_yaml_rep by apply of_nat_digits. }
  split; [now apply replace_absent|]. split; [now apply H2|]. split; [now apply H3|].
  split; [exact H4|]. unfold pred_folder. now rewrite H4.
Qed.

Lemma job_id_strips_every_yaml_witness :
  job_id_of "Foo_rep2.yml" = "Foo_rep2.yml"
  /\ job_id_of "Foo_rep2.yaml" = "Foo_rep2"
  /\ job_id_of ("v1" ++ ".yaml" ++ ".bak.yaml") = "v1" ++ job_id_of ".bak.yaml".
Proof.
  split; [exact (proj1 (job_id_strips_every_yaml example_args "Foo_rep2.yml" "" 0 eq_refl))|].
  split.
  - exact (proj1 (proj2 (proj2 (proj2
             (job_id_strips_every_yaml example_args "Foo" "" 2 eq_refl))))).
  - exact (proj1 (proj2 (job_id_strips_every_yaml example_args "v1" ".bak.yaml" 0 eq_refl))).
Defined.

(** ** aggregate_job.py: the model index *)



(** X2.  The model index of a file named [<anything>_model_<digits>.json] is
    [<digits>], whatever comes before: the pattern is searched from the left but
    is tied to the end of the name, so an earlier [_model_<n>.json] inside the
    name is not taken. *)
Theorem model_idx_of_model_file (pre ds : string) :
  Str.forallb Str.is_digit ds = true -> ds <> "" ->
  model_idx (pre ++ "_model_" ++ ds ++ ".json") = ds
  /\ model_key (pre ++ "_model_" ++ ds ++ ".json") "ptm" = "ptm_model_" ++ ds.
Proof.
  intros Hd Hne. unfold model_key. now rewrite model_idx_file.
Qed.

Lemma model_idx_of_model_file_witness :
  model_idx ("confidence_a_model_7.json_model_" ++ "12" ++ ".json") = "12".
Proof.
  exact (proj1 (model_idx_of_model_file "confidence_a_model_7.json" "12" eq_refl
                  ltac:(discriminate))).
Defined.

(** ** run_boltz.py: the replicate number *)

Lemma strip_prefix_split (p a t u : string) :
  Str.strip_prefix p (a ++ t) = Some u ->
  (exists u', Str.strip_prefix p a = Some u' /\ u = u' ++ t)
  \/ (exists p2, p = a ++ p2 /\ p2 <> "" /\ Str.strip_prefix p2 t = Some u).
Proof.
  revert a; induction p as [|o p IH]; intros a H.
  - left. exists a. split; [now destruct a|]. cbn [Str.strip_prefix] in H.
    destruct (a ++ t); now injection H.
  - destruct a as [|x a].
    + right. exists (String o p). now repeat split.
    + cbn [append Str.strip_prefix] in *. destruct (Ascii.eqb_spec o x); [|discriminate].
      subst x. destruct (IH a H) as [(u' & E & ->)|(p2 & -> & Hp & E)].
      * left. now exists u'.
      * right. now exists p2.
Qed.

Lemma rep_here_exact (ds rest : string) :
  Str.forallb Str.is_digit ds = true -> ds <> "" ->
  Str.span Str.is_digit rest = ("", rest) ->
  rep_here ("_rep" ++ ds ++ rest) = Some ds.
Proof.
  intros Hd Hne Hr. unfold rep_here.
  rewrite strip_prefix_append, (span_append _ ds rest Hd Hr).
  destruct ds; [congruence|reflexivity].
Qed.

(** No occurrence of the pattern starts in a text and ends in a [_rep] made to
    follow it. *)
Lemma rep_here_before (a t : string) :
  a <> "" -> rep_here a = None -> rep_here (a ++ "_rep" ++ t) = None.
Proof.
  intros Ha H. unfold rep_here in *.
  destruct (Str.strip_prefix "_rep" (a ++ "_rep" ++ t)) as [u|] eqn:E; [|reflexivity].
  apply strip_prefix_split in E as [(u' & E & ->)|(p2 & Ep & Hp & E)].
  - rewrite E in H. destruct u' as [|y u']; [reflexivity|].
    cbn [append Str.span] in *. destruct (Str.is_digit y); [|reflexivity].
    destruct (Str.span Str.is_digit u'). discriminate.
  - exfalso. destruct a as [|a1 [|a2 [|a3 [|a4 a]]]]; [congruence| | | |];
      cbn [append] in Ep; injection Ep as <-; intros; subst; try discriminate.
    destruct a; [|discriminate]. cbn [append] in *. congruence.
Qed.

Lemma search_rep_none (c : ascii) (s : string) :
  search_rep (String c s) = None -> rep_here (String c s) = None /\ search_rep s = None.
Proof.
  cbn [search_rep]. destruct (rep_here (String c s)); [discriminate|]. now split.
Qed.

Lemma search_rep_here (s ds : string) : rep_here s = Some ds -> search_rep s = Some ds.
Proof. intros H. destruct s; cbn [search_rep]; now rewrite H. Qed.

(** The first [_rep<digits>] of a name is the one after a part that has none. *)
Lemma search_rep_first (a ds rest : string) :
  search_rep a = None ->
  Str.forallb Str.is_digit ds = true -> ds <> "" ->
  Str.span Str.is_digit rest = ("", rest) ->
  search_rep (a ++ "_rep" ++ ds ++ rest) = Some ds.
Proof.
  intros Ha Hd Hne Hr. induction a as [|c a IH].
  - apply search_rep_here. now apply rep_here_exact.
  - apply search_rep_none in Ha as [H1 H2].
    change (String c a ++ "_rep" ++ ds ++ rest) with (String c (a ++ "_rep" ++ ds ++ rest)).
    cbn [search_rep].
    change (String c (a ++ "_rep" ++ ds ++ rest)) with (String c a ++ "_rep" ++ ds ++ rest).
    rewrite (rep_here_before (String c a) (ds ++ rest)) by (discriminate || assumption).
    now apply IH.
Qed.

Lemma rep_here_startswith (s ds : string) :
  rep_here s = Some ds -> Str.startswith s "_rep" = true.
Proof.
  unfold rep_here, Str.startswith.
  now destruct (Str.strip_prefix "_rep" s).
Qed.

Lemma search_rep_contains (s ds : string) :
  search_rep s = Some ds -> Str.contains "_rep" s = true.
Proof.
  induction s as [|c s IH].
  - cbn [search_rep]. destruct (rep_here "") eqn:E; [|discriminate]. discriminate E.
  - cbn [search_rep Str.contains]. destruct (rep_here (String c s)) eqn:E.
    + intros _. now rewrite (rep_here_startswith _ _ E).
    + intros H. rewrite (IH H). apply orb_true_r.
Qed.




(** X3.  The replicate number read from a name is the number after the first
    [_rep] that digits follow, leading zeros not counting, and 1 when the name
    holds no [_rep]. *)
Theorem replicate_number_first_match (a ds rest name : string) :
  search_rep a = None ->
  Str.forallb Str.is_digit ds = true -> ds <> "" ->
  Str.span Str.is_digit rest = ("", rest) ->
  Str.contains "_rep" name = false ->
  extract_replicate_number (a ++ "_rep" ++ ds ++ rest) = Str.int ds
  /\ extract_replicate_number name = 1%N.
Proof.
  intros Ha Hd Hne Hr Hname. unfold extract_replicate_number. split.
  - now rewrite search_rep_first.
  - destruct (search_rep name) as [ds'|] eqn:E; [|reflexivity].
    apply search_rep_contains in E. congruence.
Qed.

Lemma replicate_number_first_match_witness :
  extract_replicate_number ("run" ++ "_rep" ++ "007" ++ "_rep2.yaml") = 7%N
  /\ extract_replicate_number "report.yaml" = 1%N.
Proof.
  exact (replicate_number_first_match "run" "007" "_rep2.yaml" "report.yaml"
           eq_refl eq_refl ltac:(discriminate) eq_refl eq_refl).
Defined.

(** X4.  The replicate number round trip: the number the Runner reads from the
    name the Replicator gave to the [k]-th copy of a document is [k], when the
    stem of the document holds no [_rep<digits>] of its own; when it holds one,
    that one is read instead. *)
Theorem replicate_number_round_trip (stem ext : string) (k : nat) :
  ext = "yaml" \/ ext = "yml" ->
  Str.forallb (Ascii.eqb ".") stem = false ->
  (search_rep stem = None ->
   extract_replicate_number (replicate_name (stem ++ String "." ext) k) = N.of_nat k)
  /\ (forall a ds rest,
         stem = a ++ "_rep" ++ ds ++ rest -> search_rep a = None ->
         Str.forallb Str.is_digit ds = true -> ds <> "" ->
         Str.span Str.is_digit rest = ("", rest) ->
         extract_replicate_number (replicate_name (stem ++ String "." ext) k) = Str.int ds).
Proof.
  intros He Hs. rewrite (replicate_name_shape stem ext k He Hs). split.
  - intros Hnone. unfold extract_replicate_number.
    rewrite search_rep_first; [apply int_of_nat|assumption|apply of_nat_digits| |].
    + apply of_nat_nonempty.
    + destruct He as [->| ->]; reflexivity.
  - intros a ds rest -> Ha Hd Hne Hr. unfold extract_replicate_number.
    rewrite !append_assoc.
    rewrite search_rep_first; try assumption; [reflexivity|].
    destruct rest as [|c rest]; [reflexivity|].
    cbn [append Str.span] in *.
    destruct (Str.is_digit c); [|reflexivity].
    destruct (Str.span Str.is_digit rest). discriminate Hr.
Qed.

Lemma replicate_number_round_trip_witness :
  extract_replicate_number (replicate_name "Foo.yaml" 3) = 3%N.
Proof.
  exact (proj1 (replicate_number_round_trip "Foo" "yaml" 3 (or_introl eq_refl) eq_refl)
           eq_refl).
Defined.

(** ** From the document name to the join key *)


(** The name of a document is a base followed by [.yaml]; the base is the fold
    name when the row has one. *)
Lemma yaml_filename_shape (row : Dict.t cell) (doc : Dict.t pyval) (name : string) :
  outcome (yaml_filename row doc) = Ok name ->
  exists base, name = base ++ ".yaml"
               /\ forall s, payload_text row "foldname" = Some s -> base = s.
Proof.
  unfold yaml_filename. intros H.
  apply outcome_bind_ok in H as (foldname & Hf & H).
  apply outcome_bind_ok in H as (base & Hb & H).
  injection H as <-. exists base. split; [reflexivity|].
  intros s Hs. unfold payload, payload_text in *.
  destruct (Dict.get "foldname" row) as [[|t| | |]|]; try discriminate.
  destruct (Str.blank t); [discriminate|]. injection Hs as ->. injection Hf as <-.
  now injection Hb.
Qed.

(** X5.  The names agree along the pipeline.  The Encoder names a document
    [<base>.yaml], with the fold name as base when the row has one; the
    Aggregator takes [<base>] as the base identifier of that experiment row.
    When the base has no line feed and is not made of dots only, the Replicator
    names the [k]-th copy [<base>_rep<k>.yaml], which the Runner takes as a job
    file, and the Aggregator gives the run record of that copy the base
    identifier [<base>] again: the record joins its experiment row. *)
Theorem document_names_join (row : Dict.t cell) (doc : Dict.t pyval) (name : string) :
  outcome (yaml_filename row doc) = Ok name ->
  exists base,
    name = base ++ ".yaml"
    /\ (forall s, payload_text row "foldname" = Some s -> base = s)
    /\ is_yaml_name name = true
    /\ (forall y, cell_of "yaml_file" y = CStr name -> yaml_base y = CStr base)
    /\ (Str.lacks Str.nl base = true -> Str.forallb (Ascii.eqb ".") base = false ->
        forall k y b,
          cell_of "yaml_file" y = CStr name ->
          filename_of b = CStr (replicate_name name k) ->
          replicate_name name k = base ++ "_rep" ++ Str.of_nat k ++ ".yaml"
          /\ is_yaml_name (replicate_name name k) = true
          /\ boltz_base b = CStr base
          /\ cell_eqb (boltz_base b) (yaml_base y) = true).
Proof.
  intros H. apply yaml_filename_shape in H as (base & -> & Hfold).
  exists base. split; [reflexivity|]. split; [exact Hfold|].
  assert (Hy : forall y, cell_of "yaml_file" y = CStr (base ++ ".yaml") ->
                         yaml_base y = CStr base).
  { intros y E. unfold yaml_base. now rewrite E, yaml_strip_exact. }
  split; [unfold is_yaml_name; now rewrite endswith_append|]. split; [exact Hy|].
  intros Hnl Hdots k y b Ey Eb.
  pose proof (replicate_name_shape base "yaml" k (or_introl eq_refl) Hdots) as Hn.
  change (base ++ String "." "yaml") with (base ++ ".yaml") in Hn.
  change (String "." "yaml") with ".yaml" in Hn.
  assert (Hb : boltz_base b = CStr base).
  { unfold boltz_base, extract_base_name. rewrite Eb, Hn.
    rewrite match_rep_exact; [reflexivity|assumption|apply of_nat_digits|apply of_nat_nonempty]. }
  split; [exact Hn|]. split.
  - rewrite Hn. unfold is_yaml_name.
    replace (base ++ "_rep" ++ Str.of_nat k ++ ".yaml")
      with ((base ++ "_rep" ++ Str.of_nat k) ++ ".yaml") by now rewrite !append_assoc.
    now rewrite endswith_append.
  - split; [exact Hb|]. rewrite Hb, (Hy y Ey). apply cell_eqb_refl.
Qed.

Lemma document_names_join_witness :
  exists base,
    "job1.yaml" = base ++ ".yaml"
    /\ (forall y, cell_of "yaml_file" y = CStr "job1.yaml" -> yaml_base y = CStr base).
Proof.
  destruct (document_names_join sample_row [] "job1.yaml" eq_refl)
    as (base & Hname & _ & _ & Hy & _).
  exists base. split; [exact Hname | exact Hy].
Defined.

(** ** run_boltz.py: the time limit *)


(** X6.  The time limit.  A maximum time that is absent or zero sets no limit:
    the tool is called without a timeout, and the whole run is the run without
    the option.  A maximum time [t] that is not zero is passed as the float
    product [t * 60] in seconds, and a job that runs into it is recorded with
    that product rounded to two decimals as Python rounds a float, whatever the
    clock measured. *)
Theorem zero_max_time_sets_no_limit (env : Env) (args : RunBoltz.Args)
  (t : PyFloat.float) (input_dir : Dict.t entry) (job_file : string) :
  max_time args = Some t ->
  (PyFloat.nonzero t = false ->
   timeout_of args = None
   /\ RunBoltz.main env args input_dir
      = RunBoltz.main env {| max_time := None; num_replicates := num_replicates args |}
                      input_dir)
  /\ (PyFloat.nonzero t = true ->
      timeout_of args = Some (PyFloat.times60 t)
      /\ (proc (env job_file (Some (PyFloat.times60 t))) = TimeoutExpired ->
          outcome (run_job env args job_file)
          = Ok {| filename := job_file;
                  replicate := extract_replicate_number job_file;
                  processing_time_sec := PyFloat.round2 (PyFloat.times60 t) |})).
Proof.
  intros Ht. split; intros Hz.
  - assert (Hset : max_time_set args = None).
    { unfold max_time_set. now rewrite Ht, Hz. }
    split; [unfold timeout_of; now rewrite Hset|].
    unfold RunBoltz.main, open_records, out_dir_ready, run_job, timeout_of.
    now rewrite Hset.
  - assert (Hset : max_time_set args = Some t).
    { unfold max_time_set. now rewrite Ht, Hz. }
    split; [unfold timeout_of; now rewrite Hset|].
    intros Hp. unfold run_job, timeout_of. rewrite Hset. cbn [option_map]. rewrite Hp.
    rewrite outcome_bind, outcome_bind. reflexivity.
Qed.

Lemma zero_max_time_sets_no_limit_witness :
  (timeout_of zero_limit = None
   /\ RunBoltz.main env_success zero_limit sample_dir
      = RunBoltz.main env_success sample_args sample_dir)
  /\ outcome (run_job mixed_env short_limit "c_rep1.yaml") = Ok capped_record.
Proof.
  split.
  - exact (proj1 (zero_max_time_sets_no_limit env_success zero_limit _ sample_dir
                    "J_rep1.yaml" eq_refl) eq_refl).
  - exact (proj2 (proj2 (zero_max_time_sets_no_limit mixed_env short_limit _ sample_dir
                           "c_rep1.yaml" eq_refl) eq_refl) eq_refl).
Defined.

(** ** run_boltz.py: a tool that cannot be run *)


(** X7.  A call of the tool that ends in another way than an exit status or the
    expiry of the time limit (the tool cannot be started, for instance) is not
    caught: the run stops at the first such job with that exception, after the
    jobs before it have been run, and no record is returned, not even for the
    jobs that ran. *)
Theorem tool_error_stops_the_batch (env : Env) (args : RunBoltz.Args)
  (input_dir dir : Dict.t entry) (before after : list string) (job name : string) :
  outcome (duplicate_yaml_files input_dir (num_replicates args)) = Ok dir ->
  job_files env dir = (before ++ job :: after)%list ->
  List.forallb (handled env args) before = true ->
  proc (env job (timeout_of args)) = ProcessError name ->
  outcome (run_job env args job) = Raise (OtherError name)
  /\ outcome (RunBoltz.main env args input_dir) = Raise (OtherError name).
Proof.
  intros Hdup Hjobs Hbefore Hproc.
  assert (Hjob : outcome (run_job env args job) = Raise (OtherError name)).
  { unfold run_job. now rewrite Hproc, outcome_bind. }
  split; [exact Hjob|].
  unfold RunBoltz.main. rewrite outcome_bind, Hdup, outcome_bind. cbn [outcome print fst].
  rewrite outcome_bind, Hjobs.
  rewrite (outcome_mapM_stops _ (record_of env args) before after job (OtherError name));
    [reflexivity| |exact Hjob].
  intros y Hy. apply run_job_record. rewrite List.forallb_forall in Hbefore. now apply Hbefore.
Qed.

Lemma tool_error_stops_the_batch_witness :
  outcome (RunBoltz.main env_no_tool sample_args sample_dir)
  = Raise (OtherError "PermissionError").
Proof.
  exact (proj2 (tool_error_stops_the_batch
                  env_no_tool sample_args sample_dir
                  [("J.yaml", File "version: 1");
                   ("replicates", Dir [("J_rep1.yaml", File "version: 1")])]
                  [] [] "J_rep1.yaml" "PermissionError" eq_refl eq_refl eq_refl eq_refl)).
Defined.

(** ** run_boltz.py: the replicator, run again *)

Lemma set_get_same {V} (k : string) (v : V) (d : Dict.t V) :
  Dict.get k d = Some v -> Dict.set k v d = d.
Proof.
  induction d as [|[k0 v0] d IH]; cbn [Dict.get Dict.set]; [discriminate|].
  destruct (String.eqb_spec k k0).
  - intros [= ->]. now subst.
  - intros H. now rewrite IH.
Qed.

Lemma set_set {V} (k : string) (v v' : V) (d : Dict.t V) :
  Dict.set k v (Dict.set k v' d) = Dict.set k v d.
Proof.
  induction d as [|[k0 v0] d IH]; cbn [Dict.set].
  - now rewrite String.eqb_refl.
  - destruct (String.eqb_spec k k0); cbn [Dict.set].
    + now rewrite String.eqb_refl.
    + destruct (String.eqb_spec k k0); [contradiction|]. now rewrite IH.
Qed.

(** Writing every entry a second time changes nothing. *)
Lemma update_twice {V} (W d : Dict.t V) :
  NoDup (map fst W) -> Dict.update (Dict.update d W) W = Dict.update d W.
Proof.
  intros Hnd.
  assert (H : forall W', incl W' W ->
                Dict.update (Dict.update d W) W' = Dict.update d W).
  { induction W' as [|[k v] W' IH]; intros Hin; [reflexivity|].
    rewrite update_cons. cbn [fst snd].
    rewrite set_get_same.
    - apply IH. intros x Hx. apply Hin. now right.
    - apply get_update_in; [assumption|]. apply Hin. now left. }
  apply H. apply incl_refl.
Qed.

Lemma yaml_files_set_dir (k : string) (new : Dict.t entry) (d : Dict.t entry) :
  match Dict.get k d with Some (File _) => False | _ => True end ->
  yaml_files (Dict.set k (Dir new) d) = yaml_files d.
Proof.
  induction d as [|[k0 e0] d IH]; cbn [Dict.get Dict.set]; [reflexivity|].
  destruct (String.eqb_spec k k0).
  - subst. destruct e0; [contradiction|reflexivity].
  - intros H. cbn [yaml_files flat_map]. f_equal. now apply IH.
Qed.

Lemma replicates_before_only_files (input_dir : Dict.t entry) :
  replicates_ready input_dir = true -> only_files (replicates_before input_dir).
Proof.
  unfold replicates_ready, replicates_before, only_files.
  destruct (Dict.get "replicates" input_dir) as [[|old]|]; try discriminate.
  - intros H. apply Forall_forall. rewrite List.forallb_forall in H. exact H.
  - constructor.
Qed.

Lemma only_files_update (W reps : Dict.t entry) :
  only_files reps -> only_files W -> only_files (Dict.update reps W).
Proof.
  revert reps; induction W as [|[k e] W IH]; intros reps Hr HW; [assumption|].
  rewrite update_cons. inversion HW as [|? ? He HW']; subst. apply IH; [|assumption].
  cbn [fst snd] in *. destruct e; [|discriminate]. now apply only_files_set.
Qed.

Lemma expected_replicates_only_files (docs : list (string * string)) (n : Z) :
  only_files (expected_replicates docs n).
Proof.
  unfold only_files, expected_replicates. apply Forall_forall. intros [k e] H.
  apply in_flat_map in H as (file & _ & H). apply in_map_iff in H as (rep & [= <- <-] & _).
  reflexivity.
Qed.

(** What the Replicator leaves, for a replicates directory that is absent or
    holds files only. *)
Lemma duplicate_yaml_files_ready (input_dir : Dict.t entry) (n : Z) :
  replicates_ready input_dir = true ->
  outcome (duplicate_yaml_files input_dir n)
  = Ok (Dict.set "replicates"
          (Dir (Dict.update (replicates_before input_dir)
                  (expected_replicates (yaml_files input_dir) n)))
          input_dir).
Proof.
  intros Hready. pose proof (replicates_before_only_files _ Hready) as Hfiles.
  unfold duplicate_yaml_files, makedirs_replicates.
  unfold replicates_ready, replicates_before in *.
  destruct (Dict.get "replicates" input_dir) as [[|old]|] eqn:E; try discriminate.
  - rewrite bind_ret_l, E, outcome_bind, (duplicate_all_only_files n _ old Hfiles).
    reflexivity.
  - rewrite bind_ret_l, get_set_same, outcome_bind.
    rewrite yaml_files_set_dir by now rewrite E.
    rewrite (duplicate_all_only_files n _ [] Hfiles). cbn [outcome ret fst].
    now rewrite set_set.
Qed.

Lemma range1_nonpositive (n : Z) : (n <= 0)%Z -> range1 n = [].
Proof. intros H. unfold range1. now replace (Z.to_nat n) with 0 by lia. Qed.

Lemma expected_replicates_nonpositive (docs : list (string * string)) (n : Z) :
  (n <= 0)%Z -> expected_replicates docs n = [].
Proof.
  intros H. unfold expected_replicates. rewrite (range1_nonpositive n H).
  induction docs as [|d docs IH]; [reflexivity|exact IH].
Qed.

(** X8.  A replicate count of zero or less copies nothing: the replicates
    directory is created empty when it is absent and left as it is otherwise,
    and the source documents are untouched.  With a fresh directory no job is
    run: the record file is written without a record when the output folder
    exists, and the run ends with FileNotFoundError when it does not, since no
    call of the tool has made the folder. *)
Theorem no_copy_for_a_count_below_one (env : Env) (args : RunBoltz.Args)
  (input_dir : Dict.t entry) :
  (num_replicates args <= 0)%Z ->
  replicates_ready input_dir = true ->
  (Dict.get "replicates" input_dir = None ->
   outcome (duplicate_yaml_files input_dir (num_replicates args))
   = Ok (input_dir ++ [("replicates", Dir [])])%list
   /\ job_files env (input_dir ++ [("replicates", Dir [])])%list = []
   /\ (out_dir_exists env = true ->
       outcome (RunBoltz.main env args input_dir)
       = Ok ((input_dir ++ [("replicates", Dir [])])%list, []))
   /\ (out_dir_exists env = false ->
       outcome (RunBoltz.main env args input_dir) = Raise (OtherError "FileNotFoundError")))
  /\ (Dict.get "replicates" input_dir <> None ->
      outcome (duplicate_yaml_files input_dir (num_replicates args)) = Ok input_dir).
Proof.
  intros Hn Hready.
  pose proof (duplicate_yaml_files_ready input_dir (num_replicates args) Hready) as Hdup.
  rewrite (expected_replicates_nonpositive _ _ Hn) in Hdup.
  change (Dict.update (replicates_before input_dir) []) with (replicates_before input_dir)
    in Hdup.
  unfold replicates_ready, replicates_before in *.
  destruct (Dict.get "replicates" input_dir) as [[|old]|] eqn:E; try discriminate.
  - split; [discriminate|]. intros _. now rewrite Hdup, set_get_same.
  - split; [|congruence]. intros _.
    rewrite set_fresh in Hdup by now apply get_none_keys.
    assert (Hjobs : job_files env (input_dir ++ [("replicates", Dir [])])%list = []).
    { unfold job_files. now rewrite get_app, E. }
    split; [exact Hdup|]. split; [exact Hjobs|].
    pose proof (main_after_jobs env args _ _ Hdup) as Hmain.
    rewrite Hjobs in Hmain. specialize (Hmain eq_refl).
    unfold out_dir_ready in Hmain. cbn [existsb] in Hmain. rewrite orb_false_r in Hmain.
    split; intros Hout; now rewrite Hmain, Hout.
Qed.

Lemma no_copy_for_a_count_below_one_witness :
  outcome (RunBoltz.main env_success {| max_time := None; num_replicates := 0 |} sample_dir)
  = Raise (OtherError "FileNotFoundError")
  /\ outcome (RunBoltz.main (with_out_dir env_success)
                {| max_time := None; num_replicates := 0 |} sample_dir)
     = Ok ([("J.yaml", File "version: 1"); ("replicates", Dir [])], []).
Proof.
  split.
  - exact (proj2 (proj2 (proj2 (proj1 (no_copy_for_a_count_below_one env_success
                           {| max_time := None; num_replicates := 0 |} sample_dir
                           ltac:(discriminate) eq_refl) eq_refl))) eq_refl).
  - exact (proj1 (proj2 (proj2 (proj1 (no_copy_for_a_count_below_one
                           (with_out_dir env_success)
                           {| max_time := None; num_replicates := 0 |} sample_dir
                           ltac:(discriminate) eq_refl) eq_refl))) eq_refl).
Defined.

(** X9.  The Replicator can be run again: on the directory it has left, with
    the same count, it copies the same documents under the same names and the
    directory stays as it is. *)
Theorem replicator_run_again (input_dir dir : Dict.t entry) (n : Z) :
  NoDup (Dict.keys input_dir) ->
  replicates_ready input_dir = true ->
  outcome (duplicate_yaml_files input_dir n) = Ok dir ->
  yaml_files dir = yaml_files input_dir
  /\ outcome (duplicate_yaml_files dir n) = Ok dir.
Proof.
  intros Hnd Hready Hrun.
  rewrite (duplicate_yaml_files_ready input_dir n Hready) in Hrun. injection Hrun as <-.
  set (docs := yaml_files input_dir).
  set (reps := Dict.update (replicates_before input_dir) (expected_replicates docs n)).
  assert (Hdocs : yaml_files (Dict.set "replicates" (Dir reps) input_dir) = docs).
  { apply yaml_files_set_dir. unfold replicates_ready in Hready.
    now destruct (Dict.get "replicates" input_dir) as [[]|]. }
  split; [exact Hdocs|].
  assert (Hfiles : only_files reps).
  { apply only_files_update; [now apply replicates_before_only_files|].
    apply expected_replicates_only_files. }
  assert (Hready' : replicates_ready (Dict.set "replicates" (Dir reps) input_dir) = true).
  { unfold replicates_ready. rewrite get_set_same. apply List.forallb_forall.
    unfold only_files in Hfiles. rewrite Forall_forall in Hfiles. exact Hfiles. }
  rewrite (duplicate_yaml_files_ready _ n Hready'), Hdocs.
  unfold replicates_before at 1. rewrite get_set_same. fold reps.
  unfold reps at 1. rewrite update_twice.
  - fold reps. now rewrite set_set.
  - apply expected_replicates_NoDup; [now apply yaml_files_NoDup|].
    intros f c Hin. now apply yaml_files_in in Hin.
Qed.

Lemma replicator_run_again_witness :
  outcome (duplicate_yaml_files
             [("a.yaml", File "version: 1");
              ("replicates", Dir [("a_rep2.yaml", File "version: 0");
                                  ("a_rep1.yaml", File "version: 1")])] 1)
  = Ok [("a.yaml", File "version: 1");
        ("replicates", Dir [("a_rep2.yaml", File "version: 0");
                            ("a_rep1.yaml", File "version: 1")])].
Proof.
  assert (Hnd : NoDup (Dict.keys stale_dir)).
  { vm_compute. repeat constructor; cbn; intuition discriminate. }
  exact (proj2 (replicator_run_again stale_dir _ 1 Hnd eq_refl eq_refl)).
Defined.

(** ** run_boltz.py: from the copies to the records *)

Lemma has_ext_replicate (file : string) (rep : nat) :
  is_yaml_name file = true -> has_ext file = true ->
  is_yaml_name (replicate_name file rep) = true.
Proof.
  intros Hy Hext. unfold has_ext in Hext. unfold replicate_name.
  destruct (splitext_yaml file Hy) as (base & ext & E & _ & He). rewrite E in *.
  cbn [snd] in Hext. unfold is_yaml_name.
  replace (base ++ "_rep" ++ Str.of_nat rep ++ ext)
    with ((base ++ "_rep" ++ Str.of_nat rep) ++ ext) by now rewrite !append_assoc.
  destruct He as [->|[->| ->]]; [| |discriminate];
    rewrite endswith_append; [reflexivity|apply orb_true_r].
Qed.

Lemma yaml_files_all (d : Dict.t entry) :
  (forall k e, In (k, e) d -> isfile e = true /\ is_yaml_name k = true) ->
  map fst (yaml_files d) = map fst d.
Proof.
  induction d as [|[k e] d IH]; intros H; [reflexivity|].
  cbn [yaml_files flat_map fst snd map].
  destruct (H k e (or_introl eq_refl)) as [He Hk].
  destruct e; [|discriminate]. rewrite Hk. cbn [app map fst]. f_equal.
  apply IH. intros k' e' Hin. apply H. now right.
Qed.

Lemma in_keys_entry {V} (k : string) (d : Dict.t V) :
  In k (Dict.keys d) -> exists v, In (k, v) d.
Proof.
  unfold Dict.keys. intros H. apply in_map_iff in H as ([k' v] & <- & H). now exists v.
Qed.

(** X10.  From the copies to the records.  After the Replicator has run on a
    directory whose replicates folder was absent or held files only, the job
    files of the Runner are the documents of the replicates folder, in the order
    of its listing: each copy of a document whose name has an extension is one
    of them, and so is each document that was in the folder before; when every
    call of the tool is one the Runner handles, the loop gives one record per
    job file, in the order of the jobs, and the run writes them when the output
    folder exists at the end and ends with FileNotFoundError when it does not.
    With a fresh folder and document names that all have an extension, the job
    files are the copies in some order, (number of documents) times N of
    them. *)
Theorem copies_become_records (env : Env) (args : RunBoltz.Args)
  (input_dir : Dict.t entry) :
  NoDup (Dict.keys input_dir) ->
  replicates_ready input_dir = true ->
  exists dir,
    outcome (duplicate_yaml_files input_dir (num_replicates args)) = Ok dir
    /\ (forall file content rep,
           In (file, content) (yaml_files input_dir) -> has_ext file = true ->
           1 <= rep <= Z.to_nat (num_replicates args) ->
           In (replicate_name file rep) (job_files env dir))
    /\ (forall name content,
           In (name, content) (yaml_files (replicates_before input_dir)) ->
           In name (job_files env dir))
    /\ (List.forallb (handled env args) (job_files env dir) = true ->
        outcome (mapM (run_job env args) (job_files env dir))
        = Ok (map (record_of env args) (job_files env dir))
        /\ (out_dir_ready env args (job_files env dir) = true ->
            outcome (RunBoltz.main env args input_dir)
            = Ok (dir, map (record_of env args) (job_files env dir)))
        /\ (out_dir_ready env args (job_files env dir) = false ->
            outcome (RunBoltz.main env args input_dir)
            = Raise (OtherError "FileNotFoundError")))
    /\ (replicates_before input_dir = [] ->
        List.forallb (fun doc => has_ext (fst doc)) (yaml_files input_dir) = true ->
        Permutation (job_files env dir)
          (map fst (expected_replicates (yaml_files input_dir) (num_replicates args)))
        /\ length (job_files env dir)
           = length (yaml_files input_dir) * Z.to_nat (num_replicates args)).
Proof.
  intros Hnd Hready.
  pose proof (duplicate_yaml_files_ready input_dir (num_replicates args) Hready) as Hdup.
  set (docs := yaml_files input_dir) in *. set (n := num_replicates args) in *.
  set (reps := Dict.update (replicates_before input_dir) (expected_replicates docs n)) in *.
  exists (Dict.set "replicates" (Dir reps) input_dir).
  set (dir := Dict.set "replicates" (Dir reps) input_dir) in *.
  assert (Hjobs : Permutation (job_files env dir) (map fst (yaml_files reps))).
  { apply job_files_perm. unfold dir. now rewrite get_set_same. }
  assert (Hexp : NoDup (map fst (expected_replicates docs n))).
  { apply expected_replicates_NoDup; [now apply yaml_files_NoDup|].
    intros f c Hin. now apply yaml_files_in in Hin. }
  assert (Hfiles : only_files reps).
  { apply only_files_update; [now apply replicates_before_only_files|].
    apply expected_replicates_only_files. }
  split; [exact Hdup|]. split; [|split; [|split]].
  - intros file content rep Hin Hext Hrep.
    apply (Permutation_in _ (Permutation_sym Hjobs)).
    apply (in_map fst _ (replicate_name file rep, content)). apply yaml_files_in. split.
    + apply get_in. unfold reps. apply get_update_in; [exact Hexp|].
      unfold expected_replicates. apply in_flat_map. exists (file, content).
      split; [assumption|]. cbn [fst snd]. apply in_map_iff. exists rep.
      split; [reflexivity|]. unfold range1. apply in_seq. lia.
    + apply has_ext_replicate; [|assumption]. now apply yaml_files_in in Hin.
  - intros name content Hin. apply yaml_files_in in Hin as [Hin Hy].
    apply (Permutation_in _ (Permutation_sym Hjobs)).
    assert (Hk : In name (Dict.keys reps)).
    { unfold reps. apply in_keys_update. right. now apply (in_map fst _ (name, File content)). }
    apply in_keys_entry in Hk as [e He].
    unfold only_files in Hfiles. rewrite Forall_forall in Hfiles.
    pose proof (Hfiles _ He) as Hf. cbn [snd] in Hf. destruct e as [c'|]; [|discriminate].
    apply (in_map fst _ (name, c')). now apply yaml_files_in.
  - intros Hh. pose proof (main_after_jobs env args _ _ Hdup Hh) as Hmain.
    split; [now apply run_jobs_records|].
    split; intros Hout; now rewrite Hmain, Hout.
  - intros Hold Hext.
    assert (Hreps : reps = expected_replicates docs n).
    { unfold reps. rewrite Hold, update_fresh; [reflexivity|exact Hexp|]. intros k _ []. }
    assert (Hall : map fst (yaml_files reps) = map fst reps).
    { apply yaml_files_all. intros k e Hin. rewrite Hreps in Hin.
      unfold expected_replicates in Hin. apply in_flat_map in Hin as ([f c] & Hf & Hin).
      apply in_map_iff in Hin as (rep & [= <- <-] & _). cbn [fst]. split; [reflexivity|].
      rewrite List.forallb_forall in Hext.
      apply has_ext_replicate; [now apply yaml_files_in in Hf|]. now apply (Hext (f, c)). }
    rewrite Hall, Hreps in Hjobs. split; [exact Hjobs|].
    rewrite (Permutation_length Hjobs), length_map. apply expected_replicates_length.
Qed.

Lemma copies_become_records_witness :
  (exists dir,
     outcome (duplicate_yaml_files stale_dir 1) = Ok dir
     /\ In "a_rep1.yaml" (job_files env_success dir)
     /\ In "a_rep2.yaml" (job_files env_success dir))
  /\ (exists dir,
        outcome (duplicate_yaml_files three_docs 1) = Ok dir
        /\ Permutation (job_files mixed_env dir) ["a_rep1.yaml"; "b_rep1.yaml"; "c_rep1.yaml"]
        /\ outcome (RunBoltz.main mixed_env short_limit three_docs)
           = Ok (dir, map (record_of mixed_env short_limit) (job_files mixed_env dir))).
Proof.
  split.
  - assert (Hnd : NoDup (Dict.keys stale_dir)).
    { vm_compute. repeat constructor; cbn; intuition discriminate. }
    destruct (copies_become_records env_success sample_args stale_dir Hnd eq_refl)
      as (dir & Hrun & Hnew & Hold & _).
    exists dir. split; [exact Hrun|]. split.
    + exact (Hnew "a.yaml" "version: 1" 1 (or_introl eq_refl) eq_refl (conj (le_n 1) (le_n 1))).
    + exact (Hold "a_rep2.yaml" "version: 0" (or_introl eq_refl)).
  - assert (Hnd : NoDup (Dict.keys three_docs)).
    { vm_compute. repeat constructor; cbn; intuition discriminate. }
    destruct (copies_become_records mixed_env short_limit three_docs Hnd eq_refl)
      as (dir & Hrun & _ & _ & Hmain & Hfresh).
    exists dir. split; [exact Hrun|].
    injection Hrun as Hdir. subst dir.
    split; [exact (proj1 (Hfresh eq_refl eq_refl))|].
    exact (proj1 (proj2 (Hmain eq_refl)) eq_refl).
Defined.

(** ** aggregate_job.py: tables without the columns the run needs *)

(** X11.  The run stops before it prints or copies anything when a table lacks
    what the join needs: with [ValueError] when the experiment table has no
    [yaml_file] column, with [AttributeError] when that column has rows but no
    text in it, and with [KeyError] when the run-record table has no [filename]
    column. *)
Theorem missing_column_stops_the_run (w : World) (args : AggregateJob.Args)
  (df_yaml df_boltz : DataFrame) :
  (string_mem "yaml_file" (columns df_yaml) = false ->
   AggregateJob.main w args df_yaml df_boltz
   = raise (ValueError "The YAML CSV must have a 'yaml_file' column to merge on."))
  /\ (string_mem "yaml_file" (columns df_yaml) = true ->
      rows df_yaml <> [] ->
      existsb is_text (map (cell_of "yaml_file") (rows df_yaml)) = false ->
      AggregateJob.main w args df_yaml df_boltz = raise AttributeError)
  /\ (string_mem "yaml_file" (columns df_yaml) = true ->
      rows df_yaml = [] \/ existsb is_text (map (cell_of "yaml_file") (rows df_yaml)) = true ->
      string_mem "filename" (columns df_boltz) = false ->
      AggregateJob.main w args df_yaml df_boltz = raise (KeyError "filename")).
Proof.
  split; [|split].
  - intros H. unfold AggregateJob.main. now rewrite H.
  - intros Hy Hrows Htext. unfold AggregateJob.main. rewrite Hy. cbn [negb].
    rewrite (column_ok df_yaml "yaml_file" Hy), bind_ret_l.
    unfold str_replace_yaml. rewrite Htext.
    destruct (rows df_yaml); [congruence|reflexivity].
  - intros Hy Htext Hf. unfold AggregateJob.main. rewrite Hy. cbn [negb].
    rewrite (column_ok df_yaml "yaml_file" Hy), bind_ret_l.
    rewrite str_replace_yaml_ok, bind_ret_l.
    + unfold column at 1. now rewrite Hf.
    + destruct Htext as [->| ->]; [reflexivity|apply orb_true_r].
Qed.

(** ** aggregate_job.py: what a summary row holds *)


Lemma keys_set_prefix {V} (k : string) (v : V) (d : Dict.t V) :
  exists extra, Dict.keys (Dict.set k v d) = (Dict.keys d ++ extra)%list.
Proof.
  unfold Dict.keys. induction d as [|[k0 v0] d IH]; cbn [Dict.set map fst].
  - now exists [k].
  - destruct (String.eqb_spec k k0).
    + subst. exists []. cbn [map fst]. now rewrite List.app_nil_r.
    + destruct IH as [extra IH]. exists extra. cbn [map fst app]. now rewrite IH.
Qed.

Lemma keys_update_prefix {V} (W d : Dict.t V) :
  exists extra, Dict.keys (Dict.update d W) = (Dict.keys d ++ extra)%list.
Proof.
  revert d; induction W as [|[k v] W IH]; intros d.
  - exists []. now rewrite List.app_nil_r.
  - rewrite update_cons. cbn [fst snd]. destruct (IH (Dict.set k v d)) as [e1 ->].
    destruct (keys_set_prefix k v d) as [e2 ->].
    exists (e2 ++ e1)%list. now rewrite List.app_assoc.
Qed.


(** X12.  What a summary row holds.  For a job without result folder the row is
    the joined row as it is, and one warning is printed.  For a job with
    readable results it is the joined row, then the metrics of the confidence
    documents, then the affinity mapping: the columns of the joined row keep
    their place at the front, a metric whose key is the label of a column
    replaces its cell, and an affinity entry replaces a metric of the same key. *)
Theorem summary_row_precedence (w : World) (args : AggregateJob.Args) (idx : nat)
  (row : Dict.t cell) (s : string) :
  Dict.get "filename" row = Some (CStr s) ->
  let metrics := metrics_of w args (job_id_of s) in
  let affinity := affinity_of w args (job_id_of s) in
  (is_dir w (pred_folder args (job_id_of s)) = false ->
   outcome (summary_row w args idx row) = Ok (Some (as_values row))
   /\ length (printed (summary_row w args idx row)) = 1)
  /\ (is_dir w (pred_folder args (job_id_of s)) = true ->
      job_ok w args s = true ->
      NoDup (Dict.keys affinity) ->
      exists data,
        outcome (summary_row w args idx row) = Ok (Some data)
        /\ (exists extra, Dict.keys data = (Dict.keys row ++ extra)%list)
        /\ (forall k v, Dict.get k affinity = Some v -> Dict.get k data = Some (VJson v))
        /\ (forall k v, Dict.get k affinity = None -> Dict.get k metrics = Some v ->
                        Dict.get k data = Some (VJson v))
        /\ (forall k, Dict.get k affinity = None -> Dict.get k metrics = None ->
                      Dict.get k data = option_map VCell (Dict.get k row))).
Proof.
  intros Hf metrics affinity. split.
  - intros Hdir. unfold summary_row. rewrite Hf, Hdir. cbn [negb]. split; reflexivity.
  - intros Hdir Hjob Hnd. eexists. split; [exact (summary_row_data w args idx row s Hf Hdir Hjob)|].
    fold metrics affinity.
    assert (Hkeys : forall (d : Dict.t json),
               map fst (map (fun kv => (fst kv, VJson (snd kv))) d) = Dict.keys d).
    { intros d. rewrite map_map. reflexivity. }
    assert (Hm : NoDup (Dict.keys metrics)).
    { unfold metrics, metrics_of. apply NoDup_keys_update. constructor. }
    split; [|split; [|split]].
    + destruct (keys_update_prefix (map (fun kv => (fst kv, VJson (snd kv))) affinity)
                  (Dict.update (as_values row)
                     (map (fun kv => (fst kv, VJson (snd kv))) metrics))) as [e1 ->].
      destruct (keys_update_prefix (map (fun kv => (fst kv, VJson (snd kv))) metrics)
                  (as_values row)) as [e2 ->].
      exists (e2 ++ e1)%list. rewrite List.app_assoc. f_equal. f_equal.
      unfold as_values, Dict.keys. now rewrite map_map.
    + intros k v Hk. apply get_update_in; [now rewrite Hkeys|].
      apply in_map_iff. exists (k, v). split; [reflexivity|]. now apply get_in.
    + intros k v Ha Hk. rewrite get_update_other.
      * apply get_update_in; [now rewrite Hkeys|].
        apply in_map_iff. exists (k, v). split; [reflexivity|]. now apply get_in.
      * rewrite Hkeys. now apply get_none_keys.
    + intros k Ha Hk. rewrite !get_update_other.
      * apply get_as_values.
      * rewrite Hkeys. now apply get_none_keys.
      * rewrite Hkeys. now apply get_none_keys.
Qed.

Lemma summary_row_precedence_witness :
  outcome (summary_row no_folders example_args 0
             [("filename", CStr "Foo_rep1.yaml"); ("replicate", CInt 1)])
  = Ok (Some [("filename", VCell (CStr "Foo_rep1.yaml")); ("replicate", VCell (CInt 1))]).
Proof.
  exact (proj1 (proj1 (summary_row_precedence no_folders example_args 0
                         [("filename", CStr "Foo_rep1.yaml"); ("replicate", CInt 1)]
                         "Foo_rep1.yaml" eq_refl) eq_refl)).
Defined.

(** ** write_yamls.py: the warnings of a row *)


Lemma flat_map_filter_one {A B} (p : A -> bool) (g : A -> B) (l : list A) :
  flat_map (fun x => if p x then [g x] else []) l = map g (filter p l).
Proof.
  induction l as [|x l IH]; [reflexivity|]. cbn [flat_map filter].
  rewrite IH. now destruct (p x).
Qed.

Section Warnings.
Variable json_loads : string -> option json.

Lemma entity_retained_printed (row : Dict.t cell) (col : string) :
  retained row col = true ->
  Dict.mem (field_label (index_of col) "id") row = true ->
  payload_typed row (field_label (index_of col) "modifications") = true ->
  printed (entity json_loads row col)
  = if rejected json_loads row (modifications_of col)
    then [modifications_warning col]
    else [].
Proof.
  unfold retained, Dict.mem, entity, getitem, rejected, modifications_of.
  fold (index_of col).
  destruct (Dict.get col row) as [[|type_name| | |]|]; try discriminate.
  intros Hb Hid Hmod. rewrite bind_ret_l. apply negb_true_iff in Hb. rewrite Hb.
  destruct (Dict.get (field_label (index_of col) "id") row) as [id_cell|];
    [|discriminate].
  rewrite bind_ret_l, (payload_ok _ _ Hmod), bind_ret_l.
  destruct (payload_text row (field_label (index_of col) "modifications")) as [s|];
    [|reflexivity].
  destruct (json_loads s); reflexivity.
Qed.

Lemma entity_skipped_printed (row : Dict.t cell) (col : string) :
  In col (Dict.keys row) -> payload_typed row col = true -> retained row col = false ->
  printed (entity json_loads row col) = [].
Proof.
  unfold retained, payload_typed, entity, getitem. intros Hin.
  destruct (Dict.get col row) as [[|type_name| | |]|] eqn:E; try discriminate.
  - reflexivity.
  - intros _ Hb. apply negb_false_iff in Hb. rewrite bind_ret_l. now rewrite Hb.
  - apply get_none_keys in E. contradiction.
Qed.

Lemma add_constraints_printed (row : Dict.t cell) (acc : list pyval) (key : string) :
  payload_typed row key = true ->
  printed (add_constraints json_loads row acc key)
  = if rejected json_loads row key
    then [constraint_warning key]
    else [].
Proof.
  intros H. unfold add_constraints, rejected.
  rewrite (payload_ok _ _ H), bind_ret_l.
  destruct (payload_text row key) as [s|]; [|reflexivity].
  destruct (json_loads s) as [[]|]; reflexivity.
Qed.

(** X13.  The warnings of a row.  Encoding a well-typed row prints one warning
    for each retained entity whose modifications cell is text that the decoder
    rejects, in the order of the entities, then one for each constraint column
    whose cell is such a text, and nothing else: a cell that is empty, or that
    decodes to something that is not a list, gives no warning. *)
Theorem one_warning_per_rejected_cell (row : Dict.t cell) :
  row_typed row = true ->
  printed (process_row json_loads row)
  = (map modifications_warning
         (filter (fun col => rejected json_loads row (modifications_of col))
                 (retained_cols row))
     ++ map constraint_warning (filter (rejected json_loads row) constraint_keys))%list.
Proof.
  intros Hok. destruct (row_typed_parts row Hok) as (Htyped & Hret & Hcons).
  unfold process_row. rewrite printed_bind, (sequences_ok json_loads row Hok).
  rewrite printed_bind, (constraints_ok json_loads row Hok).
  cbn [printed ret snd]. rewrite List.app_nil_r. f_equal.
  - rewrite (printed_foldM _
               (fun acc col => if retained row col
                               then (acc ++ [entity_object json_loads row col])%list
                               else acc)
               (fun col => if retained row col && rejected json_loads row (modifications_of col)
                           then [modifications_warning col]
                           else [])).
    + rewrite flat_map_filter_one. unfold retained_cols.
      f_equal. generalize (sorted_by entity_number (entity_cols row)).
      induction l as [|x l IH]; [reflexivity|]. cbn [filter].
      destruct (retained row x); cbn [andb filter]; [|exact IH].
      destruct (rejected json_loads row (modifications_of x)); now rewrite IH.
    + intros acc col Hin. unfold add_entity. rewrite outcome_bind, printed_bind.
      destruct (retained row col) eqn:E.
      * assert (Hc : In col (retained_cols row)) by (apply filter_In; now split).
        destruct (Hret col Hc) as [Hid Hmod].
        rewrite (entity_retained json_loads row col E Hid Hmod).
        rewrite (entity_retained_printed row col E Hid Hmod).
        cbn [andb printed ret snd]. now rewrite List.app_nil_r.
      * apply in_sorted_cols in Hin.
        rewrite (entity_skipped json_loads row col (entity_cols_keys row col Hin)
                   (Htyped col Hin) E).
        now rewrite (entity_skipped_printed row col (entity_cols_keys row col Hin)
                       (Htyped col Hin) E).
  - rewrite (printed_foldM _
               (fun acc key => (acc ++ constraint_items json_loads row key)%list)
               (fun key => if rejected json_loads row key
                           then [constraint_warning key]
                           else [])).
    + apply flat_map_filter_one.
    + intros acc key Hin. split; [apply add_constraints_ok|apply add_constraints_printed];
        now apply Hcons.
Qed.

End Warnings.

Lemma one_warning_per_rejected_cell_witness :
  printed (process_row sample_loads sample_row)
  = ["Warning: Could not parse JSON in constraint column 'bonds'. Skipping."].
Proof. exact (one_warning_per_rejected_cell sample_loads sample_row eq_refl). Defined.

(** ** write_yamls.py: rows that stop the batch *)


(** X14.  A row whose structure is wrong stops the batch, unlike a payload that
    is not JSON.  Let [col] be the first entity column, in processing order,
    that the loop over the entities does not pass, the columns before it being
    skipped or giving their entity.  A type cell of [col] that is neither
    missing nor text raises [AttributeError]; a type that is text and not blank
    with no identifier column for its index raises [KeyError]; and with the
    identifier column, a modifications cell that is neither missing nor text
    raises [AttributeError].  The exception leaves the loop over the rows, so
    the rows after it are not written and no table is saved. *)
Theorem wrong_structure_stops_the_batch (json_loads : string -> option json)
  (open_error : string -> option exn) (to_csv_error : option exn)
  (rows_before rows_after : list (Dict.t cell)) (row : Dict.t cell)
  (before after : list string) (col : string) (e : exn) :
  List.forallb row_ok rows_before = true ->
  List.forallb (opens open_error) rows_before = true ->
  sorted_by entity_number (entity_cols row) = (before ++ col :: after)%list ->
  List.forallb (entity_passes row) before = true ->
  (exists c, Dict.get col row = Some c /\ not_text c = true /\ e = AttributeError)
  \/ (exists type_name,
         Dict.get col row = Some (CStr type_name) /\ Str.blank type_name = false
         /\ Dict.get (field_label (index_of col) "id") row = None
         /\ e = KeyError (field_label (index_of col) "id"))
  \/ (exists type_name c,
         Dict.get col row = Some (CStr type_name) /\ Str.blank type_name = false
         /\ Dict.mem (field_label (index_of col) "id") row = true
         /\ Dict.get (field_label (index_of col) "modifications") row = Some c
         /\ not_text c = true
         /\ e = AttributeError) ->
  outcome (process_row json_loads row) = Raise e
  /\ outcome (WriteYamls.main json_loads open_error (rows_before ++ row :: rows_after)%list)
     = Raise e
  /\ (forall df, rows df = (rows_before ++ row :: rows_after)%list ->
                 outcome (WriteYamlsTable.main json_loads open_error to_csv_error df)
                 = Raise e).
Proof.
  intros Hrows Hopens Hsorted Hbefore Hcol.
  assert (Hentity : outcome (entity json_loads row col) = Raise e).
  { unfold entity, getitem. fold (index_of col).
    destruct Hcol as [(c & -> & Hc & ->)
                     |[(type_name & -> & Hb & Hid & ->)
                      |(type_name & c & -> & Hb & Hid & Hmod & Hc & ->)]].
    - rewrite bind_ret_l. now destruct c.
    - rewrite bind_ret_l, Hb, Hid. reflexivity.
    - rewrite bind_ret_l, Hb. unfold Dict.mem in Hid.
      destruct (Dict.get (field_label (index_of col) "id") row); [|discriminate].
      rewrite bind_ret_l, outcome_bind. unfold payload. rewrite Hmod. now destruct c. }
  assert (Hrow : outcome (process_row json_loads row) = Raise e).
  { unfold process_row. rewrite outcome_bind, Hsorted.
    rewrite (outcome_foldM_stops_at _
               (fun acc c => if retained row c
                             then (acc ++ [entity_object json_loads row c])%list
                             else acc)
               before after col e).
    - reflexivity.
    - intros acc y Hy. unfold add_entity. rewrite outcome_bind.
      rewrite List.forallb_forall in Hbefore. specialize (Hbefore y Hy).
      unfold entity_passes in Hbefore. apply andb_prop in Hbefore as [Ht Hr].
      destruct (retained row y) eqn:Ey.
      + cbn [negb orb] in Hr. apply andb_prop in Hr as [Hid Hmod].
        now rewrite (entity_retained json_loads row y Ey Hid Hmod).
      + rewrite (entity_skipped json_loads row y); [reflexivity| |assumption|assumption].
        apply entity_cols_keys, in_sorted_cols. rewrite Hsorted.
        apply in_or_app. now left.
    - intros acc. unfold add_entity. now rewrite outcome_bind, Hentity. }
  assert (Hmain : outcome (WriteYamls.main json_loads open_error
                             (rows_before ++ row :: rows_after)%list) = Raise e).
  { apply main_stops_at; [assumption|assumption|].
    unfold write_row. now rewrite outcome_bind, Hrow. }
  split; [exact Hrow|]. split; [exact Hmain|].
  intros df Hdf. unfold WriteYamlsTable.main. now rewrite outcome_bind, Hdf, Hmain.
Qed.

Lemma wrong_structure_stops_the_batch_witness :
  sorted_by entity_number (entity_cols headless_ligand_row)
  = ["entity_1_type"; "entity_2_type"]
  /\ outcome (entity sample_loads headless_ligand_row "entity_1_type")
     = Ok (Some (entity_object sample_loads headless_ligand_row "entity_1_type"))
  /\ outcome (WriteYamls.main sample_loads always_open
                [sample_row; headless_ligand_row; sample_row])
     = Raise (KeyError "entity_2_id").
Proof.
  split; [reflexivity|]. split; [reflexivity|].
  exact (proj1 (proj2 (wrong_structure_stops_the_batch sample_loads always_open None
                         [sample_row] [sample_row] headless_ligand_row
                         ["entity_1_type"] [] "entity_2_type"
                         (KeyError "entity_2_id") eq_refl eq_refl eq_refl eq_refl
                         (or_intror (or_introl (ex_intro _ "ligand"
                            (conj eq_refl (conj eq_refl (conj eq_refl eq_refl))))))))).
Defined.

(** ** write_yamls.py: the labels of the entity columns *)

(** X15.  A column is an entity column exactly when its label starts with
    [entity_<digits>_type]: the pattern is matched at the start of the label
    only, so whatever follows [_type] is ignored, and the digits, as they are
    written, are the index under which the other fields of the entity are
    looked up. *)
Theorem entity_column_labels (col ds : string) (row : Dict.t cell) :
  (entity_index col = Some ds
   <-> ds <> "" /\ Str.forallb Str.is_digit ds = true
       /\ exists rest, col = "entity_" ++ ds ++ "_type" ++ rest)
  /\ (In col (entity_cols row)
      <-> In col (Dict.keys row) /\ exists index, entity_index col = Some index).
Proof.
  split.
  - split.
    + unfold entity_index.
      destruct (Str.strip_prefix "entity_" col) as [u|] eqn:E; [|discriminate].
      apply strip_prefix_sound in E. subst col.
      pose proof (span_forallb Str.is_digit u) as Hd.
      pose proof (span_eq Str.is_digit u) as Hu.
      destruct (Str.span Str.is_digit u) as [a v]. cbn [fst snd] in *.
      destruct a as [|c a]; cbn [Str.is_empty negb andb]; [discriminate|].
      destruct (Str.startswith v "_type") eqn:Hv; [|discriminate].
      intros [= <-]. split; [discriminate|]. split; [exact Hd|].
      apply startswith_sound in Hv as [rest ->]. exists rest. now rewrite <- Hu.
    + intros (Hne & Hd & rest & ->). unfold entity_index.
      rewrite strip_prefix_append, (span_append _ ds ("_type" ++ rest) Hd eq_refl).
      rewrite startswith_append. destruct ds; [congruence|reflexivity].
  - unfold entity_cols. rewrite filter_In. split; intros [Hk H]; (split; [exact Hk|]).
    + destruct (entity_index col) as [index|]; [now exists index|discriminate].
    + destruct H as [index ->]. reflexivity.
Qed.

(** ** write_yamls.py: the name of a document *)

(** X16.  The name of a document.  A fold name that is text and not blank names
    the document as it is written, surrounding blanks included.  Without a fold
    name the document is named by the identifier cells of the columns
    [entity_1_id] to [entity_<n>_id], as [str] gives them, joined by [_], where
    [n] is the number of entities in the document and not their indices; with no
    entity the name is [.yaml]. *)
Theorem document_file_name (row : Dict.t cell) (doc : Dict.t pyval) :
  payload_typed row "foldname" = true ->
  let n := match Dict.get "sequences" doc with
           | Some (PList entities) => length entities
           | _ => 0
           end in
  (forall s, payload_text row "foldname" = Some s ->
             yaml_filename row doc = ret (s ++ ".yaml"))
  /\ (payload_text row "foldname" = None ->
      (forall i, i < n -> Dict.mem ("entity_" ++ Str.of_nat (i + 1) ++ "_id") row = true) ->
      yaml_filename row doc
      = ret (Str.join "_"
               (map (fun i => str_of_cell
                                (cell_of ("entity_" ++ Str.of_nat (i + 1) ++ "_id") row))
                    (seq 0 n))
             ++ ".yaml"))
  /\ (payload_text row "foldname" = None -> n = 0 -> yaml_filename row doc = ret ".yaml").
Proof.
  intros Hf n.
  assert (H2 : payload_text row "foldname" = None ->
               (forall i, i < n ->
                          Dict.mem ("entity_" ++ Str.of_nat (i + 1) ++ "_id") row = true) ->
               yaml_filename row doc
               = ret (Str.join "_"
                        (map (fun i => str_of_cell
                                         (cell_of ("entity_" ++ Str.of_nat (i + 1) ++ "_id") row))
                             (seq 0 n))
                      ++ ".yaml")).
  { intros Hnone Hids. unfold yaml_filename.
    rewrite (payload_ok _ _ Hf), bind_ret_l, Hnone. fold n.
    rewrite (mapM_ret _ (fun i => str_of_cell
                                    (cell_of ("entity_" ++ Str.of_nat (i + 1) ++ "_id") row))).
    - now rewrite !bind_ret_l.
    - intros i Hi. apply in_seq in Hi. specialize (Hids i ltac:(lia)).
      unfold Dict.mem in Hids. unfold getitem, cell_of.
      destruct (Dict.get ("entity_" ++ Str.of_nat (i + 1) ++ "_id") row); [|discriminate].
      now rewrite bind_ret_l. }
  split; [|split; [exact H2|]].
  - intros s Hs. unfold yaml_filename.
    now rewrite (payload_ok _ _ Hf), bind_ret_l, Hs, bind_ret_l.
  - intros Hnone Hn. rewrite H2; [now rewrite Hn|assumption|]. intros i Hi. lia.
Qed.

Lemma document_file_name_witness :
  yaml_filename [("foldname", CStr " job 1 ")] [] = ret " job 1 .yaml".
Proof.
  exact (proj1 (document_file_name [("foldname", CStr " job 1 ")] [] eq_refl)
           " job 1 " eq_refl).
Defined.

(** ** From the table of the Encoder to the Aggregator *)


Lemma list_string_eqb_eq (a b : list string) : list_string_eqb a b = true <-> a = b.
Proof. unfold list_string_eqb. destruct (list_eq_dec string_dec a b); split; congruence. Qed.

Lemma set_column_rows (df : DataFrame) (col : string) (values : list cell) :
  length values = length (rows df) ->
  length (rows (set_column df col values)) = length (rows df)
  /\ map (cell_of col) (rows (set_column df col values)) = values
  /\ (forall label, label <> col ->
                    map (cell_of label) (rows (set_column df col values))
                    = map (cell_of label) (rows df)).
Proof.
  unfold set_column. cbn [rows]. generalize (rows df). intros rs. revert values.
  induction rs as [|r rs IH]; intros [|v values] H; try discriminate; cbn [combine map length].
  - repeat split.
  - injection H as H. destruct (IH values H) as (H1 & H2 & H3). cbn [fst snd].
    split; [now rewrite H1|]. split.
    + unfold cell_of at 1. now rewrite get_set_same, H2.
    + intros label Hl. unfold cell_of at 1 3. rewrite get_set_other by assumption.
      now rewrite (H3 label Hl).
Qed.

Lemma set_column_wf (df : DataFrame) (col : string) (values : list cell) :
  wf_frame df = true -> wf_frame (set_column df col values) = true.
Proof.
  unfold wf_frame, set_column. cbn [rows columns]. intros H.
  rewrite List.forallb_forall in *. intros r' Hr'.
  apply in_map_iff in Hr' as ([r v] & <- & Hin). cbn [fst snd].
  apply in_combine_l in Hin. specialize (H r Hin). apply list_string_eqb_eq in H.
  apply list_string_eqb_eq. rewrite <- H.
  destruct (string_mem col (Dict.keys r)) eqn:E.
  - apply string_mem_in in E.
    destruct (Dict.get col r) as [c|] eqn:G.
    + now apply (keys_set_present col v c).
    + apply get_none_keys in G. contradiction.
  - rewrite set_fresh.
    + unfold Dict.keys. now rewrite map_app.
    + intros Hin'. apply string_mem_in in Hin'. congruence.
Qed.

(** X17.  From the table of the Encoder to the Aggregator.  The table the
    Encoder saves is the table it read, cell for cell, with one more column,
    [yaml_file], that holds for each row the name of its document (an older
    column of that label is replaced); it stays well formed.  Every name is a
    base followed by [.yaml], so the first steps of the Aggregator on this table
    succeed: it finds the column, the text accessor applies, and the base
    identifier of each experiment row is the base of its document name. *)
Theorem encoder_table_feeds_aggregator (json_loads : string -> option json)
  (open_error : string -> option exn) (to_csv_error : option exn)
  (df out : DataFrame) (docs : list (string * Dict.t pyval)) :
  wf_frame df = true ->
  outcome (WriteYamlsTable.main json_loads open_error to_csv_error df) = Ok (docs, out) ->
  length docs = length (rows df)
  /\ length (rows out) = length (rows df)
  /\ wf_frame out = true
  /\ string_mem "yaml_file" (columns out) = true
  /\ map (cell_of "yaml_file") (rows out) = map (fun d => CStr (fst d)) docs
  /\ (forall label, label <> "yaml_file" ->
                    map (cell_of label) (rows out) = map (cell_of label) (rows df))
  /\ (forall y, In y (rows out) ->
                exists base, cell_of "yaml_file" y = CStr (base ++ ".yaml")
                             /\ yaml_base y = CStr base)
  /\ outcome (yaml_files <- column out "yaml_file" ;; str_replace_yaml yaml_files)
     = Ok (map yaml_base (rows out)).
Proof.
  intros Hwf H. unfold WriteYamlsTable.main in H.
  apply outcome_bind_ok in H as (written & Hrun & H).
  apply outcome_bind_ok in H as (saved & _ & H). injection H as <- <-.
  pose proof (outcome_mapM_inv _ _ _ Hrun) as Hall.
  assert (Hlen : length written = length (rows df)).
  { symmetry. exact (Forall2_length Hall). }
  set (out := set_column df "yaml_file" (map CStr (map fst written))).
  destruct (set_column_rows df "yaml_file" (map CStr (map fst written))) as (H1 & H2 & H3).
  { now rewrite !length_map. }
  fold out in H1, H2, H3.
  assert (Hnames : forall d, In d written -> exists base, fst d = base ++ ".yaml").
  { intros d Hd. destruct (Forall2_in_r _ _ _ _ Hall Hd) as (r & _ & Hstep).
    unfold write_row in Hstep.
    apply outcome_bind_ok in Hstep as (doc & _ & Hstep).
    apply outcome_bind_ok in Hstep as (name & Hname & Hstep).
    apply outcome_bind_ok in Hstep as (opened & _ & Hstep). injection Hstep as <-.
    apply yaml_filename_shape in Hname as (base & -> & _). now exists base. }
  assert (Hcells : forall y, In y (rows out) ->
             exists base, cell_of "yaml_file" y = CStr (base ++ ".yaml")
                          /\ yaml_base y = CStr base).
  { intros y Hy. apply (in_map (cell_of "yaml_file")) in Hy. rewrite H2 in Hy.
    rewrite map_map in Hy. apply in_map_iff in Hy as (d & Hd & Hin).
    destruct (Hnames d Hin) as [base Hb]. exists base. rewrite Hb in Hd.
    split; [now symmetry|]. unfold yaml_base. now rewrite <- Hd, yaml_strip_exact. }
  assert (Hcol : string_mem "yaml_file" (columns out) = true).
  { unfold out, set_column. cbn [columns].
    destruct (string_mem "yaml_file" (columns df)) eqn:E; [exact E|].
    apply string_mem_in. apply in_or_app. right. now left. }
  split; [exact Hlen|]. split; [exact H1|]. split; [now apply set_column_wf|].
  split; [exact Hcol|]. split; [now rewrite H2, map_map|]. split; [exact H3|].
  split; [exact Hcells|].
  rewrite (column_ok out "yaml_file" Hcol), bind_ret_l.
  rewrite str_replace_yaml_ok.
  - cbn [outcome ret fst]. f_equal. rewrite map_map. apply map_ext_in.
    intros y Hy. reflexivity.
  - destruct (rows out) as [|y ys] eqn:E; [reflexivity|]. cbn [orb].
    destruct (Hcells y) as (base & Hb & _); [now left|].
    cbn [map existsb orb]. now rewrite Hb.
Qed.

Lemma encoder_table_feeds_aggregator_witness :
  exists docs out,
    outcome (WriteYamlsTable.main sample_loads always_open None
               {| columns := Dict.keys sample_row; rows := [sample_row] |}) = Ok (docs, out)
    /\ map (cell_of "yaml_file") (rows out) = [CStr "job1.yaml"]
    /\ map yaml_base (rows out) = [CStr "job1"].
Proof.
  eexists _, _.
  destruct (encoder_table_feeds_aggregator sample_loads always_open None
              {| columns := Dict.keys sample_row; rows := [sample_row] |} _ _ eq_refl eq_refl)
    as (_ & _ & _ & _ & Hcells & _).
  split; [reflexivity|]. split; [exact Hcells|reflexivity].
Defined.

(** ** aggregate_job.py: where the copies go *)

Lemma class_body_append (first : bool) (q lit : string) :
  Str.lacks "]" lit = true ->
  Glob.class_body first (q ++ lit)
  = match Glob.class_body first q with
    | Some (body, rest) => Some (body, rest ++ lit)
    | None => None
    end.
Proof.
  intros Hlit. revert first. induction q as [|c q IH]; intros first.
  - cbn [append Glob.class_body]. revert first.
    induction lit as [|d lit IHl]; intros first; [reflexivity|].
    unfold Str.lacks in Hlit. cbn [Str.forallb] in Hlit.
    apply andb_prop in Hlit as [Hd Hl]. cbn [Glob.class_body].
    destruct (Ascii.eqb d "]"); [discriminate|]. cbn [andb].
    now rewrite (IHl Hl).
  - cbn [append Glob.class_body].
    destruct (Ascii.eqb c "]" && negb first); [reflexivity|].
    rewrite IH. now destruct (Glob.class_body false q) as [[body rest]|].
Qed.

Lemma parse_from_open (p' : string) :
  Glob.parse_from 0 (String "[" p')
  = let '(neg, q) := match p' with
                     | String e q => if Ascii.eqb e "!" then (true, q) else (false, p')
                     | EmptyString => (false, p')
                     end in
    match Glob.class_body true q with
    | Some (body, rest) =>
        Glob.Class neg (Glob.class_ranges body)
        :: Glob.parse_from (String.length p' - String.length rest) p'
    | None => Glob.Lit "[" :: Glob.parse_from 0 p'
    end.
Proof.
  destruct p' as [|e q]; [reflexivity|].
  destruct e as [[] [] [] [] [] [] [] []]; reflexivity.
Qed.

(** A pattern followed by a text without closing bracket is read as the pattern,
    then the text. *)
Lemma parse_from_append (lit : string) :
  Str.lacks "]" lit = true ->
  forall pre k, k <= String.length pre ->
    Glob.parse_from k (pre ++ lit) = (Glob.parse_from k pre ++ Glob.parse_from 0 lit)%list.
Proof.
  intros Hlit. induction pre as [|c pre IH]; intros k Hk.
  - cbn [String.length] in Hk. replace k with 0 by lia. reflexivity.
  - destruct k as [|k].
    2:{ cbn [append Glob.parse_from]. apply IH. cbn [String.length] in Hk. lia. }
    destruct (Ascii.eqb_spec c "[") as [->|Hc].
    + change (String "[" pre ++ lit) with (String "[" (pre ++ lit)).
      rewrite !parse_from_open.
      destruct pre as [|e pre].
      * cbn [append]. cbn [Glob.class_body].
        assert (Hnone : forall first s, Str.lacks "]" s = true ->
                                        Glob.class_body first s = None).
        { intros first s Hs. exact (class_body_append first "" s Hs). }
        destruct lit as [|e lit]; [reflexivity|].
        unfold Str.lacks in Hlit. cbn [Str.forallb] in Hlit.
        pose proof Hlit as Hlit'. apply andb_prop in Hlit' as [_ Hl].
        destruct (Ascii.eqb e "!").
        -- rewrite (Hnone true lit Hl). reflexivity.
        -- rewrite (Hnone true (String e lit) Hlit). reflexivity.
      * change (String e pre ++ lit) with (String e (pre ++ lit)). cbv beta iota.
        destruct (Ascii.eqb e "!"); cbv beta iota.
        -- rewrite class_body_append by assumption.
           destruct (Glob.class_body true pre) as [[body rest]|].
           ++ cbn [app]. f_equal.
              change (String e (pre ++ lit)) with (String e pre ++ lit).
              rewrite !length_append.
              replace (String.length (String e pre) + String.length lit
                       - (String.length rest + String.length lit))
                with (String.length (String e pre) - String.length rest) by lia.
              apply IH. lia.
           ++ cbn [app]. f_equal.
              change (String e (pre ++ lit)) with (String e pre ++ lit).
              apply IH. lia.
        -- change (String e (pre ++ lit)) with (String e pre ++ lit).
           rewrite class_body_append by assumption.
           destruct (Glob.class_body true (String e pre)) as [[body rest]|].
           ++ cbn [app]. f_equal. rewrite !length_append.
              replace (String.length (String e pre) + String.length lit
                       - (String.length rest + String.length lit))
                with (String.length (String e pre) - String.length rest) by lia.
              apply IH. lia.
           ++ cbn [app]. f_equal. apply IH. lia.
    + cbn [append Glob.parse_from].
      destruct (Ascii.eqb c "*"); [cbn [app]; f_equal; apply IH; lia|].
      destruct (Ascii.eqb c "?"); [cbn [app]; f_equal; apply IH; lia|].
      destruct (Ascii.eqb_spec c "["); [contradiction|].
      cbn [app]. f_equal. apply IH. lia.
Qed.

Lemma endswith_tail (c : ascii) (s suf : string) :
  Str.endswith s suf = true -> Str.endswith (String c s) suf = true.
Proof. intros H. cbn [Str.endswith]. rewrite H. apply orb_true_r. Qed.

Lemma matches_literal (cs : list ascii) (name : string) :
  Glob.matches (map Glob.Lit cs) name = true -> name = string_of_list_ascii cs.
Proof.
  revert name; induction cs as [|c cs IH]; intros name; cbn [map Glob.matches].
  - destruct name; [reflexivity|discriminate].
  - destruct name as [|d name]; [discriminate|]. intros H.
    apply andb_prop in H as [Hc H]. apply Ascii.eqb_eq in Hc. subst d.
    cbn [string_of_list_ascii]. f_equal. now apply IH.
Qed.

(** A name matched by a pattern that ends in a literal text ends in that text. *)
Lemma matches_ending (cs : list ascii) (ts : list Glob.tok) (name : string) :
  Glob.matches (ts ++ map Glob.Lit cs)%list name = true ->
  Str.endswith name (string_of_list_ascii cs) = true.
Proof.
  revert name; induction ts as [|t ts IH]; intros name.
  - cbn [app]. intros H. apply matches_literal in H. subst name.
    exact (endswith_append "" (string_of_list_ascii cs)).
  - destruct t; cbn [app Glob.matches].
    + induction name as [|d name IHn].
      * intros H. apply orb_prop in H as [H|H]; [now apply IH|discriminate].
      * intros H. apply orb_prop in H as [H|H]; [now apply IH|].
        apply endswith_tail. now apply IHn.
    + destruct name as [|d name]; [discriminate|].
      intros H. apply endswith_tail. now apply IH.
    + destruct name as [|d name]; [discriminate|].
      intros H. apply andb_prop in H as [_ H]. apply endswith_tail. now apply IH.
    + destruct name as [|d name]; [discriminate|].
      intros H. apply andb_prop in H as [_ H]. apply endswith_tail. now apply IH.
Qed.

Lemma fnmatch_ending (pre : string) (cs : list ascii) (name : string) :
  Str.lacks "]" (string_of_list_ascii cs) = true ->
  Glob.parse (string_of_list_ascii cs) = map Glob.Lit cs ->
  Glob.fnmatch name (pre ++ string_of_list_ascii cs) = true ->
  Str.endswith name (string_of_list_ascii cs) = true.
Proof.
  intros Hl Hp. unfold Glob.fnmatch, Glob.parse in *.
  rewrite (parse_from_append _ Hl pre 0) by lia. rewrite Hp. apply matches_ending.
Qed.


(** X18.  Where the copies go.  Every copy made for a run-record name is taken
    from the listing of the prediction folder of its job, which exists, and
    lands under its own name directly in one of the seven folders of the output
    folder; a folder receives only names with its ending: [.pdb] for
    [final_pdbs], [.json] for the two folders of documents, [.npz] for the
    others. *)
Theorem copies_land_in_their_folder (w : World) (args : AggregateJob.Args)
  (name : string) (copies : list (path * path)) (src dst : path) :
  outcome (copy_job w args (CStr name)) = Ok copies ->
  In (src, dst) copies ->
  let folder := pred_folder args (job_id_of name) in
  is_dir w folder = true
  /\ exists f bucket ending,
       In (bucket, ending) bucket_endings
       /\ src = (folder ++ [f])%list
       /\ dst = [output_dir args; bucket; f]
       /\ In f (listdir w folder)
       /\ Str.endswith f ending = true.
Proof.
  intros Hrun Hin folder. apply copy_job_copies in Hrun. subst copies.
  apply copies_of_in in Hin as (Hdir & pattern & bucket & f & Hb & Hf & -> & ->).
  fold folder in Hdir, Hf. split; [exact Hdir|].
  unfold glob in Hf. apply filter_In in Hf as [Hlist Hmatch].
  assert (Hend : forall pre cs,
             pattern = pre ++ string_of_list_ascii cs ->
             Str.lacks "]" (string_of_list_ascii cs) = true ->
             Glob.parse (string_of_list_ascii cs) = map Glob.Lit cs ->
             Str.endswith f (string_of_list_ascii cs) = true).
  { intros pre cs -> Hl Hp. now apply (fnmatch_ending pre cs f). }
  set (job_id := job_id_of name) in *.
  unfold buckets in Hb. cbn [In] in Hb.
  destruct Hb as [E|[E|[E|[E|[E|[E|[E|[]]]]]]]]; injection E as <- <-.
  - exists f, "final_pdbs", ".pdb". repeat split; try assumption; [cbn; tauto|].
    apply (Hend (job_id ++ "_model_*") [".";"p";"d";"b"]%char); try reflexivity;
      now rewrite !append_assoc.
  - exists f, "final_pae", ".npz". repeat split; try assumption; [cbn; tauto|].
    apply (Hend ("pae_" ++ job_id ++ "_model_*") [".";"n";"p";"z"]%char); try reflexivity;
      now rewrite !append_assoc.
  - exists f, "final_plddt", ".npz". repeat split; try assumption; [cbn; tauto|].
    apply (Hend ("plddt_" ++ job_id ++ "_model_*") [".";"n";"p";"z"]%char); try reflexivity;
      now rewrite !append_assoc.
  - exists f, "final_confidence_json", ".json". repeat split; try assumption; [cbn; tauto|].
    apply (Hend ("confidence_" ++ job_id ++ "_model_*") [".";"j";"s";"o";"n"]%char);
      try reflexivity; now rewrite !append_assoc.
  - exists f, "final_affinity_json", ".json". repeat split; try assumption; [cbn; tauto|].
    apply (Hend ("affinity_" ++ job_id) [".";"j";"s";"o";"n"]%char); try reflexivity;
      now rewrite !append_assoc.
  - exists f, "final_pre_affinity", ".npz". repeat split; try assumption; [cbn; tauto|].
    apply (Hend ("pre_affinity_" ++ job_id) [".";"n";"p";"z"]%char); try reflexivity;
      now rewrite !append_assoc.
  - exists f, "final_pde", ".npz". repeat split; try assumption; [cbn; tauto|].
    apply (Hend ("pde_" ++ job_id ++ "_model_*") [".";"n";"p";"z"]%char); try reflexivity;
      now rewrite !append_assoc.
Qed.

Lemma copies_land_in_their_folder_witness :
  exists f bucket ending,
    In (bucket, ending) bucket_endings
    /\ ["final"; "final_pdbs"; "Foo_rep1_model_0.pdb"] = [output_dir example_args; bucket; f]
    /\ Str.endswith f ending = true.
Proof.
  destruct (copies_land_in_their_folder replicate_folders example_args "Foo_rep1.yaml" _
              (pred_folder example_args "Foo_rep1" ++ ["Foo_rep1_model_0.pdb"])%list
              ["final"; "final_pdbs"; "Foo_rep1_model_0.pdb"] eq_refl (or_introl eq_refl))
    as (_ & f & bucket & ending & Hb & _ & Hdst & _ & Hend).
  exists f, bucket, ending. split; [exact Hb|]. split; [exact Hdst | exact Hend].
Defined.

(** ** assign_kr_type.py: the type of an annotation *)

Import AssignKrType.

Lemma contains_length (sub s : string) :
  Str.contains sub s = true -> String.length sub <= String.length s.
Proof.
  induction s as [|c s IH]; cbn [Str.contains]; intros H.
  - rewrite orb_false_r in H. apply startswith_sound in H as [t H].
    apply (f_equal String.length) in H. rewrite length_append in H.
    cbn [String.length] in *. lia.
  - apply orb_prop in H as [H|H].
    + apply startswith_sound in H as [t ->]. rewrite length_append. lia.
    + cbn [String.length]. specialize (IH H). lia.
Qed.

Lemma contains_same_length (sub s : string) :
  Str.contains sub s = true -> String.length sub = String.length s -> s = sub.
Proof.
  destruct s as [|c s]; cbn [Str.contains]; intros H Hl.
  - destruct sub; [reflexivity|discriminate].
  - apply orb_prop in H as [H|H].
    + apply startswith_sound in H as [t H]. rewrite H in Hl.
      rewrite length_append in Hl. destruct t; [|cbn [String.length] in Hl; lia].
      now rewrite append_nil_r in H.
    + apply contains_length in H. cbn [String.length] in Hl. lia.
Qed.

Lemma contains_middle (sub a b : string) : Str.contains sub (a ++ sub ++ b) = true.
Proof.
  induction a as [|c a IH].
  - cbn [append]. destruct (sub ++ b) eqn:E; cbn [Str.contains]; rewrite <- E;
      now rewrite startswith_append.
  - cbn [append Str.contains]. rewrite IH. apply orb_true_r.
Qed.

Lemma lower_length (s : string) : String.length (lower s) = String.length s.
Proof. induction s; cbn [lower String.length]; congruence. Qed.

Lemma find_app {A} (p : A -> bool) (l1 l2 : list A) :
  find p (l1 ++ l2)%list = match find p l1 with Some x => Some x | None => find p l2 end.
Proof. induction l1 as [|x l1 IH]; cbn [app find]; [reflexivity|]. now destruct (p x). Qed.

(** X19.  The type given to an annotation is written in it.  The result is
    [Undetermined] exactly when none of the twelve identifiers occurs in the text
    of the annotation; otherwise it is an identifier that occurs in the text,
    the first one in the order of the two lists, with a rationale that quotes it;
    so a specific subtype that occurs in the text is never hidden by a general
    type. *)
Theorem kr_type_is_written_in_the_annotation (annotation : cell) :
  let text := annotation_text annotation in
  let identifiers := (specific_kr_subtypes ++ general_kr_types)%list in
  let kr_type := fst (assign_core_kr_type annotation) in
  (kr_type = "Undetermined"
   <-> forall kr_id, In kr_id identifiers -> Str.contains kr_id text = false)
  /\ (kr_type <> "Undetermined" ->
      Str.contains kr_type text = true
      /\ Str.contains kr_type (snd (assign_core_kr_type annotation)) = true
      /\ exists before after,
           identifiers = (before ++ kr_type :: after)%list
           /\ forall kr_id, In kr_id before -> Str.contains kr_id text = false)
  /\ ((exists kr_id, In kr_id specific_kr_subtypes /\ Str.contains kr_id text = true) ->
      In kr_type specific_kr_subtypes).
Proof.
  intros text identifiers kr_type.
  assert (Hfind : kr_type = match find (fun kr_id => Str.contains kr_id text) identifiers with
                            | Some kr_id => kr_id
                            | None => "Undetermined"
                            end).
  { unfold kr_type, identifiers, assign_core_kr_type. fold text. rewrite find_app.
    destruct (find _ specific_kr_subtypes); [reflexivity|].
    now destruct (find _ general_kr_types). }
  assert (Hsplit : forall l k, find (fun kr_id => Str.contains kr_id text) l = Some k ->
             exists before after,
               l = (before ++ k :: after)%list
               /\ forall kr_id, In kr_id before -> Str.contains kr_id text = false).
  { induction l as [|x l IH]; intros k; cbn [find]; [discriminate|].
    destruct (Str.contains x text) eqn:E.
    - intros [= <-]. exists [], l. split; [reflexivity|]. intros _ [].
    - intros H. destruct (IH k H) as (before & after & -> & Hb).
      exists (x :: before), after. split; [reflexivity|].
      intros kr_id [<-|Hin]; [exact E|now apply Hb]. }
  assert (Hids : ~ In "Undetermined" identifiers).
  { cbn. intuition discriminate. }
  split; [|split].
  - rewrite Hfind. destruct (find _ identifiers) as [k|] eqn:E.
    + apply find_some in E as [Hin Hk]. split.
      * intros ->. contradiction.
      * intros H. rewrite (H k Hin) in Hk. discriminate.
    + split; [|reflexivity]. intros _ kr_id Hin. exact (find_none _ _ E kr_id Hin).
  - intros Hne. rewrite Hfind in Hne |- *.
    destruct (find _ identifiers) as [k|] eqn:E; [|congruence].
    pose proof (find_some _ _ E) as [Hin Hk]. split; [exact Hk|]. split; [|now apply Hsplit].
    revert E. unfold identifiers, assign_core_kr_type. fold text. rewrite find_app.
    destruct (find _ specific_kr_subtypes) as [k1|] eqn:E1.
    + intros [= ->]. cbn [snd].
      apply (contains_middle k "Directly identified specific subtype '").
    + destruct (find _ general_kr_types) as [k2|] eqn:E2; [|discriminate].
      intros [= ->]. cbn [snd].
      apply (contains_middle k "Directly identified general type '").
  - intros (kr_id & Hin & Hk). unfold kr_type, assign_core_kr_type. fold text.
    destruct (find _ specific_kr_subtypes) as [k1|] eqn:E1.
    + now apply find_some in E1 as [Hk1 _].
    + rewrite (find_none _ _ E1 kr_id Hin) in Hk. discriminate.
Qed.

Lemma no_identifier_in_nan (text kr_id : string) :
  lower text = "nan" ->
  In kr_id (specific_kr_subtypes ++ general_kr_types)%list ->
  Str.contains kr_id text = false.
Proof.
  intros Hl Hin. pose proof (lower_length text) as Hlen. rewrite Hl in Hlen.
  cbn [String.length] in Hlen.
  destruct (Str.contains kr_id text) eqn:E; [|reflexivity]. exfalso.
  pose proof (contains_length _ _ E) as Hle.
  cbn in Hin.
  repeat (destruct Hin as [<-|Hin]; [cbn [String.length] in Hle; try lia|]);
    try contradiction;
    apply contains_same_length in E; try (cbn [String.length]; lia);
    subst text; discriminate Hl.
Qed.

(** X20.  The annotations that count as empty.  The rationale is the one for an
    empty annotation exactly when the text of the annotation is empty, which it
    is for a missing cell, or is [nan] in any mix of upper and lower case; the
    type is then [Undetermined]. *)
Theorem empty_annotation_rationale (annotation : cell) :
  let text := annotation_text annotation in
  (isna annotation = true -> text = "")
  /\ (snd (assign_core_kr_type annotation) = "Annotation string is empty or NaN."
      <-> text = "" \/ lower text = "nan")
  /\ (text = "" \/ lower text = "nan" ->
      fst (assign_core_kr_type annotation) = "Undetermined").
Proof.
  intros text.
  assert (Hnone : text = "" \/ lower text = "nan" ->
                  forall l, incl l (specific_kr_subtypes ++ general_kr_types)%list ->
                            find (fun kr_id => Str.contains kr_id text) l = None).
  { intros Ht l Hl. destruct (find _ l) as [k|] eqn:E; [|reflexivity].
    apply find_some in E as [Hin Hk]. apply Hl in Hin. exfalso.
    destruct Ht as [Ht|Ht].
    - rewrite Ht in Hk. cbn in Hin.
      repeat (destruct Hin as [<-|Hin]; [discriminate Hk|]). contradiction.
    - rewrite (no_identifier_in_nan text k Ht Hin) in Hk. discriminate. }
  split; [|split].
  - unfold text, annotation_text. now intros ->.
  - unfold assign_core_kr_type. fold text. split.
    + destruct (find _ specific_kr_subtypes); [discriminate|].
      destruct (find _ general_kr_types); [discriminate|]. cbn [snd].
      destruct (Str.is_empty text) eqn:E1; cbn [orb].
      * intros _. left. now destruct text.
      * destruct (String.eqb_spec (lower text) "nan"); [now right|discriminate].
    + intros Ht.
      rewrite (Hnone Ht specific_kr_subtypes) by (intros x Hx; apply in_or_app; now left).
      rewrite (Hnone Ht general_kr_types) by (intros x Hx; apply in_or_app; now right).
      cbn [snd]. destruct Ht as [->| ->]; [reflexivity|].
      now rewrite orb_true_r.
  - intros Ht. unfold assign_core_kr_type. fold text.
    rewrite (Hnone Ht specific_kr_subtypes) by (intros x Hx; apply in_or_app; now left).
    now rewrite (Hnone Ht general_kr_types) by (intros x Hx; apply in_or_app; now right).
Qed.

(** ** boltz_wrapper.py: the three steps *)

Import BoltzWrapper.

Lemma last_char_inj (a b : string) (c d : ascii) :
  a ++ String c "" = b ++ String d "" -> c = d.
Proof.
  revert b; induction a as [|x a IH]; intros [|y b] H; cbn [append] in H.
  - now injection H.
  - injection H as _ H. destruct b; discriminate H.
  - injection H as _ H. destruct a; discriminate H.
  - injection H as _ H. now apply IH in H.
Qed.

Lemma joinpath_no_separator (base : string) :
  Str.endswith (joinpath base "boltz_raw_out") "/" = false
  /\ Str.is_empty (joinpath base "boltz_raw_out") = false.
Proof.
  assert (H : exists x, joinpath base "boltz_raw_out" = x ++ "boltz_raw_ou" ++ "t").
  { unfold joinpath. destruct (Str.endswith base "/").
    - now exists base.
    - exists (base ++ "/"). now rewrite append_assoc. }
  destruct H as [x ->]. split.
  - destruct (Str.endswith (x ++ "boltz_raw_ou" ++ "t") "/") eqn:E; [|reflexivity].
    apply endswith_sound in E as [stem E]. rewrite <- append_assoc in E.
    apply last_char_inj in E. discriminate E.
  - now destruct x.
Qed.

(** X21.  The wrapper hands each step what the step before it wrote.  The
    folder the Encoder is told to write the documents to is the input folder of
    the Runner; the table the Encoder saves is the experiment table of the
    Aggregator; the folder the Runner is told to use is the predictions folder of
    the Aggregator, and the run-record table the Aggregator is told to read is the
    file in which the Runner saves its records for that folder.  The folder and
    input of the Runner come last in its command, after any option passed on. *)
Theorem wrapper_connects_the_steps (args : BoltzWrapper.Args) (base : string) :
  let documents := yaml_out_dir base in
  let table := yaml_csv_out base in
  let raw := boltz_raw_out_dir base in
  (exists extra,
      cmd_write args base
      = (["python"; "write_yamls.py"; "--input_csv"; input_csv args;
          "--yaml_out_dir"; documents; "--csv_out"; table] ++ extra)%list)
  /\ (exists options,
         cmd_boltz args base
         = (["python"; "run_boltz.py"] ++ options ++ ["--out_dir"; raw; documents])%list)
  /\ (exists extra,
         cmd_agg args base
         = (["python"; "aggregate_job.py"; "--yaml_csv"; table;
             "--boltz_csv"; RunBoltzFiles.csv_filepath raw;
             "--predictions_dir"; raw; "--output_dir"; final_out_dir base;
             "--summary_csv_name"; BoltzWrapper.summary_csv_name args] ++ extra)%list).
Proof.
  intros documents table raw.
  assert (Hext : forall cmd extra, exists more, extend cmd extra = (cmd ++ more)%list).
  { intros cmd [[|x rest]|]; cbn [extend].
    - exists []. now rewrite List.app_nil_r.
    - now exists (x :: rest).
    - exists []. now rewrite List.app_nil_r. }
  assert (Hint : forall cmd flag value,
             exists more, extend_int cmd flag value = (cmd ++ more)%list).
  { intros cmd flag [z|]; cbn [extend_int].
    - now exists [flag; Str.of_Z z].
    - exists []. now rewrite List.app_nil_r. }
  split; [|split].
  - unfold cmd_write. apply Hext.
  - unfold cmd_boltz.
    destruct (Hint ["python"; "run_boltz.py"] "--max_time" (BoltzWrapper.max_time args))
      as [m1 ->].
    destruct (Hint (["python"; "run_boltz.py"] ++ m1)%list "--num_replicates"
                (BoltzWrapper.num_replicates args)) as [m2 ->].
    destruct (Hext ((["python"; "run_boltz.py"] ++ m1) ++ m2)%list (run_boltz_extra args))
      as [m3 ->].
    exists (m1 ++ m2 ++ m3)%list. now rewrite <- !List.app_assoc.
  - unfold cmd_agg.
    assert (Hcsv : boltz_csv_path base = RunBoltzFiles.csv_filepath raw).
    { unfold boltz_csv_path, RunBoltzFiles.csv_filepath, RunBoltzFiles.os_path_join.
      fold raw. unfold joinpath at 1. unfold raw, boltz_raw_out_dir.
      destruct (joinpath_no_separator base) as [-> ->]. reflexivity. }
    rewrite Hcsv. apply Hext.
Qed.

Lemma run_cases (sh : list string -> proc_result) (cmd : list string) :
  (sh cmd = Exited 0 /\ BoltzWrapper.run sh cmd = ret tt)
  \/ (sh cmd <> Exited 0 /\ exists e, BoltzWrapper.run sh cmd = raise e).
Proof.
  unfold BoltzWrapper.run. destruct (sh cmd) as [[|p|p]| |name].
  - now left.
  - right. split; [discriminate|now eexists].
  - right. split; [discriminate|now eexists].
  - right. split; [discriminate|now eexists].
  - right. split; [discriminate|now eexists].
Qed.

(** X22.  The wrapper stops at the first step that fails.  It ends without
    exception exactly when the three commands end with status zero.  When the
    first command does not, the two other steps are not announced, and not
    run; when the first does and the second does not, the third is not. *)
Theorem wrapper_stops_at_the_first_failure (args : BoltzWrapper.Args) (base : string)
  (sh : list string -> proc_result) :
  let run := BoltzWrapper.main args base sh in
  (outcome run = Ok tt
   <-> sh (cmd_write args base) = Exited 0
       /\ sh (cmd_boltz args base) = Exited 0
       /\ sh (cmd_agg args base) = Exited 0)
  /\ (sh (cmd_write args base) <> Exited 0 ->
      (exists e, outcome run = Raise e)
      /\ ~ In "Running run_boltz.py ..." (printed run)
      /\ ~ In "Running aggregate_job.py ..." (printed run))
  /\ (sh (cmd_write args base) = Exited 0 -> sh (cmd_boltz args base) <> Exited 0 ->
      (exists e, outcome run = Raise e)
      /\ In "Running run_boltz.py ..." (printed run)
      /\ ~ In "Running aggregate_job.py ..." (printed run)).
Proof.
  intros run. subst run. unfold BoltzWrapper.main.
  set (c1 := cmd_write args base). set (c2 := cmd_boltz args base).
  set (c3 := cmd_agg args base).
  set (l1 := Str.join " " c1). set (l2 := Str.join " " c2). set (l3 := Str.join " " c3).
  destruct (run_cases sh c1) as [[E1 ->]|(N1 & e1 & ->)];
    [destruct (run_cases sh c2) as [[E2 ->]|(N2 & e2 & ->)];
     [destruct (run_cases sh c3) as [[E3 ->]|(N3 & e3 & ->)]|]|];
    cbn [bind print ret raise outcome printed fst snd app].
  - split; [split; [now intros _|reflexivity]|]. split; [congruence|]. intros _ H. congruence.
  - split; [split; [discriminate|intros (_ & _ & H); congruence]|].
    split; [congruence|]. intros _ H. congruence.
  - split; [split; [discriminate|intros (_ & H & _); congruence]|].
    split; [congruence|]. intros _ _. split; [now exists e2|].
    split; [cbn [In]; tauto|].
    cbn [In]. intros Hin.
    repeat (destruct Hin as [Hin|Hin]; [discriminate Hin|]). exact Hin.
  - split; [split; [discriminate|intros (H & _ & _); congruence]|].
    split; [|congruence]. intros _. split; [now exists e1|].
    split; cbn [In]; intros Hin;
      repeat (destruct Hin as [Hin|Hin]; [discriminate Hin|]); exact Hin.
Qed.

(** ** run_boltz.py: the command line *)

Import RunBoltzCommand.

Lemma of_Z_plain (z : Z) : plain (Str.of_Z z) = true.
Proof.
  unfold plain, Str.of_Z, NilZero.string_of_int.
  destruct (Z.to_int z) as [d|d].
  - pose proof (uint_digits d) as H. unfold NilZero.string_of_uint.
    destruct d; try reflexivity; cbn [NilEmpty.string_of_uint]; reflexivity.
  - unfold NilZero.string_of_uint.
    destruct d; try reflexivity; cbn [NilEmpty.string_of_uint]; reflexivity.
Qed.

Lemma plain_neq (v flag : string) :
  plain v = true -> Str.startswith flag "--" = true -> String.eqb v flag = false.
Proof.
  unfold plain. intros Hv Hf. destruct (String.eqb_spec v flag); [|reflexivity].
  subst. rewrite Hf in Hv. discriminate.
Qed.

Lemma value_after_skip (flag : string) (block rest : list string) :
  List.forallb (fun x => negb (String.eqb x flag)) block = true ->
  value_after flag (block ++ rest)%list = value_after flag rest.
Proof.
  induction block as [|x block IH]; cbn [List.forallb app value_after]; [reflexivity|].
  intros H. apply andb_prop in H as [Hx H]. apply negb_true_iff in Hx. rewrite Hx.
  now apply IH.
Qed.

Lemma value_after_last (flag y : string) : value_after flag [y] = None.
Proof. cbn [value_after]. now destruct (String.eqb y flag). Qed.

Lemma string_mem_app (x : string) (l1 l2 : list string) :
  string_mem x (l1 ++ l2)%list = string_mem x l1 || string_mem x l2.
Proof. apply existsb_app. Qed.

Lemma string_mem_skip (flag : string) (block : list string) :
  List.forallb (fun x => negb (String.eqb x flag)) block = true ->
  string_mem flag block = false.
Proof.
  unfold string_mem. induction block as [|x block IH]; cbn [List.forallb existsb]; [reflexivity|].
  intros H. apply andb_prop in H as [Hx H]. apply negb_true_iff in Hx.
  rewrite String.eqb_sym, Hx. now apply IH.
Qed.

Section CommandLine.

Context {float : Type}.
Variable str_of_float : float -> string.

(** The arguments of another option are passed over. *)
Lemma other_text (flag f : string) (o : option string) :
  Str.startswith flag "--" = true -> String.eqb f flag = false -> plain_option o = true ->
  List.forallb (fun x => negb (String.eqb x flag)) (if_text f o) = true.
Proof.
  intros Hflag Hf Ho. unfold if_text. destruct o as [v|]; [|reflexivity].
  destruct (Str.is_empty v); [reflexivity|]. cbn [List.forallb].
  now rewrite Hf, (plain_neq v flag Ho Hflag).
Qed.

Lemma other_nonzero (flag f : string) (o : option Z) :
  Str.startswith flag "--" = true -> String.eqb f flag = false ->
  List.forallb (fun x => negb (String.eqb x flag)) (if_nonzero f o) = true.
Proof.
  intros Hflag Hf. unfold if_nonzero. destruct o as [z|]; [|reflexivity].
  destruct (z =? 0)%Z; [reflexivity|]. cbn [List.forallb].
  now rewrite Hf, (plain_neq _ flag (of_Z_plain z) Hflag).
Qed.

Lemma other_given {A} (str : A -> string) (flag f : string) (o : option A) :
  Str.startswith flag "--" = true -> String.eqb f flag = false ->
  plain_option (option_map str o) = true ->
  List.forallb (fun x => negb (String.eqb x flag)) (if_given str f o) = true.
Proof.
  intros Hflag Hf Ho. unfold if_given. destruct o as [v|]; [|reflexivity].
  cbn [List.forallb]. now rewrite Hf, (plain_neq _ flag Ho Hflag).
Qed.

Lemma other_int (flag f : string) (o : option Z) :
  Str.startswith flag "--" = true -> String.eqb f flag = false ->
  List.forallb (fun x => negb (String.eqb x flag)) (if_given Str.of_Z f o) = true.
Proof.
  intros Hflag Hf. apply other_given; try assumption.
  destruct o as [z|]; [apply of_Z_plain|reflexivity].
Qed.

Lemma other_switch (flag f : string) (b : bool) :
  String.eqb f flag = false ->
  List.forallb (fun x => negb (String.eqb x flag)) (if_true f b) = true.
Proof. intros Hf. unfold if_true. destruct b; [|reflexivity]. cbn. now rewrite Hf. Qed.

(** The arguments of the option itself. *)
Lemma own_text (flag : string) (o : option string) (rest : list string) :
  (nonempty o = None -> value_after flag rest = None) ->
  value_after flag (if_text flag o ++ rest)%list = nonempty o.
Proof.
  unfold if_text, nonempty. destruct o as [v|]; [destruct (Str.is_empty v)|]; cbn [app];
    intros H; try (now apply H).
  cbn [value_after]. now rewrite String.eqb_refl.
Qed.

Lemma own_nonzero (flag : string) (o : option Z) (rest : list string) :
  (nonzero o = None -> value_after flag rest = None) ->
  value_after flag (if_nonzero flag o ++ rest)%list = option_map Str.of_Z (nonzero o).
Proof.
  unfold if_nonzero, nonzero. destruct o as [z|]; [destruct (z =? 0)%Z|]; cbn [app];
    intros H; try (now apply H).
  cbn [value_after]. now rewrite String.eqb_refl.
Qed.

Lemma own_given {A} (str : A -> string) (flag : string) (o : option A)
  (rest : list string) :
  (o = None -> value_after flag rest = None) ->
  value_after flag (if_given str flag o ++ rest)%list = option_map str o.
Proof.
  unfold if_given. destruct o as [v|]; cbn [app]; intros H; [|now apply H].
  cbn [value_after]. now rewrite String.eqb_refl.
Qed.

Lemma own_switch (flag : string) (b : bool) (rest : list string) :
  string_mem flag rest = false ->
  string_mem flag (if_true flag b ++ rest)%list = b.
Proof.
  intros H. unfold if_true. destruct b; cbn [app]; [|exact H].
  unfold string_mem. cbn [existsb]. now rewrite String.eqb_refl.
Qed.

Lemma string_mem_pass (flag : string) (block rest : list string) :
  List.forallb (fun x => negb (String.eqb x flag)) block = true ->
  string_mem flag (block ++ rest)%list = string_mem flag rest.
Proof. intros H. now rewrite string_mem_app, (string_mem_skip flag block H). Qed.

Lemma construct_command_blocks (args : Options) (yaml_filepath : string) :
  construct_command str_of_float args yaml_filepath
  = (["boltz"; "predict"; "--out_dir"; out_dir args]
     ++ if_text "--cache" (cache args)
     ++ if_text "--checkpoint" (checkpoint args)
     ++ if_nonzero "--devices" (devices args)
     ++ if_text "--accelerator" (accelerator args)
     ++ if_given Str.of_Z "--recycling_steps" (recycling_steps args)
     ++ if_given Str.of_Z "--sampling_steps" (sampling_steps args)
     ++ if_given Str.of_Z "--diffusion_samples" (diffusion_samples args)
     ++ if_given str_of_float "--step_scale" (step_scale args)
     ++ if_true "--write_full_pae" (write_full_pae args)
     ++ if_true "--write_full_pde" (write_full_pde args)
     ++ if_text "--output_format" (output_format args)
     ++ if_given Str.of_Z "--num_workers" (num_workers args)
     ++ if_true "--override" (override args)
     ++ if_given Str.of_Z "--seed" (seed args)
     ++ if_true "--use_msa_server" (use_msa_server args)
     ++ if_text "--msa_server_url" (msa_server_url args)
     ++ if_text "--msa_pairing_strategy" (msa_pairing_strategy args)
     ++ [yaml_filepath])%list.
Proof. unfold construct_command. cbv zeta. now rewrite <- !List.app_assoc. Qed.

Ltac other_option :=
  first [apply other_text | apply other_nonzero | apply other_int
        | apply other_given | apply other_switch];
  first [reflexivity | assumption].

Ltac pass_over := repeat (rewrite value_after_skip by other_option).

Ltac pass_switch := repeat (rewrite string_mem_pass by other_option).

(** X23.  The command line can be read back.  When none of the texts passed
    looks like an option, the command starts with [boltz predict], ends with the
    document, and each option is found after its flag exactly when it is set: a
    text option when it is not empty, the number of devices when it is not zero,
    the other numbers whenever they are given, zero included; a switch is in
    the command exactly when it is on. *)
Theorem command_line_reads_back (args : Options) (yaml_filepath : string) :
  plain_values str_of_float args yaml_filepath = true ->
  let cmd := construct_command str_of_float args yaml_filepath in
  (exists rest, cmd = ("boltz" :: "predict" :: rest)%list)
  /\ last cmd "" = yaml_filepath
  /\ value_after "--out_dir" cmd = Some (out_dir args)
  /\ value_after "--cache" cmd = nonempty (cache args)
  /\ value_after "--checkpoint" cmd = nonempty (checkpoint args)
  /\ value_after "--devices" cmd = option_map Str.of_Z (nonzero (devices args))
  /\ value_after "--accelerator" cmd = nonempty (accelerator args)
  /\ value_after "--recycling_steps" cmd = option_map Str.of_Z (recycling_steps args)
  /\ value_after "--sampling_steps" cmd = option_map Str.of_Z (sampling_steps args)
  /\ value_after "--diffusion_samples" cmd = option_map Str.of_Z (diffusion_samples args)
  /\ value_after "--step_scale" cmd = option_map str_of_float (step_scale args)
  /\ value_after "--output_format" cmd = nonempty (output_format args)
  /\ value_after "--num_workers" cmd = option_map Str.of_Z (num_workers args)
  /\ value_after "--seed" cmd = option_map Str.of_Z (seed args)
  /\ value_after "--msa_server_url" cmd = nonempty (msa_server_url args)
  /\ value_after "--msa_pairing_strategy" cmd = nonempty (msa_pairing_strategy args)
  /\ string_mem "--write_full_pae" cmd = write_full_pae args
  /\ string_mem "--write_full_pde" cmd = write_full_pde args
  /\ string_mem "--override" cmd = override args
  /\ string_mem "--use_msa_server" cmd = use_msa_server args.
Proof.
  intros Hplain cmd. unfold plain_values in Hplain.
  repeat (apply andb_prop in Hplain as [Hplain ?]).
  assert (Hlast : last cmd "" = yaml_filepath).
  { unfold cmd, construct_command. cbv zeta. apply last_last. }
  assert (Hstart : forall flag,
             Str.startswith flag "--" = true -> String.eqb "--out_dir" flag = false ->
             List.forallb (fun x => negb (String.eqb x flag))
                          ["boltz"; "predict"; "--out_dir"; out_dir args] = true).
  { intros flag Hflag Hf. cbn [List.forallb].
    rewrite Hf, (plain_neq _ flag Hplain Hflag).
    destruct flag as [|c flag]; [discriminate|].
    unfold Str.startswith in Hflag. cbn [Str.strip_prefix] in Hflag.
    destruct (Ascii.eqb_spec "-" c); [|discriminate]. subst c. reflexivity. }
  assert (Hend : forall flag, Str.startswith flag "--" = true ->
                              string_mem flag [yaml_filepath] = false).
  { intros flag Hflag. unfold string_mem. cbn [existsb].
    now rewrite String.eqb_sym, (plain_neq _ flag H Hflag). }
  split; [now eexists|]. split; [exact Hlast|].
  unfold cmd. rewrite construct_command_blocks.
  split; [reflexivity|].
  repeat split.
  all: try (rewrite value_after_skip by (apply Hstart; reflexivity); pass_over;
            first [apply own_text | apply own_nonzero | apply own_given];
            intros _; pass_over; apply value_after_last).
  all: rewrite string_mem_pass by (apply Hstart; reflexivity); pass_switch;
       apply own_switch; pass_switch; now apply Hend.
Qed.

End CommandLine.

Lemma command_line_reads_back_witness :
  value_after "--devices"
    (construct_command (fun t => t) default_options "replicates/J_rep1.yaml") = Some "1"
  /\ value_after "--seed"
       (construct_command (fun t => t) default_options "replicates/J_rep1.yaml") = None
  /\ string_mem "--write_full_pae"
       (construct_command (fun t => t) default_options "replicates/J_rep1.yaml") = true.
Proof.
  destruct (command_line_reads_back (fun t => t) default_options "replicates/J_rep1.yaml"
              eq_refl)
    as (_ & _ & _ & _ & _ & Hdev & _ & _ & _ & _ & _ & _ & _ & Hseed & _ & _ & Hpae & _).
  split; [exact Hdev|]. split; [exact Hseed | exact Hpae].
Defined.

(** ** write_yamls.py: the fields of an entity *)

(** X24.  The fields of an entity.  The object of a retained entity holds its
    identifier first, then, in this order and only when their cell is present,
    the sequence, the SMILES text, the CCD code and the alignment as they are in
    the row (the SMILES text as a single-quoted string), [cyclic] and the
    modifications.  [cyclic] is only ever emitted as true: it is left out when
    its cell is false, zero or empty, and a text that is not empty counts as
    true; the modifications are there when their cell decodes. *)
Theorem entity_fields (json_loads : string -> option json) (row : Dict.t cell)
  (col : string) :
  retained row col = true ->
  Dict.mem (field_label (index_of col) "id") row = true ->
  payload_typed row (modifications_of col) = true ->
  let field := field_label (index_of col) in
  exists type_name data,
    outcome (entity json_loads row col) = Ok (Some (PDict [(type_name, PDict data)]))
    /\ Dict.get col row = Some (CStr type_name)
    /\ Dict.keys data = "id" :: filter (fun name => Dict.mem name data) optional_fields
    /\ Dict.get "sequence" data = option_map PCell (present row (field "sequence"))
    /\ Dict.get "smiles" data
       = option_map (fun c => PQuoted (str_of_cell c)) (present row (field "smiles"))
    /\ Dict.get "ccd" data = option_map PCell (present row (field "ccd"))
    /\ Dict.get "msa" data = option_map PCell (present row (field "msa"))
    /\ Dict.get "cyclic" data
       = match present row (field "cyclic") with
         | Some c => if truthy c then Some (PBool true) else None
         | None => None
         end
    /\ Dict.get "modifications" data
       = match payload_text row (field "modifications") with
         | Some s => option_map PJson (json_loads s)
         | None => None
         end.
Proof.
  intros Hret Hid Hmod field.
  rewrite (entity_retained json_loads row col Hret Hid Hmod).
  unfold entity_object, entity_head. fold field.
  unfold retained in Hret. destruct (Dict.get col row) as [[|type_name| | |]|]; try discriminate.
  exists type_name. eexists. split; [reflexivity|]. split; [reflexivity|].
  destruct (present row (field "sequence")) as [c1|];
    destruct (present row (field "smiles")) as [c2|];
    destruct (present row (field "ccd")) as [c3|];
    destruct (present row (field "msa")) as [c4|];
    (destruct (present row (field "cyclic")) as [c5|]; [destruct (truthy c5)|]);
    (destruct (payload_text row (field "modifications")) as [s|];
     [destruct (json_loads s) as [j|]|]);
    repeat split; reflexivity.
Qed.

Lemma entity_fields_witness :
  exists type_name data,
    outcome (entity sample_loads sample_row "entity_1_type")
    = Ok (Some (PDict [(type_name, PDict data)]))
    /\ Dict.keys data = "id" :: filter (fun name => Dict.mem name data) optional_fields
    /\ Dict.get "smiles" data = None.
Proof.
  destruct (entity_fields sample_loads sample_row "entity_1_type" eq_refl eq_refl eq_refl)
    as (type_name & data & Hrun & _ & Hkeys & _ & Hsmiles & _).
  exists type_name, data. split; [exact Hrun|]. split; [exact Hkeys | exact Hsmiles].
Defined.

(** ** aggregate_job.py: what a joined row holds *)

Lemma with_base_columns (base : Dict.t cell -> cell) (df : DataFrame) (c : string) :
  c <> "base_name" ->
  string_mem c (columns (with_base base df)) = string_mem c (columns df).
Proof.
  intros Hc. unfold with_base, set_column. cbn [columns].
  destruct (string_mem "base_name" (columns df)); [reflexivity|].
  rewrite string_mem_app. unfold string_mem at 2. cbn [existsb].
  destruct (String.eqb_spec c "base_name"); [contradiction|]. now rewrite !orb_false_r.
Qed.

Lemma wf_frame_keys (df : DataFrame) (r : Dict.t cell) :
  wf_frame df = true -> In r (rows df) -> Dict.keys r = columns df.
Proof.
  unfold wf_frame. intros H Hr. rewrite List.forallb_forall in H.
  now apply list_string_eqb_eq, H.
Qed.

Lemma get_filter_other {V} (k key : string) (d : Dict.t V) :
  k <> key ->
  Dict.get k (filter (fun kv => negb (String.eqb (fst kv) key)) d) = Dict.get k d.
Proof.
  intros Hk. induction d as [|[k0 v0] d IH]; [reflexivity|]. cbn [filter fst Dict.get].
  destruct (String.eqb_spec k0 key) as [->|Hne]; cbn [negb].
  - destruct (String.eqb_spec k key); [contradiction|exact IH].
  - cbn [Dict.get]. now rewrite IH.
Qed.

Lemma get_nan_row (k : string) (cols : list string) :
  In k cols -> Dict.get k (map (fun c => (c, NaN)) cols) = Some NaN.
Proof.
  induction cols as [|c cols IH]; [contradiction|]. cbn [map Dict.get].
  destruct (String.eqb_spec k c); [reflexivity|]. intros [->|H]; [contradiction|now apply IH].
Qed.

(** Without a shared label the join renames nothing. *)
Lemma merge_row_plain (key : string) (lcols rcols : list string) (l r : Dict.t cell) :
  (forall c, In c (Dict.keys l) -> c = key \/ string_mem c rcols = false) ->
  (forall c, In c (Dict.keys r) -> c = key \/ string_mem c lcols = false) ->
  merge_row key lcols rcols l r
  = (l ++ filter (fun kv => negb (String.eqb (fst kv) key)) r)%list.
Proof.
  intros Hl Hr. unfold merge_row. f_equal.
  - rewrite <- (map_id l) at 2. apply map_ext_in. intros [c v] Hin. cbn [fst snd].
    f_equal. unfold relabel.
    destruct (Hl c (in_map fst _ _ Hin)) as [->| ->];
      [now rewrite String.eqb_refl|now rewrite andb_false_r].
  - rewrite <- (map_id (filter _ r)) at 2. apply map_ext_in. intros [c v] Hin. cbn [fst snd].
    apply filter_In in Hin as [Hin _]. f_equal. unfold relabel.
    destruct (Hr c (in_map fst _ _ Hin)) as [->| ->];
      [now rewrite String.eqb_refl|now rewrite andb_false_r].
Qed.


Lemma has_gap_unmatched (df_yaml df_boltz : DataFrame) :
  has_gap (with_base boltz_base df_boltz) (with_base yaml_base df_yaml) "base_name"
  = unmatched df_yaml df_boltz.
Proof.
  unfold has_gap, unmatched. rewrite with_base_rows, existsb_map.
  apply existsb_same. intros b. unfold partners. rewrite filter_nil_forallb.
  rewrite with_base_rows, forallb_over_map. apply forallb_same. intros y.
  unfold key_of. now rewrite !get_set_same.
Qed.

Lemma int_column_with_base (base : Dict.t cell -> cell) (df : DataFrame) (label : string) :
  label <> "base_name" -> int_column (with_base base df) label = int_column df label.
Proof.
  intros Hne. unfold int_column. rewrite with_base_rows.
  destruct (rows df) as [|r rs]; [reflexivity|].
  change (map (fun r0 => Dict.set "base_name" (base r0) r0) (r :: rs))
    with (Dict.set "base_name" (base r) r
          :: map (fun r0 => Dict.set "base_name" (base r0) r0) rs).
  cbn [List.forallb]. rewrite forallb_over_map.
  rewrite (get_set_other label "base_name") by assumption. f_equal.
  apply forallb_same. intros r0. now rewrite get_set_other.
Qed.

Lemma get_upcast (df : DataFrame) (label : string) (r : Dict.t cell) :
  Dict.get label (upcast df r)
  = option_map (fun c => if int_column df label then as_float c else c) (Dict.get label r).
Proof.
  unfold upcast. induction r as [|[k c] r IH]; [reflexivity|].
  cbn [map Dict.get fst snd]. destruct (String.eqb_spec label k) as [->|Hne]; [reflexivity|].
  exact IH.
Qed.

(** X25.  What a joined row holds.  When the two tables are well formed and
    share no label but [base_name], every row of the join comes from one run
    record: it holds the cells of that record under their labels and its base
    identifier under [base_name]; and either it holds, under their labels, the
    cells of an experiment row that has this base identifier, an integer of a
    column of integers being a floating-point number once some run record has no
    experiment row, or no experiment row has the base identifier and the labels
    of the experiment table hold missing cells. *)
Theorem joined_row_carries_both_rows (df_yaml df_boltz : DataFrame) (m : Dict.t cell) :
  wf_frame df_yaml = true -> wf_frame df_boltz = true ->
  disjoint_labels df_yaml df_boltz = true ->
  In m (rows (joined df_yaml df_boltz)) ->
  exists b,
    In b (rows df_boltz)
    /\ Dict.get "base_name" m = Some (boltz_base b)
    /\ (forall label, label <> "base_name" -> In label (columns df_boltz) ->
                      Dict.get label m = Dict.get label b)
    /\ ((exists y, In y (rows df_yaml)
                   /\ cell_eqb (boltz_base b) (yaml_base y) = true
                   /\ forall label, label <> "base_name" -> In label (columns df_yaml) ->
                                    Dict.get label m
                                    = option_map (joined_cell df_yaml df_boltz label)
                                                 (Dict.get label y))
        \/ ((forall y, In y (rows df_yaml) -> cell_eqb (boltz_base b) (yaml_base y) = false)
            /\ unmatched df_yaml df_boltz = true
            /\ forall label, label <> "base_name" -> In label (columns df_yaml) ->
                             Dict.get label m = Some NaN)).
Proof.
  intros Hwy Hwb Hdis Hm.
  set (Y := with_base yaml_base df_yaml). set (B := with_base boltz_base df_boltz).
  unfold joined, merge_left in Hm. cbn [rows] in Hm. fold Y B in Hm.
  apply in_flat_map in Hm as (l & Hl & Hm).
  unfold B in Hl. rewrite with_base_rows in Hl. apply in_map_iff in Hl as (b & <- & Hb).
  set (l := Dict.set "base_name" (boltz_base b) b) in *.
  exists b. split; [exact Hb|].
  pose proof (wf_frame_keys df_boltz b Hwb Hb) as Hkb.
  assert (Hdisj : forall c, In c (columns df_boltz) -> c <> "base_name" ->
                            ~ In c (columns df_yaml)).
  { intros c Hc Hne Hy. unfold disjoint_labels in Hdis. rewrite List.forallb_forall in Hdis.
    specialize (Hdis c Hc). apply orb_prop in Hdis as [H|H].
    - apply String.eqb_eq in H. contradiction.
    - apply negb_true_iff in H. apply string_mem_in in Hy. congruence. }
  assert (Hleft : forall c, In c (Dict.keys l) ->
                            c = "base_name" \/ string_mem c (columns Y) = false).
  { intros c Hc. destruct (string_dec c "base_name") as [->|Hne]; [now left|right].
    unfold Y. rewrite with_base_columns by assumption.
    apply in_keys_set in Hc as [->|Hc]; [contradiction|]. rewrite Hkb in Hc.
    destruct (string_mem c (columns df_yaml)) eqn:E; [|reflexivity].
    apply string_mem_in in E. now apply Hdisj in E. }
  assert (Hright : forall c, In c (columns Y) ->
                             c = "base_name" \/ string_mem c (columns B) = false).
  { intros c Hc. destruct (string_dec c "base_name") as [->|Hne]; [now left|right].
    unfold B. rewrite with_base_columns by assumption.
    apply string_mem_in in Hc. unfold Y in Hc. rewrite with_base_columns in Hc by assumption.
    apply string_mem_in in Hc.
    destruct (string_mem c (columns df_boltz)) eqn:E; [|reflexivity].
    apply string_mem_in in E. now apply Hdisj in E. }
  assert (Hgetl : forall label, label <> "base_name" -> Dict.get label l = Dict.get label b).
  { intros label Hne. unfold l. now apply get_set_other. }
  assert (Hnone : forall label, label <> "base_name" -> In label (columns df_yaml) ->
                                Dict.get label l = None).
  { intros label Hne Hy. rewrite (Hgetl label Hne). apply get_none_keys. rewrite Hkb.
    intros Hc. now apply (Hdisj label Hc Hne). }
  assert (Hmerged : forall r, (forall c, In c (Dict.keys r) -> In c (columns Y)) ->
             m = merge_row "base_name" (columns B) (columns Y) l r ->
             Dict.get "base_name" m = Some (boltz_base b)
             /\ (forall label, label <> "base_name" -> In label (columns df_boltz) ->
                               Dict.get label m = Dict.get label b)
             /\ (forall label, label <> "base_name" -> In label (columns df_yaml) ->
                               Dict.get label m = Dict.get label r)).
  { intros r Hr ->. rewrite merge_row_plain; [|exact Hleft|].
    2:{ intros c Hc. apply Hright. now apply Hr. }
    split; [|split].
    - rewrite get_app. unfold l. now rewrite get_set_same.
    - intros label Hne Hc. rewrite get_app, (Hgetl label Hne).
      destruct (Dict.get label b) eqn:E; [reflexivity|].
      apply get_none_keys in E. rewrite Hkb in E. contradiction.
    - intros label Hne Hy. rewrite get_app, (Hnone label Hne Hy).
      now apply get_filter_other. }
  assert (Hpart : forall r, In r (partners "base_name" Y l) ->
             exists y, In y (rows df_yaml) /\ r = Dict.set "base_name" (yaml_base y) y
                       /\ cell_eqb (boltz_base b) (yaml_base y) = true).
  { intros r Hr. unfold partners in Hr. apply filter_In in Hr as [Hr Heq].
    unfold Y in Hr. rewrite with_base_rows in Hr. apply in_map_iff in Hr as (y & <- & Hy).
    exists y. split; [exact Hy|]. split; [reflexivity|].
    unfold key_of, l in Heq. now rewrite !get_set_same in Heq. }
  assert (Hkeys : forall y, In y (rows df_yaml) ->
             forall c, In c (Dict.keys (Dict.set "base_name" (yaml_base y) y)) ->
                       In c (columns Y)).
  { intros y Hy c Hc. apply in_keys_set in Hc as [->|Hc].
    - apply string_mem_in. unfold Y, with_base, set_column. cbn [columns].
      destruct (string_mem "base_name" (columns df_yaml)) eqn:Eb; [exact Eb|].
      apply string_mem_in, in_or_app. right. now left.
    - rewrite (wf_frame_keys df_yaml y Hwy Hy) in Hc.
      destruct (string_dec c "base_name") as [->|Hne].
      + apply string_mem_in. unfold Y, with_base, set_column. cbn [columns].
        apply string_mem_in in Hc. now rewrite Hc.
      + apply string_mem_in. unfold Y. rewrite with_base_columns by assumption.
        now apply string_mem_in. }
  unfold merge_rows in Hm.
  replace (has_gap B Y "base_name") with (unmatched df_yaml df_boltz) in Hm
    by (symmetry; apply has_gap_unmatched).
  destruct (partners "base_name" Y l) as [|p ps] eqn:E.
  - destruct Hm as [Hm|[]]. symmetry in Hm.
    destruct (Hmerged (map (fun c => (c, NaN)) (columns Y))) as (H1 & H2 & H3);
      [|exact Hm|].
    { intros c Hc. unfold Dict.keys in Hc. rewrite map_map in Hc. cbn [fst] in Hc.
      now rewrite map_id in Hc. }
    split; [exact H1|]. split; [exact H2|]. right.
    assert (Hno : forall y, In y (rows df_yaml) ->
                            cell_eqb (boltz_base b) (yaml_base y) = false).
    { intros y Hy. destruct (cell_eqb (boltz_base b) (yaml_base y)) eqn:Eq; [|reflexivity].
      exfalso.
      assert (Hin : In (Dict.set "base_name" (yaml_base y) y) (partners "base_name" Y l)).
      { unfold partners. apply filter_In. split.
        - unfold Y. rewrite with_base_rows. apply in_map_iff. now exists y.
        - unfold key_of, l. now rewrite !get_set_same. }
      rewrite E in Hin. contradiction. }
    split; [exact Hno|]. split.
    + unfold unmatched. apply existsb_exists. exists b. split; [exact Hb|].
      apply List.forallb_forall. intros y Hy. now rewrite (Hno y Hy).
    + intros label Hne Hy. rewrite (H3 label Hne Hy). apply get_nan_row.
      apply string_mem_in. unfold Y. rewrite with_base_columns by assumption.
      now apply string_mem_in.
  - apply in_map_iff in Hm as (r & Hm & Hr). symmetry in Hm.
    destruct (Hpart r Hr) as (y & Hy & -> & Heq).
    set (y' := Dict.set "base_name" (yaml_base y) y) in *.
    destruct (Hmerged (if unmatched df_yaml df_boltz then upcast Y y' else y'))
      as (H1 & H2 & H3); [|exact Hm|].
    { intros c Hc. apply (Hkeys y Hy).
      destruct (unmatched df_yaml df_boltz); [now rewrite upcast_keys in Hc|exact Hc]. }
    split; [exact H1|]. split; [exact H2|]. left. exists y. split; [exact Hy|].
    split; [exact Heq|]. intros label Hne Hl. rewrite (H3 label Hne Hl).
    unfold joined_cell. destruct (unmatched df_yaml df_boltz); cbn [andb].
    + rewrite get_upcast. unfold Y. rewrite int_column_with_base by assumption.
      unfold y'. now rewrite get_set_other.
    + unfold y'. rewrite get_set_other by assumption. now destruct (Dict.get label y).
Qed.

Lemma joined_row_carries_both_rows_witness :
  Dict.get "n" (hd [] (rows counted_experiments)) = Some (CInt 5)
  /\ unmatched counted_experiments three_records = true
  /\ Dict.get "n" (hd [] (rows (joined counted_experiments three_records)))
     = Some (CFloat 5).
Proof.
  split; [reflexivity|]. split; [reflexivity|].
  destruct (joined_row_carries_both_rows counted_experiments three_records
              (hd [] (rows (joined counted_experiments three_records)))
              eq_refl eq_refl eq_refl (or_introl eq_refl))
    as (b & Hb & Hbase & _ & [(y & Hy & _ & Hlab)|(Hno & _)]).
  - destruct Hy as [<-|[]].
    exact (Hlab "n" ltac:(discriminate) (or_intror (or_introl eq_refl))).
  - exfalso. specialize (Hno _ (or_introl eq_refl)).
    injection Hbase as Hbase. rewrite <- Hbase in Hno. discriminate Hno.
Defined.
